(** * The login command of the cf CLI (command/v6/login_command.go)

    A shallow embedding of [LoginCommand.Execute] and of the methods it
    calls, and the properties of the login flow proved about it.

    The command talks to its collaborators (the terminal, the configuration
    store, the login actor, the two client factories) through Go interfaces.
    A collaborator is modelled as a record of functions: each method takes
    the history of the calls the command has made so far and its arguments,
    and returns what the Go method returns.  The command itself is a
    function from the receiver [cmd] and that history to an outcome, the
    updated receiver and the calls it made, in order. *)

From Stdlib Require Import String Ascii List Bool Arith Lia.
From stdpp Require Import base tactics option list strings gmap.

Local Open Scope string_scope.
Local Open Scope list_scope.

Set Default Proof Using "Type".

(** ** Errors

    The Go [error] values the command creates or tells apart. *)

Inductive error : Type :=
  | UnrefactoredCommandError                        (* translatableerror *)
  | ArgumentCombinationError (Args : list string)   (* translatableerror *)
  | errors_New (text : string)                      (* errors.New(text) *)
  | io_EOF                                          (* io.EOF *)
  | AccountLockedError (Message : string)           (* uaa *)
  | OtherError (text : string).                     (* any other error value *)

(** [_, ok := err.(uaa.AccountLockedError)] *)
Definition isAccountLockedError (err : error) : bool :=
  match err with
  | AccountLockedError _ => true
  | _ => false
  end.

(** ** Data of the collaborating packages *)

Module coreconfig.

(** [AuthPromptType] is a Go string type; the source names two of its
    values, every other value is [AuthPromptTypeOther]. *)
Inductive AuthPromptType : Type :=
  | AuthPromptTypeText
  | AuthPromptTypePassword
  | AuthPromptTypeOther.

Record AuthPrompt : Type := MkAuthPrompt {
  Type_ : AuthPromptType;
  DisplayName : string
}.

Definition isText (p : AuthPrompt) : bool :=
  match Type_ p with AuthPromptTypeText => true | _ => false end.

Definition isPassword (p : AuthPrompt) : bool :=
  match Type_ p with AuthPromptTypePassword => true | _ => false end.

(** The zero value, read from a map at a key it does not hold. *)
Definition zero : AuthPrompt :=
  {| Type_ := AuthPromptTypeOther; DisplayName := "" |}.

End coreconfig.

Module constant.
(** The one grant type the command submits. *)
Inductive GrantType : Type := GrantTypePassword.
End constant.

Module v3action.

Record Organization : Type := MkOrganization {
  GUID : string;
  Name : string
}.

Record TargetSettings : Type := MkTargetSettings {
  URL : string;
  SkipSSLValidation : bool
}.

Definition Warnings : Type := list string.

Definition emptyOrg : Organization := {| GUID := ""; Name := "" |}.

Definition Organization_eqb (a b : Organization) : bool :=
  String.eqb (GUID a) (GUID b) && String.eqb (Name a) (Name b).

End v3action.

Module url.

(** Go's [net/url.URL], without the user information. *)
Record URL : Type := MkURL {
  Scheme : string;
  Opaque : string;
  Host : string;
  Path : string;
  RawPath : string;
  ForceQuery : bool;
  RawQuery : string;
  Fragment : string
}.

Definition withScheme (s : string) (u : URL) : URL :=
  {| Scheme := s; Opaque := Opaque u; Host := Host u; Path := Path u;
     RawPath := RawPath u; ForceQuery := ForceQuery u;
     RawQuery := RawQuery u; Fragment := Fragment u |}.

End url.

(** A Go map from prompt keys to prompts, as the list of its entries in the
    order a [range] over it visits them.  Go leaves that order open, so a
    property that holds for every list holds for every order. *)
Definition PromptMap : Type := list (string * coreconfig.AuthPrompt).

(** [value, ok := prompts[key]] *)
Fixpoint lookupPrompt (key : string) (prompts : PromptMap)
  : option coreconfig.AuthPrompt :=
  match prompts with
  | [] => None
  | (k, p) :: rest => if String.eqb k key then Some p else lookupPrompt key rest
  end.

(** [prompts[key]], the zero value when the key is absent. *)
Definition indexPrompt (key : string) (prompts : PromptMap) : coreconfig.AuthPrompt :=
  default coreconfig.zero (lookupPrompt key prompts).

(** ** The calls the command makes

    One constructor per collaborator method that acts on the world, with the
    arguments it was called with and, for a call that answers, the answer. *)

Inductive Event : Type :=
  | UI_DisplayWarning (text : string)
  | UI_DisplayWarnings (warnings : list string)
  | UI_DisplayText (template : string) (vars : list (string * string))
  | UI_DisplayTextWithFlavor (template : string) (vars : list (string * string))
  | UI_DisplayNewline
  | UI_DisplayOK
  | UI_DisplayKeyValueTable (prefix : string) (table : list (list string)) (padding : nat)
  | UI_DisplayTextPrompt (template : string) (answer : string) (err : option error)
  | UI_DisplayPasswordPrompt (template : string) (answer : string) (err : option error)
  | UI_DisplayTextMenu (choices : list string) (prompt : string)
                       (answer : string) (err : option error)
  | Actor_SetTarget (settings : v3action.TargetSettings)
                    (warnings : v3action.Warnings) (err : option error)
  | Actor_GetLoginPrompts (prompts : PromptMap)
  | Actor_Authenticate (credentials : gmap string string) (origin : string)
                       (grantType : constant.GrantType) (err : option error)
  | Actor_GetOrganizationByName (orgName : string) (org : v3action.Organization)
                                (warnings : v3action.Warnings) (err : option error)
  | Actor_GetOrganizations (orgs : list v3action.Organization)
                           (warnings : v3action.Warnings) (err : option error)
  | ActorMaker_NewActor (targetCF : bool) (err : option error)
  | CheckerMaker_NewVersionChecker (targetCF : bool) (err : option error)
  | Config_SetOrganizationInformation (guid name : string)
  | Config_SetMinCLIVersion (version : string)
  | command_WarnIfCLIVersionBelowAPIDefinedMinimum (apiVersion : string)
                                                   (err : option error).

Definition History : Type := list Event.

(** ** The collaborators' interfaces *)

Module command.

Record UI : Type := MkUI {
  TranslateText : string -> list (string * string) -> string;
  DisplayTextPrompt : History -> string -> string * option error;
  DisplayPasswordPrompt : History -> string -> string * option error;
  DisplayTextMenu : History -> list string -> string -> string * option error
}.

Record Config : Type := MkConfig {
  ExperimentalLogin : History -> bool;
  Target : History -> string;
  SkipSSLValidation : History -> bool;
  UAAGrantType : History -> string;
  APIVersion : History -> string;
  BinaryName : History -> string;
  CurrentUserName : History -> string * option error;
  TargetedOrganizationName : History -> string
}.

End command.

Record LoginActor : Type := MkLoginActor {
  Authenticate : History -> gmap string string -> string -> constant.GrantType
                 -> option error;
  GetLoginPrompts : History -> PromptMap;
  GetOrganizationByName : History -> string
                          -> v3action.Organization * v3action.Warnings * option error;
  GetOrganizations : History
                     -> list v3action.Organization * v3action.Warnings * option error;
  SetTarget : History -> v3action.TargetSettings -> v3action.Warnings * option error
}.

Record VersionChecker : Type := MkVersionChecker {
  MinCLIVersion : History -> string;
  CloudControllerAPIVersion : History -> string
}.

Record ActorMaker : Type := MkActorMaker {
  NewActor : History -> bool -> LoginActor + error
}.

Record CheckerMaker : Type := MkCheckerMaker {
  NewVersionChecker : History -> bool -> VersionChecker + error
}.

(** The receiver.  [Execute] and its helpers assign to [APIEndpoint],
    [Password], [SSOPasscode], [Actor] and [Checker]. *)
Record LoginCommand : Type := MkLoginCommand {
  APIEndpoint : string;
  Organization : string;
  Password : string;
  Space : string;
  SkipSSLValidation : bool;
  SSO : bool;
  SSOPasscode : string;
  Username : string;
  UI : command.UI;
  Actor : LoginActor;
  ActorMaker_ : ActorMaker;
  Checker : option VersionChecker;
  CheckerMaker_ : CheckerMaker;
  Config : command.Config
}.

Definition set_APIEndpoint (v : string) (cmd : LoginCommand) : LoginCommand :=
  {| APIEndpoint := v; Organization := Organization cmd; Password := Password cmd;
     Space := Space cmd; SkipSSLValidation := SkipSSLValidation cmd; SSO := SSO cmd;
     SSOPasscode := SSOPasscode cmd; Username := Username cmd; UI := UI cmd;
     Actor := Actor cmd; ActorMaker_ := ActorMaker_ cmd; Checker := Checker cmd;
     CheckerMaker_ := CheckerMaker_ cmd; Config := Config cmd |}.

Definition set_Password (v : string) (cmd : LoginCommand) : LoginCommand :=
  {| APIEndpoint := APIEndpoint cmd; Organization := Organization cmd; Password := v;
     Space := Space cmd; SkipSSLValidation := SkipSSLValidation cmd; SSO := SSO cmd;
     SSOPasscode := SSOPasscode cmd; Username := Username cmd; UI := UI cmd;
     Actor := Actor cmd; ActorMaker_ := ActorMaker_ cmd; Checker := Checker cmd;
     CheckerMaker_ := CheckerMaker_ cmd; Config := Config cmd |}.

Definition set_SSOPasscode (v : string) (cmd : LoginCommand) : LoginCommand :=
  {| APIEndpoint := APIEndpoint cmd; Organization := Organization cmd;
     Password := Password cmd; Space := Space cmd;
     SkipSSLValidation := SkipSSLValidation cmd; SSO := SSO cmd;
     SSOPasscode := v; Username := Username cmd; UI := UI cmd;
     Actor := Actor cmd; ActorMaker_ := ActorMaker_ cmd; Checker := Checker cmd;
     CheckerMaker_ := CheckerMaker_ cmd; Config := Config cmd |}.

Definition set_Actor (v : LoginActor) (cmd : LoginCommand) : LoginCommand :=
  {| APIEndpoint := APIEndpoint cmd; Organization := Organization cmd;
     Password := Password cmd; Space := Space cmd;
     SkipSSLValidation := SkipSSLValidation cmd; SSO := SSO cmd;
     SSOPasscode := SSOPasscode cmd; Username := Username cmd; UI := UI cmd;
     Actor := v; ActorMaker_ := ActorMaker_ cmd; Checker := Checker cmd;
     CheckerMaker_ := CheckerMaker_ cmd; Config := Config cmd |}.

Definition set_Checker (v : VersionChecker) (cmd : LoginCommand) : LoginCommand :=
  {| APIEndpoint := APIEndpoint cmd; Organization := Organization cmd;
     Password := Password cmd; Space := Space cmd;
     SkipSSLValidation := SkipSSLValidation cmd; SSO := SSO cmd;
     SSOPasscode := SSOPasscode cmd; Username := Username cmd; UI := UI cmd;
     Actor := Actor cmd; ActorMaker_ := ActorMaker_ cmd; Checker := Some v;
     CheckerMaker_ := CheckerMaker_ cmd; Config := Config cmd |}.

(** ** Package-level functions the command calls

    Functions of the Go standard library and of packages of the repository
    whose sources are not part of this development. *)
Record Packages : Type := MkPackages {
  (** [url.Parse]; [None] is a parse error (a nil [*URL]). *)
  url_Parse : string -> option url.URL;
  (** the [String] method of a URL *)
  URL_String : url.URL -> string;
  (** [translatableerror.ConvertToTranslatableError(err).Error()] *)
  ConvertToTranslatableError_Error : error -> string;
  (** Modelled from the spec: [command.WarnIfCLIVersionBelowAPIDefinedMinimum]
      is not among the sources; it compares the running client's version
      with the minimum the server declares, shows a warning when the client
      is too old [(Some text)], and returns an error or nil. *)
  WarnIfCLIVersionBelowAPIDefinedMinimum :
    History -> string -> option string * option error
}.

(** [strings.TrimRight(s, cutset)] for a cutset of one-byte characters:
    the longest prefix of [s] that does not end in a byte of [cutset]. *)
Definition inCutset (c : ascii) (cutset : string) : bool :=
  existsb (Ascii.eqb c) (list_ascii_of_string cutset).

Fixpoint TrimRight (s cutset : string) : string :=
  match s with
  | EmptyString => EmptyString
  | String c rest =>
      match TrimRight rest cutset with
      | EmptyString => if inCutset c cutset then EmptyString else String c EmptyString
      | trimmed => String c trimmed
      end
  end.

(** ** The command monad

    A method of the command, run on the receiver [cmd] after the calls
    [h], gives an outcome, the receiver as the method leaves it, and the
    calls the method made. *)

Inductive Result (A : Type) : Type :=
  | Ok (a : A)          (* a normal return *)
  | Fail (e : error)    (* [return err] with a non-nil error *)
  | Panic.              (* a run-time panic *)
Arguments Ok {A} a.
Arguments Fail {A} e.
Arguments Panic {A}.

Definition M (A : Type) : Type :=
  LoginCommand -> History -> Result A * LoginCommand * list Event.

Definition ret {A} (a : A) : M A := fun cmd _ => (Ok a, cmd, []).

Definition bind {A B} (m : M A) (k : A -> M B) : M B :=
  fun cmd h =>
    match m cmd h with
    | (Ok a, cmd1, evs1) =>
        match k a cmd1 (h ++ evs1) with
        | (r, cmd2, evs2) => (r, cmd2, evs1 ++ evs2)
        end
    | (Fail e, cmd1, evs1) => (Fail e, cmd1, evs1)
    | (Panic, cmd1, evs1) => (Panic, cmd1, evs1)
    end.

Declare Scope cmd_scope.
Delimit Scope cmd_scope with cmd.
Notation "x <- m ;; k" := (bind m (fun x => k))
  (at level 100, m at next level, right associativity) : cmd_scope.
Notation "m ;;; k" := (bind m (fun _ => k))
  (at level 100, right associativity) : cmd_scope.
Local Open Scope cmd_scope.

Definition fail {A} (e : error) : M A := fun cmd _ => (Fail e, cmd, []).
Definition panic {A} : M A := fun cmd _ => (Panic, cmd, []).
Definition getCmd : M LoginCommand := fun cmd _ => (Ok cmd, cmd, []).
Definition modifyCmd (f : LoginCommand -> LoginCommand) : M unit :=
  fun cmd _ => (Ok tt, f cmd, []).
Definition getHistory : M History := fun cmd h => (Ok h, cmd, []).
Definition emit (e : Event) : M unit := fun cmd _ => (Ok tt, cmd, [e]).

(** A read of the collaborators: no call is recorded. *)
Definition ask {A} (f : LoginCommand -> History -> A) : M A :=
  fun cmd h => (Ok (f cmd h), cmd, []).

(** [err := f()] where the caller looks at [err] itself. *)
Definition try {A} (m : M A) : M (option error) :=
  fun cmd h =>
    match m cmd h with
    | (Ok _, cmd1, evs) => (Ok None, cmd1, evs)
    | (Fail e, cmd1, evs) => (Ok (Some e), cmd1, evs)
    | (Panic, cmd1, evs) => (Panic, cmd1, evs)
    end.

(** [defer d()] followed by [body]: [d] runs when [body] is left, however
    that happens, and the outcome is that of [body]. *)
Definition defer {A} (d : M unit) (body : M A) : M A :=
  fun cmd h =>
    match body cmd h with
    | (r, cmd1, evs1) =>
        match d cmd1 (h ++ evs1) with
        | (_, cmd2, evs2) => (r, cmd2, evs1 ++ evs2)
        end
    end.

(** [if err != nil { return err }] *)
Definition check (err : option error) : M unit :=
  match err with
  | Some e => fail e
  | None => ret tt
  end.

(** ** Calls on the collaborators *)

Definition ui_DisplayWarning (text : string) : M unit := emit (UI_DisplayWarning text).
Definition ui_DisplayWarnings (ws : list string) : M unit := emit (UI_DisplayWarnings ws).
Definition ui_DisplayText (template : string) (vars : list (string * string)) : M unit :=
  emit (UI_DisplayText template vars).
Definition ui_DisplayTextWithFlavor (template : string) (vars : list (string * string))
  : M unit := emit (UI_DisplayTextWithFlavor template vars).
Definition ui_DisplayNewline : M unit := emit UI_DisplayNewline.
Definition ui_DisplayOK : M unit := emit UI_DisplayOK.
Definition ui_DisplayKeyValueTable (prefix : string) (table : list (list string))
    (padding : nat) : M unit :=
  emit (UI_DisplayKeyValueTable prefix table padding).

(** [value, err := cmd.UI.DisplayTextPrompt(template)] followed by
    [if err != nil { return err }]. *)
Definition ui_DisplayTextPrompt (template : string) : M string :=
  fun cmd h =>
    let '(answer, err) := command.DisplayTextPrompt (UI cmd) h template in
    (match err with Some e => Fail e | None => Ok answer end,
     cmd, [UI_DisplayTextPrompt template answer err]).

Definition ui_DisplayPasswordPrompt (template : string) : M string :=
  fun cmd h =>
    let '(answer, err) := command.DisplayPasswordPrompt (UI cmd) h template in
    (match err with Some e => Fail e | None => Ok answer end,
     cmd, [UI_DisplayPasswordPrompt template answer err]).

(** [cmd.UI.DisplayTextMenu(choices, prompt)], the caller looks at the error. *)
Definition ui_DisplayTextMenu (choices : list string) (prompt : string)
  : M (string * option error) :=
  fun cmd h =>
    let '(answer, err) := command.DisplayTextMenu (UI cmd) h choices prompt in
    (Ok (answer, err), cmd, [UI_DisplayTextMenu choices prompt answer err]).

Definition actor_SetTarget (settings : v3action.TargetSettings)
  : M (v3action.Warnings * option error) :=
  fun cmd h =>
    let '(warnings, err) := SetTarget (Actor cmd) h settings in
    (Ok (warnings, err), cmd, [Actor_SetTarget settings warnings err]).

Definition actor_GetLoginPrompts : M PromptMap :=
  fun cmd h =>
    let prompts := GetLoginPrompts (Actor cmd) h in
    (Ok prompts, cmd, [Actor_GetLoginPrompts prompts]).

Definition actor_Authenticate (credentials : gmap string string) (origin : string)
    (grantType : constant.GrantType) : M (option error) :=
  fun cmd h =>
    let err := Authenticate (Actor cmd) h credentials origin grantType in
    (Ok err, cmd, [Actor_Authenticate credentials origin grantType err]).

Definition actor_GetOrganizationByName (orgName : string)
  : M (v3action.Organization * v3action.Warnings * option error) :=
  fun cmd h =>
    let '(org, warnings, err) := GetOrganizationByName (Actor cmd) h orgName in
    (Ok (org, warnings, err), cmd, [Actor_GetOrganizationByName orgName org warnings err]).

Definition actor_GetOrganizations
  : M (list v3action.Organization * v3action.Warnings * option error) :=
  fun cmd h =>
    let '(orgs, warnings, err) := GetOrganizations (Actor cmd) h in
    (Ok (orgs, warnings, err), cmd, [Actor_GetOrganizations orgs warnings err]).

(** [cmd.ActorMaker.NewActor(cmd.Config, cmd.UI, targetCF)] followed by
    [if err != nil { return err }]. *)
Definition actorMaker_NewActor (targetCF : bool) : M LoginActor :=
  fun cmd h =>
    match NewActor (ActorMaker_ cmd) h targetCF with
    | inl actor => (Ok actor, cmd, [ActorMaker_NewActor targetCF None])
    | inr e => (Fail e, cmd, [ActorMaker_NewActor targetCF (Some e)])
    end.

Definition checkerMaker_NewVersionChecker (targetCF : bool) : M VersionChecker :=
  fun cmd h =>
    match NewVersionChecker (CheckerMaker_ cmd) h targetCF with
    | inl checker => (Ok checker, cmd, [CheckerMaker_NewVersionChecker targetCF None])
    | inr e => (Fail e, cmd, [CheckerMaker_NewVersionChecker targetCF (Some e)])
    end.

Definition config_SetOrganizationInformation (guid name : string) : M unit :=
  emit (Config_SetOrganizationInformation guid name).
Definition config_SetMinCLIVersion (version : string) : M unit :=
  emit (Config_SetMinCLIVersion version).

Definition maxLoginTries : nat := 3.

Section Login.

Variable pkg : Packages.

(** [command.WarnIfCLIVersionBelowAPIDefinedMinimum(cmd.Config, apiVersion, cmd.UI)] *)
Definition command_WarnIfCLIVersionBelowAPIDefinedMinimum_ (apiVersion : string)
  : M unit :=
  fun cmd h =>
    let '(warning, err) := WarnIfCLIVersionBelowAPIDefinedMinimum pkg h apiVersion in
    (match err with Some e => Fail e | None => Ok tt end, cmd,
     match warning with Some text => [UI_DisplayWarning text] | None => [] end
     ++ [command_WarnIfCLIVersionBelowAPIDefinedMinimum apiVersion err]).

(** *** [passwordPrompts] (lines 338-367)

    The map [credentials] is the caller's: the writes made here are seen
    by the caller, so the map is returned next to its copy. *)

(** [for _, key := range passwordKeys] *)
Fixpoint passwordPrompts_keys (prompts : PromptMap) (passwordKeys : list string)
    (credentials : gmap string string) : M (gmap string string) :=
  match passwordKeys with
  | [] => ret credentials
  | key :: rest =>
      ui_DisplayNewline;;;
      value <- ui_DisplayPasswordPrompt
                 (coreconfig.DisplayName (indexPrompt key prompts));;
      passwordPrompts_keys prompts rest (<[key := value]> credentials)
  end.

Definition passwordPrompts (prompts : PromptMap) (credentials : gmap string string)
    (passwordKeys : list string) : M (gmap string string * gmap string string) :=
  credentials <-
    match lookupPrompt "password" prompts with
    | Some passPrompt =>
        cmd <- getCmd;;
        if negb (String.eqb (Password cmd) "") then
          modifyCmd (set_Password "");;;
          ret (<["password" := Password cmd]> credentials)
        else
          value <- ui_DisplayPasswordPrompt (coreconfig.DisplayName passPrompt);;
          ret (<["password" := value]> credentials)
    | None => ret credentials
    end;;
  credentials <- passwordPrompts_keys prompts passwordKeys credentials;;
  let credentialsCopy := credentials in
  ret (credentialsCopy, credentials).

(** *** [authenticate] (lines 216-284) *)

(** [for key, prompt := range prompts] (lines 234-251) *)
Fixpoint authenticate_range (entries : PromptMap) (credentials : gmap string string)
    (passwordKeys : list string) : M (gmap string string * list string) :=
  match entries with
  | [] => ret (credentials, passwordKeys)
  | (key, prompt) :: rest =>
      if coreconfig.isPassword prompt then
        if String.eqb key "passcode" || String.eqb key "password" then
          authenticate_range rest credentials passwordKeys
        else
          authenticate_range rest credentials (passwordKeys ++ [key])
      else if String.eqb key "username" then
        authenticate_range rest credentials passwordKeys
      else
        value <- ui_DisplayTextPrompt (coreconfig.DisplayName prompt);;
        ui_DisplayNewline;;;
        authenticate_range rest (<[key := value]> credentials) passwordKeys
  end.

(** [for i := 0; i < maxLoginTries; i++] (lines 254-279), with [tries] the
    iterations left; the result is [err] as the loop leaves it. *)
Fixpoint authenticate_loop (tries : nat) (err : option error) (prompts : PromptMap)
    (credentials : gmap string string) (passwordKeys : list string)
  : M (option error) :=
  match tries with
  | 0 => ret err
  | S tries' =>
      prompted <- passwordPrompts prompts credentials passwordKeys;;
      let promptedCredentials := prompted.1 in
      let credentials := prompted.2 in
      ui_DisplayText "Authenticating..." [];;;
      err <- actor_Authenticate promptedCredentials "" constant.GrantTypePassword;;
      match err with
      | Some e =>
          ui_DisplayWarning (ConvertToTranslatableError_Error pkg e);;;
          ui_DisplayNewline;;;
          if isAccountLockedError e then ret (Some e)
          else authenticate_loop tries' (Some e) prompts credentials passwordKeys
      | None =>
          ui_DisplayOK;;;
          ui_DisplayNewline;;;
          ret None
      end
  end.

(** Lines 220-231: the user name. *)
Definition authenticate_username (prompts : PromptMap)
    (credentials : gmap string string) : M (gmap string string) :=
  cmd <- getCmd;;
  match lookupPrompt "username" prompts with
  | Some value =>
      if coreconfig.isText (indexPrompt "username" prompts)
         && negb (String.eqb (Username cmd) "") then
        ret (<["username" := Username cmd]> credentials)
      else
        answer <- ui_DisplayTextPrompt (coreconfig.DisplayName value);;
        ui_DisplayNewline;;;
        ret (<["username" := answer]> credentials)
  | None => ret credentials
  end.

Definition authenticate : M unit :=
  prompts <- actor_GetLoginPrompts;;
  let credentials : gmap string string := ∅ in
  credentials <- authenticate_username prompts credentials;;
  ranged <- authenticate_range prompts credentials [];;
  err <- authenticate_loop maxLoginTries None prompts ranged.1 ranged.2;;
  check err.

(** *** [authenticateSSO] (lines 286-325) *)

(** Lines 292-300: the passcode of one attempt. *)
Definition authenticateSSO_passcode (prompts : PromptMap)
    (credentials : gmap string string) : M (gmap string string) :=
  cmd <- getCmd;;
  if Nat.ltb 0 (String.length (SSOPasscode cmd)) then
    modifyCmd (set_SSOPasscode "");;;
    ret (<["passcode" := SSOPasscode cmd]> credentials)
  else
    value <- ui_DisplayPasswordPrompt
               (coreconfig.DisplayName (indexPrompt "passcode" prompts));;
    ret (<["passcode" := value]> credentials).

(** [for i := 0; i < maxLoginTries; i++] (lines 291-320). *)
Fixpoint authenticateSSO_loop (tries : nat) (err : option error) (prompts : PromptMap)
    (credentials : gmap string string) : M (option error) :=
  match tries with
  | 0 => ret err
  | S tries' =>
      credentials <- authenticateSSO_passcode prompts credentials;;
      let credentialsCopy := credentials in
      ui_DisplayText "Authenticating..." [];;;
      err <- actor_Authenticate credentialsCopy "" constant.GrantTypePassword;;
      match err with
      | Some e =>
          ui_DisplayWarning (ConvertToTranslatableError_Error pkg e);;;
          ui_DisplayNewline;;;
          authenticateSSO_loop tries' (Some e) prompts credentials
      | None =>
          ui_DisplayOK;;;
          ui_DisplayNewline;;;
          ret None
      end
  end.

Definition authenticateSSO : M unit :=
  prompts <- actor_GetLoginPrompts;;
  let credentials : gmap string string := ∅ in
  err <- authenticateSSO_loop maxLoginTries None prompts credentials;;
  check err.

End Login.

Section Execute.

Variable pkg : Packages.

(** *** [checkMinCLIVersion] (lines 327-336) *)
Definition checkMinCLIVersion : M unit :=
  newChecker <- checkerMaker_NewVersionChecker true;;
  modifyCmd (set_Checker newChecker);;;
  minVersion <- ask (fun _ h => MinCLIVersion newChecker h);;
  config_SetMinCLIVersion minVersion;;;
  apiVersion <- ask (fun _ h => CloudControllerAPIVersion newChecker h);;
  command_WarnIfCLIVersionBelowAPIDefinedMinimum_ pkg apiVersion.

(** *** [reloadActor] (lines 369-378) *)
Definition reloadActor : M unit :=
  newActor <- actorMaker_NewActor true;;
  modifyCmd (set_Actor newActor).

(** *** [displayNotLoggedIn], [displayNotTargetted] (lines 412-427) *)
Definition displayNotLoggedIn : M unit :=
  binaryName <- ask (fun cmd h => command.BinaryName (Config cmd) h);;
  ui_DisplayText "Not logged in. Use '{{.CFLoginCommand}}' to log in."
    [("CFLoginCommand", binaryName +:+ " login")].

Definition displayNotTargetted : M unit :=
  binaryName <- ask (fun cmd h => command.BinaryName (Config cmd) h);;
  ui_DisplayText "No org or space targeted, use '{{.CFTargetCommand}} -o ORG -s SPACE'"
    [("CFTargetCommand", binaryName +:+ " target")].

(** *** [showStatus] (lines 380-410) *)
Definition showStatus : M unit :=
  cmd <- getCmd;;
  apiVersion <- ask (fun cmd h => command.APIVersion (Config cmd) h);;
  let tableContent :=
    [[command.TranslateText (UI cmd) "API endpoint:" [];
      command.TranslateText (UI cmd)
        "{{.APIEndpoint}} (API version: {{.APIVersion}})"
        [("APIEndpoint", TrimRight (APIEndpoint cmd) "/");
         ("APIVersion", apiVersion)]]] in
  current <- ask (fun cmd h => command.CurrentUserName (Config cmd) h);;
  let user := current.1 in
  let err := current.2 in
  if String.eqb user "" || match err with Some _ => true | None => false end then
    ui_DisplayKeyValueTable "" tableContent 3;;;
    displayNotLoggedIn
  else
    let tableContent :=
      tableContent ++ [[command.TranslateText (UI cmd) "User:" []; user]] in
    orgName <- ask (fun cmd h => command.TargetedOrganizationName (Config cmd) h);;
    if String.eqb orgName "" then
      ui_DisplayKeyValueTable "" tableContent 3;;;
      displayNotTargetted
    else
      let tableContent :=
        tableContent ++ [[command.TranslateText (UI cmd) "Org:" []; orgName]] in
      ui_DisplayKeyValueTable "" tableContent 3;;;
      ui_DisplayNewline.

(** *** [promptChosenOrg] (lines 429-453) *)
Definition promptChosenOrg (orgs : list v3action.Organization)
  : M v3action.Organization :=
  ui_DisplayText "Select an org:" [];;;
  let orgNames := map v3action.Name orgs in
  chosen <- ui_DisplayTextMenu orgNames "Org";;
  let chosenOrgName := chosen.1 in
  match chosen.2 with
  | Some io_EOF => ret v3action.emptyOrg
  | Some err => fail err
  | None =>
      match find (fun org => String.eqb (v3action.Name org) chosenOrgName) orgs with
      | Some org => ret org
      | None => fail (errors_New "Error Choosing Organization")
      end
  end.

(** *** [Execute] (lines 116-214) *)

(** Lines 122-137: where the endpoint comes from. *)
Definition Execute_endpoint : M unit :=
  cmd <- getCmd;;
  if negb (String.eqb (APIEndpoint cmd) "") then
    ui_DisplayTextWithFlavor "API endpoint: {{.APIEndpoint}}"
      [("APIEndpoint", APIEndpoint cmd)]
  else
    target <- ask (fun cmd h => command.Target (Config cmd) h);;
    if negb (String.eqb target "") then
      modifyCmd (set_APIEndpoint target);;;
      ui_DisplayTextWithFlavor "API endpoint: {{.APIEndpoint}}"
        [("APIEndpoint", target)]
    else
      apiEndpoint <- ui_DisplayTextPrompt "API endpoint";;
      modifyCmd (set_APIEndpoint apiEndpoint).

(** Lines 141-145: [None] when [url.Parse] fails, its error being dropped
    and the nil URL dereferenced. *)
Definition normalizedEndpoint (apiEndpoint : string) : option url.URL :=
  let strippedEndpoint := TrimRight apiEndpoint "/" in
  match url_Parse pkg strippedEndpoint with
  | None => None
  | Some endpoint =>
      if String.eqb (url.Scheme endpoint) "" then
        Some (url.withScheme "https" endpoint)
      else Some endpoint
  end.

(** Lines 141-154: the target settings and [SetTarget]. *)
Definition Execute_target : M unit :=
  cmd <- getCmd;;
  match normalizedEndpoint (APIEndpoint cmd) with
  | None => panic
  | Some endpoint =>
      skip <- ask (fun cmd h => command.SkipSSLValidation (Config cmd) h);;
      let settings :=
        {| v3action.URL := URL_String pkg endpoint;
           v3action.SkipSSLValidation := skip || SkipSSLValidation cmd |} in
      answer <- actor_SetTarget settings;;
      check answer.2
  end.

(** Lines 167-179: the choice of the flow, and the error it ends in. *)
Definition Execute_authenticate : M unit :=
  cmd <- getCmd;;
  authErr <-
    (if SSO cmd || negb (String.eqb (SSOPasscode cmd) "") then
       if SSO cmd && negb (String.eqb (SSOPasscode cmd) "") then
         fail (ArgumentCombinationError ["--sso-passcode"; "--sso"])
       else try (authenticateSSO pkg)
     else try (authenticate pkg));;
  match authErr with
  | Some _ => fail (errors_New "Unable to authenticate.")
  | None => ret tt
  end.

(** Lines 181-207: the organization. *)
Definition Execute_organization : M unit :=
  cmd <- getCmd;;
  if negb (String.eqb (Organization cmd) "") then
    answer <- actor_GetOrganizationByName (Organization cmd);;
    let org := answer.1.1 in
    ui_DisplayWarnings answer.1.2;;;
    check answer.2;;;
    config_SetOrganizationInformation (v3action.GUID org) (v3action.Name org)
  else
    answer <- actor_GetOrganizations;;
    let orgs := answer.1.1 in
    ui_DisplayWarnings answer.1.2;;;
    check answer.2;;;
    match orgs with
    | [org] =>
        config_SetOrganizationInformation (v3action.GUID org) (v3action.Name org)
    | _ :: _ :: _ =>
        chosenOrg <- promptChosenOrg orgs;;
        if negb (v3action.Organization_eqb chosenOrg v3action.emptyOrg) then
          config_SetOrganizationInformation
            (v3action.GUID chosenOrg) (v3action.Name chosenOrg)
        else ret tt
    | [] => ret tt
    end.

(** Lines 163-213: what runs after [defer cmd.showStatus()]. *)
Definition Execute_deferred : M unit :=
  grantType <- ask (fun cmd h => command.UAAGrantType (Config cmd) h);;
  if String.eqb grantType "client_credentials" then
    fail (errors_New
      "Service account currently logged in. Use 'cf logout' to log out service account and try again.")
  else
    Execute_authenticate;;;
    Execute_organization;;;
    checkMinCLIVersion.

Definition Execute (args : list string) : M unit :=
  experimental <- ask (fun cmd h => command.ExperimentalLogin (Config cmd) h);;
  if negb experimental then fail UnrefactoredCommandError
  else
    ui_DisplayWarning "Using experimental login command, some behavior may be different";;;
    Execute_endpoint;;;
    ui_DisplayNewline;;;
    Execute_target;;;
    reloadActor;;;
    defer showStatus Execute_deferred.

End Execute.

(** ** Runs and their observations *)

Definition outcome {A} (r : Result A * LoginCommand * list Event) : Result A := r.1.1.
Definition calls {A} (r : Result A * LoginCommand * list Event) : list Event := r.2.
Definition receiver {A} (r : Result A * LoginCommand * list Event) : LoginCommand := r.1.2.


(** ** Observations on the calls of a run *)

Definition isAuthenticate (e : Event) : bool :=
  match e with Actor_Authenticate _ _ _ _ => true | _ => false end.

(** The answer of a call of [Authenticate]. *)
Definition authenticateResult (e : Event) : option error :=
  match e with Actor_Authenticate _ _ _ err => err | _ => None end.

Definition authenticateCredentials (e : Event) : gmap string string :=
  match e with Actor_Authenticate credentials _ _ _ => credentials | _ => ∅ end.

(** The calls of [Authenticate] among [evs], in order. *)
Definition attempts (evs : list Event) : list Event := List.filter isAuthenticate evs.

Definition isStatusTable (e : Event) : bool :=
  match e with UI_DisplayKeyValueTable _ _ _ => true | _ => false end.

Definition isSetOrganization (e : Event) : bool :=
  match e with Config_SetOrganizationInformation _ _ => true | _ => false end.

Definition isMenu (e : Event) : bool :=
  match e with UI_DisplayTextMenu _ _ _ _ => true | _ => false end.

(** A call that reaches the API or the authentication server. *)
Definition isNetwork (e : Event) : bool :=
  match e with
  | Actor_SetTarget _ _ _ | Actor_Authenticate _ _ _ _
  | Actor_GetOrganizationByName _ _ _ _ | Actor_GetOrganizations _ _ _ => true
  | _ => false
  end.

(** A text or secret prompt, and the error it ended in. *)
Definition isPrompt (e : Event) : bool :=
  match e with
  | UI_DisplayTextPrompt _ _ _ | UI_DisplayPasswordPrompt _ _ _ => true
  | _ => false
  end.

Definition promptError (e : Event) : option error :=
  match e with
  | UI_DisplayTextPrompt _ _ err | UI_DisplayPasswordPrompt _ _ err => err
  | _ => None
  end.

(** What a method may call: every call it makes satisfies [p]. *)
Definition emits_only {A} (p : Event -> bool) (m : M A) : Prop :=
  forall cmd h, forallb p (calls (m cmd h)) = true.

(** The calls of the credential collector: prompts and separators. *)
Definition collectorCall (e : Event) : bool :=
  match e with
  | UI_DisplayTextPrompt _ _ _ | UI_DisplayPasswordPrompt _ _ _
  | UI_DisplayNewline => true
  | _ => false
  end.

(** The calls of the two authentication flows. *)
Definition authenticationCall (e : Event) : bool :=
  match e with
  | UI_DisplayTextPrompt _ _ _ | UI_DisplayPasswordPrompt _ _ _
  | UI_DisplayNewline | UI_DisplayText _ _ | UI_DisplayWarning _ | UI_DisplayOK
  | Actor_GetLoginPrompts _ | Actor_Authenticate _ _ _ _ => true
  | _ => false
  end.

(** The calls of the final status report. *)
Definition statusCall (e : Event) : bool :=
  match e with
  | UI_DisplayKeyValueTable _ _ _ | UI_DisplayText _ _ | UI_DisplayNewline => true
  | _ => false
  end.

(** The calls that resolve the target. *)
Definition resolveCall (e : Event) : bool :=
  match e with
  | UI_DisplayWarning _ | UI_DisplayTextWithFlavor _ _ | UI_DisplayNewline
  | UI_DisplayTextPrompt "API endpoint" _ _
  | Actor_SetTarget _ _ _ => true
  | _ => false
  end.

Definition isNewActor (e : Event) : bool :=
  match e with ActorMaker_NewActor _ _ => true | _ => false end.

(** The client was rebuilt: [NewActor] returned no error. *)
Definition isRebuilt (e : Event) : bool :=
  match e with ActorMaker_NewActor _ None => true | _ => false end.

(** The calls made up to the rebuild of the client. *)
Definition targetCall (e : Event) : bool := resolveCall e || isNewActor e.

(** The calls of the organization stage. *)
Definition organizationCall (e : Event) : bool :=
  match e with
  | Actor_GetOrganizationByName _ _ _ _ | Actor_GetOrganizations _ _ _
  | UI_DisplayWarnings _ | UI_DisplayText _ _ | UI_DisplayTextMenu _ _ _ _
  | Config_SetOrganizationInformation _ _ => true
  | _ => false
  end.

(** The calls of the version check. *)
Definition versionCall (e : Event) : bool :=
  match e with
  | CheckerMaker_NewVersionChecker _ _ | Config_SetMinCLIVersion _
  | UI_DisplayWarning _ | command_WarnIfCLIVersionBelowAPIDefinedMinimum _ _ => true
  | _ => false
  end.

(** A prompt that ended in an error. *)
Definition promptFailed (e : Event) : bool :=
  match promptError e with Some _ => true | None => false end.

(** No prompt among [evs] ended in an error. *)
Definition answered (evs : list Event) : bool :=
  forallb (fun e => negb (promptFailed e)) evs.

(** A method that only collects input: it returns normally when every
    prompt was answered, and otherwise stops at the first prompt that
    fails, with the error of that prompt. *)
Definition collects {A} (m : M A) : Prop :=
  forall cmd h,
    match outcome (m cmd h) with
    | Ok _ => answered (calls (m cmd h)) = true
    | Fail e =>
        exists before ev,
          calls (m cmd h) = before ++ [ev] /\ answered before = true
          /\ promptError ev = Some e
    | Panic => False
    end.

(** A method that leaves the receiver as it found it. *)
Definition keeps_receiver {A} (m : M A) : Prop :=
  forall cmd h, receiver (m cmd h) = cmd.

(** What the terminal was asked for, in order. *)
Inductive Asked : Type :=
  | AskText (template : string)
  | AskSecret (template : string).

Definition askedOf (e : Event) : option Asked :=
  match e with
  | UI_DisplayTextPrompt template _ _ => Some (AskText template)
  | UI_DisplayPasswordPrompt template _ _ => Some (AskSecret template)
  | _ => None
  end.

Fixpoint asked (evs : list Event) : list Asked :=
  match evs with
  | [] => []
  | e :: rest =>
      match askedOf e with
      | Some a => a :: asked rest
      | None => asked rest
      end
  end.

(** The calls of a run cut at the calls of [Authenticate]: each attempt
    with the calls made since the attempt before. *)
Fixpoint rounds_from (before evs : list Event) : list (list Event * Event) :=
  match evs with
  | [] => []
  | e :: rest =>
      if isAuthenticate e then (before, e) :: rounds_from [] rest
      else rounds_from (before ++ [e]) rest
  end.

Definition rounds (evs : list Event) : list (list Event * Event) := rounds_from [] evs.

(** The answer to the first text prompt among [evs]. *)
Fixpoint firstTextAnswer (evs : list Event) : option string :=
  match evs with
  | [] => None
  | UI_DisplayTextPrompt _ answer _ :: _ => Some answer
  | _ :: rest => firstTextAnswer rest
  end.

(** The first secret prompt among [evs]: its label, answer and error. *)
Fixpoint firstSecretPrompt (evs : list Event) : option (string * string * option error) :=
  match evs with
  | [] => None
  | UI_DisplayPasswordPrompt template answer err :: _ => Some (template, answer, err)
  | _ :: rest => firstSecretPrompt rest
  end.

(** In a round, the secret keyed [key] was asked for first among the
    secrets, under the label [template], and the answer was submitted. *)
Definition secretPrompted (key template : string) (round : list Event * Event) : Prop :=
  exists answer,
    firstSecretPrompt round.1 = Some (template, answer, None)
    /\ authenticateCredentials round.2 !! key = Some answer.

(** A run ends at a failed prompt: every prompt before the last call was
    answered, the last call is a prompt that failed, and its error is the
    outcome. *)
Definition endsAtFailedPrompt {A} (r : Result A * LoginCommand * list Event) : Prop :=
  exists before ev e,
    calls r = before ++ [ev] /\ answered before = true
    /\ promptError ev = Some e /\ outcome r = Fail e.

(** What [return err] after the loop makes of the loop's [err]. *)
Definition afterLoop (r : Result (option error)) : Result unit :=
  match r with
  | Ok (Some e) => Fail e
  | Ok None => Ok tt
  | Fail e => Fail e
  | Panic => Panic
  end.

(** What [Execute] makes of the outcome of the flow it selected. *)
Definition afterFlow (r : Result unit) : Result unit :=
  match r with
  | Ok _ => Ok tt
  | Fail _ => Fail (errors_New "Unable to authenticate.")
  | Panic => Panic
  end.

(** The calls [Execute] may make when it stops before any credential is
    asked for: those that resolve the target and those of the status
    report. *)
Definition preflightCall (e : Event) : bool := targetCall e || statusCall e.

(** [n] slashes. *)
Fixpoint slashes (n : nat) : string :=
  match n with
  | 0 => EmptyString
  | S n' => String "/" (slashes n')
  end.

Fixpoint lastByte (s : string) : option ascii :=
  match s with
  | EmptyString => None
  | String c EmptyString => Some c
  | String _ rest => lastByte rest
  end.

(** The target [SetTarget] was called with. *)
Definition targetOf (e : Event) : option string :=
  match e with
  | Actor_SetTarget settings _ _ => Some (v3action.URL settings)
  | _ => None
  end.

Fixpoint targets (evs : list Event) : list string :=
  match evs with
  | [] => []
  | e :: rest =>
      match targetOf e with
      | Some u => u :: targets rest
      | None => targets rest
      end
  end.

(** The endpoint that lines 122-137 choose in a run of [Execute] made
    after the calls [h]: the receiver of that stage holds it. *)
Definition chosenEndpoint (cmd : LoginCommand) (h : History) : string :=
  APIEndpoint
    (receiver
       (Execute_endpoint cmd
          (h ++ [UI_DisplayWarning
                   "Using experimental login command, some behavior may be different"]))).

(** The rows of the status report: the target, then the user when there
    is one, then the organization when there is one. *)
Definition statusRows (cmd : LoginCommand) (h : History) : list (list string) :=
  let translate := command.TranslateText (UI cmd) in
  let current := command.CurrentUserName (Config cmd) h in
  let orgName := command.TargetedOrganizationName (Config cmd) h in
  [[translate "API endpoint:" [];
    translate "{{.APIEndpoint}} (API version: {{.APIVersion}})"
      [("APIEndpoint", TrimRight (APIEndpoint cmd) "/");
       ("APIVersion", command.APIVersion (Config cmd) h)]]]
  ++ match current with
     | (user, None) =>
         if String.eqb user "" then []
         else [[translate "User:" []; user]]
              ++ (if String.eqb orgName "" then []
                  else [[translate "Org:" []; orgName]])
     | (_, Some _) => []
     end.

(** ** Where a run halts

    The deferred part of [Execute] (lines 163-213) halts at the
    service-account check, in the authentication, in the organization
    stage, or after the version check; its outcome is that of the stage it
    halts in, and its calls are those of the stages it went through. *)
Inductive DeferredRun (pkg : Packages) (cmd : LoginCommand) (h : History)
  : Result unit -> list Event -> Prop :=
  | halt_serviceAccount :
      command.UAAGrantType (Config cmd) h = "client_credentials" ->
      DeferredRun pkg cmd h
        (Fail (errors_New
           "Service account currently logged in. Use 'cf logout' to log out service account and try again."))
        []
  | halt_authenticate ra ca evsa :
      command.UAAGrantType (Config cmd) h <> "client_credentials" ->
      Execute_authenticate pkg cmd h = (ra, ca, evsa) ->
      ra <> Ok tt ->
      DeferredRun pkg cmd h ra evsa
  | halt_organization ca evsa ro co evso :
      command.UAAGrantType (Config cmd) h <> "client_credentials" ->
      Execute_authenticate pkg cmd h = (Ok tt, ca, evsa) ->
      Execute_organization ca (h ++ evsa) = (ro, co, evso) ->
      ro <> Ok tt ->
      DeferredRun pkg cmd h ro (evsa ++ evso)
  | halt_version ca evsa co evso rv cv evsv :
      command.UAAGrantType (Config cmd) h <> "client_credentials" ->
      Execute_authenticate pkg cmd h = (Ok tt, ca, evsa) ->
      Execute_organization ca (h ++ evsa) = (Ok tt, co, evso) ->
      checkMinCLIVersion pkg co (h ++ evsa ++ evso) = (rv, cv, evsv) ->
      DeferredRun pkg cmd h rv (evsa ++ evso ++ evsv).

(** [Execute] halts at the experimental-login gate, before the client is
    rebuilt, or in the deferred part, and then the status report follows. *)
Inductive ExecuteRun (pkg : Packages) (cmd : LoginCommand) (h : History)
  : Result unit -> list Event -> Prop :=
  | halt_gate :
      command.ExperimentalLogin (Config cmd) h = false ->
      ExecuteRun pkg cmd h (Fail UnrefactoredCommandError) []
  | halt_target r pre :
      command.ExperimentalLogin (Config cmd) h = true ->
      forallb targetCall pre = true ->
      existsb isRebuilt pre = false ->
      r <> Ok tt ->
      ExecuteRun pkg cmd h r pre
  | halt_deferred pre endpoint actor r evsd cmds hs :
      command.ExperimentalLogin (Config cmd) h = true ->
      forallb targetCall pre = true ->
      existsb isRebuilt pre = true ->
      DeferredRun pkg (set_Actor actor (set_APIEndpoint endpoint cmd)) (h ++ pre) r evsd ->
      ExecuteRun pkg cmd h r (pre ++ evsd ++ calls (showStatus cmds hs)).

(** The calls of the deferred part of [Execute]. *)
Definition deferredCall (e : Event) : bool :=
  authenticationCall e || organizationCall e || versionCall e.

(** A run that comes after the calls [evs]. *)
Definition prepend {A} (evs : list Event) (r : Result A * LoginCommand * list Event)
  : Result A * LoginCommand * list Event :=
  (outcome r, receiver r, evs ++ calls r).

(** ** The order of the credential collector, in the words of the spec

    The user name comes first, from the flag when the prompt is a text
    prompt and the flag is given, and else from the terminal. *)
Definition collectorOrder_username (prompts : PromptMap) (username : string) : list Asked :=
  match lookupPrompt "username" prompts with
  | Some prompt =>
      if coreconfig.isText prompt && negb (String.eqb username "") then []
      else [AskText (coreconfig.DisplayName prompt)]
  | None => []
  end.

(** A prompt that is not secret and not the user name. *)
Definition isTextEntry (entry : string * coreconfig.AuthPrompt) : bool :=
  negb (coreconfig.isPassword entry.2) && negb (String.eqb entry.1 "username").

(** A secret prompt other than the password and the passcode. *)
Definition isOtherSecret (entry : string * coreconfig.AuthPrompt) : bool :=
  coreconfig.isPassword entry.2
  && negb (String.eqb entry.1 "passcode" || String.eqb entry.1 "password").

(** Then the prompts that are not secret, each from the terminal. *)
Definition collectorOrder_texts (prompts : PromptMap) : list Asked :=
  map (fun entry => AskText (coreconfig.DisplayName entry.2))
      (List.filter isTextEntry prompts).

(** In an attempt the password comes first, from the terminal unless a
    password is at hand, and then the other secrets. *)
Definition collectorOrder_secrets (prompts : PromptMap) (password : string) : list Asked :=
  match lookupPrompt "password" prompts with
  | Some prompt =>
      if negb (String.eqb password "") then []
      else [AskSecret (coreconfig.DisplayName prompt)]
  | None => []
  end
  ++ map (fun entry => AskSecret (coreconfig.DisplayName entry.2))
         (List.filter isOtherSecret prompts).

(** The attempts: the password at hand serves the first one only. *)
Fixpoint collectorOrder_attempts (prompts : PromptMap) (password : string) (n : nat)
  : list Asked :=
  match n with
  | 0 => []
  | S k => collectorOrder_secrets prompts password
           ++ collectorOrder_attempts prompts "" k
  end.

Definition collectorOrder (prompts : PromptMap) (username password : string) (n : nat)
  : list Asked :=
  collectorOrder_username prompts username
  ++ collectorOrder_texts prompts
  ++ collectorOrder_attempts prompts password n.

(** The keys [authenticate] hands to [passwordPrompts]. *)
Definition otherSecretKeys (prompts : PromptMap) : list string :=
  map fst (List.filter isOtherSecret prompts).

(** No attempt follows one that succeeded. *)
Definition successIsLast (evs : list Event) : Prop :=
  forall before ev after,
    attempts evs = before ++ ev :: after -> authenticateResult ev = None -> after = [].

(** The last attempt succeeded. *)
Definition lastSucceeded (evs : list Event) : Prop :=
  exists before ev, attempts evs = before ++ [ev] /\ authenticateResult ev = None.

(** An attempt of the SSO flow: the passcode and nothing else. *)
Definition passcodeOnly (ev : Event) : Prop :=
  exists passcode err,
    ev = Actor_Authenticate {["passcode" := passcode]} "" constant.GrantTypePassword err.

(** The fields of the receiver that the login leaves alone: what the
    command line gave, the endpoint and the two secrets apart, and the
    collaborators, the actor and the checker apart. *)
Definition sameFlags (cmd cmd' : LoginCommand) : Prop :=
  Organization cmd' = Organization cmd
  /\ Space cmd' = Space cmd
  /\ SkipSSLValidation cmd' = SkipSSLValidation cmd
  /\ SSO cmd' = SSO cmd
  /\ Username cmd' = Username cmd
  /\ UI cmd' = UI cmd
  /\ ActorMaker_ cmd' = ActorMaker_ cmd
  /\ CheckerMaker_ cmd' = CheckerMaker_ cmd
  /\ Config cmd' = Config cmd.

Definition keeps_flags {A} (m : M A) : Prop :=
  forall cmd h, sameFlags cmd (receiver (m cmd h)).

(** The endpoint of the receiver is left as it is. *)
Definition keeps_endpoint {A} (m : M A) : Prop :=
  forall cmd h, APIEndpoint (receiver (m cmd h)) = APIEndpoint cmd.

(** The calls that only the organization stage makes. *)
Definition organizationOnly (e : Event) : bool :=
  match e with
  | Actor_GetOrganizationByName _ _ _ _ | Actor_GetOrganizations _ _ _
  | UI_DisplayWarnings _ | UI_DisplayTextMenu _ _ _ _
  | Config_SetOrganizationInformation _ _ => true
  | _ => false
  end.

(** The calls that only the version check makes. *)
Definition versionOnly (e : Event) : bool :=
  match e with
  | CheckerMaker_NewVersionChecker _ _ | Config_SetMinCLIVersion _
  | command_WarnIfCLIVersionBelowAPIDefinedMinimum _ _ => true
  | _ => false
  end.

(** A call that comes after the authentication. *)
Definition afterLogin (e : Event) : bool := organizationOnly e || versionOnly e.

(** A lookup of organizations, the warnings and the error it returned. *)
Definition isLookup (e : Event) : bool :=
  match e with
  | Actor_GetOrganizationByName _ _ _ _ | Actor_GetOrganizations _ _ _ => true
  | _ => false
  end.

Definition lookupWarnings (e : Event) : v3action.Warnings :=
  match e with
  | Actor_GetOrganizationByName _ _ warnings _ | Actor_GetOrganizations _ warnings _ =>
      warnings
  | _ => []
  end.

Definition lookupError (e : Event) : option error :=
  match e with
  | Actor_GetOrganizationByName _ _ _ err | Actor_GetOrganizations _ _ err => err
  | _ => None
  end.

(** The organizations a lookup returned. *)
Definition lookupFound (e : Event) : list v3action.Organization :=
  match e with
  | Actor_GetOrganizationByName _ org _ _ => [org]
  | Actor_GetOrganizations orgs _ _ => orgs
  | _ => []
  end.

(** The lookup that [Execute] makes for the command [cmd]: by name with
    [-o], and of all the organizations without. *)
Definition lookupFor (cmd : LoginCommand) (e : Event) : Prop :=
  if String.eqb (Organization cmd) "" then
    exists orgs warnings err, e = Actor_GetOrganizations orgs warnings err
  else
    exists org warnings err,
      e = Actor_GetOrganizationByName (Organization cmd) org warnings err.

Definition isSetTarget (e : Event) : bool :=
  match e with Actor_SetTarget _ _ _ => true | _ => false end.

Definition isGetLoginPrompts (e : Event) : bool :=
  match e with Actor_GetLoginPrompts _ => true | _ => false end.

(** The line that follows the table of the status report: what is missing
    when the user is not logged in or no organization is targeted. *)
Definition statusHint (cmd : LoginCommand) (h : History) : Event :=
  let table := UI_DisplayKeyValueTable "" (statusRows cmd h) 3 in
  let binaryName := command.BinaryName (Config cmd) (h ++ [table]) in
  match command.CurrentUserName (Config cmd) h with
  | (user, None) =>
      if String.eqb user "" then
        UI_DisplayText "Not logged in. Use '{{.CFLoginCommand}}' to log in."
          [("CFLoginCommand", binaryName +:+ " login")]
      else if String.eqb (command.TargetedOrganizationName (Config cmd) h) "" then
        UI_DisplayText
          "No org or space targeted, use '{{.CFTargetCommand}} -o ORG -s SPACE'"
          [("CFTargetCommand", binaryName +:+ " target")]
      else UI_DisplayNewline
  | (_, Some _) =>
      UI_DisplayText "Not logged in. Use '{{.CFLoginCommand}}' to log in."
        [("CFLoginCommand", binaryName +:+ " login")]
  end.

(** What the terminal shows after an attempt: the translated error of a
    failure as a warning, [OK] after a success, and an empty line. *)
Definition feedback (pkg : Packages) (ev : Event) : list Event :=
  match authenticateResult ev with
  | Some e => [UI_DisplayWarning (ConvertToTranslatableError_Error pkg e); UI_DisplayNewline]
  | None => [UI_DisplayOK; UI_DisplayNewline]
  end.

(** Every attempt among [evs] comes right after the line "Authenticating..."
    and is followed at once by its feedback. *)
Fixpoint attemptsReported (pkg : Packages) (evs : list Event) : Prop :=
  match evs with
  | [] => True
  | ev :: rest =>
      match rest with
      | next :: rest' =>
          (isAuthenticate next = true ->
           ev = UI_DisplayText "Authenticating..." []
           /\ exists later, rest' = feedback pkg next ++ later)
      | [] => True
      end
      /\ attemptsReported pkg rest
  end.

(** In a round the secret keyed [key] was asked for, and the answer given
    in that round is the one submitted. *)
Definition secretAnswered (prompts : PromptMap) (key : string)
    (round : list Event * Event) : Prop :=
  exists answer,
    In (UI_DisplayPasswordPrompt
          (coreconfig.DisplayName (indexPrompt key prompts)) answer None) round.1
    /\ authenticateCredentials round.2 !! key = Some answer.

(** The calls of the user name and of the text prompts: no secret prompt. *)
Definition textCollectorCall (e : Event) : bool :=
  match e with
  | UI_DisplayTextPrompt _ _ _ | UI_DisplayNewline => true
  | _ => false
  end.

(** A run asks for [expected], in that order: all of it when it returns
    normally, and a first part of it otherwise. *)
Definition asksFor {A} (r : Result A * LoginCommand * list Event) (expected : list Asked)
  : Prop :=
  match outcome r with
  | Ok _ => asked (calls r) = expected
  | _ => exists rest, expected = asked (calls r) ++ rest
  end.

(** What [passwordPrompts] asks for, given the keys it is handed. *)
Definition secretsAsked (prompts : PromptMap) (passwordKeys : list string)
    (password : string) : list Asked :=
  match lookupPrompt "password" prompts with
  | Some prompt =>
      if negb (String.eqb password "") then []
      else [AskSecret (coreconfig.DisplayName prompt)]
  | None => []
  end
  ++ map (fun key => AskSecret (coreconfig.DisplayName (indexPrompt key prompts)))
         passwordKeys.

(** ** A model of [net/url] for plain endpoints

    [url.Parse] and the [String] method of Go's standard library, on
    strings made of letters, digits and the bytes [. - _ ~ + / :].  On such
    strings no escaping takes place and there is no query, fragment or user
    information.  Every other string is outside the model and is rejected. *)
Module NetURL.

Definition isLetter (c : ascii) : bool :=
  let n := nat_of_ascii c in
  (Nat.leb 97 n && Nat.leb n 122) || (Nat.leb 65 n && Nat.leb n 90).

Definition isDigit (c : ascii) : bool :=
  let n := nat_of_ascii c in Nat.leb 48 n && Nat.leb n 57.

Definition isPlain (c : ascii) : bool :=
  isLetter c || isDigit c
  || existsb (Ascii.eqb c) (list_ascii_of_string ".-_~+/:").

Definition toLower (c : ascii) : ascii :=
  let n := nat_of_ascii c in
  if Nat.leb 65 n && Nat.leb n 90 then ascii_of_nat (n + 32) else c.

Fixpoint forallb_string (p : ascii -> bool) (s : string) : bool :=
  match s with
  | EmptyString => true
  | String c rest => p c && forallb_string p rest
  end.

Fixpoint map_string (f : ascii -> ascii) (s : string) : string :=
  match s with
  | EmptyString => EmptyString
  | String c rest => String (f c) (map_string f rest)
  end.

(** [getscheme]: the scheme and the rest; [None] is the error
    "missing protocol scheme".  [seen] holds the bytes read so far. *)
Fixpoint getscheme_from (seen rest rawurl : string) : option (string * string) :=
  match rest with
  | EmptyString => Some (EmptyString, rawurl)
  | String c rest' =>
      if isLetter c then getscheme_from (seen +:+ String c EmptyString) rest' rawurl
      else if isDigit c || existsb (Ascii.eqb c) (list_ascii_of_string "+-.") then
        match seen with
        | EmptyString => Some (EmptyString, rawurl)
        | _ => getscheme_from (seen +:+ String c EmptyString) rest' rawurl
        end
      else if Ascii.eqb c ":" then
        match seen with
        | EmptyString => None
        | _ => Some (seen, rest')
        end
      else Some (EmptyString, rawurl)
  end.

Definition getscheme (rawurl : string) : option (string * string) :=
  getscheme_from EmptyString rawurl rawurl.

(** [split(s, "/", false)]: up to the first slash, and from it on. *)
Fixpoint splitSlash (s : string) : string * string :=
  match s with
  | EmptyString => (EmptyString, EmptyString)
  | String c rest =>
      if Ascii.eqb c "/" then (EmptyString, s)
      else let '(a, b) := splitSlash rest in (String c a, b)
  end.

(** The text after the last colon of [s], when [s] has a colon. *)
Fixpoint afterLastColon (s : string) : option string :=
  match s with
  | EmptyString => None
  | String c rest =>
      match afterLastColon rest with
      | Some port => Some port
      | None => if Ascii.eqb c ":" then Some rest else None
      end
  end.

(** [parseHost] on a host without brackets: a port, when there is one, is
    made of digits (Go 1.12.8 and later). *)
Definition parseHost (host : string) : option string :=
  match afterLastColon host with
  | Some port => if forallb_string isDigit port then Some host else None
  | None => Some host
  end.

Definition hasPrefix (p s : string) : bool := String.prefix p s.

(** A colon in the first path segment. *)
Definition colonInFirstSegment (s : string) : bool :=
  negb (forallb_string (fun c => negb (Ascii.eqb c ":")) (splitSlash s).1).

Definition blank : url.URL :=
  {| url.Scheme := ""; url.Opaque := ""; url.Host := ""; url.Path := "";
     url.RawPath := ""; url.ForceQuery := false; url.RawQuery := "";
     url.Fragment := "" |}.

Definition Parse (rawurl : string) : option url.URL :=
  if negb (forallb_string isPlain rawurl) then None
  else
    match getscheme rawurl with
    | None => None
    | Some (scheme, rest) =>
        let scheme := map_string toLower scheme in
        if negb (hasPrefix "/" rest) && negb (String.eqb scheme "") then
          Some {| url.Scheme := scheme; url.Opaque := rest; url.Host := "";
                  url.Path := ""; url.RawPath := ""; url.ForceQuery := false;
                  url.RawQuery := ""; url.Fragment := "" |}
        else if negb (hasPrefix "/" rest) && colonInFirstSegment rest then None
        else if (negb (String.eqb scheme "") || negb (hasPrefix "///" rest))
                && hasPrefix "//" rest then
          let '(authority, path) := splitSlash (String.substring 2 (String.length rest - 2) rest) in
          match parseHost authority with
          | None => None
          | Some host =>
              Some {| url.Scheme := scheme; url.Opaque := ""; url.Host := host;
                      url.Path := path; url.RawPath := ""; url.ForceQuery := false;
                      url.RawQuery := ""; url.Fragment := "" |}
          end
        else
          Some {| url.Scheme := scheme; url.Opaque := ""; url.Host := "";
                  url.Path := rest; url.RawPath := ""; url.ForceQuery := false;
                  url.RawQuery := ""; url.Fragment := "" |}
    end.

Definition nonEmpty (s : string) : bool := negb (String.eqb s "").

Definition String_ (u : url.URL) : string :=
  let buf := if nonEmpty (url.Scheme u) then url.Scheme u +:+ ":" else "" in
  let buf :=
    if nonEmpty (url.Opaque u) then buf +:+ url.Opaque u
    else
      let buf :=
        if nonEmpty (url.Scheme u) || nonEmpty (url.Host u) then
          (if nonEmpty (url.Host u) || nonEmpty (url.Path u) then buf +:+ "//"
           else buf) +:+ url.Host u
        else buf in
      let path := url.Path u in
      let buf :=
        if nonEmpty path && negb (hasPrefix "/" path) && nonEmpty (url.Host u)
        then buf +:+ "/" else buf in
      let buf :=
        if String.eqb buf "" && colonInFirstSegment path then buf +:+ "./"
        else buf in
      buf +:+ path in
  let buf :=
    if url.ForceQuery u || nonEmpty (url.RawQuery u)
    then buf +:+ "?" +:+ url.RawQuery u else buf in
  if nonEmpty (url.Fragment u) then buf +:+ "#" +:+ url.Fragment u else buf.

End NetURL.

(** A byte of a host name: a letter, a digit, a dot or a hyphen. *)
Definition hostByte (c : ascii) : bool :=
  NetURL.isLetter c || NetURL.isDigit c || Ascii.eqb c "." || Ascii.eqb c "-".

(** A host name: not empty, and made of such bytes. *)
Definition hostName (s : string) : bool :=
  NetURL.nonEmpty s && NetURL.forallb_string hostByte s.

(** A byte of a scheme written in small letters. *)
Definition schemeByte (c : ascii) : bool :=
  let n := nat_of_ascii c in Nat.leb 97 n && Nat.leb n 122.

(** A scheme in small letters, such as http and https. *)
Definition schemeName (s : string) : bool :=
  NetURL.nonEmpty s && NetURL.forallb_string schemeByte s.

Definition startsWithLetter (s : string) : bool :=
  match s with
  | EmptyString => false
  | String c _ => NetURL.isLetter c
  end.

(** A port: not empty, and made of digits. *)
Definition portNumber (s : string) : bool :=
  NetURL.nonEmpty s && NetURL.forallb_string NetURL.isDigit s.

(** ** Concrete collaborators, for running the command *)
Module Scenario.

(** Packages: the [net/url] model, errors shown by a fixed text, and a
    client that is never too old. *)
Definition errorText (e : error) : string :=
  match e with
  | UnrefactoredCommandError => "unrefactored"
  | ArgumentCombinationError _ => "argument combination"
  | errors_New text => text
  | io_EOF => "EOF"
  | AccountLockedError text => text
  | OtherError text => text
  end.

Definition packages : Packages :=
  {| url_Parse := NetURL.Parse;
     URL_String := NetURL.String_;
     ConvertToTranslatableError_Error := errorText;
     WarnIfCLIVersionBelowAPIDefinedMinimum := fun _ _ => (None, None) |}.

(** A terminal that answers every prompt the same way. *)
Definition ui (answer : string) (err : option error) : command.UI :=
  {| command.TranslateText := fun template _ => template;
     command.DisplayTextPrompt := fun _ _ => (answer, err);
     command.DisplayPasswordPrompt := fun _ _ => (answer, err);
     command.DisplayTextMenu := fun _ _ _ => (answer, err) |}.

Definition config (experimental : bool) (grantType : string) : command.Config :=
  {| command.ExperimentalLogin := fun _ => experimental;
     command.Target := fun _ => "";
     command.SkipSSLValidation := fun _ => false;
     command.UAAGrantType := fun _ => grantType;
     command.APIVersion := fun _ => "3.0.0";
     command.BinaryName := fun _ => "cf";
     command.CurrentUserName := fun _ => ("", None);
     command.TargetedOrganizationName := fun _ => "" |}.

(** An actor whose [n]-th call of [Authenticate] answers [auth n]. *)
Definition actor (prompts : PromptMap) (auth : nat -> option error)
    (orgs : list v3action.Organization) : LoginActor :=
  {| Authenticate := fun h _ _ _ => auth (length (attempts h));
     GetLoginPrompts := fun _ => prompts;
     GetOrganizationByName := fun _ name =>
       match find (fun o => String.eqb (v3action.Name o) name) orgs with
       | Some o => (o, [], None)
       | None => (v3action.emptyOrg, [], Some (OtherError "organization not found"))
       end;
     GetOrganizations := fun _ => (orgs, [], None);
     SetTarget := fun _ _ => ([], None) |}.

Definition checker : VersionChecker :=
  {| MinCLIVersion := fun _ => "6.0.0";
     CloudControllerAPIVersion := fun _ => "2.100.0" |}.

Definition login (endpoint : string) (sso : bool) (passcode username password org : string)
    (u : command.UI) (a : LoginActor) (newActor : LoginActor + error)
    (newChecker : VersionChecker + error) (c : command.Config) : LoginCommand :=
  {| APIEndpoint := endpoint; Organization := org; Password := password;
     Space := ""; SkipSSLValidation := false; SSO := sso;
     SSOPasscode := passcode; Username := username; UI := u; Actor := a;
     ActorMaker_ := {| NewActor := fun _ _ => newActor |}; Checker := None;
     CheckerMaker_ := {| NewVersionChecker := fun _ _ => newChecker |};
     Config := c |}.

Definition schema : PromptMap :=
  [("otp", coreconfig.MkAuthPrompt coreconfig.AuthPromptTypePassword "Code");
   ("password", coreconfig.MkAuthPrompt coreconfig.AuthPromptTypePassword "Password");
   ("username", coreconfig.MkAuthPrompt coreconfig.AuthPromptTypeText "Email")].

(** A terminal that reads its answers from a script: the [n]-th prompt or
    menu gets the [n]-th entry, and the end of the script is the end of
    the input. *)
Definition isRead (e : Event) : bool := isPrompt e || isMenu e.

Definition uiScript (answers : list (string * option error)) : command.UI :=
  let read h := nth (length (List.filter isRead h)) answers ("", Some io_EOF) in
  {| command.TranslateText := fun template _ => template;
     command.DisplayTextPrompt := fun h _ => read h;
     command.DisplayPasswordPrompt := fun h _ => read h;
     command.DisplayTextMenu := fun h _ _ => read h |}.

Definition locked : option error := Some (AccountLockedError "Your account has been locked").
Definition denied : option error := Some (OtherError "Credentials were rejected").

Definition orgs3 : list v3action.Organization :=
  [v3action.MkOrganization "guid-1" "org-1";
   v3action.MkOrganization "guid-2" "org-2";
   v3action.MkOrganization "guid-3" "org-3"].

(** [cf login -a api.example.com --sso] against a server that reports a
    locked account on every attempt. *)
Definition ssoLocked : LoginCommand :=
  let a := actor schema (fun _ => locked) [] in
  login "api.example.com" true "" "" "" "" (ui "123456" None) a (inl a) (inl checker)
    (config true "password").

(** [cf login -a api.example.com -u me -p pw1] against the same server. *)
Definition passwordLocked : LoginCommand :=
  let a := actor schema (fun _ => locked) [] in
  login "api.example.com" false "" "me" "pw1" "" (ui "654321" None) a (inl a) (inl checker)
    (config true "password").

(** [cf login -a api.example.com -u me -p pw1] when the client cannot be
    rebuilt once the target is set. *)
Definition rebuildFails : LoginCommand :=
  let a := actor schema (fun _ => None) [] in
  login "api.example.com" false "" "me" "pw1" "" (ui "654321" None) a
    (inr (OtherError "cannot build the client")) (inl checker) (config true "password").

(** The same command when the version-check client cannot be built. *)
Definition checkerFails : LoginCommand :=
  let a := actor schema (fun _ => None) [] in
  login "api.example.com" false "" "me" "pw1" "" (ui "654321" None) a (inl a)
    (inr (OtherError "cannot build the version checker")) (config true "password").

(** [cf login -a api.example.com --sso --sso-passcode 123456] *)
Definition ssoAndPasscode : LoginCommand :=
  let a := actor schema (fun _ => None) [] in
  login "api.example.com" true "123456" "" "" "" (ui "654321" None) a (inl a)
    (inl checker) (config true "password").

(** [cf login -a api.example.com] with the input at its end. *)
Definition inputEnds : LoginCommand :=
  let a := actor schema (fun _ => None) [] in
  login "api.example.com" false "" "" "" "" (uiScript []) a (inl a)
    (inl checker) (config true "password").

(** [cf login -a api.example.com -u me -p pw1]: three organizations, and
    the input ends at the menu. *)
Definition menuDeclined : LoginCommand :=
  let a := actor schema (fun _ => None) orgs3 in
  login "api.example.com" false "" "me" "pw1" "" (uiScript [("654321", None)]) a (inl a)
    (inl checker) (config true "password").

(** The scenario of the spec: [cf login -a api.example.com -u me -p pw1],
    the first attempt is rejected and the second one succeeds with the
    password typed in. *)
Definition retry : LoginCommand :=
  let a := actor schema (fun n => if Nat.eqb n 0 then denied else None) [] in
  login "api.example.com" false "" "me" "pw1" ""
    (uiScript [("654321", None); ("pw2", None); ("654322", None)]) a (inl a)
    (inl checker) (config true "password").

(** Prompts with a text prompt next to the user name, the secrets being
    listed first. *)
Definition schemaTenant : PromptMap :=
  [("otp", coreconfig.MkAuthPrompt coreconfig.AuthPromptTypePassword "Code");
   ("password", coreconfig.MkAuthPrompt coreconfig.AuthPromptTypePassword "Password");
   ("tenant", coreconfig.MkAuthPrompt coreconfig.AuthPromptTypeText "Tenant");
   ("username", coreconfig.MkAuthPrompt coreconfig.AuthPromptTypeText "Email")].

(** [cf login -a api.example.com] with those prompts, everything being
    typed: the first attempt is rejected and the second one succeeds. *)
Definition typed : LoginCommand :=
  let a := actor schemaTenant (fun n => if Nat.eqb n 0 then denied else None) [] in
  login "api.example.com" false "" "" "" ""
    (uiScript [("me", None); ("acme", None); ("pw1", None); ("111111", None);
               ("pw2", None); ("222222", None)]) a (inl a)
    (inl checker) (config true "password").

(** [cf login -a api.example.com -u you -p pw1], likewise. *)
Definition flagged : LoginCommand :=
  let a := actor schemaTenant (fun n => if Nat.eqb n 0 then denied else None) [] in
  login "api.example.com" false "" "you" "pw1" ""
    (uiScript [("acme", None); ("111111", None); ("pw2", None); ("222222", None)])
    a (inl a) (inl checker) (config true "password").

(** [cf login -a api.example.com --sso-passcode 111111], likewise. *)
Definition retrySSO : LoginCommand :=
  let a := actor schema (fun n => if Nat.eqb n 0 then denied else None) [] in
  login "api.example.com" false "111111" "" "" ""
    (uiScript [("222222", None)]) a (inl a) (inl checker) (config true "password").

(** [cf login -a api.example.com -u me -p pw1] against a server that asks
    for a user name only. *)
Definition usernameOnly : LoginCommand :=
  let a := actor [("username",
                   coreconfig.MkAuthPrompt coreconfig.AuthPromptTypeText "Email")]
             (fun _ => None) [] in
  login "api.example.com" false "" "me" "pw1" "" (ui "654321" None) a (inl a)
    (inl checker) (config true "password").

(** [cf login -a api.example.com -u me -p pw1] while a service account is
    logged in. *)
Definition serviceAccount : LoginCommand :=
  let a := actor schema (fun _ => None) [] in
  login "api.example.com" false "" "me" "pw1" "" (ui "654321" None) a (inl a)
    (inl checker) (config true "client_credentials").

(** [cf login -a 127.0.0.1:8080 -u me -p pw1]: a host and a port with no
    scheme, which [url.Parse] refuses (a colon in the first path segment). *)
Definition hostAndPort : LoginCommand :=
  let a := actor schema (fun _ => None) [] in
  login "127.0.0.1:8080" false "" "me" "pw1" "" (ui "654321" None) a (inl a)
    (inl checker) (config true "password").

(** [cf login -a api.example.com:443 -u me -p pw1]: a host and a port,
    without a scheme, that [url.Parse] accepts. *)
Definition hostAndPort443 : LoginCommand :=
  let a := actor schema (fun _ => None) [] in
  login "api.example.com:443" false "" "me" "pw1" "" (ui "654321" None) a (inl a)
    (inl checker) (config true "password").

(** A configuration in which the user me is logged in and the
    organization org-1 is targeted. *)
Definition session : command.Config :=
  {| command.ExperimentalLogin := fun _ => true;
     command.Target := fun _ => "";
     command.SkipSSLValidation := fun _ => false;
     command.UAAGrantType := fun _ => "password";
     command.APIVersion := fun _ => "3.0.0";
     command.BinaryName := fun _ => "cf";
     command.CurrentUserName := fun _ => ("me", None);
     command.TargetedOrganizationName := fun _ => "org-1" |}.

(** [cf login -a api.example.com/ -u me -p pw1] in that configuration,
    the account being locked. *)
Definition lockedInSession : LoginCommand :=
  let a := actor schema (fun _ => locked) [] in
  login "api.example.com/" false "" "me" "pw1" "" (ui "654321" None) a (inl a)
    (inl checker) session.

(** [cf login] with no target stored and the input at its end. *)
Definition noEndpoint : LoginCommand :=
  let a := actor schema (fun _ => None) [] in
  login "" false "" "" "" "" (uiScript []) a (inl a) (inl checker)
    (config true "password").

(** [cf login -a api.example.com -u me -p pw1 -o org-9]: no organization
    bears that name. *)
Definition unknownOrg : LoginCommand :=
  let a := actor schema (fun _ => None) orgs3 in
  login "api.example.com" false "" "me" "pw1" "org-9" (ui "654321" None) a (inl a)
    (inl checker) (config true "password").

(** [cf login -a api.example.com -u me -p pw1]: three organizations, and
    [org-2] is typed at the menu. *)
Definition menuChosen : LoginCommand :=
  let a := actor schema (fun _ => None) orgs3 in
  login "api.example.com" false "" "me" "pw1" ""
    (uiScript [("654321", None); ("org-2", None)]) a (inl a)
    (inl checker) (config true "password").

(** [cf login -a api.example.com -u me -p pw1] on a command set up with a
    client that knows no login prompt; the client built once the target is
    set knows those of [schema]. *)
Definition retargeted : LoginCommand :=
  let untargeted := actor [] (fun _ => None) [] in
  let targeted := actor schema (fun _ => None) [] in
  login "api.example.com" false "" "me" "pw1" "" (ui "654321" None) untargeted
    (inl targeted) (inl checker) (config true "password").

End Scenario.

(** * Properties *)

(** ** The command monad *)

Section MonadFacts.

Context {A B : Type}.

Lemma bind_Ok (m : M A) (k : A -> M B) cmd h a cmd1 evs1 :
  m cmd h = (Ok a, cmd1, evs1) ->
  bind m k cmd h =
    (outcome (k a cmd1 (h ++ evs1)), receiver (k a cmd1 (h ++ evs1)),
     evs1 ++ calls (k a cmd1 (h ++ evs1))).
Proof.
  intros Hm. unfold bind. rewrite Hm.
  destruct (k a cmd1 (h ++ evs1)) as [[r c] evs]. reflexivity.
Qed.

Lemma bind_Fail (m : M A) (k : A -> M B) cmd h e cmd1 evs1 :
  m cmd h = (Fail e, cmd1, evs1) -> bind m k cmd h = (Fail e, cmd1, evs1).
Proof. intros Hm. unfold bind. rewrite Hm. reflexivity. Qed.

Lemma bind_Panic (m : M A) (k : A -> M B) cmd h cmd1 evs1 :
  m cmd h = (Panic, cmd1, evs1) -> bind m k cmd h = (Panic, cmd1, evs1).
Proof. intros Hm. unfold bind. rewrite Hm. reflexivity. Qed.

Lemma emits_only_bind p (m : M A) (k : A -> M B) :
  emits_only p m -> (forall a, emits_only p (k a)) -> emits_only p (bind m k).
Proof.
  intros Hm Hk cmd h. specialize (Hm cmd h). unfold bind, calls in *.
  destruct (m cmd h) as [[[a|e|] cmd1] evs1]; simpl in *; try assumption.
  specialize (Hk a cmd1 (h ++ evs1)). unfold calls in Hk.
  destruct (k a cmd1 (h ++ evs1)) as [[r cmd2] evs2]; simpl in *.
  rewrite forallb_app, Hm, Hk. reflexivity.
Qed.

Lemma emits_only_weaken (p q : Event -> bool) (m : M A) :
  (forall e, p e = true -> q e = true) -> emits_only p m -> emits_only q m.
Proof.
  intros Hpq Hm cmd h. specialize (Hm cmd h).
  rewrite forallb_forall in *. intros e He. apply Hpq, Hm, He.
Qed.

Lemma emits_only_ret p (a : A) : emits_only p (ret a).
Proof. intros cmd h. reflexivity. Qed.

Lemma emits_only_fail p (e : error) : emits_only p (@fail A e).
Proof. intros cmd h. reflexivity. Qed.

Lemma emits_only_panic p : emits_only p (@panic A).
Proof. intros cmd h. reflexivity. Qed.

Lemma emits_only_ask p (f : LoginCommand -> History -> A) : emits_only p (ask f).
Proof. intros cmd h. reflexivity. Qed.

Lemma emits_only_try p (m : M A) : emits_only p m -> emits_only p (try m).
Proof.
  intros Hm cmd h. specialize (Hm cmd h). unfold try, calls in *.
  destruct (m cmd h) as [[[a|e|] cmd1] evs1]; assumption.
Qed.

Lemma emits_only_defer p (d : M unit) (m : M A) :
  emits_only p d -> emits_only p m -> emits_only p (defer d m).
Proof.
  intros Hd Hm cmd h. specialize (Hm cmd h). unfold defer, calls in *.
  destruct (m cmd h) as [[r cmd1] evs1]; simpl in *.
  specialize (Hd cmd1 (h ++ evs1)). unfold calls in Hd.
  destruct (d cmd1 (h ++ evs1)) as [[r2 cmd2] evs2]; simpl in *.
  rewrite forallb_app, Hm, Hd. reflexivity.
Qed.

End MonadFacts.

Lemma emits_only_getCmd p : emits_only p getCmd.
Proof. intros cmd h. reflexivity. Qed.

Lemma emits_only_modifyCmd p f : emits_only p (modifyCmd f).
Proof. intros cmd h. reflexivity. Qed.

Lemma emits_only_check p err : emits_only p (check err).
Proof. destruct err; intros cmd h; reflexivity. Qed.

Lemma emits_only_emit (p : Event -> bool) e : p e = true -> emits_only p (emit e).
Proof. intros He cmd h. simpl. rewrite He. reflexivity. Qed.

Lemma emits_only_ui_DisplayTextPrompt (p : Event -> bool) template :
  (forall answer err, p (UI_DisplayTextPrompt template answer err) = true) ->
  emits_only p (ui_DisplayTextPrompt template).
Proof.
  intros Hp cmd h. unfold ui_DisplayTextPrompt, calls.
  destruct (command.DisplayTextPrompt _ _ _) as [answer err]. simpl.
  rewrite Hp. reflexivity.
Qed.

Lemma emits_only_ui_DisplayPasswordPrompt (p : Event -> bool) template :
  (forall answer err, p (UI_DisplayPasswordPrompt template answer err) = true) ->
  emits_only p (ui_DisplayPasswordPrompt template).
Proof.
  intros Hp cmd h. unfold ui_DisplayPasswordPrompt, calls.
  destruct (command.DisplayPasswordPrompt _ _ _) as [answer err]. simpl.
  rewrite Hp. reflexivity.
Qed.

Lemma emits_only_ui_DisplayTextMenu (p : Event -> bool) choices prompt :
  (forall answer err, p (UI_DisplayTextMenu choices prompt answer err) = true) ->
  emits_only p (ui_DisplayTextMenu choices prompt).
Proof.
  intros Hp cmd h. unfold ui_DisplayTextMenu, calls.
  destruct (command.DisplayTextMenu _ _ _ _) as [answer err]. simpl.
  rewrite Hp. reflexivity.
Qed.

Lemma emits_only_actor_SetTarget (p : Event -> bool) settings :
  (forall warnings err, p (Actor_SetTarget settings warnings err) = true) ->
  emits_only p (actor_SetTarget settings).
Proof.
  intros Hp cmd h. unfold actor_SetTarget, calls.
  destruct (SetTarget _ _ _) as [warnings err]. simpl. rewrite Hp. reflexivity.
Qed.

Lemma emits_only_actor_GetLoginPrompts (p : Event -> bool) :
  (forall prompts, p (Actor_GetLoginPrompts prompts) = true) ->
  emits_only p actor_GetLoginPrompts.
Proof. intros Hp cmd h. simpl. rewrite Hp. reflexivity. Qed.

Lemma emits_only_actor_Authenticate (p : Event -> bool) credentials origin grantType :
  (forall err, p (Actor_Authenticate credentials origin grantType err) = true) ->
  emits_only p (actor_Authenticate credentials origin grantType).
Proof. intros Hp cmd h. simpl. rewrite Hp. reflexivity. Qed.

Lemma emits_only_actor_GetOrganizationByName (p : Event -> bool) orgName :
  (forall org warnings err,
     p (Actor_GetOrganizationByName orgName org warnings err) = true) ->
  emits_only p (actor_GetOrganizationByName orgName).
Proof.
  intros Hp cmd h. unfold actor_GetOrganizationByName, calls.
  destruct (GetOrganizationByName _ _ _) as [[org warnings] err]. simpl.
  rewrite Hp. reflexivity.
Qed.

Lemma emits_only_actor_GetOrganizations (p : Event -> bool) :
  (forall orgs warnings err, p (Actor_GetOrganizations orgs warnings err) = true) ->
  emits_only p actor_GetOrganizations.
Proof.
  intros Hp cmd h. unfold actor_GetOrganizations, calls.
  destruct (GetOrganizations _ _) as [[orgs warnings] err]. simpl.
  rewrite Hp. reflexivity.
Qed.

Lemma emits_only_actorMaker_NewActor (p : Event -> bool) targetCF :
  (forall err, p (ActorMaker_NewActor targetCF err) = true) ->
  emits_only p (actorMaker_NewActor targetCF).
Proof.
  intros Hp cmd h. unfold actorMaker_NewActor, calls.
  destruct (NewActor _ _ _); simpl; rewrite Hp; reflexivity.
Qed.

Lemma emits_only_checkerMaker_NewVersionChecker (p : Event -> bool) targetCF :
  (forall err, p (CheckerMaker_NewVersionChecker targetCF err) = true) ->
  emits_only p (checkerMaker_NewVersionChecker targetCF).
Proof.
  intros Hp cmd h. unfold checkerMaker_NewVersionChecker, calls.
  destruct (NewVersionChecker _ _ _); simpl; rewrite Hp; reflexivity.
Qed.

Lemma emits_only_WarnIfCLIVersionBelowAPIDefinedMinimum (p : Event -> bool) pkg apiVersion :
  (forall text, p (UI_DisplayWarning text) = true) ->
  (forall err, p (command_WarnIfCLIVersionBelowAPIDefinedMinimum apiVersion err) = true) ->
  emits_only p (command_WarnIfCLIVersionBelowAPIDefinedMinimum_ pkg apiVersion).
Proof.
  intros Hw Hp cmd h. unfold command_WarnIfCLIVersionBelowAPIDefinedMinimum_, calls.
  destruct (WarnIfCLIVersionBelowAPIDefinedMinimum _ _ _) as [[text|] err]; simpl;
    rewrite ?Hw, Hp; reflexivity.
Qed.

(** Decomposes a goal [emits_only p m] along the structure of [m]. *)
Ltac emits_step :=
  lazymatch goal with
  | |- emits_only _ (bind _ _) => apply emits_only_bind; [| intros ?]
  | |- emits_only _ (ret _) => apply emits_only_ret
  | |- emits_only _ (fail _) => apply emits_only_fail
  | |- emits_only _ panic => apply emits_only_panic
  | |- emits_only _ (ask _) => apply emits_only_ask
  | |- emits_only _ getCmd => apply emits_only_getCmd
  | |- emits_only _ (modifyCmd _) => apply emits_only_modifyCmd
  | |- emits_only _ (check _) => apply emits_only_check
  | |- emits_only _ (try _) => apply emits_only_try
  | |- emits_only _ (defer _ _) => apply emits_only_defer
  | |- emits_only _ (emit _) => apply emits_only_emit; reflexivity
  | |- emits_only _ (ui_DisplayWarning _) => apply emits_only_emit; reflexivity
  | |- emits_only _ (ui_DisplayWarnings _) => apply emits_only_emit; reflexivity
  | |- emits_only _ (ui_DisplayText _ _) => apply emits_only_emit; reflexivity
  | |- emits_only _ (ui_DisplayTextWithFlavor _ _) => apply emits_only_emit; reflexivity
  | |- emits_only _ ui_DisplayNewline => apply emits_only_emit; reflexivity
  | |- emits_only _ ui_DisplayOK => apply emits_only_emit; reflexivity
  | |- emits_only _ (ui_DisplayKeyValueTable _ _ _) => apply emits_only_emit; reflexivity
  | |- emits_only _ (config_SetOrganizationInformation _ _) =>
      apply emits_only_emit; reflexivity
  | |- emits_only _ (config_SetMinCLIVersion _) => apply emits_only_emit; reflexivity
  | |- emits_only _ (ui_DisplayTextPrompt _) =>
      apply emits_only_ui_DisplayTextPrompt; reflexivity
  | |- emits_only _ (ui_DisplayPasswordPrompt _) =>
      apply emits_only_ui_DisplayPasswordPrompt; reflexivity
  | |- emits_only _ (ui_DisplayTextMenu _ _) =>
      apply emits_only_ui_DisplayTextMenu; reflexivity
  | |- emits_only _ (actor_SetTarget _) => apply emits_only_actor_SetTarget; reflexivity
  | |- emits_only _ actor_GetLoginPrompts =>
      apply emits_only_actor_GetLoginPrompts; reflexivity
  | |- emits_only _ (actor_Authenticate _ _ _) =>
      apply emits_only_actor_Authenticate; reflexivity
  | |- emits_only _ (actor_GetOrganizationByName _) =>
      apply emits_only_actor_GetOrganizationByName; reflexivity
  | |- emits_only _ actor_GetOrganizations =>
      apply emits_only_actor_GetOrganizations; reflexivity
  | |- emits_only _ (actorMaker_NewActor _) =>
      apply emits_only_actorMaker_NewActor; reflexivity
  | |- emits_only _ (checkerMaker_NewVersionChecker _) =>
      apply emits_only_checkerMaker_NewVersionChecker; reflexivity
  | |- emits_only _ (command_WarnIfCLIVersionBelowAPIDefinedMinimum_ _ _) =>
      apply emits_only_WarnIfCLIVersionBelowAPIDefinedMinimum; reflexivity
  | |- emits_only _ (match ?x with _ => _ end) => destruct x
  end.

Ltac emits := repeat emits_step.

(** ** What each method calls *)

Section Alphabets.

Variable pkg : Packages.

Lemma passwordPrompts_keys_calls prompts passwordKeys credentials :
  emits_only collectorCall (passwordPrompts_keys prompts passwordKeys credentials).
Proof.
  revert credentials. induction passwordKeys as [|key rest IH]; intros credentials;
    simpl; emits. apply IH.
Qed.

Lemma passwordPrompts_calls prompts credentials passwordKeys :
  emits_only collectorCall (passwordPrompts prompts credentials passwordKeys).
Proof. unfold passwordPrompts. emits. apply passwordPrompts_keys_calls. Qed.

Lemma authenticate_range_calls entries credentials passwordKeys :
  emits_only collectorCall (authenticate_range entries credentials passwordKeys).
Proof.
  revert credentials passwordKeys.
  induction entries as [|[key prompt] rest IH]; intros credentials passwordKeys;
    simpl; emits; apply IH.
Qed.

Lemma collectorCall_authenticationCall e :
  collectorCall e = true -> authenticationCall e = true.
Proof. destruct e; simpl; congruence. Qed.

Lemma authenticate_loop_calls tries err prompts credentials passwordKeys :
  emits_only authenticationCall
    (authenticate_loop pkg tries err prompts credentials passwordKeys).
Proof.
  revert err credentials.
  induction tries as [|tries IH]; intros err credentials; simpl; emits.
  - eapply emits_only_weaken;
      [apply collectorCall_authenticationCall | apply passwordPrompts_calls].
  - apply IH.
Qed.

Lemma authenticate_username_calls prompts credentials :
  emits_only collectorCall (authenticate_username prompts credentials).
Proof. unfold authenticate_username. emits. Qed.

Lemma authenticate_calls : emits_only authenticationCall (authenticate pkg).
Proof.
  unfold authenticate. emits.
  - eapply emits_only_weaken;
      [apply collectorCall_authenticationCall | apply authenticate_username_calls].
  - eapply emits_only_weaken;
      [apply collectorCall_authenticationCall | apply authenticate_range_calls].
  - apply authenticate_loop_calls.
Qed.

Lemma authenticateSSO_passcode_calls prompts credentials :
  emits_only collectorCall (authenticateSSO_passcode prompts credentials).
Proof. unfold authenticateSSO_passcode. emits. Qed.

Lemma authenticateSSO_loop_calls tries err prompts credentials :
  emits_only authenticationCall (authenticateSSO_loop pkg tries err prompts credentials).
Proof.
  revert err credentials.
  induction tries as [|tries IH]; intros err credentials; simpl; emits.
  - eapply emits_only_weaken;
      [apply collectorCall_authenticationCall | apply authenticateSSO_passcode_calls].
  - apply IH.
Qed.

Lemma authenticateSSO_calls : emits_only authenticationCall (authenticateSSO pkg).
Proof. unfold authenticateSSO. emits. apply authenticateSSO_loop_calls. Qed.

Lemma showStatus_calls : emits_only statusCall showStatus.
Proof. unfold showStatus, displayNotLoggedIn, displayNotTargetted. emits. Qed.

Lemma Execute_endpoint_calls : emits_only resolveCall Execute_endpoint.
Proof. unfold Execute_endpoint. emits. Qed.

Lemma Execute_target_calls : emits_only resolveCall (Execute_target pkg).
Proof. unfold Execute_target. emits. Qed.

Lemma reloadActor_calls : emits_only targetCall reloadActor.
Proof. unfold reloadActor. emits. Qed.

Lemma Execute_authenticate_calls :
  emits_only authenticationCall (Execute_authenticate pkg).
Proof.
  unfold Execute_authenticate. emits;
    first [apply authenticate_calls | apply authenticateSSO_calls].
Qed.

Lemma promptChosenOrg_calls orgs : emits_only organizationCall (promptChosenOrg orgs).
Proof. unfold promptChosenOrg. emits. Qed.

Lemma Execute_organization_calls : emits_only organizationCall Execute_organization.
Proof. unfold Execute_organization. emits; apply promptChosenOrg_calls. Qed.

Lemma checkMinCLIVersion_calls : emits_only versionCall (checkMinCLIVersion pkg).
Proof. unfold checkMinCLIVersion. emits. Qed.

End Alphabets.

(** ** The authentication loops *)

Lemma attempts_app evs1 evs2 : attempts (evs1 ++ evs2) = attempts evs1 ++ attempts evs2.
Proof. apply List.filter_app. Qed.

Lemma attempts_none (p : Event -> bool) evs :
  (forall e, p e = true -> isAuthenticate e = false) ->
  forallb p evs = true -> attempts evs = [].
Proof.
  intros Hp. induction evs as [|e evs IH]; simpl; [reflexivity|].
  intros [He Hevs]%andb_prop. rewrite (Hp e He). apply IH, Hevs.
Qed.

Lemma attempts_collector evs : forallb collectorCall evs = true -> attempts evs = [].
Proof. apply attempts_none. intros e. destruct e; simpl; congruence. Qed.

Section Loops.

Variable pkg : Packages.

(** One iteration of the loop of [authenticate]. *)
Lemma authenticate_loop_S tries err prompts credentials passwordKeys cmd h :
  authenticate_loop pkg (S tries) err prompts credentials passwordKeys cmd h =
  match passwordPrompts prompts credentials passwordKeys cmd h with
  | (Ok prompted, cmd1, evs1) =>
      let h1 := h ++ evs1 ++ [UI_DisplayText "Authenticating..." []] in
      let answer :=
        Authenticate (Actor cmd1) h1 prompted.1 "" constant.GrantTypePassword in
      let submitted :=
        [UI_DisplayText "Authenticating..." [];
         Actor_Authenticate prompted.1 "" constant.GrantTypePassword answer] in
      match answer with
      | None => (Ok None, cmd1, evs1 ++ submitted ++ [UI_DisplayOK; UI_DisplayNewline])
      | Some e =>
          let shown :=
            submitted ++ [UI_DisplayWarning (ConvertToTranslatableError_Error pkg e);
                          UI_DisplayNewline] in
          if isAccountLockedError e then (Ok (Some e), cmd1, evs1 ++ shown)
          else
            let r := authenticate_loop pkg tries (Some e) prompts prompted.2
                       passwordKeys cmd1 (h ++ evs1 ++ shown) in
            (outcome r, receiver r, evs1 ++ shown ++ calls r)
      end
  | (Fail e, cmd1, evs1) => (Fail e, cmd1, evs1)
  | (Panic, cmd1, evs1) => (Panic, cmd1, evs1)
  end.
Proof.
  simpl. unfold bind at 1.
  destruct (passwordPrompts prompts credentials passwordKeys cmd h)
    as [[[prompted|e|] cmd1] evs1]; try reflexivity.
  cbn -[authenticate_loop].
  rewrite <- !app_assoc. cbn -[authenticate_loop].
  destruct (Authenticate _ _ _ _ _) as [e|]; cbn -[authenticate_loop];
    [|reflexivity].
  destruct (isAccountLockedError e); cbn -[authenticate_loop]; [reflexivity|].
  rewrite <- !app_assoc. cbn -[authenticate_loop].
  destruct (authenticate_loop _ _ _ _ _ _ _ _) as [[r c] evs]. reflexivity.
Qed.

(** One iteration of the loop of [authenticateSSO]: a failure is never
    looked at, so every failure leads to the next iteration. *)
Lemma authenticateSSO_loop_S tries err prompts credentials cmd h :
  authenticateSSO_loop pkg (S tries) err prompts credentials cmd h =
  match authenticateSSO_passcode prompts credentials cmd h with
  | (Ok credentials1, cmd1, evs1) =>
      let h1 := h ++ evs1 ++ [UI_DisplayText "Authenticating..." []] in
      let answer :=
        Authenticate (Actor cmd1) h1 credentials1 "" constant.GrantTypePassword in
      let submitted :=
        [UI_DisplayText "Authenticating..." [];
         Actor_Authenticate credentials1 "" constant.GrantTypePassword answer] in
      match answer with
      | None => (Ok None, cmd1, evs1 ++ submitted ++ [UI_DisplayOK; UI_DisplayNewline])
      | Some e =>
          let shown :=
            submitted ++ [UI_DisplayWarning (ConvertToTranslatableError_Error pkg e);
                          UI_DisplayNewline] in
          let r := authenticateSSO_loop pkg tries (Some e) prompts credentials1
                     cmd1 (h ++ evs1 ++ shown) in
          (outcome r, receiver r, evs1 ++ shown ++ calls r)
      end
  | (Fail e, cmd1, evs1) => (Fail e, cmd1, evs1)
  | (Panic, cmd1, evs1) => (Panic, cmd1, evs1)
  end.
Proof.
  simpl. unfold bind at 1.
  destruct (authenticateSSO_passcode prompts credentials cmd h)
    as [[[credentials1|e|] cmd1] evs1]; try reflexivity.
  cbn -[authenticateSSO_loop].
  rewrite <- !app_assoc. cbn -[authenticateSSO_loop].
  destruct (Authenticate _ _ _ _ _) as [e|]; cbn -[authenticateSSO_loop];
    [|reflexivity].
  rewrite <- !app_assoc. cbn -[authenticateSSO_loop].
  destruct (authenticateSSO_loop _ _ _ _ _ _ _) as [[r c] evs]. reflexivity.
Qed.

(** The loop of [authenticate] calls [Authenticate] at most once per
    iteration. *)
Lemma authenticate_loop_attempts_le tries err prompts credentials passwordKeys cmd h :
  length (attempts (calls
    (authenticate_loop pkg tries err prompts credentials passwordKeys cmd h))) <= tries.
Proof.
  revert err credentials cmd h.
  induction tries as [|tries IH]; intros err credentials cmd h; [simpl; lia|].
  rewrite authenticate_loop_S.
  pose proof (passwordPrompts_calls prompts credentials passwordKeys cmd h) as Hc.
  destruct (passwordPrompts prompts credentials passwordKeys cmd h)
    as [[[prompted|e|] cmd1] evs1]; unfold calls in Hc; simpl in Hc;
    apply attempts_collector in Hc.
  - cbv zeta. destruct (Authenticate _ _ _ _ _) as [e|].
    + destruct (isAccountLockedError e); unfold calls at 1; simpl snd;
        rewrite !attempts_app, Hc; simpl; [lia|].
      match goal with |- context [authenticate_loop ?a ?b ?c ?d ?e ?f ?g ?i] =>
        specialize (IH c e g i) end.
      lia.
    + unfold calls; simpl snd. rewrite !attempts_app, Hc. simpl. lia.
  - unfold calls; simpl. rewrite Hc. simpl. lia.
  - unfold calls; simpl. rewrite Hc. simpl. lia.
Qed.

(** When its first call of [Authenticate] succeeds, or fails with an
    account-locked error, the loop of [authenticate] makes no other. *)
Lemma authenticate_loop_first_final tries err prompts credentials passwordKeys cmd h
    first later :
  attempts (calls
    (authenticate_loop pkg tries err prompts credentials passwordKeys cmd h))
    = first :: later ->
  match authenticateResult first with
  | None => True
  | Some e => isAccountLockedError e = true
  end ->
  later = [].
Proof.
  destruct tries as [|tries]; [discriminate|].
  rewrite authenticate_loop_S.
  pose proof (passwordPrompts_calls prompts credentials passwordKeys cmd h) as Hc.
  destruct (passwordPrompts prompts credentials passwordKeys cmd h)
    as [[[prompted|e|] cmd1] evs1]; unfold calls in Hc; simpl in Hc;
    apply attempts_collector in Hc.
  - cbv zeta. destruct (Authenticate _ _ _ _ _) as [e|] eqn:Hanswer.
    + destruct (isAccountLockedError e) eqn:Hlocked; unfold calls at 1; simpl snd;
        rewrite !attempts_app, Hc; simpl; intros [= <- <-]; simpl.
      * reflexivity.
      * congruence.
    + unfold calls; simpl snd. rewrite !attempts_app, Hc. simpl.
      intros [= <- <-]. reflexivity.
  - unfold calls; simpl. rewrite Hc. discriminate.
  - unfold calls; simpl. rewrite Hc. discriminate.
Qed.

(** The loop of [authenticateSSO] calls [Authenticate] at most once per
    iteration. *)
Lemma authenticateSSO_loop_attempts_le tries err prompts credentials cmd h :
  length (attempts (calls
    (authenticateSSO_loop pkg tries err prompts credentials cmd h))) <= tries.
Proof.
  revert err credentials cmd h.
  induction tries as [|tries IH]; intros err credentials cmd h; [simpl; lia|].
  rewrite authenticateSSO_loop_S.
  pose proof (authenticateSSO_passcode_calls prompts credentials cmd h) as Hc.
  destruct (authenticateSSO_passcode prompts credentials cmd h)
    as [[[credentials1|e|] cmd1] evs1]; unfold calls in Hc; simpl in Hc;
    apply attempts_collector in Hc.
  - cbv zeta. destruct (Authenticate _ _ _ _ _) as [e|].
    + unfold calls at 1; simpl snd. rewrite !attempts_app, Hc. simpl.
      match goal with |- context [authenticateSSO_loop ?a ?b ?c ?d ?e ?f ?g] =>
        specialize (IH c e f g) end.
      lia.
    + unfold calls; simpl snd. rewrite !attempts_app, Hc. simpl. lia.
  - unfold calls; simpl. rewrite Hc. simpl. lia.
  - unfold calls; simpl. rewrite Hc. simpl. lia.
Qed.

(** When its first call of [Authenticate] succeeds, the loop of
    [authenticateSSO] makes no other. *)
Lemma authenticateSSO_loop_first_success tries err prompts credentials cmd h
    first later :
  attempts (calls (authenticateSSO_loop pkg tries err prompts credentials cmd h))
    = first :: later ->
  authenticateResult first = None ->
  later = [].
Proof.
  destruct tries as [|tries]; [discriminate|].
  rewrite authenticateSSO_loop_S.
  pose proof (authenticateSSO_passcode_calls prompts credentials cmd h) as Hc.
  destruct (authenticateSSO_passcode prompts credentials cmd h)
    as [[[credentials1|e|] cmd1] evs1]; unfold calls in Hc; simpl in Hc;
    apply attempts_collector in Hc.
  - cbv zeta. destruct (Authenticate _ _ _ _ _) as [e|] eqn:Hanswer.
    + unfold calls at 1; simpl snd. rewrite !attempts_app, Hc. simpl.
      intros [= <- <-]. simpl. congruence.
    + unfold calls; simpl snd. rewrite !attempts_app, Hc. simpl.
      intros [= <- <-]. reflexivity.
  - unfold calls; simpl. rewrite Hc. discriminate.
  - unfold calls; simpl. rewrite Hc. discriminate.
Qed.

End Loops.

(** ** The credential collector stops at the first prompt that fails *)

Lemma answered_app evs1 evs2 :
  answered (evs1 ++ evs2) = answered evs1 && answered evs2.
Proof. apply forallb_app. Qed.

Section Collects.

Context {A B : Type}.

Lemma collects_bind (m : M A) (k : A -> M B) :
  collects m -> (forall a, collects (k a)) -> collects (bind m k).
Proof.
  intros Hm Hk cmd h. specialize (Hm cmd h). unfold bind, outcome, calls in *.
  destruct (m cmd h) as [[[a|e|] cmd1] evs1]; simpl in *; try assumption.
  specialize (Hk a cmd1 (h ++ evs1)). unfold outcome, calls in Hk.
  destruct (k a cmd1 (h ++ evs1)) as [[[b|e|] cmd2] evs2]; simpl in *.
  - rewrite answered_app, Hm, Hk. reflexivity.
  - destruct Hk as (before & ev & -> & Hbefore & Hev).
    exists (evs1 ++ before), ev. rewrite app_assoc, answered_app, Hm, Hbefore.
    auto.
  - assumption.
Qed.

Lemma collects_ret (a : A) : collects (ret a).
Proof. intros cmd h. reflexivity. Qed.

End Collects.

Lemma collects_getCmd : collects getCmd.
Proof. intros cmd h. reflexivity. Qed.

Lemma collects_modifyCmd f : collects (modifyCmd f).
Proof. intros cmd h. reflexivity. Qed.

Lemma collects_emit e : promptFailed e = false -> collects (emit e).
Proof. intros He cmd h. unfold answered. simpl. rewrite He. reflexivity. Qed.

Lemma collects_ui_DisplayTextPrompt template : collects (ui_DisplayTextPrompt template).
Proof.
  intros cmd h. unfold ui_DisplayTextPrompt, outcome, calls.
  destruct (command.DisplayTextPrompt _ _ _) as [answer [e|]]; simpl.
  - exists [], (UI_DisplayTextPrompt template answer (Some e)). auto.
  - reflexivity.
Qed.

Lemma collects_ui_DisplayPasswordPrompt template :
  collects (ui_DisplayPasswordPrompt template).
Proof.
  intros cmd h. unfold ui_DisplayPasswordPrompt, outcome, calls.
  destruct (command.DisplayPasswordPrompt _ _ _) as [answer [e|]]; simpl.
  - exists [], (UI_DisplayPasswordPrompt template answer (Some e)). auto.
  - reflexivity.
Qed.

Ltac collects_step :=
  lazymatch goal with
  | |- collects (bind _ _) => apply collects_bind; [| intros ?]
  | |- collects (ret _) => apply collects_ret
  | |- collects getCmd => apply collects_getCmd
  | |- collects (modifyCmd _) => apply collects_modifyCmd
  | |- collects ui_DisplayNewline => apply collects_emit; reflexivity
  | |- collects (ui_DisplayTextPrompt _) => apply collects_ui_DisplayTextPrompt
  | |- collects (ui_DisplayPasswordPrompt _) => apply collects_ui_DisplayPasswordPrompt
  | |- collects (match ?x with _ => _ end) => destruct x
  end.

Lemma passwordPrompts_keys_collects prompts passwordKeys credentials :
  collects (passwordPrompts_keys prompts passwordKeys credentials).
Proof.
  revert credentials. induction passwordKeys as [|key rest IH]; intros credentials;
    simpl; repeat collects_step. apply IH.
Qed.

Lemma passwordPrompts_collects prompts credentials passwordKeys :
  collects (passwordPrompts prompts credentials passwordKeys).
Proof.
  unfold passwordPrompts. repeat collects_step. apply passwordPrompts_keys_collects.
Qed.

Lemma authenticate_username_collects prompts credentials :
  collects (authenticate_username prompts credentials).
Proof. unfold authenticate_username. repeat collects_step. Qed.

Lemma authenticate_range_collects entries credentials passwordKeys :
  collects (authenticate_range entries credentials passwordKeys).
Proof.
  revert credentials passwordKeys.
  induction entries as [|[key prompt] rest IH]; intros credentials passwordKeys;
    simpl; repeat collects_step; apply IH.
Qed.

Lemma authenticateSSO_passcode_collects prompts credentials :
  collects (authenticateSSO_passcode prompts credentials).
Proof. unfold authenticateSSO_passcode. repeat collects_step. Qed.


(** Reading a run of [bind m k] back into a run of [m] and one of [k]. *)
Lemma bind_inv {A B} (m : M A) (k : A -> M B) cmd h r cmd' evs :
  bind m k cmd h = (r, cmd', evs) ->
  exists r1 cmd1 evs1,
    m cmd h = (r1, cmd1, evs1)
    /\ match r1 with
       | Ok a => exists evs2, k a cmd1 (h ++ evs1) = (r, cmd', evs2) /\ evs = evs1 ++ evs2
       | Fail e => r = Fail e /\ cmd' = cmd1 /\ evs = evs1
       | Panic => r = Panic /\ cmd' = cmd1 /\ evs = evs1
       end.
Proof.
  unfold bind. destruct (m cmd h) as [[[a|e|] cmd1] evs1].
  - destruct (k a cmd1 (h ++ evs1)) as [[r2 cmd2] evs2] eqn:Hk. intros [= <- <- <-].
    exists (Ok a), cmd1, evs1. eauto.
  - intros [= <- <- <-]. exists (Fail e), cmd1, evs1. auto.
  - intros [= <- <- <-]. exists Panic, cmd1, evs1. auto.
Qed.

Lemma bind_ask_eq {A B} (f : LoginCommand -> History -> A) (k : A -> M B) cmd h :
  bind (ask f) k cmd h = k (f cmd h) cmd h.
Proof.
  unfold bind, ask. rewrite app_nil_r. destruct (k (f cmd h) cmd h) as [[r c] evs].
  reflexivity.
Qed.

Lemma bind_getCmd_eq {B} (k : LoginCommand -> M B) cmd h :
  bind getCmd k cmd h = k cmd cmd h.
Proof.
  unfold bind, getCmd. rewrite app_nil_r. destruct (k cmd cmd h) as [[r c] evs].
  reflexivity.
Qed.

Lemma bind_emit_eq {B} (e : Event) (k : unit -> M B) cmd h :
  bind (emit e) k cmd h = prepend [e] (k tt cmd (h ++ [e])).
Proof.
  unfold bind, emit. destruct (k tt cmd (h ++ [e])) as [[r c] evs]. reflexivity.
Qed.

Lemma bind_call_eq {A B} (m : M A) (k : A -> M B) cmd h a ev :
  m cmd h = (Ok a, cmd, [ev]) ->
  bind m k cmd h = prepend [ev] (k a cmd (h ++ [ev])).
Proof.
  intros Hm. unfold bind. rewrite Hm.
  destruct (k a cmd (h ++ [ev])) as [[r c] evs]. reflexivity.
Qed.

Lemma bind_ret_eq {A B} (a : A) (k : A -> M B) cmd h : bind (ret a) k cmd h = k a cmd h.
Proof.
  unfold bind, ret. rewrite app_nil_r. destruct (k a cmd h) as [[r c] evs]. reflexivity.
Qed.

Lemma bind_assoc {A B C} (m : M A) (f : A -> M B) (g : B -> M C) cmd h :
  bind (bind m f) g cmd h = bind m (fun a => bind (f a) g) cmd h.
Proof.
  unfold bind. destruct (m cmd h) as [[[a|e|] cmd1] evs1]; try reflexivity.
  destruct (f a cmd1 (h ++ evs1)) as [[[b|e|] cmd2] evs2]; try reflexivity.
  rewrite <- app_assoc.
  destruct (g b cmd2 (h ++ evs1 ++ evs2)) as [[r cmd3] evs3].
  rewrite <- app_assoc. reflexivity.
Qed.

Lemma prepend_prepend {A} evs1 evs2 (r : Result A * LoginCommand * list Event) :
  prepend evs1 (prepend evs2 r) = prepend (evs1 ++ evs2) r.
Proof. unfold prepend, outcome, receiver, calls. cbn. rewrite app_assoc. reflexivity. Qed.

(** Methods that leave the receiver alone. *)
Lemma keeps_receiver_bind {A B} (m : M A) (k : A -> M B) :
  keeps_receiver m -> (forall a, keeps_receiver (k a)) -> keeps_receiver (bind m k).
Proof.
  intros Hm Hk cmd h. specialize (Hm cmd h). unfold bind, receiver in *.
  destruct (m cmd h) as [[[a|e|] cmd1] evs1]; simpl in *; try assumption.
  specialize (Hk a cmd1 (h ++ evs1)). unfold receiver in Hk.
  destruct (k a cmd1 (h ++ evs1)) as [[r cmd2] evs2]; simpl in *. congruence.
Qed.

Lemma keeps_receiver_ret {A} (a : A) : keeps_receiver (ret a).
Proof. intros cmd h. reflexivity. Qed.

Lemma keeps_receiver_getCmd : keeps_receiver getCmd.
Proof. intros cmd h. reflexivity. Qed.

Lemma keeps_receiver_emit e : keeps_receiver (emit e).
Proof. intros cmd h. reflexivity. Qed.

Lemma keeps_receiver_ui_DisplayTextPrompt template :
  keeps_receiver (ui_DisplayTextPrompt template).
Proof.
  intros cmd h. unfold ui_DisplayTextPrompt, receiver.
  destruct (command.DisplayTextPrompt _ _ _). reflexivity.
Qed.

Lemma keeps_receiver_ui_DisplayPasswordPrompt template :
  keeps_receiver (ui_DisplayPasswordPrompt template).
Proof.
  intros cmd h. unfold ui_DisplayPasswordPrompt, receiver.
  destruct (command.DisplayPasswordPrompt _ _ _). reflexivity.
Qed.

Ltac keeps_step :=
  lazymatch goal with
  | |- keeps_receiver (bind _ _) => apply keeps_receiver_bind; [| intros ?]
  | |- keeps_receiver (ret _) => apply keeps_receiver_ret
  | |- keeps_receiver getCmd => apply keeps_receiver_getCmd
  | |- keeps_receiver ui_DisplayNewline => apply keeps_receiver_emit
  | |- keeps_receiver (ui_DisplayTextPrompt _) => apply keeps_receiver_ui_DisplayTextPrompt
  | |- keeps_receiver (ui_DisplayPasswordPrompt _) =>
      apply keeps_receiver_ui_DisplayPasswordPrompt
  | |- keeps_receiver (match ?x with _ => _ end) => destruct x
  end.

Lemma authenticate_username_keeps prompts credentials :
  keeps_receiver (authenticate_username prompts credentials).
Proof. unfold authenticate_username. repeat keeps_step. Qed.

Lemma authenticate_range_keeps entries credentials passwordKeys :
  keeps_receiver (authenticate_range entries credentials passwordKeys).
Proof.
  revert credentials passwordKeys.
  induction entries as [|[key prompt] rest IH]; intros credentials passwordKeys;
    simpl; repeat keeps_step; apply IH.
Qed.

Lemma passwordPrompts_keys_keeps prompts passwordKeys credentials :
  keeps_receiver (passwordPrompts_keys prompts passwordKeys credentials).
Proof.
  revert credentials. induction passwordKeys as [|key rest IH]; intros credentials;
    simpl; repeat keeps_step. apply IH.
Qed.

Section Flows.

Variable pkg : Packages.

(** A run of [authenticate], stage by stage: the user name, the other
    text prompts, and the loop when both went well. *)
Lemma authenticate_inv cmd h r cmd' evs :
  authenticate pkg cmd h = (r, cmd', evs) ->
  let prompts := GetLoginPrompts (Actor cmd) h in
  exists h1 ru evs1,
    authenticate_username prompts ∅ cmd h1 = (ru, cmd, evs1)
    /\ match ru with
       | Ok credentials =>
           exists h2 rg evs2,
             authenticate_range prompts credentials [] cmd h2 = (rg, cmd, evs2)
             /\ match rg with
                | Ok ranged =>
                    exists h3 rl evs3,
                      authenticate_loop pkg maxLoginTries None prompts
                        ranged.1 ranged.2 cmd h3 = (rl, cmd', evs3)
                      /\ r = afterLoop rl
                      /\ evs = Actor_GetLoginPrompts prompts :: evs1 ++ evs2 ++ evs3
                | Fail e =>
                    r = Fail e /\ cmd' = cmd
                    /\ evs = Actor_GetLoginPrompts prompts :: evs1 ++ evs2
                | Panic =>
                    r = Panic /\ cmd' = cmd
                    /\ evs = Actor_GetLoginPrompts prompts :: evs1 ++ evs2
                end
       | Fail e => r = Fail e /\ cmd' = cmd /\ evs = Actor_GetLoginPrompts prompts :: evs1
       | Panic => r = Panic /\ cmd' = cmd /\ evs = Actor_GetLoginPrompts prompts :: evs1
       end.
Proof.
  intros Hrun prompts. unfold authenticate in Hrun.
  apply bind_inv in Hrun as (r0 & cmd0 & evs0 & H0 & Hrun).
  unfold actor_GetLoginPrompts in H0. injection H0 as <- <- <-.
  destruct Hrun as (evsA & Hrun & ->). fold prompts in Hrun.
  apply bind_inv in Hrun as (ru & cmd1 & evs1 & Hu & Hrun).
  pose proof (authenticate_username_keeps prompts ∅ cmd
                (h ++ [Actor_GetLoginPrompts prompts])) as Hk.
  rewrite Hu in Hk. cbn in Hk. subst cmd1.
  exists (h ++ [Actor_GetLoginPrompts prompts]), ru, evs1. split; [exact Hu|].
  destruct ru as [credentials|e|].
  - destruct Hrun as (evsB & Hrun & ->).
    apply bind_inv in Hrun as (rg & cmd2 & evs2 & Hg & Hrun).
    match type of Hg with authenticate_range ?a ?b ?c ?d ?e = _ =>
      pose proof (authenticate_range_keeps a b c d e) as Hk2 end.
    rewrite Hg in Hk2. cbn in Hk2. subst cmd2.
    eexists _, rg, evs2. split; [exact Hg|].
    destruct rg as [ranged|e|].
    + destruct Hrun as (evsC & Hrun & ->).
      apply bind_inv in Hrun as (rl & cmd3 & evs3 & Hl & Hrun).
      eexists _, rl, evs3.
      destruct rl as [[e|]|e|].
      * destruct Hrun as (evsD & Hrun & ->). unfold check, fail, ret in Hrun.
        injection Hrun as <- <- <-. rewrite app_nil_r. eauto.
      * destruct Hrun as (evsD & Hrun & ->). unfold check, fail, ret in Hrun.
        injection Hrun as <- <- <-. rewrite app_nil_r. eauto.
      * destruct Hrun as (-> & -> & ->). eauto.
      * destruct Hrun as (-> & -> & ->). eauto.
    + destruct Hrun as (-> & -> & ->). eauto.
    + destruct Hrun as (-> & -> & ->). eauto.
  - destruct Hrun as (-> & -> & ->). eauto.
  - destruct Hrun as (-> & -> & ->). eauto.
Qed.

(** A run of [authenticateSSO]: the loop. *)
Lemma authenticateSSO_inv cmd h r cmd' evs :
  authenticateSSO pkg cmd h = (r, cmd', evs) ->
  let prompts := GetLoginPrompts (Actor cmd) h in
  exists h1 rl evs1,
    authenticateSSO_loop pkg maxLoginTries None prompts ∅ cmd h1 = (rl, cmd', evs1)
    /\ r = afterLoop rl
    /\ evs = Actor_GetLoginPrompts prompts :: evs1.
Proof.
  intros Hrun prompts. unfold authenticateSSO in Hrun.
  apply bind_inv in Hrun as (r0 & cmd0 & evs0 & H0 & Hrun).
  unfold actor_GetLoginPrompts in H0. injection H0 as <- <- <-.
  destruct Hrun as (evsA & Hrun & ->). fold prompts in Hrun.
  apply bind_inv in Hrun as (rl & cmd3 & evs3 & Hl & Hrun).
  eexists _, rl, evs3.
  destruct rl as [[e|]|e|].
  - destruct Hrun as (evsD & Hrun & ->). unfold check, fail, ret in Hrun.
    injection Hrun as <- <- <-. rewrite app_nil_r. eauto.
  - destruct Hrun as (evsD & Hrun & ->). unfold check, fail, ret in Hrun.
    injection Hrun as <- <- <-. rewrite app_nil_r. eauto.
  - destruct Hrun as (-> & -> & ->). eauto.
  - destruct Hrun as (-> & -> & ->). eauto.
Qed.

(** The password flow calls [Authenticate] at most [maxLoginTries] times,
    and once only when the first call succeeds or reports a locked
    account. *)
Theorem authenticate_attempts cmd h :
  length (attempts (calls (authenticate pkg cmd h))) <= maxLoginTries
  /\ forall first later,
       attempts (calls (authenticate pkg cmd h)) = first :: later ->
       match authenticateResult first with
       | None => True
       | Some e => isAccountLockedError e = true
       end ->
       later = [].
Proof.
  destruct (authenticate pkg cmd h) as [[r cmd'] evs] eqn:Hrun.
  apply authenticate_inv in Hrun as (h1 & ru & evs1 & Hu & Hrun).
  match type of Hu with authenticate_username ?a ?b ?c ?d = _ =>
    pose proof (authenticate_username_calls a b c d) as Hu' end.
  rewrite Hu in Hu'. apply attempts_collector in Hu'. unfold calls in Hu'. cbn [snd] in Hu'.
  unfold calls. cbn [snd].
  destruct ru as [credentials|e|].
  - destruct Hrun as (h2 & rg & evs2 & Hg & Hrun).
    match type of Hg with authenticate_range ?a ?b ?c ?d ?e = _ =>
      pose proof (authenticate_range_calls a b c d e) as Hg' end.
    rewrite Hg in Hg'. apply attempts_collector in Hg'. unfold calls in Hg'. cbn [snd] in Hg'.
    destruct rg as [ranged|e|].
    + destruct Hrun as (h3 & rl & evs3 & Hl & -> & ->).
      change (attempts (?e :: ?l)) with (attempts l).
      rewrite !attempts_app, Hu', Hg'. cbn [app].
      replace evs3 with (calls (authenticate_loop pkg maxLoginTries None
        (GetLoginPrompts (Actor cmd) h) ranged.1 ranged.2 cmd h3))
        by (rewrite Hl; reflexivity).
      split; [apply authenticate_loop_attempts_le|].
      intros first later. apply authenticate_loop_first_final.
    + destruct Hrun as (-> & -> & ->).
      change (attempts (?e :: ?l)) with (attempts l).
      rewrite !attempts_app, Hu', Hg'. split; [simpl; lia | discriminate].
    + destruct Hrun as (-> & -> & ->).
      change (attempts (?e :: ?l)) with (attempts l).
      rewrite !attempts_app, Hu', Hg'. split; [simpl; lia | discriminate].
  - destruct Hrun as (-> & -> & ->).
    change (attempts (?e :: ?l)) with (attempts l).
    rewrite Hu'. split; [simpl; lia | discriminate].
  - destruct Hrun as (-> & -> & ->).
    change (attempts (?e :: ?l)) with (attempts l).
    rewrite Hu'. split; [simpl; lia | discriminate].
Qed.

(** The SSO flow calls [Authenticate] at most [maxLoginTries] times, and
    once only when the first call succeeds. *)
Theorem authenticateSSO_attempts cmd h :
  length (attempts (calls (authenticateSSO pkg cmd h))) <= maxLoginTries
  /\ forall first later,
       attempts (calls (authenticateSSO pkg cmd h)) = first :: later ->
       authenticateResult first = None ->
       later = [].
Proof.
  destruct (authenticateSSO pkg cmd h) as [[r cmd'] evs] eqn:Hrun.
  apply authenticateSSO_inv in Hrun as (h1 & rl & evs1 & Hl & -> & ->).
  unfold calls. cbn [snd]. change (attempts (?e :: ?l)) with (attempts l).
  replace evs1 with (calls (authenticateSSO_loop pkg maxLoginTries None
    (GetLoginPrompts (Actor cmd) h) ∅ cmd h1)) by (rewrite Hl; reflexivity).
  split; [apply authenticateSSO_loop_attempts_le|].
  intros first later. apply authenticateSSO_loop_first_success.
Qed.

(** *** A prompt that fails ends the flow *)

Lemma answered_or_failed_last {A} (r : Result A * LoginCommand * list Event) :
  answered (calls r) = true \/ endsAtFailedPrompt r ->
  forall before ev after e,
    calls r = before ++ ev :: after -> promptError ev = Some e ->
    after = [] /\ outcome r = Fail e.
Proof.
  intros [Hall|(before' & ev' & e' & Hcalls & Hbefore & Hev & Hout)]
    before ev after e Heq Herr.
  - rewrite Heq, answered_app in Hall. simpl in Hall.
    unfold promptFailed in Hall. rewrite Herr in Hall. simpl in Hall.
    rewrite andb_false_r in Hall. discriminate.
  - rewrite Hcalls in Heq.
    destruct after as [|x after _] using rev_ind.
    + apply app_inj_tail in Heq as [-> ->]. split; [reflexivity | congruence].
    + change (before ++ ev :: after ++ [x]) with (before ++ (ev :: after) ++ [x]) in Heq.
      rewrite app_assoc in Heq. apply app_inj_tail in Heq as [-> ->].
      rewrite answered_app in Hbefore. simpl in Hbefore.
      unfold promptFailed in Hbefore. rewrite Herr in Hbefore. simpl in Hbefore.
      rewrite andb_false_r in Hbefore. discriminate.
Qed.

Lemma authenticate_loop_stops_at_failed_prompt tries err prompts credentials
    passwordKeys cmd h :
  let r := authenticate_loop pkg tries err prompts credentials passwordKeys cmd h in
  answered (calls r) = true \/ endsAtFailedPrompt r.
Proof.
  revert err credentials cmd h.
  induction tries as [|tries IH]; intros err credentials cmd h; [left; reflexivity|].
  cbv zeta. rewrite authenticate_loop_S.
  pose proof (passwordPrompts_collects prompts credentials passwordKeys cmd h) as Hc.
  unfold outcome, calls in Hc.
  destruct (passwordPrompts prompts credentials passwordKeys cmd h)
    as [[[prompted|e|] cmd1] evs1]; cbn [fst snd] in Hc.
  - cbv zeta. destruct (Authenticate _ _ _ _ _) as [e|].
    + destruct (isAccountLockedError e).
      * left. unfold calls. cbn [snd]. rewrite answered_app, Hc. reflexivity.
      * match goal with |- context [authenticate_loop ?a ?b ?c ?d ?e ?f ?g ?i] =>
          destruct (IH c e g i)
            as [Hl|(before & ev & e' & Hcalls & Hbefore & Hev & Hout)] end.
        -- left. unfold calls at 1. cbn [snd].
           rewrite !answered_app, Hc, Hl. reflexivity.
        -- right. unfold endsAtFailedPrompt, calls at 1, outcome at 1.
           cbn [fst snd]. rewrite Hcalls.
           match goal with |- context [evs1 ++ ?shown ++ before ++ [ev]] =>
             exists (evs1 ++ shown ++ before), ev, e' end.
           rewrite !answered_app, Hc, Hbefore, <- !app_assoc. auto.
    + left. unfold calls. cbn [snd]. rewrite answered_app, Hc. reflexivity.
  - right. destruct Hc as (before & ev & Hcalls & Hbefore & Hev).
    exists before, ev, e. auto.
  - destruct Hc.
Qed.

Lemma authenticateSSO_loop_stops_at_failed_prompt tries err prompts credentials cmd h :
  let r := authenticateSSO_loop pkg tries err prompts credentials cmd h in
  answered (calls r) = true \/ endsAtFailedPrompt r.
Proof.
  revert err credentials cmd h.
  induction tries as [|tries IH]; intros err credentials cmd h; [left; reflexivity|].
  cbv zeta. rewrite authenticateSSO_loop_S.
  pose proof (authenticateSSO_passcode_collects prompts credentials cmd h) as Hc.
  unfold outcome, calls in Hc.
  destruct (authenticateSSO_passcode prompts credentials cmd h)
    as [[[credentials1|e|] cmd1] evs1]; cbn [fst snd] in Hc.
  - cbv zeta. destruct (Authenticate _ _ _ _ _) as [e|].
    + match goal with |- context [authenticateSSO_loop ?a ?b ?c ?d ?e ?f ?g] =>
        destruct (IH c e f g)
          as [Hl|(before & ev & e' & Hcalls & Hbefore & Hev & Hout)] end.
      * left. unfold calls at 1. cbn [snd].
        rewrite !answered_app, Hc, Hl. reflexivity.
      * right. unfold endsAtFailedPrompt, calls at 1, outcome at 1.
        cbn [fst snd]. rewrite Hcalls.
        match goal with |- context [evs1 ++ ?shown ++ before ++ [ev]] =>
          exists (evs1 ++ shown ++ before), ev, e' end.
        rewrite !answered_app, Hc, Hbefore, <- !app_assoc. auto.
    + left. unfold calls. cbn [snd]. rewrite answered_app, Hc. reflexivity.
  - right. destruct Hc as (before & ev & Hcalls & Hbefore & Hev).
    exists before, ev, e. auto.
  - destruct Hc.
Qed.

Lemma endsAtFailedPrompt_after {A} (cmd' : LoginCommand) pre before ev e :
  answered pre = true -> answered before = true -> promptError ev = Some e ->
  endsAtFailedPrompt (@Fail A e, cmd', pre ++ before ++ [ev]).
Proof.
  intros Hpre Hbefore Hev. exists (pre ++ before), ev, e.
  unfold calls, outcome. cbn [fst snd].
  rewrite answered_app, Hpre, Hbefore, app_assoc. auto.
Qed.

(** The password flow stops at the first prompt that fails. *)
Lemma authenticate_stops_at_failed_prompt cmd h :
  answered (calls (authenticate pkg cmd h)) = true
  \/ endsAtFailedPrompt (authenticate pkg cmd h).
Proof.
  destruct (authenticate pkg cmd h) as [[r cmd'] evs] eqn:Hrun.
  apply authenticate_inv in Hrun as (h1 & ru & evs1 & Hu & Hrun).
  match type of Hu with authenticate_username ?a ?b ?c ?d = _ =>
    pose proof (authenticate_username_collects a b c d) as Hu' end.
  rewrite Hu in Hu'. unfold outcome, calls in Hu'. cbn [fst snd] in Hu'.
  set (ev0 := Actor_GetLoginPrompts (GetLoginPrompts (Actor cmd) h)) in *.
  destruct ru as [credentials|e|].
  - destruct Hrun as (h2 & rg & evs2 & Hg & Hrun).
    match type of Hg with authenticate_range ?a ?b ?c ?d ?e = _ =>
      pose proof (authenticate_range_collects a b c d e) as Hg' end.
    rewrite Hg in Hg'. unfold outcome, calls in Hg'. cbn [fst snd] in Hg'.
    destruct rg as [ranged|e|].
    + destruct Hrun as (h3 & rl & evs3 & Hl & -> & ->).
      match type of Hl with authenticate_loop ?a ?b ?c ?d ?e ?f ?g ?i = _ =>
        pose proof (authenticate_loop_stops_at_failed_prompt b c d e f g i) as Hl' end.
      cbv zeta in Hl'. rewrite Hl in Hl'.
      destruct Hl' as [Hl'|(before & ev & e & Hcalls & Hbefore & Hev & Hout)].
      * left. unfold calls in *. cbn [snd] in *.
        change (ev0 :: ?l) with ([ev0] ++ l).
        rewrite !answered_app, Hu', Hg', Hl'. reflexivity.
      * right. unfold calls, outcome in Hcalls, Hout. cbn [fst snd] in Hcalls, Hout.
        subst rl evs3. cbn [afterLoop].
        change (ev0 :: evs1 ++ evs2 ++ before ++ [ev])
          with ([ev0] ++ evs1 ++ evs2 ++ before ++ [ev]).
        rewrite !app_assoc. rewrite <- (app_assoc _ before).
        apply endsAtFailedPrompt_after; [|assumption..].
        rewrite !answered_app, Hu', Hg'. reflexivity.
    + destruct Hrun as (-> & -> & ->). right.
      destruct Hg' as (before & ev & -> & Hbefore & Hev).
      change (ev0 :: evs1 ++ before ++ [ev]) with ([ev0] ++ evs1 ++ before ++ [ev]).
      rewrite !app_assoc. rewrite <- (app_assoc _ before).
      apply endsAtFailedPrompt_after; [|assumption..].
      rewrite !answered_app, Hu'. reflexivity.
    + destruct Hg'.
  - destruct Hrun as (-> & -> & ->). right.
    destruct Hu' as (before & ev & -> & Hbefore & Hev).
    change (ev0 :: before ++ [ev]) with ([ev0] ++ before ++ [ev]).
    apply endsAtFailedPrompt_after; [reflexivity|assumption..].
  - destruct Hu'.
Qed.

(** The SSO flow stops at the first prompt that fails. *)
Lemma authenticateSSO_stops_at_failed_prompt cmd h :
  answered (calls (authenticateSSO pkg cmd h)) = true
  \/ endsAtFailedPrompt (authenticateSSO pkg cmd h).
Proof.
  destruct (authenticateSSO pkg cmd h) as [[r cmd'] evs] eqn:Hrun.
  apply authenticateSSO_inv in Hrun as (h1 & rl & evs1 & Hl & -> & ->).
  set (ev0 := Actor_GetLoginPrompts (GetLoginPrompts (Actor cmd) h)) in *.
  match type of Hl with authenticateSSO_loop ?a ?b ?c ?d ?e ?f ?g = _ =>
    pose proof (authenticateSSO_loop_stops_at_failed_prompt b c d e f g) as Hl' end.
  cbv zeta in Hl'. rewrite Hl in Hl'.
  destruct Hl' as [Hl'|(before & ev & e & Hcalls & Hbefore & Hev & Hout)].
  - left. unfold calls in *. cbn [snd] in *.
    change (ev0 :: ?l) with ([ev0] ++ l). rewrite !answered_app, Hl'. reflexivity.
  - right. unfold calls, outcome in Hcalls, Hout. cbn [fst snd] in Hcalls, Hout.
    subst rl evs1. cbn [afterLoop].
    change (ev0 :: before ++ [ev]) with ([ev0] ++ before ++ [ev]).
    apply endsAtFailedPrompt_after; [reflexivity|assumption..].
Qed.

End Flows.

(** ** The stages of [Execute] *)

Lemma keeps_receiver_ask {A} (f : LoginCommand -> History -> A) : keeps_receiver (ask f).
Proof. intros cmd h. reflexivity. Qed.

Lemma keeps_receiver_check err : keeps_receiver (check err).
Proof. destruct err; intros cmd h; reflexivity. Qed.

Lemma keeps_receiver_panic {A} : keeps_receiver (@panic A).
Proof. intros cmd h. reflexivity. Qed.

Lemma keeps_receiver_actor_SetTarget settings : keeps_receiver (actor_SetTarget settings).
Proof.
  intros cmd h. unfold actor_SetTarget, receiver. destruct (SetTarget _ _ _). reflexivity.
Qed.

Lemma set_APIEndpoint_same cmd : set_APIEndpoint (APIEndpoint cmd) cmd = cmd.
Proof. destruct cmd. reflexivity. Qed.

(** Lists of calls, associated to the right. *)
Ltac norm_app := repeat (progress (cbn [app]) || rewrite <- app_assoc).
Ltac norm_app_in H := repeat (progress (cbn [app] in H) || rewrite <- app_assoc in H).

Lemma resolveCall_only evs :
  forallb resolveCall evs = true ->
  forallb targetCall evs = true /\ existsb isRebuilt evs = false.
Proof.
  induction evs as [|e evs IH]; [auto|]. cbn [forallb existsb].
  intros [He Hevs]%andb_prop. destruct (IH Hevs) as [-> ->].
  unfold targetCall. rewrite He. destruct e; try discriminate; auto.
Qed.

Section Stages.

Variable pkg : Packages.

Lemma Execute_target_keeps : keeps_receiver (Execute_target pkg).
Proof.
  unfold Execute_target.
  repeat first [ keeps_step | apply keeps_receiver_ask | apply keeps_receiver_check
               | apply keeps_receiver_panic | apply keeps_receiver_actor_SetTarget ].
Qed.

(** [Execute_endpoint] assigns to [cmd.APIEndpoint] and to nothing else. *)
Lemma Execute_endpoint_receiver cmd h :
  exists endpoint, receiver (Execute_endpoint cmd h) = set_APIEndpoint endpoint cmd.
Proof.
  unfold Execute_endpoint, receiver, bind, getCmd, ask, modifyCmd,
    ui_DisplayTextWithFlavor, emit, ui_DisplayTextPrompt.
  destruct (negb (String.eqb (APIEndpoint cmd) "")); cbn.
  - exists (APIEndpoint cmd). symmetry. apply set_APIEndpoint_same.
  - destruct (negb (String.eqb (command.Target (Config cmd) _) "")); cbn.
    + eauto.
    + destruct (command.DisplayTextPrompt _ _ _) as [answer [e|]]; cbn.
      * exists (APIEndpoint cmd). symmetry. apply set_APIEndpoint_same.
      * eauto.
Qed.

Lemma reloadActor_inv cmd h :
  (exists actor,
     reloadActor cmd h = (Ok tt, set_Actor actor cmd, [ActorMaker_NewActor true None]))
  \/ (exists e,
     reloadActor cmd h = (Fail e, cmd, [ActorMaker_NewActor true (Some e)])).
Proof.
  unfold reloadActor, bind, actorMaker_NewActor, modifyCmd.
  destruct (NewActor _ _ _) as [actor|e]; cbn; eauto.
Qed.

(** A run of [Execute] with the experimental login enabled: either it
    stops before the client is rebuilt, or it goes on to the deferred
    part and ends with the status report. *)
Lemma Execute_inv args cmd h r cmd' evs :
  Execute pkg args cmd h = (r, cmd', evs) ->
  command.ExperimentalLogin (Config cmd) h = true ->
  exists pre,
    forallb targetCall pre = true
    /\ ((existsb isRebuilt pre = false /\ evs = pre /\ r <> Ok tt)
        \/ (exists endpoint actor rd cmdd evsd rs evss,
              existsb isRebuilt pre = true
              /\ Execute_deferred pkg (set_Actor actor (set_APIEndpoint endpoint cmd))
                   (h ++ pre) = (rd, cmdd, evsd)
              /\ showStatus cmdd (h ++ pre ++ evsd) = (rs, cmd', evss)
              /\ r = rd
              /\ evs = pre ++ evsd ++ evss)).
Proof.
  intros Hrun Hexp. unfold Execute in Hrun.
  apply bind_inv in Hrun as (r0 & c0 & evs0 & H0 & Hrun).
  unfold ask in H0. injection H0 as <- <- <-. rewrite Hexp in Hrun. cbn [negb] in Hrun.
  destruct Hrun as (evsA & Hrun & ->).
  apply bind_inv in Hrun as (r1 & c1 & evs1 & H1 & Hrun).
  unfold ui_DisplayWarning, emit in H1. injection H1 as <- <- <-.
  destruct Hrun as (evsB & Hrun & ->).
  apply bind_inv in Hrun as (re & ce & evse & He & Hrun).
  pose proof (Execute_endpoint_calls cmd ((h ++ []) ++ [UI_DisplayWarning
    "Using experimental login command, some behavior may be different"])) as Hea.
  destruct (Execute_endpoint_receiver cmd ((h ++ []) ++ [UI_DisplayWarning
    "Using experimental login command, some behavior may be different"]))
    as [endpoint Her].
  rewrite He in Hea, Her. unfold calls in Hea. unfold receiver in Her.
  cbn [fst snd] in Hea, Her. subst ce.
  apply resolveCall_only in Hea as [Hea1 Hea2].
  set (w := UI_DisplayWarning
    "Using experimental login command, some behavior may be different") in *.
  destruct re as [[]|e|]; cycle 1.
  { destruct Hrun as (-> & -> & ->). exists ([w] ++ evse). split.
    - rewrite forallb_app, Hea1. reflexivity.
    - left. rewrite existsb_app, Hea2. repeat split; discriminate. }
  { destruct Hrun as (-> & -> & ->). exists ([w] ++ evse). split.
    - rewrite forallb_app, Hea1. reflexivity.
    - left. rewrite existsb_app, Hea2. repeat split; discriminate. }
  destruct Hrun as (evsC & Hrun & ->).
  apply bind_inv in Hrun as (r2 & c2 & evs2 & H2 & Hrun).
  unfold ui_DisplayNewline, emit in H2. injection H2 as <- <- <-.
  destruct Hrun as (evsD & Hrun & ->).
  apply bind_inv in Hrun as (rt & ct & evst & Ht & Hrun).
  match type of Ht with Execute_target _ ?c ?hh = _ =>
    pose proof (Execute_target_calls pkg c hh) as Hta;
    pose proof (Execute_target_keeps c hh) as Htk end.
  rewrite Ht in Hta, Htk. unfold calls in Hta. unfold receiver in Htk.
  cbn [fst snd] in Hta, Htk. subst ct.
  apply resolveCall_only in Hta as [Hta1 Hta2].
  destruct rt as [[]|e|]; cycle 1.
  { destruct Hrun as (-> & -> & ->).
    exists ([w] ++ evse ++ [UI_DisplayNewline] ++ evst). split.
    - rewrite !forallb_app, Hea1, Hta1. reflexivity.
    - left. rewrite !existsb_app, Hea2, Hta2. repeat split; discriminate. }
  { destruct Hrun as (-> & -> & ->).
    exists ([w] ++ evse ++ [UI_DisplayNewline] ++ evst). split.
    - rewrite !forallb_app, Hea1, Hta1. reflexivity.
    - left. rewrite !existsb_app, Hea2, Hta2. repeat split; discriminate. }
  destruct Hrun as (evsE & Hrun & ->).
  apply bind_inv in Hrun as (rr & cr & evsr & Hr & Hrun).
  match type of Hr with reloadActor ?c ?hh = _ =>
    destruct (reloadActor_inv c hh) as [[actor Hr']|[e Hr']] end;
    rewrite Hr' in Hr; injection Hr as <- <- <-.
  - destruct Hrun as (evsF & Hrun & ->).
    exists ([w] ++ evse ++ [UI_DisplayNewline] ++ evst ++ [ActorMaker_NewActor true None]).
    split.
    + rewrite !forallb_app, Hea1, Hta1. reflexivity.
    + right. unfold defer in Hrun.
      destruct (Execute_deferred _ _ _) as [[rd cmdd] evsd] eqn:Hd.
      destruct (showStatus _ _) as [[rs cmds] evss] eqn:Hs.
      injection Hrun as <- <- <-.
      rewrite ?app_nil_r in Hd, Hs.
      norm_app_in Hd. norm_app_in Hs.
      exists endpoint, actor, rd, cmdd, evsd, rs, evss.
      rewrite !existsb_app, Hea2, Hta2.
      norm_app. repeat split; assumption || reflexivity.
  - destruct Hrun as (-> & -> & ->).
    exists ([w] ++ evse ++ [UI_DisplayNewline] ++ evst
            ++ [ActorMaker_NewActor true (Some e)]).
    split.
    + rewrite !forallb_app, Hea1, Hta1. reflexivity.
    + left. rewrite !existsb_app, Hea2, Hta2. repeat split; discriminate.
Qed.
(** The flow [Execute] selects. *)
Lemma Execute_authenticate_eq cmd h :
  Execute_authenticate pkg cmd h =
  if SSO cmd || negb (String.eqb (SSOPasscode cmd) "") then
    if SSO cmd && negb (String.eqb (SSOPasscode cmd) "") then
      (Fail (ArgumentCombinationError ["--sso-passcode"; "--sso"]), cmd, [])
    else
      let f := authenticateSSO pkg cmd h in
      (afterFlow (outcome f), receiver f, calls f)
  else
    let f := authenticate pkg cmd h in
    (afterFlow (outcome f), receiver f, calls f).
Proof.
  unfold Execute_authenticate, bind at 1, getCmd. cbn [app]. rewrite app_nil_r.
  destruct (SSO cmd || negb (String.eqb (SSOPasscode cmd) "")).
  - destruct (SSO cmd && negb (String.eqb (SSOPasscode cmd) "")).
    + reflexivity.
    + unfold bind, try, outcome, receiver, calls.
      destruct (authenticateSSO pkg cmd h) as [[[[]|e|] c] evs]; cbn;
        rewrite ?app_nil_r; reflexivity.
  - unfold bind, try, outcome, receiver, calls.
    destruct (authenticate pkg cmd h) as [[[[]|e|] c] evs]; cbn;
      rewrite ?app_nil_r; reflexivity.
Qed.

(** A run of the deferred part of [Execute], stage by stage. *)
Lemma Execute_deferred_inv cmd h r cmd' evs :
  Execute_deferred pkg cmd h = (r, cmd', evs) ->
  (command.UAAGrantType (Config cmd) h = "client_credentials"
   /\ r = Fail (errors_New
        "Service account currently logged in. Use 'cf logout' to log out service account and try again.")
   /\ cmd' = cmd /\ evs = [])
  \/ (command.UAAGrantType (Config cmd) h <> "client_credentials"
      /\ exists ra ca evsa,
           Execute_authenticate pkg cmd h = (ra, ca, evsa)
           /\ match ra with
              | Ok _ =>
                  exists ro co evso,
                    Execute_organization ca (h ++ evsa) = (ro, co, evso)
                    /\ match ro with
                       | Ok _ =>
                           exists evsv,
                             checkMinCLIVersion pkg co (h ++ evsa ++ evso)
                               = (r, cmd', evsv)
                             /\ evs = evsa ++ evso ++ evsv
                       | Fail e => r = Fail e /\ cmd' = co /\ evs = evsa ++ evso
                       | Panic => r = Panic /\ cmd' = co /\ evs = evsa ++ evso
                       end
              | Fail e => r = Fail e /\ cmd' = ca /\ evs = evsa
              | Panic => r = Panic /\ cmd' = ca /\ evs = evsa
              end).
Proof.
  intros Hrun. unfold Execute_deferred in Hrun.
  apply bind_inv in Hrun as (r0 & c0 & evs0 & H0 & Hrun).
  unfold ask in H0. injection H0 as <- <- <-.
  destruct Hrun as (evsA & Hrun & ->). rewrite app_nil_r in Hrun. cbn [app].
  destruct (String.eqb_spec (command.UAAGrantType (Config cmd) h) "client_credentials")
    as [Hgrant|Hgrant].
  - left. unfold fail in Hrun. injection Hrun as <- <- <-. auto.
  - right. split; [assumption|].
    apply bind_inv in Hrun as (ra & ca & evsa & Ha & Hrun).
    exists ra, ca, evsa. split; [assumption|].
    destruct ra as [[]|e|]; [|assumption..].
    destruct Hrun as (evsB & Hrun & ->).
    apply bind_inv in Hrun as (ro & co & evso & Ho & Hrun).
    exists ro, co, evso. split; [assumption|].
    destruct ro as [[]|e|]; [|destruct Hrun as (-> & -> & ->); auto..].
    destruct Hrun as (evsC & Hrun & ->). rewrite <- app_assoc in Hrun. eauto.
Qed.

End Stages.

(** * Properties of the login command *)

(** ** The experimental-login gate *)

Lemma Execute_gate_closed (pkg : Packages) args cmd h :
  command.ExperimentalLogin (Config cmd) h = false ->
  Execute pkg args cmd h = (Fail UnrefactoredCommandError, cmd, []).
Proof. intros Hexp. unfold Execute. rewrite bind_ask_eq, Hexp. reflexivity. Qed.

(** C10. With the experimental login disabled, [Execute] returns the
    unrefactored-command error at once: the receiver is untouched and no
    collaborator has been called.  With it enabled the login flow starts,
    its first call being the warning of line 120. *)
Theorem Execute_experimental_gate (pkg : Packages) args cmd h :
  if command.ExperimentalLogin (Config cmd) h then
    exists evs,
      calls (Execute pkg args cmd h) =
      UI_DisplayWarning "Using experimental login command, some behavior may be different"
      :: evs
  else Execute pkg args cmd h = (Fail UnrefactoredCommandError, cmd, []).
Proof.
  destruct (command.ExperimentalLogin (Config cmd) h) eqn:Hexp;
    [|apply Execute_gate_closed; assumption].
  unfold Execute. rewrite bind_ask_eq, Hexp. cbn [negb].
  unfold ui_DisplayWarning. rewrite bind_emit_eq. unfold prepend, calls at 1.
  cbn [snd app]. eauto.
Qed.

(** ** Every run halts in one of the stages *)

Section Runs.

Variable pkg : Packages.

Lemma Execute_deferred_run cmd h :
  DeferredRun pkg cmd h (outcome (Execute_deferred pkg cmd h))
    (calls (Execute_deferred pkg cmd h)).
Proof.
  destruct (Execute_deferred pkg cmd h) as [[r cmd'] evs] eqn:Hrun.
  unfold outcome, calls. cbn [fst snd].
  apply Execute_deferred_inv in Hrun
    as [(Hgrant & -> & -> & ->)|(Hgrant & ra & ca & evsa & Ha & Hrun)].
  - apply halt_serviceAccount. assumption.
  - destruct ra as [[]|e|].
    + destruct Hrun as (ro & co & evso & Ho & Hrun). destruct ro as [[]|e|].
      * destruct Hrun as (evsv & Hv & ->). eapply halt_version; eassumption.
      * destruct Hrun as (-> & -> & ->).
        eapply halt_organization; try eassumption. discriminate.
      * destruct Hrun as (-> & -> & ->).
        eapply halt_organization; try eassumption. discriminate.
    + destruct Hrun as (-> & -> & ->).
      eapply halt_authenticate; try eassumption. discriminate.
    + destruct Hrun as (-> & -> & ->).
      eapply halt_authenticate; try eassumption. discriminate.
Qed.

Lemma Execute_run args cmd h :
  ExecuteRun pkg cmd h (outcome (Execute pkg args cmd h))
    (calls (Execute pkg args cmd h)).
Proof.
  destruct (command.ExperimentalLogin (Config cmd) h) eqn:Hexp.
  - destruct (Execute pkg args cmd h) as [[r cmd'] evs] eqn:Hrun.
    unfold outcome, calls. cbn [fst snd].
    apply Execute_inv in Hrun as (pre & Hpre & Hrun); [|assumption].
    destruct Hrun as [(Hnot & -> & Hr)
      |(endpoint & actor & rd & cmdd & evsd & rs & evss & Hreb & Hd & Hs & -> & ->)].
    + apply halt_target; assumption.
    + replace evss with (calls (showStatus cmdd (h ++ pre ++ evsd)))
        by (rewrite Hs; reflexivity).
      eapply halt_deferred; try eassumption.
      pose proof (Execute_deferred_run
        (set_Actor actor (set_APIEndpoint endpoint cmd)) (h ++ pre)) as Hrun.
      rewrite Hd in Hrun. exact Hrun.
  - rewrite Execute_gate_closed by assumption. apply halt_gate. assumption.
Qed.

End Runs.

(** ** Trailing slashes *)

Lemma append_empty_l s : "" +:+ s = s.
Proof. reflexivity. Qed.

Lemma append_String c s t : String c s +:+ t = String c (s +:+ t).
Proof. reflexivity. Qed.

Lemma TrimRight_slashes s : exists n, s = TrimRight s "/" +:+ slashes n.
Proof.
  induction s as [|c rest [n IH]]; [exists 0; reflexivity|].
  cbn [TrimRight]. destruct (TrimRight rest "/") as [|d t] eqn:Htrim.
  - rewrite append_empty_l in IH. destruct (inCutset c "/") eqn:Hc.
    + unfold inCutset in Hc. cbn in Hc. rewrite orb_false_r in Hc.
      apply Ascii.eqb_eq in Hc as ->. exists (S n).
      rewrite append_empty_l. cbn [slashes]. congruence.
    + exists n. rewrite append_String, append_empty_l. congruence.
  - exists n. rewrite append_String. congruence.
Qed.

Lemma TrimRight_no_trailing_slash s : lastByte (TrimRight s "/") <> Some "/"%char.
Proof.
  induction s as [|c rest IH]; [discriminate|].
  cbn [TrimRight]. destruct (TrimRight rest "/") as [|d t] eqn:Htrim.
  - destruct (inCutset c "/") eqn:Hc; [discriminate|].
    cbn. intros [= ->]. discriminate.
  - exact IH.
Qed.

(** ** The number of attempts *)

(** C1, at the input that breaks it.  In the SSO flow a failure classified
    as account-locked does not stop the loop: [Authenticate] is called
    three times, each call ending in the account-locked error.  In the
    password flow the same server is asked once. *)
Theorem authenticateSSO_retries_locked_account :
  map authenticateResult (attempts (calls (Execute Scenario.packages [] Scenario.ssoLocked [])))
    = [Scenario.locked; Scenario.locked; Scenario.locked]
  /\ map authenticateResult
       (attempts (calls (Execute Scenario.packages [] Scenario.passwordLocked [])))
    = [Scenario.locked].
Proof. split; vm_compute; reflexivity. Qed.

(** ** The calls of each stage, and where a given call can come from *)

Lemma In_forallb (p : Event -> bool) evs e :
  forallb p evs = true -> In e evs -> p e = true.
Proof. intros Hall Hin. rewrite forallb_forall in Hall. apply Hall, Hin. Qed.

Lemma filter_none (p q : Event -> bool) evs :
  (forall e, p e = true -> q e = false) ->
  forallb p evs = true -> List.filter q evs = [].
Proof.
  intros Hp. induction evs as [|e evs IH]; simpl; [reflexivity|].
  intros [He Hevs]%andb_prop. rewrite (Hp e He). apply IH, Hevs.
Qed.

Lemma existsb_none (p q : Event -> bool) evs :
  (forall e, p e = true -> q e = false) ->
  forallb p evs = true -> existsb q evs = false.
Proof.
  intros Hp. induction evs as [|e evs IH]; simpl; [reflexivity|].
  intros [He Hevs]%andb_prop. rewrite (Hp e He). apply IH, Hevs.
Qed.

Lemma DeferredRun_calls pkg cmd h r evs :
  DeferredRun pkg cmd h r evs -> forallb deferredCall evs = true.
Proof.
  assert (Hauth : forall e, authenticationCall e = true -> deferredCall e = true)
    by (intros e He; unfold deferredCall; rewrite He; reflexivity).
  assert (Horg : forall e, organizationCall e = true -> deferredCall e = true)
    by (intros e He; unfold deferredCall; rewrite He; apply orb_true_iff; left;
        apply orb_true_r).
  assert (Hver : forall e, versionCall e = true -> deferredCall e = true)
    by (intros e He; unfold deferredCall; rewrite He; apply orb_true_r).
  intros [Hgrant|ra ca evsa Hgrant Ha Hra|ca evsa ro co evso Hgrant Ha Ho Hro
          |ca evsa co evso rv cv evsv Hgrant Ha Ho Hv]; [reflexivity|..].
  all: pose proof (emits_only_weaken _ _ _ Hauth (Execute_authenticate_calls pkg) cmd h)
         as Hca; rewrite Ha in Hca; unfold calls in Hca; cbn [snd] in Hca.
  all: try (pose proof (emits_only_weaken _ _ _ Horg Execute_organization_calls
                          ca (h ++ evsa)) as Hco;
            rewrite Ho in Hco; unfold calls in Hco; cbn [snd] in Hco).
  all: try (pose proof (emits_only_weaken _ _ _ Hver (checkMinCLIVersion_calls pkg)
                          co (h ++ evsa ++ evso)) as Hcv;
            rewrite Hv in Hcv; unfold calls in Hcv; cbn [snd] in Hcv).
  - assumption.
  - rewrite forallb_app, Hca, Hco. reflexivity.
  - rewrite !forallb_app, Hca, Hco, Hcv. reflexivity.
Qed.

(** The status report shows one table, with the rows of [statusRows]. *)
Lemma showStatus_table cmd h :
  List.filter isStatusTable (calls (showStatus cmd h)) =
  [UI_DisplayKeyValueTable "" (statusRows cmd h) 3].
Proof.
  unfold showStatus, statusRows, displayNotLoggedIn, displayNotTargetted.
  rewrite bind_getCmd_eq. cbv beta. rewrite bind_ask_eq. cbv beta.
  rewrite bind_ask_eq. cbv beta. cbn [fst snd].
  destruct (command.CurrentUserName (Config cmd) h) as [user [e|]]; cbn [fst snd].
  - rewrite orb_true_r. reflexivity.
  - destruct (String.eqb user ""); cbn [orb]; [reflexivity|].
    rewrite bind_ask_eq.
    destruct (String.eqb (command.TargetedOrganizationName (Config cmd) h) "");
      reflexivity.
Qed.

Lemma checkMinCLIVersion_inv pkg cmd h r cmd' evs :
  checkMinCLIVersion pkg cmd h = (r, cmd', evs) ->
  (exists e, r = Fail e /\ evs = [CheckerMaker_NewVersionChecker true (Some e)])
  \/ (exists version apiVersion warning err,
        evs = [CheckerMaker_NewVersionChecker true None; Config_SetMinCLIVersion version]
              ++ match warning with Some text => [UI_DisplayWarning text] | None => [] end
              ++ [command_WarnIfCLIVersionBelowAPIDefinedMinimum apiVersion err]
        /\ r = match err with Some e => Fail e | None => Ok tt end).
Proof.
  unfold checkMinCLIVersion, bind, checkerMaker_NewVersionChecker, modifyCmd, ask,
    config_SetMinCLIVersion, emit, command_WarnIfCLIVersionBelowAPIDefinedMinimum_.
  destruct (NewVersionChecker _ _ _) as [checker|e]; cbn [app].
  - destruct (WarnIfCLIVersionBelowAPIDefinedMinimum _ _ _) as [warning err].
    intros [= <- <- <-]. right. eexists _, _, warning, err.
    destruct err; split; reflexivity.
  - intros [= <- <- <-]. left. eauto.
Qed.

(** Brings in what the stages of a run may call. *)
Ltac stage_calls :=
  repeat match goal with
  | Ha : Execute_authenticate ?p ?c ?hh = (_, _, ?evs) |- _ =>
      lazymatch goal with
      | _ : forallb authenticationCall evs = true |- _ => fail
      | _ => let H := fresh "Hcalls" in
             pose proof (Execute_authenticate_calls p c hh) as H;
             rewrite Ha in H; unfold calls in H; cbn [snd] in H
      end
  | Ho : Execute_organization ?c ?hh = (_, _, ?evs) |- _ =>
      lazymatch goal with
      | _ : forallb organizationCall evs = true |- _ => fail
      | _ => let H := fresh "Hcalls" in
             pose proof (Execute_organization_calls c hh) as H;
             rewrite Ho in H; unfold calls in H; cbn [snd] in H
      end
  | Hv : checkMinCLIVersion ?p ?c ?hh = (_, _, ?evs) |- _ =>
      lazymatch goal with
      | _ : forallb versionCall evs = true |- _ => fail
      | _ => let H := fresh "Hcalls" in
             pose proof (checkMinCLIVersion_calls p c hh) as H;
             rewrite Hv in H; unfold calls in H; cbn [snd] in H
      end
  end.

(** A call that some stage cannot have made. *)
Ltac not_called Hev :=
  match type of Hev with
  | In ?ev ?evs =>
      match goal with
      | H : forallb ?p evs = true |- _ =>
          apply (In_forallb p evs ev H) in Hev;
          first [ discriminate Hev | congruence
                | destruct ev; discriminate Hev
                | unfold targetCall in Hev; destruct ev; cbn in *; congruence ]
      end
  end.

(** ** The status report *)

(** C3, as stated, at the input that breaks it: the target is set and the
    client cannot be rebuilt; [Execute] returns the error of [NewActor]
    and no status report has been shown. *)
Lemma Execute_status_report_counterexample :
  Execute Scenario.packages [] Scenario.rebuildFails [] =
  (Fail (OtherError "cannot build the client"), Scenario.rebuildFails,
   [UI_DisplayWarning "Using experimental login command, some behavior may be different";
    UI_DisplayTextWithFlavor "API endpoint: {{.APIEndpoint}}"
      [("APIEndpoint", "api.example.com")];
    UI_DisplayNewline;
    Actor_SetTarget (v3action.MkTargetSettings "https://api.example.com" false) [] None;
    ActorMaker_NewActor true (Some (OtherError "cannot build the client"))]).
Proof. vm_compute. reflexivity. Qed.

(** ** The version check *)

(** C2, as the code has it.  [Execute] returns what the version check
    returns (lines 208-211): the error of [NewVersionChecker] when the
    version-check client cannot be built, the error of the version
    comparison when it returns one, and success when it returns none, a
    client that is too old being warned only; a successful run always went
    through the version check. *)
Theorem Execute_version_check (pkg : Packages) args cmd h :
  let r := Execute pkg args cmd h in
  (forall e,
     In (CheckerMaker_NewVersionChecker true (Some e)) (calls r) -> outcome r = Fail e)
  /\ (forall apiVersion err,
        In (command_WarnIfCLIVersionBelowAPIDefinedMinimum apiVersion err) (calls r) ->
        outcome r = match err with Some e => Fail e | None => Ok tt end)
  /\ (outcome r = Ok tt ->
      exists apiVersion,
        In (command_WarnIfCLIVersionBelowAPIDefinedMinimum apiVersion None) (calls r)).
Proof.
  cbv zeta. pose proof (Execute_run pkg args cmd h) as Hrun.
  remember (outcome (Execute pkg args cmd h)) as r eqn:Hr.
  remember (calls (Execute pkg args cmd h)) as evs eqn:Hevs.
  clear Hr Hevs.
  assert (Hin : forall ev, versionCall ev = true -> isNewActor ev = false ->
            authenticationCall ev = false -> In ev evs ->
            exists co hv cv evsv,
              checkMinCLIVersion pkg co hv = (r, cv, evsv) /\ In ev evsv).
  { intros ev Hver Hnew Hauth Hev.
    destruct Hrun as [Hexp|r pre Hexp Hpre Hnot Hfail
                      |pre endpoint actor r evsd cmds hs Hexp Hpre Hreb Hd].
    - destruct Hev.
    - not_called Hev.
    - pose proof (showStatus_calls cmds hs) as Hstatus.
      apply in_app_or in Hev as [Hev|Hev]; [not_called Hev|].
      apply in_app_or in Hev as [Hev|Hev]; [|not_called Hev].
      destruct Hd as [Hgrant|ra ca evsa Hgrant Ha Hra|ca evsa ro co evso Hgrant Ha Ho Hro
                      |ca evsa co evso rv cv evsv Hgrant Ha Ho Hv]; stage_calls.
      + destruct Hev.
      + not_called Hev.
      + apply in_app_or in Hev as [Hev|Hev]; not_called Hev.
      + apply in_app_or in Hev as [Hev|Hev]; [not_called Hev|].
        apply in_app_or in Hev as [Hev|Hev]; [not_called Hev|]. eauto 10. }
  split; [|split].
  - intros e Hev. apply Hin in Hev as (co & hv & cv & evsv & Hv & Hev);
      [|reflexivity..].
    apply checkMinCLIVersion_inv in Hv
      as [(e' & -> & ->)|(version & apiVersion & warning & err & -> & ->)].
    + destruct Hev as [[= ->]|[]]. reflexivity.
    + exfalso. destruct warning; cbn in Hev; intuition discriminate.
  - intros apiVersion err Hev. apply Hin in Hev as (co & hv & cv & evsv & Hv & Hev);
      [|reflexivity..].
    apply checkMinCLIVersion_inv in Hv
      as [(e' & -> & ->)|(version & apiVersion' & warning & err' & -> & ->)].
    + destruct Hev as [[=]|[]].
    + destruct warning; cbn in Hev;
        repeat (destruct Hev as [Hev|Hev]; try discriminate Hev);
        try (injection Hev as <- <-; reflexivity); destruct Hev.
  - intros Hok.
    destruct Hrun as [Hexp|r pre Hexp Hpre Hnot Hfail
                      |pre endpoint actor r evsd cmds hs Hexp Hpre Hreb Hd];
      [congruence..|].
    destruct Hd as [Hgrant|ra ca evsa Hgrant Ha Hra|ca evsa ro co evso Hgrant Ha Ho Hro
                    |ca evsa co evso rv cv evsv Hgrant Ha Ho Hv]; [congruence..|].
    subst rv. apply checkMinCLIVersion_inv in Hv
      as [(e' & [=] & _)|(version & apiVersion & warning & err & -> & Herr)].
    destruct err; [discriminate|]. exists apiVersion.
    apply in_or_app. right. apply in_or_app. left.
    rewrite !in_app_iff. right. right. destruct warning; cbn; auto.
Qed.

(** C2, as stated, at the input that breaks it: the authentication
    succeeds, the version-check client cannot be built, and [Execute]
    returns the error of [NewVersionChecker]. *)
Lemma Execute_version_check_counterexample :
  outcome (Execute Scenario.packages [] Scenario.checkerFails [])
    = Fail (OtherError "cannot build the version checker")
  /\ map authenticateResult
       (attempts (calls (Execute Scenario.packages [] Scenario.checkerFails [])))
     = [None].
Proof. split; vm_compute; reflexivity. Qed.

(** C2 at work: a run that succeeds went through the version check. *)
Lemma Execute_version_check_witness :
  outcome (Execute Scenario.packages [] Scenario.retry []) = Ok tt
  /\ exists apiVersion,
       In (command_WarnIfCLIVersionBelowAPIDefinedMinimum apiVersion None)
          (calls (Execute Scenario.packages [] Scenario.retry [])).
Proof.
  split; [vm_compute; reflexivity|].
  apply (proj2 (proj2 (Execute_version_check Scenario.packages [] Scenario.retry []))).
  vm_compute. reflexivity.
Defined.


(** ** The two request modes of the SSO flow *)

(** C4, as the code has it.  With both [--sso] and [--sso-passcode] given,
    [Execute] asks for no credential and never calls [Authenticate]: its
    calls are those that resolve the target and rebuild the client, and
    those of the status report.  The combination is looked at once the
    client is rebuilt (line 169): from there, unless a service account is
    logged in, [Execute] returns the argument-combination error. *)
Theorem Execute_sso_and_passcode (pkg : Packages) args cmd h :
  SSO cmd = true ->
  SSOPasscode cmd <> "" ->
  let r := Execute pkg args cmd h in
  forallb preflightCall (calls r) = true
  /\ (existsb isRebuilt (calls r) = true ->
      (forall h', command.UAAGrantType (Config cmd) h' <> "client_credentials") ->
      outcome r = Fail (ArgumentCombinationError ["--sso-passcode"; "--sso"])).
Proof.
  intros Hsso Hpasscode. cbv zeta.
  pose proof (Execute_run pkg args cmd h) as Hrun.
  remember (outcome (Execute pkg args cmd h)) as r eqn:Hr.
  remember (calls (Execute pkg args cmd h)) as evs eqn:Hevs.
  clear Hr Hevs.
  assert (Htarget : forall e, targetCall e = true -> preflightCall e = true)
    by (intros e He; unfold preflightCall; rewrite He; reflexivity).
  assert (Hstatus : forall e, statusCall e = true -> preflightCall e = true)
    by (intros e He; unfold preflightCall; rewrite He; apply orb_true_r).
  assert (Hflow : forall c hh,
            SSO c = true -> SSOPasscode c = SSOPasscode cmd ->
            Execute_authenticate pkg c hh =
            (Fail (ArgumentCombinationError ["--sso-passcode"; "--sso"]), c, [])).
  { intros c hh Hc1 Hc2. rewrite Execute_authenticate_eq, Hc1, Hc2.
    destruct (String.eqb_spec (SSOPasscode cmd) ""); [contradiction|reflexivity]. }
  destruct Hrun as [Hexp|r pre Hexp Hpre Hnot Hfail
                    |pre endpoint actor r evsd cmds hs Hexp Hpre Hreb Hd].
  - split; [reflexivity|discriminate].
  - split; [|congruence].
    rewrite forallb_forall in *. intros e He. apply Htarget, Hpre, He.
  - pose proof (showStatus_calls cmds hs) as Hs.
    assert (Hpre' : forallb preflightCall pre = true)
      by (rewrite forallb_forall in *; intros e He; apply Htarget, Hpre, He).
    assert (Hs' : forallb preflightCall (calls (showStatus cmds hs)) = true)
      by (rewrite forallb_forall in *; intros e He; apply Hstatus, Hs, He).
    destruct Hd as [Hgrant|ra ca evsa Hgrant Ha Hra|ca evsa ro co evso Hgrant Ha Ho Hro
                    |ca evsa co evso rv cv evsv Hgrant Ha Ho Hv];
      try (rewrite Hflow in Ha by (cbn; auto); discriminate Ha).
    + split; [rewrite !forallb_app, Hpre', Hs'; reflexivity|].
      intros _ Hnever. exfalso. apply (Hnever _ Hgrant).
    + rewrite Hflow in Ha by (cbn; auto). injection Ha as <- <- <-.
      split; [rewrite !forallb_app, Hpre', Hs'; reflexivity|]. reflexivity.
Qed.

(** C4 at work: both flags on the command line; the run makes no call but
    those before the flows, and returns the argument-combination error. *)
Lemma Execute_sso_and_passcode_witness :
  SSO Scenario.ssoAndPasscode = true
  /\ SSOPasscode Scenario.ssoAndPasscode = "123456"
  /\ forallb preflightCall (calls (Execute Scenario.packages [] Scenario.ssoAndPasscode []))
     = true
  /\ outcome (Execute Scenario.packages [] Scenario.ssoAndPasscode [])
     = Fail (ArgumentCombinationError ["--sso-passcode"; "--sso"]).
Proof.
  split; [reflexivity|]. split; [reflexivity|].
  destruct (Execute_sso_and_passcode Scenario.packages [] Scenario.ssoAndPasscode []
              eq_refl) as [Hcalls Hfail]; [discriminate|].
  split; [exact Hcalls|].
  apply Hfail; [vm_compute; reflexivity | intros h'; vm_compute; discriminate].
Defined.

(** C4, as stated, at the input that breaks it: both flags are given, and
    when [Execute] returns the argument-combination error the target has
    been set, a call that reaches the API. *)
Lemma Execute_sso_and_passcode_counterexample :
  outcome (Execute Scenario.packages [] Scenario.ssoAndPasscode [])
    = Fail (ArgumentCombinationError ["--sso-passcode"; "--sso"])
  /\ List.filter isNetwork (calls (Execute Scenario.packages [] Scenario.ssoAndPasscode []))
     = [Actor_SetTarget (v3action.MkTargetSettings "https://api.example.com" false)
          [] None].
Proof. split; vm_compute; reflexivity. Qed.

(** ** A prompt that fails *)

(** C5, as the code has it.  In both flows a prompt that fails is the last
    call of the flow, and the flow returns the error of that prompt: no
    other prompt and no call of [Authenticate] follows.  [Execute] does not
    return that error: whatever error the flow returns, [Execute] returns
    "Unable to authenticate." (lines 177-179). *)
Theorem prompt_failure_aborts (pkg : Packages) cmd h :
  (forall before ev after e,
     calls (authenticate pkg cmd h) = before ++ ev :: after ->
     promptError ev = Some e ->
     after = [] /\ outcome (authenticate pkg cmd h) = Fail e)
  /\ (forall before ev after e,
        calls (authenticateSSO pkg cmd h) = before ++ ev :: after ->
        promptError ev = Some e ->
        after = [] /\ outcome (authenticateSSO pkg cmd h) = Fail e)
  /\ (forall args ev e,
        In ev (calls (Execute pkg args cmd h)) ->
        promptError ev = Some e ->
        resolveCall ev = false ->
        outcome (Execute pkg args cmd h) = Fail (errors_New "Unable to authenticate.")).
Proof.
  split; [|split].
  - apply answered_or_failed_last, authenticate_stops_at_failed_prompt.
  - apply answered_or_failed_last, authenticateSSO_stops_at_failed_prompt.
  - intros args ev e Hev Herr Hresolve.
    pose proof (Execute_run pkg args cmd h) as Hrun.
    remember (outcome (Execute pkg args cmd h)) as r eqn:Hr.
    remember (calls (Execute pkg args cmd h)) as evs eqn:Hevs.
    clear Hr Hevs.
    assert (Hnew : isNewActor ev = false) by (destruct ev; try discriminate; reflexivity).
    assert (Hflow : forall c hh ra ca evsa,
              Execute_authenticate pkg c hh = (ra, ca, evsa) -> In ev evsa ->
              ra = Fail (errors_New "Unable to authenticate.")).
    { intros c hh ra ca evsa Ha Hin. rewrite Execute_authenticate_eq in Ha.
      destruct (SSO c || negb (String.eqb (SSOPasscode c) "")).
      - destruct (SSO c && negb (String.eqb (SSOPasscode c) "")).
        + injection Ha as <- <- <-. destruct Hin.
        + cbv zeta in Ha. injection Ha as <- <- <-.
          apply in_split in Hin as (before & after & Hsplit).
          destruct (answered_or_failed_last _
                      (authenticateSSO_stops_at_failed_prompt pkg c hh)
                      before ev after e Hsplit Herr) as [_ ->].
          reflexivity.
      - cbv zeta in Ha. injection Ha as <- <- <-.
        apply in_split in Hin as (before & after & Hsplit).
        destruct (answered_or_failed_last _
                    (authenticate_stops_at_failed_prompt pkg c hh)
                    before ev after e Hsplit Herr) as [_ ->].
        reflexivity. }
    destruct Hrun as [Hexp|r pre Hexp Hpre Hnot Hfail
                      |pre endpoint actor r evsd cmds hs Hexp Hpre Hreb Hd].
    + destruct Hev.
    + apply (In_forallb _ _ _ Hpre) in Hev. unfold targetCall in Hev.
      rewrite Hresolve, Hnew in Hev. discriminate.
    + pose proof (showStatus_calls cmds hs) as Hs.
      apply in_app_or in Hev as [Hev|Hev].
      { apply (In_forallb _ _ _ Hpre) in Hev. unfold targetCall in Hev.
        rewrite Hresolve, Hnew in Hev. discriminate. }
      apply in_app_or in Hev as [Hev|Hev];
        [|apply (In_forallb _ _ _ Hs) in Hev; destruct ev; discriminate].
      destruct Hd as [Hgrant|ra ca evsa Hgrant Ha Hra|ca evsa ro co evso Hgrant Ha Ho Hro
                      |ca evsa co evso rv cv evsv Hgrant Ha Ho Hv]; stage_calls.
      * destruct Hev.
      * apply (Hflow _ _ _ _ _ Ha Hev).
      * apply in_app_or in Hev as [Hev|Hev].
        -- pose proof (Hflow _ _ _ _ _ Ha Hev). discriminate.
        -- apply (In_forallb _ _ _ Hcalls0) in Hev. destruct ev; discriminate.
      * apply in_app_or in Hev as [Hev|Hev];
          [pose proof (Hflow _ _ _ _ _ Ha Hev); discriminate|].
        apply in_app_or in Hev as [Hev|Hev].
        -- apply (In_forallb _ _ _ Hcalls0) in Hev. destruct ev; discriminate.
        -- apply (In_forallb _ _ _ Hcalls1) in Hev. destruct ev; discriminate.
Qed.

(** C5, as stated, at the input that breaks it: the input ends at the
    user-name prompt; the password flow returns [io.EOF], and [Execute]
    returns another error. *)
Lemma prompt_failure_aborts_counterexample :
  outcome (authenticate Scenario.packages Scenario.inputEnds []) = Fail io_EOF
  /\ outcome (Execute Scenario.packages [] Scenario.inputEnds [])
     = Fail (errors_New "Unable to authenticate.").
Proof. split; vm_compute; reflexivity. Qed.

(** C5 at work: the input ends at the user-name prompt of the password
    flow, which is its last call. *)
Lemma prompt_failure_aborts_witness :
  calls (authenticate Scenario.packages Scenario.inputEnds [])
  = [Actor_GetLoginPrompts Scenario.schema;
     UI_DisplayTextPrompt "Email" "" (Some io_EOF)]
  /\ outcome (authenticate Scenario.packages Scenario.inputEnds []) = Fail io_EOF.
Proof.
  split; [vm_compute; reflexivity|].
  exact (proj2 (proj1 (prompt_failure_aborts Scenario.packages Scenario.inputEnds [])
                  [Actor_GetLoginPrompts Scenario.schema]
                  (UI_DisplayTextPrompt "Email" "" (Some io_EOF)) [] io_EOF
                  eq_refl eq_refl)).
Defined.


(** ** The organization *)

(** The organization stage without [-o], when the list of organizations
    was fetched: what [Execute_organization] returns and calls. *)
Lemma Execute_organization_listed cmd h orgs warnings :
  Organization cmd = "" ->
  GetOrganizations (Actor cmd) h = (orgs, warnings, None) ->
  let listed := [Actor_GetOrganizations orgs warnings None; UI_DisplayWarnings warnings] in
  match orgs with
  | [] => Execute_organization cmd h = (Ok tt, cmd, listed)
  | [org] =>
      Execute_organization cmd h =
      (Ok tt, cmd,
       listed ++ [Config_SetOrganizationInformation (v3action.GUID org) (v3action.Name org)])
  | _ =>
      forall answer err,
        command.DisplayTextMenu (UI cmd) (h ++ listed ++ [UI_DisplayText "Select an org:" []])
          (map v3action.Name orgs) "Org" = (answer, Some err) ->
        Execute_organization cmd h =
        (match err with io_EOF => Ok tt | _ => Fail err end, cmd,
         listed ++ [UI_DisplayText "Select an org:" [];
                    UI_DisplayTextMenu (map v3action.Name orgs) "Org" answer (Some err)])
  end.
Proof.
  intros Horg Hget. cbv zeta.
  destruct orgs as [|org1 [|org2 orgs]]; [| |intros answer err Hmenu].
  all: unfold Execute_organization; rewrite bind_getCmd_eq; cbv beta;
    rewrite Horg; cbn [String.eqb negb].
  all: erewrite (bind_call_eq actor_GetOrganizations _ cmd h)
         by (unfold actor_GetOrganizations; rewrite Hget; reflexivity).
  all: cbn [fst snd]; unfold ui_DisplayWarnings; rewrite bind_emit_eq;
    cbn [check]; rewrite bind_ret_eq; rewrite <- app_assoc; cbn [app];
    rewrite prepend_prepend; cbn [app].
  - reflexivity.
  - reflexivity.
  - unfold promptChosenOrg, ui_DisplayText. rewrite !bind_assoc, bind_emit_eq.
    cbv beta. rewrite ?bind_assoc.
    erewrite (bind_call_eq (ui_DisplayTextMenu _ _))
      by (unfold ui_DisplayTextMenu; rewrite <- app_assoc; cbn [app] in *;
          rewrite Hmenu; reflexivity).
    rewrite !prepend_prepend. cbn [fst snd app].
    destruct err; reflexivity.
Qed.

Lemma bind_eq {A B} (m : M A) (k : A -> M B) cmd h :
  bind m k cmd h =
  match m cmd h with
  | (Ok a, cmd1, evs1) => prepend evs1 (k a cmd1 (h ++ evs1))
  | (Fail e, cmd1, evs1) => (Fail e, cmd1, evs1)
  | (Panic, cmd1, evs1) => (Panic, cmd1, evs1)
  end.
Proof.
  unfold bind. destruct (m cmd h) as [[[a|e|] cmd1] evs1]; try reflexivity.
  destruct (k a cmd1 (h ++ evs1)) as [[r c] evs]. reflexivity.
Qed.

Lemma promptChosenOrg_eq orgs cmd h :
  promptChosenOrg orgs cmd h =
  let asked := command.DisplayTextMenu (UI cmd) (h ++ [UI_DisplayText "Select an org:" []])
                 (map v3action.Name orgs) "Org" in
  (match asked.2 with
   | Some io_EOF => Ok v3action.emptyOrg
   | Some err => Fail err
   | None =>
       match find (fun org => String.eqb (v3action.Name org) asked.1) orgs with
       | Some org => Ok org
       | None => Fail (errors_New "Error Choosing Organization")
       end
   end, cmd,
   [UI_DisplayText "Select an org:" [];
    UI_DisplayTextMenu (map v3action.Name orgs) "Org" asked.1 asked.2]).
Proof.
  cbv zeta. unfold promptChosenOrg, ui_DisplayText. rewrite bind_emit_eq. cbv beta.
  destruct (command.DisplayTextMenu (UI cmd) (h ++ [UI_DisplayText "Select an org:" []])
              (map v3action.Name orgs) "Org") as [answer merr] eqn:Hmenu.
  erewrite (bind_call_eq (ui_DisplayTextMenu _ _))
    by (unfold ui_DisplayTextMenu; rewrite Hmenu; reflexivity).
  rewrite prepend_prepend. cbn [fst snd app].
  destruct merr as [[]|]; try reflexivity.
  destruct (find _ orgs); reflexivity.
Qed.

(** A failure of the menu that is not the end of the input is the outcome
    of the organization stage. *)
Lemma Execute_organization_menu cmd h choices prompt answer err :
  In (UI_DisplayTextMenu choices prompt answer (Some err))
     (calls (Execute_organization cmd h)) ->
  err <> io_EOF ->
  outcome (Execute_organization cmd h) = Fail err.
Proof.
  unfold Execute_organization. rewrite bind_getCmd_eq. cbv beta.
  destruct (negb (String.eqb (Organization cmd) "")).
  - destruct (GetOrganizationByName (Actor cmd) h (Organization cmd))
      as [[org warnings] e] eqn:Hget.
    erewrite (bind_call_eq (actor_GetOrganizationByName _) _ cmd h)
      by (unfold actor_GetOrganizationByName; rewrite Hget; reflexivity).
    cbn [fst snd]. unfold ui_DisplayWarnings. rewrite bind_emit_eq. cbv beta.
    destruct e as [e|]; cbn [check].
    + unfold bind, fail, prepend, calls. cbn. intuition discriminate.
    + rewrite bind_ret_eq. unfold config_SetOrganizationInformation, emit, prepend, calls.
      cbn. intuition discriminate.
  - destruct (GetOrganizations (Actor cmd) h) as [[orgs warnings] e] eqn:Hget.
    erewrite (bind_call_eq actor_GetOrganizations _ cmd h)
      by (unfold actor_GetOrganizations; rewrite Hget; reflexivity).
    cbn [fst snd]. unfold ui_DisplayWarnings. rewrite bind_emit_eq. cbv beta.
    destruct e as [e|]; cbn [check].
    + unfold bind, fail, prepend, calls. cbn. intuition discriminate.
    + rewrite bind_ret_eq. destruct orgs as [|org1 [|org2 orgs]].
      * unfold ret, prepend, calls. cbn. intuition discriminate.
      * unfold config_SetOrganizationInformation, emit, prepend, calls.
        cbn. intuition discriminate.
      * rewrite bind_eq, promptChosenOrg_eq. cbv zeta.
        destruct (command.DisplayTextMenu _ _ _ _) as [answer' merr]. cbn [fst snd].
        intros Hin Hne.
        assert (Hmerr : In (UI_DisplayTextMenu choices prompt answer (Some err))
                  [UI_DisplayTextMenu (map v3action.Name (org1 :: org2 :: orgs)) "Org"
                     answer' merr]).
        { revert Hin. destruct merr as [[]|]; [..|destruct (find _ _)];
            unfold prepend, calls, ret, fail; cbn [fst snd app];
            try (destruct (negb _);
                 unfold config_SetOrganizationInformation, emit, ret; cbn [fst snd app]);
            cbn; intuition discriminate. }
        destruct Hmerr as [[= _ _ _ ->]|[]].
        destruct err; try congruence; reflexivity.
Qed.

(** C8. Without [-o], and with the list of organizations fetched: no
    organization leaves the session without one and is no error; one
    organization is recorded with no prompt; with more than one, when the
    menu ends in [io.EOF] no organization is recorded and no error is
    returned, and when it ends in another error the stage returns that
    error, which then is the error [Execute] returns. *)
Theorem organization_resolution (pkg : Packages) :
  (forall cmd h orgs warnings,
     Organization cmd = "" ->
     GetOrganizations (Actor cmd) h = (orgs, warnings, None) ->
     let listed :=
       [Actor_GetOrganizations orgs warnings None; UI_DisplayWarnings warnings] in
     match orgs with
     | [] => Execute_organization cmd h = (Ok tt, cmd, listed)
     | [org] =>
         Execute_organization cmd h =
         (Ok tt, cmd,
          listed ++ [Config_SetOrganizationInformation
                       (v3action.GUID org) (v3action.Name org)])
     | _ =>
         forall answer err,
           command.DisplayTextMenu (UI cmd)
             (h ++ listed ++ [UI_DisplayText "Select an org:" []])
             (map v3action.Name orgs) "Org" = (answer, Some err) ->
           Execute_organization cmd h =
           (match err with io_EOF => Ok tt | _ => Fail err end, cmd,
            listed ++ [UI_DisplayText "Select an org:" [];
                       UI_DisplayTextMenu (map v3action.Name orgs) "Org" answer
                         (Some err)])
     end)
  /\ (forall args cmd h choices prompt answer err,
        In (UI_DisplayTextMenu choices prompt answer (Some err))
           (calls (Execute pkg args cmd h)) ->
        err <> io_EOF ->
        outcome (Execute pkg args cmd h) = Fail err).
Proof.
  split; [exact Execute_organization_listed|].
  intros args cmd h choices prompt answer err Hev Hne.
  pose proof (Execute_run pkg args cmd h) as Hrun.
  remember (outcome (Execute pkg args cmd h)) as r eqn:Hr.
  remember (calls (Execute pkg args cmd h)) as evs eqn:Hevs.
  clear Hr Hevs.
  destruct Hrun as [Hexp|r pre Hexp Hpre Hnot Hfail
                    |pre endpoint actor r evsd cmds hs Hexp Hpre Hreb Hd].
  - destruct Hev.
  - not_called Hev.
  - pose proof (showStatus_calls cmds hs) as Hstatus.
    apply in_app_or in Hev as [Hev|Hev]; [not_called Hev|].
    apply in_app_or in Hev as [Hev|Hev]; [|not_called Hev].
    destruct Hd as [Hgrant|ra ca evsa Hgrant Ha Hra|ca evsa ro co evso Hgrant Ha Ho Hro
                    |ca evsa co evso rv cv evsv Hgrant Ha Ho Hv]; stage_calls.
    + destruct Hev.
    + not_called Hev.
    + apply in_app_or in Hev as [Hev|Hev]; [not_called Hev|].
      replace evso with (calls (Execute_organization ca ((h ++ pre) ++ evsa))) in Hev
        by (rewrite Ho; reflexivity).
      apply Execute_organization_menu in Hev; [|assumption].
      rewrite Ho in Hev. exact Hev.
    + apply in_app_or in Hev as [Hev|Hev]; [not_called Hev|].
      apply in_app_or in Hev as [Hev|Hev]; [|not_called Hev].
      replace evso with (calls (Execute_organization ca ((h ++ pre) ++ evsa))) in Hev
        by (rewrite Ho; reflexivity).
      apply Execute_organization_menu in Hev; [|assumption].
      rewrite Ho in Hev. discriminate Hev.
Qed.

(** C8 at work: three organizations and the input at its end when the menu
    is shown; no organization is recorded and the stage returns no error. *)
Lemma organization_resolution_witness :
  Execute_organization Scenario.menuDeclined [UI_DisplayPasswordPrompt "Code" "654321" None]
  = (Ok tt, Scenario.menuDeclined,
     [Actor_GetOrganizations Scenario.orgs3 [] None; UI_DisplayWarnings [];
      UI_DisplayText "Select an org:" [];
      UI_DisplayTextMenu ["org-1"; "org-2"; "org-3"] "Org" "" (Some io_EOF)]).
Proof.
  exact (proj1 (organization_resolution Scenario.packages) Scenario.menuDeclined
           [UI_DisplayPasswordPrompt "Code" "654321" None] Scenario.orgs3 []
           eq_refl eq_refl "" io_EOF eq_refl).
Defined.

(** ** A secret given on the command line serves one attempt *)

Lemma outcome_prepend {A} evs (r : Result A * LoginCommand * list Event) :
  outcome (prepend evs r) = outcome r.
Proof. reflexivity. Qed.

Lemma receiver_prepend {A} evs (r : Result A * LoginCommand * list Event) :
  receiver (prepend evs r) = receiver r.
Proof. reflexivity. Qed.

Lemma calls_prepend {A} evs (r : Result A * LoginCommand * list Event) :
  calls (prepend evs r) = evs ++ calls r.
Proof. reflexivity. Qed.

Lemma rounds_from_app before evs1 evs2 :
  attempts evs1 = [] ->
  rounds_from before (evs1 ++ evs2) = rounds_from (before ++ evs1) evs2.
Proof.
  revert before. induction evs1 as [|e evs1 IH]; intros before Hnone.
  - rewrite app_nil_r. reflexivity.
  - cbn [app rounds_from]. unfold attempts in Hnone. cbn [List.filter] in Hnone.
    destruct (isAuthenticate e); [discriminate|].
    rewrite IH by exact Hnone. rewrite <- app_assoc. reflexivity.
Qed.

Lemma firstSecretPrompt_app evs1 evs2 :
  firstSecretPrompt (evs1 ++ evs2) =
  match firstSecretPrompt evs1 with
  | Some found => Some found
  | None => firstSecretPrompt evs2
  end.
Proof.
  induction evs1 as [|e evs1 IH]; [reflexivity|].
  destruct e; cbn [app firstSecretPrompt]; auto.
Qed.

Lemma authenticate_username_text_calls prompts credentials :
  emits_only textCollectorCall (authenticate_username prompts credentials).
Proof. unfold authenticate_username. emits. Qed.

Lemma authenticate_range_text_calls entries credentials passwordKeys :
  emits_only textCollectorCall (authenticate_range entries credentials passwordKeys).
Proof.
  revert credentials passwordKeys.
  induction entries as [|[key prompt] rest IH]; intros credentials passwordKeys;
    simpl; emits; apply IH.
Qed.

Lemma firstSecretPrompt_text evs :
  forallb textCollectorCall evs = true -> firstSecretPrompt evs = None.
Proof.
  induction evs as [|e evs IH]; [reflexivity|]. cbn [forallb].
  intros [He Hevs]%andb_prop. destruct e; try discriminate; cbn; auto.
Qed.

(** The keys handed to [passwordPrompts]. *)
Lemma authenticate_range_keys entries credentials passwordKeys cmd h :
  match outcome (authenticate_range entries credentials passwordKeys cmd h) with
  | Ok ranged => ranged.2 = passwordKeys ++ otherSecretKeys entries
  | _ => True
  end.
Proof.
  revert credentials passwordKeys cmd h.
  induction entries as [|[key prompt] rest IH]; intros credentials passwordKeys cmd h.
  - cbn. rewrite app_nil_r. reflexivity.
  - cbn [authenticate_range]. unfold otherSecretKeys, isOtherSecret.
    cbn [List.filter fst snd].
    destruct (coreconfig.isPassword prompt); cbn [andb].
    + destruct (String.eqb key "passcode" || String.eqb key "password"); cbn [negb].
      * apply IH.
      * specialize (IH credentials (passwordKeys ++ [key]) cmd h).
        destruct (outcome _); try exact I. rewrite IH, <- app_assoc. reflexivity.
    + destruct (String.eqb key "username"); [apply IH|].
      rewrite bind_eq. unfold ui_DisplayTextPrompt.
      destruct (command.DisplayTextPrompt _ _ _) as [answer [e|]]; [exact I|].
      unfold ui_DisplayNewline. rewrite bind_emit_eq, !outcome_prepend. apply IH.
Qed.

Lemma otherSecretKeys_not_password entries : ~ In "password" (otherSecretKeys entries).
Proof.
  unfold otherSecretKeys. induction entries as [|[key prompt] rest IH]; [auto|].
  cbn [List.filter]. unfold isOtherSecret at 1. cbn [fst snd].
  destruct (coreconfig.isPassword prompt); cbn [andb]; [|exact IH].
  destruct (String.eqb_spec key "password") as [->|Hne].
  - rewrite orb_true_r. exact IH.
  - rewrite orb_false_r. destruct (String.eqb key "passcode"); [exact IH|].
    cbn. intros [->|Hin]; [congruence|auto].
Qed.

(** The other secrets do not touch the entry of the password. *)
Lemma passwordPrompts_keys_password prompts passwordKeys credentials cmd h :
  ~ In "password" passwordKeys ->
  match outcome (passwordPrompts_keys prompts passwordKeys credentials cmd h) with
  | Ok credentials' => credentials' !! "password" = credentials !! "password"
  | _ => True
  end.
Proof.
  revert credentials cmd h.
  induction passwordKeys as [|key rest IH]; intros credentials cmd h Hnot.
  - reflexivity.
  - cbn [passwordPrompts_keys]. unfold ui_DisplayNewline. rewrite bind_emit_eq.
    cbv beta. rewrite bind_eq. unfold ui_DisplayPasswordPrompt.
    destruct (command.DisplayPasswordPrompt _ _ _) as [answer [e|]]; [exact I|].
    rewrite !outcome_prepend.
    specialize (IH (<[key := answer]> credentials) cmd
                  ((h ++ [UI_DisplayNewline]) ++
                   [UI_DisplayPasswordPrompt
                      (coreconfig.DisplayName (indexPrompt key prompts)) answer None])).
    destruct (outcome _); try exact I.
    rewrite IH by (intros Hin; apply Hnot; right; exact Hin).
    apply lookup_insert_ne. intros ->. apply Hnot. left. reflexivity.
Qed.

Lemma bind_modifyCmd_eq {B} f (k : unit -> M B) cmd h :
  bind (modifyCmd f) k cmd h = k tt (f cmd) h.
Proof.
  unfold bind, modifyCmd. rewrite app_nil_r. destruct (k tt (f cmd) h) as [[r c] evs].
  reflexivity.
Qed.

(** What [passwordPrompts] does about the password: it leaves
    [cmd.Password] empty; it takes the password from [cmd.Password] when
    there is one, and else asks for it before any other secret. *)
Lemma passwordPrompts_password prompts credentials passwordKeys cmd h passPrompt :
  lookupPrompt "password" prompts = Some passPrompt ->
  ~ In "password" passwordKeys ->
  let r := passwordPrompts prompts credentials passwordKeys cmd h in
  Password (receiver r) = ""
  /\ match outcome r with
     | Ok prompted =>
         if String.eqb (Password cmd) "" then
           exists answer rest,
             calls r = UI_DisplayPasswordPrompt (coreconfig.DisplayName passPrompt)
                         answer None :: rest
             /\ prompted.1 !! "password" = Some answer
         else prompted.1 !! "password" = Some (Password cmd)
     | _ => True
     end.
Proof.
  intros Hlookup Hnot. cbv zeta. unfold passwordPrompts. rewrite Hlookup.
  rewrite bind_assoc, bind_getCmd_eq. cbv beta.
  destruct (String.eqb_spec (Password cmd) "") as [Hpw|Hpw]; cbn [negb].
  - rewrite bind_assoc, bind_eq. unfold ui_DisplayPasswordPrompt.
    destruct (command.DisplayPasswordPrompt _ _ _) as [answer [e|]].
    + split; [exact Hpw|exact I].
    + rewrite bind_ret_eq, bind_eq.
      match goal with |- context [passwordPrompts_keys ?a ?b ?c ?d ?e] =>
        pose proof (passwordPrompts_keys_keeps a b c d e) as Hkeep;
        pose proof (passwordPrompts_keys_password a b c d e Hnot) as Hkeys;
        destruct (passwordPrompts_keys a b c d e) as [[[c'|e'|] cmd1] evs1]
      end; unfold receiver, outcome in Hkeep, Hkeys; cbn [fst snd] in Hkeep, Hkeys;
        subst cmd1; (split; [exact Hpw|]); try exact I.
      unfold prepend, ret, outcome, calls. cbn [fst snd app].
      exists answer. eexists. split; [reflexivity|].
      rewrite Hkeys. apply lookup_insert_eq.
  - rewrite bind_assoc, bind_modifyCmd_eq, bind_ret_eq, bind_eq.
    match goal with |- context [passwordPrompts_keys ?a ?b ?c ?d ?e] =>
      pose proof (passwordPrompts_keys_keeps a b c d e) as Hkeep;
      pose proof (passwordPrompts_keys_password a b c d e Hnot) as Hkeys;
      destruct (passwordPrompts_keys a b c d e) as [[[c'|e'|] cmd1] evs1]
    end; unfold receiver, outcome in Hkeep, Hkeys; cbn [fst snd] in Hkeep, Hkeys;
      subst cmd1; (split; [reflexivity|]); try exact I.
    unfold prepend, ret, outcome. cbn [fst snd].
    rewrite Hkeys. apply lookup_insert_eq.
Qed.

Section OneUse.

Variable pkg : Packages.
Variable prompts : PromptMap.
Variable passwordKeys : list string.
Variable passPrompt : coreconfig.AuthPrompt.
Hypothesis Hlookup : lookupPrompt "password" prompts = Some passPrompt.
Hypothesis Hkeys : ~ In "password" passwordKeys.

Local Abbreviation prompted :=
  (secretPrompted "password" (coreconfig.DisplayName passPrompt)).

(** Once [cmd.Password] is empty, every round asks for the password. *)
Lemma authenticate_loop_rounds_prompted tries err credentials cmd h before :
  Password cmd = "" ->
  firstSecretPrompt before = None ->
  let r := authenticate_loop pkg tries err prompts credentials passwordKeys cmd h in
  Forall prompted (rounds_from before (calls r)) /\ Password (receiver r) = "".
Proof using Hlookup Hkeys.
  revert err credentials cmd h before.
  induction tries as [|tries IH]; intros err credentials cmd h before Hpw Hbefore;
    [split; [constructor|exact Hpw]|].
  cbv zeta. rewrite authenticate_loop_S.
  pose proof (passwordPrompts_password prompts credentials passwordKeys cmd h
                passPrompt Hlookup Hkeys) as [Hrecv Hout].
  pose proof (passwordPrompts_calls prompts credentials passwordKeys cmd h) as Hc.
  apply attempts_collector in Hc.
  destruct (passwordPrompts prompts credentials passwordKeys cmd h)
    as [[[submitted|e|] cmd1] evs1];
    unfold receiver, outcome, calls in Hrecv, Hout, Hc; cbn [fst snd] in Hrecv, Hout, Hc.
  - rewrite Hpw in Hout. cbn [String.eqb] in Hout.
    destruct Hout as (answer & rest & -> & Hsubmitted).
    assert (Hround : forall ev, authenticateCredentials ev = submitted.1 ->
              prompted (before ++ (UI_DisplayPasswordPrompt
                          (coreconfig.DisplayName passPrompt) answer None :: rest)
                        ++ [UI_DisplayText "Authenticating..." []], ev)).
    { intros ev Hev. exists answer. cbn [fst snd].
      rewrite firstSecretPrompt_app, Hbefore, Hev. auto. }
    cbv zeta. destruct (Authenticate _ _ _ _ _) as [e|].
    + destruct (isAccountLockedError e); unfold calls at 1, receiver at 1; cbn [fst snd].
      * rewrite rounds_from_app by exact Hc. cbn.
        split; [|exact Hrecv]. constructor; [|constructor].
        rewrite <- app_assoc. apply Hround. reflexivity.
      * rewrite rounds_from_app by exact Hc. cbn [app rounds_from isAuthenticate].
        match goal with |- context [authenticate_loop ?a1 ?a2 ?a3 ?a4 ?a5 ?a6 ?a7 ?a8] =>
          destruct (IH a3 a5 a7 a8 (([] ++ [UI_DisplayWarning
                      (ConvertToTranslatableError_Error pkg e)]) ++ [UI_DisplayNewline])
                      Hrecv eq_refl) as [Hlater Hlast]
        end.
        split; [|exact Hlast]. constructor; [|exact Hlater].
        rewrite <- app_assoc. apply Hround. reflexivity.
    + unfold calls at 1, receiver at 1; cbn [fst snd].
      rewrite rounds_from_app by exact Hc. cbn.
      split; [|exact Hrecv]. constructor; [|constructor].
      rewrite <- app_assoc. apply Hround. reflexivity.
  - unfold calls, receiver. cbn [fst snd].
    rewrite <- (app_nil_r evs1), rounds_from_app by exact Hc.
    split; [constructor|exact Hrecv].
  - unfold calls, receiver. cbn [fst snd].
    rewrite <- (app_nil_r evs1), rounds_from_app by exact Hc.
    split; [constructor|exact Hrecv].
Qed.

(** The first round takes the password of the command line when there is
    one; every later round asks for it. *)
Lemma authenticate_loop_rounds tries err credentials cmd h before :
  firstSecretPrompt before = None ->
  let r := authenticate_loop pkg (S tries) err prompts credentials passwordKeys cmd h in
  match rounds_from before (calls r) with
  | [] => True
  | first :: later =>
      (if String.eqb (Password cmd) "" then prompted first
       else authenticateCredentials first.2 !! "password" = Some (Password cmd))
      /\ Forall prompted later
  end
  /\ Password (receiver r) = "".
Proof using Hlookup Hkeys.
  intros Hbefore. cbv zeta.
  destruct (String.eqb_spec (Password cmd) "") as [Hpw|Hpw].
  { destruct (authenticate_loop_rounds_prompted (S tries) err credentials cmd h before
                Hpw Hbefore) as [Hall Hlast].
    split; [|exact Hlast]. destruct (rounds_from _ _); [exact I|].
    inversion Hall; subst. auto. }
  rewrite authenticate_loop_S.
  pose proof (passwordPrompts_password prompts credentials passwordKeys cmd h
                passPrompt Hlookup Hkeys) as [Hrecv Hout].
  pose proof (passwordPrompts_calls prompts credentials passwordKeys cmd h) as Hc.
  apply attempts_collector in Hc.
  destruct (passwordPrompts prompts credentials passwordKeys cmd h)
    as [[[submitted|e|] cmd1] evs1];
    unfold receiver, outcome, calls in Hrecv, Hout, Hc; cbn [fst snd] in Hrecv, Hout, Hc.
  - destruct (String.eqb_spec (Password cmd) "") as [|_]; [contradiction|].
    cbv zeta. destruct (Authenticate _ _ _ _ _) as [e|].
    + destruct (isAccountLockedError e); unfold calls at 1, receiver at 1; cbn [fst snd].
      * rewrite rounds_from_app by exact Hc. cbn. auto.
      * rewrite rounds_from_app by exact Hc. cbn [app rounds_from isAuthenticate].
        match goal with |- context [authenticate_loop ?a1 ?a2 ?a3 ?a4 ?a5 ?a6 ?a7 ?a8] =>
          destruct (authenticate_loop_rounds_prompted a2 a3 a5 a7 a8
                      (([] ++ [UI_DisplayWarning
                          (ConvertToTranslatableError_Error pkg e)]) ++ [UI_DisplayNewline])
                      Hrecv eq_refl) as [Hlater Hlast]
        end.
        cbn [fst snd authenticateCredentials]. auto.
    + unfold calls at 1, receiver at 1; cbn [fst snd].
      rewrite rounds_from_app by exact Hc. cbn. auto.
  - unfold calls, receiver. cbn [fst snd].
    rewrite <- (app_nil_r evs1), rounds_from_app by exact Hc. cbn. auto.
  - unfold calls, receiver. cbn [fst snd].
    rewrite <- (app_nil_r evs1), rounds_from_app by exact Hc. cbn. auto.
Qed.

End OneUse.

(** What [authenticateSSO_passcode] does: it leaves [cmd.SSOPasscode]
    empty; it takes the passcode from [cmd.SSOPasscode] when there is one,
    with no prompt, and else asks for it. *)
Lemma authenticateSSO_passcode_spec prompts credentials cmd h :
  let r := authenticateSSO_passcode prompts credentials cmd h in
  let template := coreconfig.DisplayName (indexPrompt "passcode" prompts) in
  SSOPasscode (receiver r) = ""
  /\ match outcome r with
     | Ok credentials' =>
         if String.eqb (SSOPasscode cmd) "" then
           exists answer,
             calls r = [UI_DisplayPasswordPrompt template answer None]
             /\ credentials' !! "passcode" = Some answer
         else calls r = [] /\ credentials' !! "passcode" = Some (SSOPasscode cmd)
     | _ => True
     end.
Proof.
  cbv zeta. unfold authenticateSSO_passcode. rewrite bind_getCmd_eq. cbv beta.
  destruct (SSOPasscode cmd) as [|c rest] eqn:Hpasscode; cbn [String.length Nat.ltb Nat.leb].
  - rewrite bind_eq. unfold ui_DisplayPasswordPrompt.
    destruct (command.DisplayPasswordPrompt _ _ _) as [answer [e|]].
    + split; [exact Hpasscode|exact I].
    + unfold prepend, ret, receiver, outcome, calls. cbn [fst snd app String.eqb].
      split; [exact Hpasscode|]. exists answer. split; [reflexivity|].
      apply lookup_insert_eq.
  - rewrite bind_modifyCmd_eq. unfold ret, receiver, outcome, calls. cbn [fst snd String.eqb].
    split; [reflexivity|]. split; [reflexivity|]. apply lookup_insert_eq.
Qed.

Section OneUseSSO.

Variable pkg : Packages.
Variable prompts : PromptMap.

Local Abbreviation prompted :=
  (secretPrompted "passcode" (coreconfig.DisplayName (indexPrompt "passcode" prompts))).

Lemma authenticateSSO_loop_rounds_prompted tries err credentials cmd h before :
  SSOPasscode cmd = "" ->
  firstSecretPrompt before = None ->
  let r := authenticateSSO_loop pkg tries err prompts credentials cmd h in
  Forall prompted (rounds_from before (calls r)) /\ SSOPasscode (receiver r) = "".
Proof.
  revert err credentials cmd h before.
  induction tries as [|tries IH]; intros err credentials cmd h before Hpw Hbefore;
    [split; [constructor|exact Hpw]|].
  cbv zeta. rewrite authenticateSSO_loop_S.
  pose proof (authenticateSSO_passcode_spec prompts credentials cmd h) as [Hrecv Hout].
  pose proof (authenticateSSO_passcode_calls prompts credentials cmd h) as Hc.
  apply attempts_collector in Hc.
  destruct (authenticateSSO_passcode prompts credentials cmd h)
    as [[[submitted|e|] cmd1] evs1];
    unfold receiver, outcome, calls in Hrecv, Hout, Hc; cbn [fst snd] in Hrecv, Hout, Hc.
  - rewrite Hpw in Hout. cbn [String.eqb] in Hout.
    destruct Hout as (answer & -> & Hsubmitted).
    assert (Hround : forall ev, authenticateCredentials ev = submitted ->
              prompted (before ++ [UI_DisplayPasswordPrompt
                          (coreconfig.DisplayName (indexPrompt "passcode" prompts))
                          answer None]
                        ++ [UI_DisplayText "Authenticating..." []], ev)).
    { intros ev Hev. exists answer. cbn [fst snd].
      rewrite firstSecretPrompt_app, Hbefore, Hev. auto. }
    cbv zeta. destruct (Authenticate _ _ _ _ _) as [e|].
    + unfold calls at 1, receiver at 1; cbn [fst snd].
      rewrite rounds_from_app by exact Hc. cbn [app rounds_from isAuthenticate].
      match goal with |- context [authenticateSSO_loop ?a1 ?a2 ?a3 ?a4 ?a5 ?a6 ?a7] =>
        destruct (IH a3 a5 a6 a7 (([] ++ [UI_DisplayWarning
                    (ConvertToTranslatableError_Error pkg e)]) ++ [UI_DisplayNewline])
                    Hrecv eq_refl) as [Hlater Hlast]
      end.
      split; [|exact Hlast]. constructor; [|exact Hlater].
      rewrite <- app_assoc. apply Hround. reflexivity.
    + unfold calls at 1, receiver at 1; cbn [fst snd].
      rewrite rounds_from_app by exact Hc. cbn.
      split; [|exact Hrecv]. constructor; [|constructor].
      rewrite <- app_assoc. apply Hround. reflexivity.
  - unfold calls, receiver. cbn [fst snd].
    rewrite <- (app_nil_r evs1), rounds_from_app by exact Hc.
    split; [constructor|exact Hrecv].
  - unfold calls, receiver. cbn [fst snd].
    rewrite <- (app_nil_r evs1), rounds_from_app by exact Hc.
    split; [constructor|exact Hrecv].
Qed.

Lemma authenticateSSO_loop_rounds tries err credentials cmd h before :
  firstSecretPrompt before = None ->
  let r := authenticateSSO_loop pkg (S tries) err prompts credentials cmd h in
  match rounds_from before (calls r) with
  | [] => True
  | first :: later =>
      (if String.eqb (SSOPasscode cmd) "" then prompted first
       else authenticateCredentials first.2 !! "passcode" = Some (SSOPasscode cmd)
            /\ firstSecretPrompt first.1 = None)
      /\ Forall prompted later
  end
  /\ SSOPasscode (receiver r) = "".
Proof.
  intros Hbefore. cbv zeta.
  destruct (String.eqb_spec (SSOPasscode cmd) "") as [Hpw|Hpw].
  { destruct (authenticateSSO_loop_rounds_prompted (S tries) err credentials cmd h before
                Hpw Hbefore) as [Hall Hlast].
    split; [|exact Hlast]. destruct (rounds_from _ _); [exact I|].
    inversion Hall; subst. auto. }
  rewrite authenticateSSO_loop_S.
  pose proof (authenticateSSO_passcode_spec prompts credentials cmd h) as [Hrecv Hout].
  pose proof (authenticateSSO_passcode_calls prompts credentials cmd h) as Hc.
  apply attempts_collector in Hc.
  destruct (authenticateSSO_passcode prompts credentials cmd h)
    as [[[submitted|e|] cmd1] evs1];
    unfold receiver, outcome, calls in Hrecv, Hout, Hc; cbn [fst snd] in Hrecv, Hout, Hc.
  - destruct (String.eqb_spec (SSOPasscode cmd) "") as [|_]; [contradiction|].
    destruct Hout as [-> Hsubmitted].
    cbv zeta. destruct (Authenticate _ _ _ _ _) as [e|].
    + unfold calls at 1, receiver at 1; cbn [fst snd].
      cbn [app rounds_from isAuthenticate].
      match goal with |- context [authenticateSSO_loop ?a1 ?a2 ?a3 ?a4 ?a5 ?a6 ?a7] =>
        destruct (authenticateSSO_loop_rounds_prompted a2 a3 a5 a6 a7
                    (([] ++ [UI_DisplayWarning
                        (ConvertToTranslatableError_Error pkg e)]) ++ [UI_DisplayNewline])
                    Hrecv eq_refl) as [Hlater Hlast]
      end.
      cbn [fst snd authenticateCredentials]. rewrite firstSecretPrompt_app, Hbefore.
      auto.
    + unfold calls at 1, receiver at 1; cbn [fst snd]. cbn.
      rewrite firstSecretPrompt_app, Hbefore. auto.
  - unfold calls, receiver. cbn [fst snd].
    rewrite <- (app_nil_r evs1), rounds_from_app by exact Hc. cbn. auto.
  - unfold calls, receiver. cbn [fst snd].
    rewrite <- (app_nil_r evs1), rounds_from_app by exact Hc. cbn. auto.
Qed.

End OneUseSSO.

Lemma rounds_from_none before evs : attempts evs = [] -> rounds_from before evs = [].
Proof.
  intros Hnone. rewrite <- (app_nil_r evs), rounds_from_app by exact Hnone. reflexivity.
Qed.

(** C7. A password given with [-p] (password flow) or a passcode given with
    [--sso-passcode] (SSO flow) is submitted in the first attempt, and the
    field that held it is empty from then on: in every later attempt the
    secret that is submitted is the answer to a prompt of that attempt, the
    first secret prompt of the attempt. *)
Theorem supplied_secret_serves_one_attempt (pkg : Packages) cmd h :
  (forall passPrompt,
     lookupPrompt "password" (GetLoginPrompts (Actor cmd) h) = Some passPrompt ->
     let r := authenticate pkg cmd h in
     match rounds (calls r) with
     | [] => True
     | first :: later =>
         (if String.eqb (Password cmd) "" then
            secretPrompted "password" (coreconfig.DisplayName passPrompt) first
          else authenticateCredentials first.2 !! "password" = Some (Password cmd))
         /\ Forall (secretPrompted "password" (coreconfig.DisplayName passPrompt)) later
         /\ Password (receiver r) = ""
     end)
  /\ (let r := authenticateSSO pkg cmd h in
      let template :=
        coreconfig.DisplayName (indexPrompt "passcode" (GetLoginPrompts (Actor cmd) h)) in
      match rounds (calls r) with
      | [] => True
      | first :: later =>
          (if String.eqb (SSOPasscode cmd) "" then secretPrompted "passcode" template first
           else authenticateCredentials first.2 !! "passcode" = Some (SSOPasscode cmd)
                /\ firstSecretPrompt first.1 = None)
          /\ Forall (secretPrompted "passcode" template) later
      end
      /\ SSOPasscode (receiver r) = "").
Proof.
  split.
  - intros passPrompt Hlookup. cbv zeta.
    destruct (authenticate pkg cmd h) as [[r cmd'] evs] eqn:Hrun.
    apply authenticate_inv in Hrun as (h1 & ru & evs1 & Hu & Hrun).
    set (prompts := GetLoginPrompts (Actor cmd) h) in *.
    pose proof (authenticate_username_text_calls prompts ∅ cmd h1) as Hut.
    rewrite Hu in Hut. unfold calls in Hut. cbn [snd] in Hut.
    pose proof (firstSecretPrompt_text _ Hut) as Hu1.
    pose proof (authenticate_username_calls prompts ∅ cmd h1) as Hu2.
    rewrite Hu in Hu2. apply attempts_collector in Hu2.
    unfold calls in *. cbn [snd] in *. unfold receiver. cbn [fst snd].
    destruct ru as [credentials|e|]; cycle 1.
    { destruct Hrun as (-> & -> & ->). unfold rounds.
      rewrite rounds_from_none; [exact I|].
      change (attempts (?e :: ?l)) with (attempts l). exact Hu2. }
    { destruct Hrun as (-> & -> & ->). unfold rounds.
      rewrite rounds_from_none; [exact I|].
      change (attempts (?e :: ?l)) with (attempts l). exact Hu2. }
    destruct Hrun as (h2 & rg & evs2 & Hg & Hrun).
    pose proof (authenticate_range_text_calls prompts credentials [] cmd h2) as Hgt.
    rewrite Hg in Hgt. unfold calls in Hgt. cbn [snd] in Hgt.
    pose proof (firstSecretPrompt_text _ Hgt) as Hg1.
    pose proof (authenticate_range_calls prompts credentials [] cmd h2) as Hg2.
    rewrite Hg in Hg2. apply attempts_collector in Hg2.
    unfold calls in Hg2. cbn [snd] in Hg2.
    pose proof (authenticate_range_keys prompts credentials [] cmd h2) as Hkeys.
    rewrite Hg in Hkeys. unfold outcome in Hkeys. cbn [fst] in Hkeys.
    destruct rg as [ranged|e|]; cycle 1.
    { destruct Hrun as (-> & -> & ->). unfold rounds.
      rewrite rounds_from_none; [exact I|].
      change (attempts (?e :: ?l)) with (attempts l).
      rewrite attempts_app, Hu2, Hg2. reflexivity. }
    { destruct Hrun as (-> & -> & ->). unfold rounds.
      rewrite rounds_from_none; [exact I|].
      change (attempts (?e :: ?l)) with (attempts l).
      rewrite attempts_app, Hu2, Hg2. reflexivity. }
    destruct Hrun as (h3 & rl & evs3 & Hl & -> & ->).
    assert (Hnot : ~ In "password" ranged.2)
      by (rewrite Hkeys; apply otherSecretKeys_not_password).
    assert (Hbefore : firstSecretPrompt
              ([] ++ Actor_GetLoginPrompts prompts :: evs1 ++ evs2) = None)
      by (cbn; rewrite firstSecretPrompt_app, Hu1, Hg1; reflexivity).
    pose proof (authenticate_loop_rounds pkg prompts ranged.2 passPrompt Hlookup Hnot
                  2 None ranged.1 cmd h3 _ Hbefore) as Hloop.
    cbv zeta in Hloop. change 3 with maxLoginTries in Hloop. rewrite Hl in Hloop.
    unfold calls, receiver in Hloop. cbn [fst snd] in Hloop.
    unfold rounds.
    change (Actor_GetLoginPrompts prompts :: evs1 ++ evs2 ++ evs3)
      with ((Actor_GetLoginPrompts prompts :: evs1) ++ evs2 ++ evs3).
    rewrite app_assoc, rounds_from_app
      by (change (attempts ((?e :: ?l) ++ ?l')) with (attempts (l ++ l'));
          rewrite attempts_app, Hu2, Hg2; reflexivity).
    cbn [app] in *. destruct Hloop as [Hrounds Hlast].
    destruct (rounds_from _ evs3); [exact I|]. tauto.
  - cbv zeta.
    destruct (authenticateSSO pkg cmd h) as [[r cmd'] evs] eqn:Hrun.
    apply authenticateSSO_inv in Hrun as (h1 & rl & evs1 & Hl & -> & ->).
    set (prompts := GetLoginPrompts (Actor cmd) h) in *.
    pose proof (authenticateSSO_loop_rounds pkg prompts 2 None ∅ cmd h1
                  [Actor_GetLoginPrompts prompts] eq_refl) as Hloop.
    cbv zeta in Hloop. change 3 with maxLoginTries in Hloop. rewrite Hl in Hloop.
    unfold calls, receiver in *. cbn [fst snd] in *. exact Hloop.
Qed.

(** C7 at work: with [-p pw1] the first attempt submits [pw1], and the
    second one asks for the password; with [--sso-passcode 111111] the
    first attempt submits [111111] with no prompt, and the second one asks
    for the passcode. *)
Lemma supplied_secret_serves_one_attempt_witness :
  lookupPrompt "password" Scenario.schema
  = Some (coreconfig.MkAuthPrompt coreconfig.AuthPromptTypePassword "Password")
  /\ match rounds (calls (authenticate Scenario.packages Scenario.retry [])) with
     | [] => True
     | first :: later =>
         authenticateCredentials first.2 !! "password" = Some "pw1"
         /\ Forall (secretPrompted "password" "Password") later
         /\ Password (receiver (authenticate Scenario.packages Scenario.retry [])) = ""
     end
  /\ match rounds (calls (authenticateSSO Scenario.packages Scenario.retrySSO [])) with
     | [] => True
     | first :: later =>
         (authenticateCredentials first.2 !! "passcode" = Some "111111"
          /\ firstSecretPrompt first.1 = None)
         /\ Forall (secretPrompted "passcode"
                      (coreconfig.DisplayName (indexPrompt "passcode" Scenario.schema)))
              later
     end
  /\ length (rounds (calls (authenticate Scenario.packages Scenario.retry []))) = 2
  /\ length (rounds (calls (authenticateSSO Scenario.packages Scenario.retrySSO []))) = 2.
Proof.
  split; [reflexivity|]. split.
  { exact (proj1 (supplied_secret_serves_one_attempt Scenario.packages Scenario.retry [])
             _ eq_refl). }
  split.
  { exact (proj1 (proj2 (supplied_secret_serves_one_attempt Scenario.packages
                           Scenario.retrySSO []))). }
  split; vm_compute; reflexivity.
Defined.

(** ** The order of the prompts *)

Lemma asked_app evs1 evs2 : asked (evs1 ++ evs2) = asked evs1 ++ asked evs2.
Proof.
  induction evs1 as [|e evs1 IH]; [reflexivity|].
  cbn [app asked]. destruct (askedOf e); rewrite IH; reflexivity.
Qed.

Lemma asksFor_bind {A B} (m : M A) (k : A -> M B) cmd h expected1 expected2 :
  asksFor (m cmd h) expected1 ->
  (forall a cmd1 h1, asksFor (k a cmd1 h1) expected2) ->
  asksFor (bind m k cmd h) (expected1 ++ expected2).
Proof.
  intros Hm Hk. rewrite bind_eq. unfold asksFor in *.
  destruct (m cmd h) as [[[a|e|] cmd1] evs1]; unfold outcome, calls in *;
    cbn [fst snd] in *.
  - specialize (Hk a cmd1 (h ++ evs1)).
    destruct (k a cmd1 (h ++ evs1)) as [[[b|e|] cmd2] evs2];
      unfold prepend, outcome, calls in *; cbn [fst snd] in *; rewrite asked_app.
    + congruence.
    + destruct Hk as [rest ->]. exists rest. rewrite Hm, app_assoc. reflexivity.
    + destruct Hk as [rest ->]. exists rest. rewrite Hm, app_assoc. reflexivity.
  - destruct Hm as [rest ->]. exists (rest ++ expected2). symmetry. apply app_assoc.
  - destruct Hm as [rest ->]. exists (rest ++ expected2). symmetry. apply app_assoc.
Qed.

Lemma asksFor_ret {A} (a : A) cmd h : asksFor (ret a cmd h) [].
Proof. reflexivity. Qed.

Lemma asksFor_ui_DisplayTextPrompt template cmd h :
  asksFor (ui_DisplayTextPrompt template cmd h) [AskText template].
Proof.
  unfold asksFor, ui_DisplayTextPrompt.
  destruct (command.DisplayTextPrompt _ _ _) as [answer [e|]]; cbn; [exists []|]; reflexivity.
Qed.

Lemma asksFor_ui_DisplayPasswordPrompt template cmd h :
  asksFor (ui_DisplayPasswordPrompt template cmd h) [AskSecret template].
Proof.
  unfold asksFor, ui_DisplayPasswordPrompt.
  destruct (command.DisplayPasswordPrompt _ _ _) as [answer [e|]]; cbn; [exists []|]; reflexivity.
Qed.

Lemma authenticate_username_asked prompts credentials cmd h :
  asksFor (authenticate_username prompts credentials cmd h)
    (collectorOrder_username prompts (Username cmd)).
Proof.
  unfold authenticate_username, collectorOrder_username, indexPrompt.
  rewrite bind_getCmd_eq. cbv beta.
  destruct (lookupPrompt "username" prompts) as [prompt|];
    cbn [default from_option id]; [|exact eq_refl].
  destruct (coreconfig.isText prompt && negb (String.eqb (Username cmd) ""));
    [exact eq_refl|].
  change [AskText (coreconfig.DisplayName prompt)]
    with ([AskText (coreconfig.DisplayName prompt)] ++ [] ++ []).
  apply asksFor_bind; [apply asksFor_ui_DisplayTextPrompt|]. intros answer cmd1 h1.
  apply asksFor_bind; [exact eq_refl|]. intros _ cmd2 h2. exact eq_refl.
Qed.

Lemma authenticate_range_asked entries credentials passwordKeys cmd h :
  asksFor (authenticate_range entries credentials passwordKeys cmd h)
    (collectorOrder_texts entries).
Proof.
  revert credentials passwordKeys cmd h.
  induction entries as [|[key prompt] rest IH]; intros credentials passwordKeys cmd h;
    [exact eq_refl|].
  cbn [authenticate_range]. unfold collectorOrder_texts, isTextEntry.
  cbn [List.filter fst snd].
  destruct (coreconfig.isPassword prompt); cbn [negb andb].
  - destruct (String.eqb key "passcode" || String.eqb key "password"); apply IH.
  - destruct (String.eqb key "username"); cbn [negb]; [apply IH|].
    cbn [map fst snd].
    change (AskText (coreconfig.DisplayName prompt) :: ?l)
      with ([AskText (coreconfig.DisplayName prompt)] ++ [] ++ l).
    apply asksFor_bind; [apply asksFor_ui_DisplayTextPrompt|]. intros answer cmd1 h1.
    apply asksFor_bind; [exact eq_refl|]. intros _ cmd2 h2. apply IH.
Qed.

Lemma passwordPrompts_keys_asked prompts passwordKeys credentials cmd h :
  asksFor (passwordPrompts_keys prompts passwordKeys credentials cmd h)
    (map (fun key => AskSecret (coreconfig.DisplayName (indexPrompt key prompts)))
         passwordKeys).
Proof.
  revert credentials cmd h.
  induction passwordKeys as [|key rest IH]; intros credentials cmd h; [exact eq_refl|].
  cbn [passwordPrompts_keys map].
  change (AskSecret ?t :: ?l) with ([] ++ [AskSecret t] ++ l).
  apply asksFor_bind; [exact eq_refl|]. intros _ cmd1 h1.
  apply asksFor_bind; [apply asksFor_ui_DisplayPasswordPrompt|]. intros answer cmd2 h2.
  apply IH.
Qed.

Lemma passwordPrompts_asked prompts credentials passwordKeys cmd h :
  asksFor (passwordPrompts prompts credentials passwordKeys cmd h)
    (secretsAsked prompts passwordKeys (Password cmd)).
Proof.
  unfold passwordPrompts, secretsAsked.
  apply asksFor_bind.
  - destruct (lookupPrompt "password" prompts) as [prompt|]; [|exact eq_refl].
    rewrite bind_getCmd_eq. cbv beta.
    destruct (negb (String.eqb (Password cmd) "")).
    + rewrite bind_modifyCmd_eq. exact eq_refl.
    + change [AskSecret ?t] with ([AskSecret t] ++ []).
      apply asksFor_bind; [apply asksFor_ui_DisplayPasswordPrompt|].
      intros answer cmd1 h1. exact eq_refl.
  - intros credentials1 cmd1 h1.
    rewrite <- (app_nil_r (map _ passwordKeys)).
    apply asksFor_bind; [apply passwordPrompts_keys_asked|].
    intros credentials2 cmd2 h2. exact eq_refl.
Qed.

Lemma indexPrompt_In (prompts : PromptMap) key prompt :
  NoDup (map fst prompts) -> In (key, prompt) prompts -> indexPrompt key prompts = prompt.
Proof.
  unfold indexPrompt. induction prompts as [|[k p] rest IH]; intros Hnodup Hin;
    [destruct Hin|].
  cbn [lookupPrompt]. inversion Hnodup as [|? ? Hk Hrest]; subst.
  destruct Hin as [[= -> ->]|Hin].
  - rewrite String.eqb_refl. reflexivity.
  - destruct (String.eqb_spec k key) as [->|Hne]; [|apply IH; assumption].
    exfalso. apply Hk. apply list_elem_of_In. change key with (fst (key, prompt)).
    apply in_map. exact Hin.
Qed.

(** With distinct keys, the secrets [passwordPrompts] asks for are those of
    the spec. *)
Lemma secretsAsked_collectorOrder (prompts : PromptMap) password :
  NoDup (map fst prompts) ->
  secretsAsked prompts (otherSecretKeys prompts) password
  = collectorOrder_secrets prompts password.
Proof.
  intros Hnodup. unfold secretsAsked, collectorOrder_secrets, otherSecretKeys.
  f_equal. rewrite map_map. apply map_ext_in. intros [key prompt] Hin.
  apply List.filter_In in Hin as [Hin _]. cbn [fst snd].
  rewrite (indexPrompt_In prompts key prompt Hnodup Hin). reflexivity.
Qed.

Lemma calls_run {A} (r : Result A) cmd evs : calls (r, cmd, evs) = evs.
Proof. reflexivity. Qed.

Lemma collects_outcome {A} (m : M A) cmd h :
  collects m ->
  match outcome (m cmd h) with
  | Ok _ => answered (calls (m cmd h)) = true
  | _ => answered (calls (m cmd h)) = false
  end.
Proof.
  intros Hm. specialize (Hm cmd h). destruct (outcome (m cmd h)); [assumption| |destruct Hm].
  destruct Hm as (before & ev & -> & Hbefore & Hev).
  rewrite answered_app. cbn. unfold promptFailed. rewrite Hev. cbn.
  apply andb_false_r.
Qed.

Section Order.

Variable pkg : Packages.
Variable prompts : PromptMap.
Variable passwordKeys : list string.
Hypothesis Hsecrets :
  forall password,
    secretsAsked prompts passwordKeys password = collectorOrder_secrets prompts password.
Hypothesis Hkeys : ~ In "password" passwordKeys.

(** After [passwordPrompts] no password is at hand. *)
Lemma collectorOrder_attempts_after credentials cmd h n :
  collectorOrder_attempts prompts
    (Password (receiver (passwordPrompts prompts credentials passwordKeys cmd h))) n
  = collectorOrder_attempts prompts "" n.
Proof using Hkeys.
  destruct n as [|n]; [reflexivity|]. cbn [collectorOrder_attempts]. f_equal.
  destruct (lookupPrompt "password" prompts) as [passPrompt|] eqn:Hlookup.
  - destruct (passwordPrompts_password prompts credentials passwordKeys cmd h
                passPrompt Hlookup Hkeys) as [-> _].
    reflexivity.
  - unfold collectorOrder_secrets. rewrite Hlookup. reflexivity.
Qed.

Lemma authenticate_loop_asked tries err credentials cmd h :
  let r := authenticate_loop pkg tries err prompts credentials passwordKeys cmd h in
  (answered (calls r) = true ->
   asked (calls r)
   = collectorOrder_attempts prompts (Password cmd) (length (attempts (calls r))))
  /\ exists rest,
       collectorOrder_attempts prompts (Password cmd) tries = asked (calls r) ++ rest.
Proof using Hsecrets Hkeys.
  revert err credentials cmd h.
  induction tries as [|tries IH]; intros err credentials cmd h;
    [split; [reflexivity|exists []; reflexivity]|].
  cbv zeta. rewrite authenticate_loop_S.
  pose proof (passwordPrompts_asked prompts credentials passwordKeys cmd h) as Hasked.
  rewrite Hsecrets in Hasked. unfold asksFor in Hasked.
  pose proof (collects_outcome _ cmd h
                (passwordPrompts_collects prompts credentials passwordKeys)) as Hans.
  pose proof (passwordPrompts_calls prompts credentials passwordKeys cmd h) as Hc.
  apply attempts_collector in Hc.
  pose proof (collectorOrder_attempts_after credentials cmd h) as Hafter.
  destruct (passwordPrompts prompts credentials passwordKeys cmd h)
    as [[[submitted|e|] cmd1] evs1];
    unfold receiver, outcome, calls in Hasked, Hans, Hc, Hafter;
    cbn [fst snd] in Hasked, Hans, Hc, Hafter.
  - cbv zeta. destruct (Authenticate _ _ _ _ _) as [e|].
    + destruct (isAccountLockedError e); rewrite !calls_run.
      * rewrite !asked_app, !attempts_app, Hc, Hasked. cbn.
        split; [intros _; rewrite ?app_nil_r; reflexivity|].
        exists (collectorOrder_attempts prompts "" tries).
        rewrite ?app_nil_r. reflexivity.
      * rewrite !asked_app, !attempts_app, Hc, Hasked. cbn [app length asked askedOf
          attempts List.filter isAuthenticate].
        match goal with |- context [authenticate_loop ?a1 ?a2 ?a3 ?a4 ?a5 ?a6 ?a7 ?a8] =>
          destruct (IH a3 a5 a7 a8) as [Hall [rest Hrest]]
        end.
        rewrite Hafter in Hall, Hrest.
        split.
        -- rewrite !answered_app. intros Hyes.
           apply andb_prop in Hyes as [_ Hyes]. apply andb_prop in Hyes as [_ Hyes].
           rewrite (Hall Hyes). reflexivity.
        -- exists rest. cbn [collectorOrder_attempts].
           rewrite Hrest, <- app_assoc. reflexivity.
    + rewrite !calls_run.
      rewrite !asked_app, !attempts_app, Hc, Hasked. cbn.
      split; [intros _; rewrite ?app_nil_r; reflexivity|].
      exists (collectorOrder_attempts prompts "" tries).
      rewrite ?app_nil_r. reflexivity.
  - rewrite !calls_run. split; [congruence|].
    cbn [collectorOrder_attempts]. destruct Hasked as [rest ->].
    exists (rest ++ collectorOrder_attempts prompts "" tries).
    rewrite <- app_assoc. reflexivity.
  - rewrite !calls_run. split; [congruence|].
    cbn [collectorOrder_attempts]. destruct Hasked as [rest ->].
    exists (rest ++ collectorOrder_attempts prompts "" tries).
    rewrite <- app_assoc. reflexivity.
Qed.

End Order.

(** The order of the prompts of [authenticate]: what is asked for is a
    first part of the order of the collector, and all of it, for the
    attempts made, when no prompt fails. *)
Lemma authenticate_asked (pkg : Packages) cmd h :
  let prompts := GetLoginPrompts (Actor cmd) h in
  NoDup (map fst prompts) ->
  let r := authenticate pkg cmd h in
  (exists rest,
     collectorOrder prompts (Username cmd) (Password cmd) maxLoginTries
     = asked (calls r) ++ rest)
  /\ (answered (calls r) = true ->
      asked (calls r)
      = collectorOrder prompts (Username cmd) (Password cmd)
          (length (attempts (calls r)))).
Proof.
  intros prompts Hnodup. cbv zeta. unfold collectorOrder.
  destruct (authenticate pkg cmd h) as [[r cmd'] evs] eqn:Hrun.
  apply authenticate_inv in Hrun as (h1 & ru & evs1 & Hu & Hrun). fold prompts in Hu, Hrun.
  rewrite !calls_run.
  pose proof (authenticate_username_asked prompts ∅ cmd h1) as Hu1.
  pose proof (collects_outcome _ cmd h1 (authenticate_username_collects prompts ∅)) as Hu2.
  pose proof (authenticate_username_calls prompts ∅ cmd h1) as Hu3.
  apply attempts_collector in Hu3.
  unfold asksFor in Hu1. rewrite Hu in Hu1, Hu2, Hu3.
  unfold outcome, calls in Hu1, Hu2, Hu3. cbn [fst snd] in Hu1, Hu2, Hu3.
  destruct ru as [credentials|e|]; cycle 1.
  { destruct Hrun as (-> & -> & ->). change (asked (?e :: ?l)) with (asked l).
    change (answered (?e :: ?l)) with (answered l). split; [|congruence].
    destruct Hu1 as [rest ->]. eexists. rewrite <- app_assoc. reflexivity. }
  { destruct Hrun as (-> & -> & ->). change (asked (?e :: ?l)) with (asked l).
    change (answered (?e :: ?l)) with (answered l). split; [|congruence].
    destruct Hu1 as [rest ->]. eexists. rewrite <- app_assoc. reflexivity. }
  destruct Hrun as (h2 & rg & evs2 & Hg & Hrun).
  pose proof (authenticate_range_asked prompts credentials [] cmd h2) as Hg1.
  pose proof (collects_outcome _ cmd h2
                (authenticate_range_collects prompts credentials [])) as Hg2.
  pose proof (authenticate_range_calls prompts credentials [] cmd h2) as Hg3.
  apply attempts_collector in Hg3.
  pose proof (authenticate_range_keys prompts credentials [] cmd h2) as Hkeys.
  unfold asksFor in Hg1. rewrite Hg in Hg1, Hg2, Hg3, Hkeys.
  unfold outcome, calls in Hg1, Hg2, Hg3, Hkeys. cbn [fst snd] in Hg1, Hg2, Hg3, Hkeys.
  destruct rg as [ranged|e|]; cycle 1.
  { destruct Hrun as (-> & -> & ->). change (asked (?e :: ?l)) with (asked l).
    change (answered (?e :: ?l)) with (answered l). rewrite asked_app, answered_app, Hu1.
    split; [|rewrite Hg2, andb_false_r; congruence].
    destruct Hg1 as [rest ->]. eexists. rewrite <- !app_assoc. reflexivity. }
  { destruct Hrun as (-> & -> & ->). change (asked (?e :: ?l)) with (asked l).
    change (answered (?e :: ?l)) with (answered l). rewrite asked_app, answered_app, Hu1.
    split; [|rewrite Hg2, andb_false_r; congruence].
    destruct Hg1 as [rest ->]. eexists. rewrite <- !app_assoc. reflexivity. }
  destruct Hrun as (h3 & rl & evs3 & Hl & -> & ->).
  cbn [app] in Hkeys.
  assert (Hsecrets : forall password,
            secretsAsked prompts ranged.2 password
            = collectorOrder_secrets prompts password)
    by (intros password; rewrite Hkeys; apply secretsAsked_collectorOrder, Hnodup).
  assert (Hnot : ~ In "password" ranged.2)
    by (rewrite Hkeys; apply otherSecretKeys_not_password).
  destruct (authenticate_loop_asked pkg prompts ranged.2 Hsecrets Hnot
              maxLoginTries None ranged.1 cmd h3) as [Hall [rest Hrest]].
  rewrite Hl, !calls_run in Hall, Hrest.
  change (asked (?e :: ?l)) with (asked l).
  change (answered (?e :: ?l)) with (answered l).
  change (attempts (?e :: ?l)) with (attempts l).
  rewrite !asked_app, !answered_app, !attempts_app, Hu1, Hg1, Hu3, Hg3. cbn [app].
  split.
  - exists rest. rewrite Hrest, <- !app_assoc. reflexivity.
  - intros Hyes. apply andb_prop in Hyes as [_ Hyes]. apply andb_prop in Hyes as [_ Hyes].
    rewrite (Hall Hyes). reflexivity.
Qed.

(** ** A password the server does not ask for *)

Lemma authenticate_username_password prompts credentials cmd h :
  match outcome (authenticate_username prompts credentials cmd h) with
  | Ok credentials' => credentials' !! "password" = credentials !! "password"
  | _ => True
  end.
Proof.
  unfold authenticate_username. rewrite bind_getCmd_eq.
  destruct (lookupPrompt "username" prompts) as [value|]; [|reflexivity].
  destruct (coreconfig.isText _ && negb _).
  - cbn. apply lookup_insert_ne. discriminate.
  - rewrite bind_eq. unfold ui_DisplayTextPrompt.
    destruct (command.DisplayTextPrompt _ _ _) as [answer [e|]]; [exact I|].
    unfold ui_DisplayNewline. rewrite bind_emit_eq, !outcome_prepend.
    cbn. apply lookup_insert_ne. discriminate.
Qed.

Lemma authenticate_range_password entries credentials passwordKeys cmd h :
  lookupPrompt "password" entries = None ->
  match outcome (authenticate_range entries credentials passwordKeys cmd h) with
  | Ok ranged => ranged.1 !! "password" = credentials !! "password"
  | _ => True
  end.
Proof.
  revert credentials passwordKeys cmd h.
  induction entries as [|[key prompt] rest IH]; intros credentials passwordKeys cmd h Hnone.
  - reflexivity.
  - cbn [lookupPrompt] in Hnone.
    destruct (String.eqb_spec key "password") as [->|Hne]; [discriminate|].
    cbn [authenticate_range].
    destruct (coreconfig.isPassword prompt).
    + destruct (String.eqb key "passcode" || String.eqb key "password");
        apply IH, Hnone.
    + destruct (String.eqb key "username"); [apply IH, Hnone|].
      rewrite bind_eq. unfold ui_DisplayTextPrompt.
      destruct (command.DisplayTextPrompt _ _ _) as [answer [e|]]; [exact I|].
      unfold ui_DisplayNewline. rewrite bind_emit_eq, !outcome_prepend.
      match goal with |- context [authenticate_range rest ?c ?k ?cm ?hh] =>
        specialize (IH c k cm hh Hnone) end.
      destruct (outcome _); try exact I.
      rewrite IH. apply lookup_insert_ne. congruence.
Qed.

Lemma passwordPrompts_undeclared prompts credentials passwordKeys cmd h :
  lookupPrompt "password" prompts = None ->
  ~ In "password" passwordKeys ->
  match outcome (passwordPrompts prompts credentials passwordKeys cmd h) with
  | Ok prompted =>
      prompted.1 !! "password" = credentials !! "password"
      /\ prompted.2 !! "password" = credentials !! "password"
  | _ => True
  end.
Proof.
  intros Hnone Hnot. unfold passwordPrompts. rewrite Hnone, bind_ret_eq, bind_eq.
  pose proof (passwordPrompts_keys_password prompts passwordKeys credentials cmd h Hnot)
    as Hkeys.
  destruct (passwordPrompts_keys prompts passwordKeys credentials cmd h)
    as [[[c'|e'|] cmd1] evs1]; unfold outcome in Hkeys; cbn [fst snd] in Hkeys;
    cbn; auto.
Qed.

Lemma authenticate_loop_undeclared pkg prompts passwordKeys tries err credentials cmd h :
  lookupPrompt "password" prompts = None ->
  ~ In "password" passwordKeys ->
  credentials !! "password" = None ->
  Forall (fun ev => authenticateCredentials ev !! "password" = None)
    (attempts (calls (authenticate_loop pkg tries err prompts credentials passwordKeys
                        cmd h))).
Proof.
  intros Hnone Hnot. revert err credentials cmd h.
  induction tries as [|tries IH]; intros err credentials cmd h Hcred; [constructor|].
  rewrite authenticate_loop_S.
  pose proof (passwordPrompts_undeclared prompts credentials passwordKeys cmd h
                Hnone Hnot) as Hout.
  pose proof (passwordPrompts_calls prompts credentials passwordKeys cmd h) as Hc.
  apply attempts_collector in Hc.
  destruct (passwordPrompts prompts credentials passwordKeys cmd h)
    as [[[submitted|e|] cmd1] evs1];
    unfold outcome, calls in Hout, Hc; cbn [fst snd] in Hout, Hc.
  - destruct Hout as [Hsub Hkept]. rewrite Hcred in Hsub, Hkept.
    cbv zeta. destruct (Authenticate _ _ _ _ _) as [e|].
    + destruct (isAccountLockedError e); rewrite calls_run, attempts_app, Hc.
      * cbn. constructor; [exact Hsub|constructor].
      * cbn [app attempts List.filter isAuthenticate]. constructor; [exact Hsub|].
        apply IH, Hkept.
    + rewrite calls_run, attempts_app, Hc. cbn. constructor; [exact Hsub|constructor].
  - rewrite calls_run, Hc. constructor.
  - rewrite calls_run, Hc. constructor.
Qed.

(** When the server declares no prompt keyed [password], the password of
    the command line is submitted in no attempt of the password flow. *)
Theorem undeclared_password_not_submitted (pkg : Packages) cmd h :
  lookupPrompt "password" (GetLoginPrompts (Actor cmd) h) = None ->
  Forall (fun ev => authenticateCredentials ev !! "password" = None)
    (attempts (calls (authenticate pkg cmd h))).
Proof.
  intros Hnone.
  destruct (authenticate pkg cmd h) as [[r cmd'] evs] eqn:Hrun.
  apply authenticate_inv in Hrun as (h1 & ru & evs1 & Hu & Hrun).
  rewrite calls_run.
  pose proof (authenticate_username_password (GetLoginPrompts (Actor cmd) h) ∅ cmd h1)
    as Hu1.
  pose proof (authenticate_username_calls (GetLoginPrompts (Actor cmd) h) ∅ cmd h1) as Hu3.
  apply attempts_collector in Hu3.
  rewrite Hu in Hu1, Hu3. unfold outcome, calls in Hu1, Hu3. cbn [fst snd] in Hu1, Hu3.
  destruct ru as [credentials|e|];
    [|destruct Hrun as (-> & -> & ->);
      change (attempts (?e :: ?l)) with (attempts l); rewrite Hu3; constructor..].
  destruct Hrun as (h2 & rg & evs2 & Hg & Hrun).
  pose proof (authenticate_range_password (GetLoginPrompts (Actor cmd) h) credentials []
                cmd h2 Hnone) as Hg1.
  pose proof (authenticate_range_calls (GetLoginPrompts (Actor cmd) h) credentials []
                cmd h2) as Hg3.
  apply attempts_collector in Hg3.
  pose proof (authenticate_range_keys (GetLoginPrompts (Actor cmd) h) credentials []
                cmd h2) as Hkeys.
  rewrite Hg in Hg1, Hg3, Hkeys.
  unfold outcome, calls in Hg1, Hg3, Hkeys. cbn [fst snd] in Hg1, Hg3, Hkeys.
  destruct rg as [ranged|e|];
    [|destruct Hrun as (-> & -> & ->);
      change (attempts (?e :: ?l)) with (attempts l);
      rewrite attempts_app, Hu3, Hg3; constructor..].
  destruct Hrun as (h3 & rl & evs3 & Hl & -> & ->).
  change (attempts (?e :: ?l)) with (attempts l).
  rewrite !attempts_app, Hu3, Hg3. cbn [app].
  assert (Hnot : ~ In "password" ranged.2)
    by (rewrite Hkeys; apply otherSecretKeys_not_password).
  assert (Hcred : ranged.1 !! "password" = None)
    by (rewrite Hg1, Hu1; apply lookup_empty).
  pose proof (authenticate_loop_undeclared pkg _ _ maxLoginTries None _ cmd h3
                Hnone Hnot Hcred) as Hloop.
  rewrite Hl, calls_run in Hloop. exact Hloop.
Qed.

Lemma undeclared_password_not_submitted_witness :
  lookupPrompt "password" (GetLoginPrompts (Actor Scenario.usernameOnly) []) = None
  /\ length (attempts (calls (authenticate Scenario.packages Scenario.usernameOnly [])))
     = 1
  /\ Forall (fun ev => authenticateCredentials ev !! "password" = None)
       (attempts (calls (authenticate Scenario.packages Scenario.usernameOnly []))).
Proof.
  split; [reflexivity|]. split; [vm_compute; reflexivity|].
  apply (undeclared_password_not_submitted Scenario.packages Scenario.usernameOnly []).
  reflexivity.
Defined.

(** * Further properties of the login command *)

(** ** The endpoint *)

Lemma Execute_endpoint_flag cmd h :
  APIEndpoint cmd <> "" ->
  Execute_endpoint cmd h =
  (Ok tt, cmd,
   [UI_DisplayTextWithFlavor "API endpoint: {{.APIEndpoint}}"
      [("APIEndpoint", APIEndpoint cmd)]]).
Proof.
  intros Hflag. unfold Execute_endpoint. rewrite bind_getCmd_eq.
  destruct (String.eqb_spec (APIEndpoint cmd) ""); [contradiction|reflexivity].
Qed.

(** Where the endpoint comes from (lines 122-137): the flag [-a] when it is
    given; else the target of the configuration when there is one; else the
    terminal.  When that prompt fails, [Execute] returns its error as it
    is, having set no target and shown no status report. *)
Theorem Execute_endpoint_source (pkg : Packages) :
  (forall cmd h,
     APIEndpoint cmd <> "" ->
     Execute_endpoint cmd h =
     (Ok tt, cmd,
      [UI_DisplayTextWithFlavor "API endpoint: {{.APIEndpoint}}"
         [("APIEndpoint", APIEndpoint cmd)]]))
  /\ (forall cmd h,
        APIEndpoint cmd = "" ->
        command.Target (Config cmd) h <> "" ->
        Execute_endpoint cmd h =
        (Ok tt, set_APIEndpoint (command.Target (Config cmd) h) cmd,
         [UI_DisplayTextWithFlavor "API endpoint: {{.APIEndpoint}}"
            [("APIEndpoint", command.Target (Config cmd) h)]]))
  /\ (forall cmd h answer,
        APIEndpoint cmd = "" ->
        command.Target (Config cmd) h = "" ->
        command.DisplayTextPrompt (UI cmd) h "API endpoint" = (answer, None) ->
        Execute_endpoint cmd h =
        (Ok tt, set_APIEndpoint answer cmd,
         [UI_DisplayTextPrompt "API endpoint" answer None]))
  /\ (forall args cmd h answer e,
        let warning :=
          UI_DisplayWarning
            "Using experimental login command, some behavior may be different" in
        command.ExperimentalLogin (Config cmd) h = true ->
        APIEndpoint cmd = "" ->
        command.Target (Config cmd) (h ++ [warning]) = "" ->
        command.DisplayTextPrompt (UI cmd) (h ++ [warning]) "API endpoint"
        = (answer, Some e) ->
        Execute pkg args cmd h =
        (Fail e, cmd, [warning; UI_DisplayTextPrompt "API endpoint" answer (Some e)])).
Proof.
  repeat split.
  - intros cmd h Hflag. apply Execute_endpoint_flag, Hflag.
  - intros cmd h Hflag Htarget. unfold Execute_endpoint.
    rewrite bind_getCmd_eq, Hflag. cbn [String.eqb negb]. rewrite bind_ask_eq.
    destruct (String.eqb_spec (command.Target (Config cmd) h) ""); [contradiction|].
    reflexivity.
  - intros cmd h answer Hflag Htarget Hprompt. unfold Execute_endpoint.
    rewrite bind_getCmd_eq, Hflag. cbn [String.eqb negb].
    rewrite bind_ask_eq, Htarget. cbn [String.eqb negb].
    rewrite bind_eq. unfold ui_DisplayTextPrompt. rewrite Hprompt. reflexivity.
  - intros args cmd h answer e warning Hexp Hflag Htarget Hprompt. unfold Execute.
    rewrite bind_ask_eq, Hexp. cbn [negb]. unfold ui_DisplayWarning.
    rewrite bind_emit_eq. fold warning. rewrite bind_eq.
    unfold Execute_endpoint at 1.
    rewrite bind_getCmd_eq, Hflag. cbn [String.eqb negb].
    rewrite bind_ask_eq, Htarget. cbn [String.eqb negb].
    rewrite bind_eq. unfold ui_DisplayTextPrompt. rewrite Hprompt. reflexivity.
Qed.

(** [cf login] with nothing to read: the prompt for the endpoint ends in
    [io.EOF], which is what [Execute] returns. *)
Lemma Execute_endpoint_source_witness :
  Execute Scenario.packages [] Scenario.noEndpoint [] =
  (Fail io_EOF, Scenario.noEndpoint,
   [UI_DisplayWarning "Using experimental login command, some behavior may be different";
    UI_DisplayTextPrompt "API endpoint" "" (Some io_EOF)]).
Proof.
  exact (proj2 (proj2 (proj2 (Execute_endpoint_source Scenario.packages)))
           [] Scenario.noEndpoint [] "" io_EOF eq_refl eq_refl eq_refl eq_refl).
Defined.

(** An endpoint that [url.Parse] refuses (lines 141-143): the error of
    [url.Parse] is dropped and the nil URL it returns is dereferenced, so
    [Execute] panics, before any target is set. *)
Theorem Execute_unparsable_endpoint (pkg : Packages) args cmd h :
  command.ExperimentalLogin (Config cmd) h = true ->
  APIEndpoint cmd <> "" ->
  url_Parse pkg (TrimRight (APIEndpoint cmd) "/") = None ->
  Execute pkg args cmd h =
  (Panic, cmd,
   [UI_DisplayWarning "Using experimental login command, some behavior may be different";
    UI_DisplayTextWithFlavor "API endpoint: {{.APIEndpoint}}"
      [("APIEndpoint", APIEndpoint cmd)];
    UI_DisplayNewline]).
Proof.
  intros Hexp Hflag Hparse. unfold Execute.
  rewrite bind_ask_eq, Hexp. cbn [negb]. unfold ui_DisplayWarning.
  rewrite bind_emit_eq, bind_eq.
  rewrite (Execute_endpoint_flag cmd _ Hflag).
  unfold ui_DisplayNewline. rewrite bind_emit_eq, bind_eq.
  unfold Execute_target at 1. rewrite bind_getCmd_eq.
  unfold normalizedEndpoint. rewrite Hparse. reflexivity.
Qed.

(** [cf login -a 127.0.0.1:8080]: a colon in the first path segment. *)
Lemma Execute_unparsable_endpoint_witness :
  NetURL.Parse "127.0.0.1:8080" = None
  /\ outcome (Execute Scenario.packages [] Scenario.hostAndPort []) = Panic
  /\ targets (calls (Execute Scenario.packages [] Scenario.hostAndPort [])) = [].
Proof.
  split; [reflexivity|].
  rewrite (Execute_unparsable_endpoint Scenario.packages [] Scenario.hostAndPort []
             eq_refl ltac:(discriminate) eq_refl).
  split; reflexivity.
Defined.

(** ** A service account *)

(** While a service account is logged in (lines 162-164), [Execute] asks
    for no credential and makes no attempt: its calls are those that set
    the target and rebuild the client, and those of the status report, and
    once the client is rebuilt it returns the service-account error. *)
Theorem Execute_service_account (pkg : Packages) args cmd h :
  (forall h', command.UAAGrantType (Config cmd) h' = "client_credentials") ->
  let r := Execute pkg args cmd h in
  forallb preflightCall (calls r) = true
  /\ (existsb isRebuilt (calls r) = true ->
      outcome r =
      Fail (errors_New
        "Service account currently logged in. Use 'cf logout' to log out service account and try again.")).
Proof.
  intros Hgrant. cbv zeta.
  pose proof (Execute_run pkg args cmd h) as Hrun.
  remember (outcome (Execute pkg args cmd h)) as r eqn:Hr.
  remember (calls (Execute pkg args cmd h)) as evs eqn:Hevs.
  clear Hr Hevs.
  assert (Htarget : forall e, targetCall e = true -> preflightCall e = true)
    by (intros e He; unfold preflightCall; rewrite He; reflexivity).
  assert (Hstatus : forall e, statusCall e = true -> preflightCall e = true)
    by (intros e He; unfold preflightCall; rewrite He; apply orb_true_r).
  destruct Hrun as [Hexp|r pre Hexp Hpre Hnot Hfail
                    |pre endpoint actor r evsd cmds hs Hexp Hpre Hreb Hd].
  - split; [reflexivity|discriminate].
  - split; [|congruence].
    rewrite forallb_forall in *. intros e He. apply Htarget, Hpre, He.
  - pose proof (showStatus_calls cmds hs) as Hs.
    assert (Hpre' : forallb preflightCall pre = true)
      by (rewrite forallb_forall in *; intros e He; apply Htarget, Hpre, He).
    assert (Hs' : forallb preflightCall (calls (showStatus cmds hs)) = true)
      by (rewrite forallb_forall in *; intros e He; apply Hstatus, Hs, He).
    destruct Hd as [Hg|ra ca evsa Hg Ha Hra|ca evsa ro co evso Hg Ha Ho Hro
                    |ca evsa co evso rv cv evsv Hg Ha Ho Hv];
      try (exfalso; apply Hg; apply Hgrant).
    split; [rewrite !forallb_app, Hpre', Hs'; reflexivity|reflexivity].
Qed.

(** [cf login -a api.example.com -u me -p pw1] with a service account
    logged in. *)
Lemma Execute_service_account_witness :
  (forall h', command.UAAGrantType (Config Scenario.serviceAccount) h'
              = "client_credentials")
  /\ outcome (Execute Scenario.packages [] Scenario.serviceAccount []) =
     Fail (errors_New
       "Service account currently logged in. Use 'cf logout' to log out service account and try again.")
  /\ forallb preflightCall (calls (Execute Scenario.packages [] Scenario.serviceAccount []))
     = true.
Proof.
  assert (Hgrant : forall h', command.UAAGrantType (Config Scenario.serviceAccount) h'
                              = "client_credentials") by reflexivity.
  split; [exact Hgrant|].
  destruct (Execute_service_account Scenario.packages [] Scenario.serviceAccount []
              Hgrant) as [Hcalls Hfail].
  split; [apply Hfail; vm_compute; reflexivity | exact Hcalls].
Defined.

(** ** A run that succeeds has authenticated *)

Lemma attempts_cons_failed a l before ev after :
  a :: l = before ++ ev :: after ->
  authenticateResult a <> None ->
  authenticateResult ev = None ->
  exists before', before = a :: before' /\ l = before' ++ ev :: after.
Proof.
  intros Heq Ha Hev. destruct before as [|b before'].
  - injection Heq as -> _. contradiction.
  - injection Heq as -> ->. eauto.
Qed.

Lemma attempts_single (a : Event) before ev after :
  [a] = before ++ ev :: after -> after = [].
Proof.
  intros Heq. destruct before as [|b [|c before']]; [|discriminate..].
  injection Heq as _ <-. reflexivity.
Qed.

Section Success.

Variable pkg : Packages.

Lemma authenticate_loop_success tries err prompts credentials passwordKeys cmd h :
  let r := authenticate_loop pkg tries err prompts credentials passwordKeys cmd h in
  successIsLast (calls r)
  /\ (outcome r = Ok None -> (tries = 0 /\ err = None) \/ lastSucceeded (calls r)).
Proof.
  revert err credentials cmd h.
  induction tries as [|tries IH]; intros err credentials cmd h; cbv zeta.
  { split.
    - intros [|b before] ev after Heq; discriminate Heq.
    - intros [= ->]. left. auto. }
  rewrite authenticate_loop_S.
  pose proof (passwordPrompts_calls prompts credentials passwordKeys cmd h) as Hc.
  apply attempts_collector in Hc.
  destruct (passwordPrompts prompts credentials passwordKeys cmd h)
    as [[[submitted|e|] cmd1] evs1]; unfold calls in Hc; cbn [snd] in Hc.
  - cbv zeta. destruct (Authenticate _ _ _ _ _) as [e|] eqn:Hanswer.
    + destruct (isAccountLockedError e).
      * unfold successIsLast, lastSucceeded. rewrite calls_run, attempts_app, Hc.
        split; [|discriminate].
        intros before ev after Heq _. exact (attempts_single _ _ _ _ Heq).
      * match goal with |- context [authenticate_loop ?a1 ?a2 ?a3 ?a4 ?a5 ?a6 ?a7 ?a8] =>
          destruct (IH a3 a5 a7 a8) as [Hlast Hok] end.
        unfold successIsLast, lastSucceeded in *.
        rewrite calls_run, attempts_app, Hc.
        cbn [app attempts List.filter isAuthenticate]. fold (attempts).
        unfold outcome at 1. cbn [fst].
        split.
        -- intros before ev after Heq Hev.
           apply attempts_cons_failed in Heq as (before' & -> & Heq);
             [|discriminate|exact Hev].
           exact (Hlast _ _ _ Heq Hev).
        -- intros Hnone. right. destruct (Hok Hnone) as [[_ [=]]|(before & ev & Heq & Hev)].
           eexists (_ :: before), ev. split; [|exact Hev].
           cbn [app]. f_equal. exact Heq.
    + unfold successIsLast, lastSucceeded. rewrite calls_run, attempts_app, Hc.
      split.
      * intros before ev after Heq _. exact (attempts_single _ _ _ _ Heq).
      * intros _. right. eexists [], _. split; reflexivity.
  - unfold successIsLast. rewrite calls_run, Hc.
    split; [|discriminate]. intros [|b before] ev after Heq; discriminate Heq.
  - unfold successIsLast. rewrite calls_run, Hc.
    split; [|discriminate]. intros [|b before] ev after Heq; discriminate Heq.
Qed.

Lemma authenticateSSO_loop_success tries err prompts credentials cmd h :
  let r := authenticateSSO_loop pkg tries err prompts credentials cmd h in
  successIsLast (calls r)
  /\ (outcome r = Ok None -> (tries = 0 /\ err = None) \/ lastSucceeded (calls r)).
Proof.
  revert err credentials cmd h.
  induction tries as [|tries IH]; intros err credentials cmd h; cbv zeta.
  { split.
    - intros [|b before] ev after Heq; discriminate Heq.
    - intros [= ->]. left. auto. }
  rewrite authenticateSSO_loop_S.
  pose proof (authenticateSSO_passcode_calls prompts credentials cmd h) as Hc.
  apply attempts_collector in Hc.
  destruct (authenticateSSO_passcode prompts credentials cmd h)
    as [[[submitted|e|] cmd1] evs1]; unfold calls in Hc; cbn [snd] in Hc.
  - cbv zeta. destruct (Authenticate _ _ _ _ _) as [e|] eqn:Hanswer.
    + match goal with |- context [authenticateSSO_loop ?a1 ?a2 ?a3 ?a4 ?a5 ?a6 ?a7] =>
        destruct (IH a3 a5 a6 a7) as [Hlast Hok] end.
      unfold successIsLast, lastSucceeded in *.
      rewrite calls_run, attempts_app, Hc.
      cbn [app attempts List.filter isAuthenticate]. fold (attempts).
      unfold outcome at 1. cbn [fst].
      split.
      * intros before ev after Heq Hev.
        apply attempts_cons_failed in Heq as (before' & -> & Heq);
          [|discriminate|exact Hev].
        exact (Hlast _ _ _ Heq Hev).
      * intros Hnone. right. destruct (Hok Hnone) as [[_ [=]]|(before & ev & Heq & Hev)].
        eexists (_ :: before), ev. split; [|exact Hev].
        cbn [app]. f_equal. exact Heq.
    + unfold successIsLast, lastSucceeded. rewrite calls_run, attempts_app, Hc.
      split.
      * intros before ev after Heq _. exact (attempts_single _ _ _ _ Heq).
      * intros _. right. eexists [], _. split; reflexivity.
  - unfold successIsLast. rewrite calls_run, Hc.
    split; [|discriminate]. intros [|b before] ev after Heq; discriminate Heq.
  - unfold successIsLast. rewrite calls_run, Hc.
    split; [|discriminate]. intros [|b before] ev after Heq; discriminate Heq.
Qed.

End Success.

Section FlowsOfExecute.

Variable pkg : Packages.

(** The attempts of the password flow are those of its loop. *)
Lemma authenticate_attempts_loop cmd h :
  let prompts := GetLoginPrompts (Actor cmd) h in
  (attempts (calls (authenticate pkg cmd h)) = []
   /\ outcome (authenticate pkg cmd h) <> Ok tt)
  \/ exists h1 credentials h2 ranged h3,
       outcome (authenticate_username prompts ∅ cmd h1) = Ok credentials
       /\ outcome (authenticate_range prompts credentials [] cmd h2) = Ok ranged
       /\ let l := authenticate_loop pkg maxLoginTries None prompts ranged.1 ranged.2
                     cmd h3 in
          attempts (calls (authenticate pkg cmd h)) = attempts (calls l)
          /\ outcome (authenticate pkg cmd h) = afterLoop (outcome l)
          /\ receiver (authenticate pkg cmd h) = receiver l.
Proof.
  cbv zeta.
  destruct (authenticate pkg cmd h) as [[r cmd'] evs] eqn:Hrun.
  apply authenticate_inv in Hrun as (h1 & ru & evs1 & Hu & Hrun).
  match type of Hu with authenticate_username ?a ?b ?c ?d = _ =>
    pose proof (authenticate_username_calls a b c d) as Hu' end.
  rewrite Hu in Hu'. apply attempts_collector in Hu'. unfold calls in Hu'. cbn [snd] in Hu'.
  rewrite calls_run. unfold outcome at 1 3, receiver at 1. cbn [fst snd].
  destruct ru as [credentials|e|];
    [|destruct Hrun as (-> & -> & ->); left;
      change (attempts (?e :: ?l)) with (attempts l); rewrite Hu';
      split; [reflexivity|discriminate]..].
  destruct Hrun as (h2 & rg & evs2 & Hg & Hrun).
  match type of Hg with authenticate_range ?a ?b ?c ?d ?e = _ =>
    pose proof (authenticate_range_calls a b c d e) as Hg' end.
  rewrite Hg in Hg'. apply attempts_collector in Hg'. unfold calls in Hg'. cbn [snd] in Hg'.
  destruct rg as [ranged|e|];
    [|destruct Hrun as (-> & -> & ->); left;
      change (attempts (?e :: ?l)) with (attempts l); rewrite attempts_app, Hu', Hg';
      split; [reflexivity|discriminate]..].
  destruct Hrun as (h3 & rl & evs3 & Hl & -> & ->).
  right. exists h1, credentials, h2, ranged, h3.
  rewrite Hu, Hg, Hl. unfold outcome, receiver, calls. cbn [fst snd].
  change (attempts (?e :: ?l)) with (attempts l).
  rewrite !attempts_app, Hu', Hg'. auto.
Qed.

Lemma authenticateSSO_attempts_loop cmd h :
  exists h1,
    let l := authenticateSSO_loop pkg maxLoginTries None (GetLoginPrompts (Actor cmd) h)
               ∅ cmd h1 in
    attempts (calls (authenticateSSO pkg cmd h)) = attempts (calls l)
    /\ outcome (authenticateSSO pkg cmd h) = afterLoop (outcome l)
    /\ receiver (authenticateSSO pkg cmd h) = receiver l.
Proof.
  destruct (authenticateSSO pkg cmd h) as [[r cmd'] evs] eqn:Hrun.
  apply authenticateSSO_inv in Hrun as (h1 & rl & evs1 & Hl & -> & ->).
  exists h1. cbv zeta. rewrite Hl. unfold outcome, receiver, calls. cbn [fst snd]. auto.
Qed.

(** The attempts of [Execute] are those of the flow it selects, which runs
    on the receiver with its endpoint set and its client rebuilt. *)
Lemma Execute_attempts_flow args cmd h :
  (attempts (calls (Execute pkg args cmd h)) = []
   /\ outcome (Execute pkg args cmd h) <> Ok tt)
  \/ exists endpoint actor hh,
       let c := set_Actor actor (set_APIEndpoint endpoint cmd) in
       let f := if SSO c || negb (String.eqb (SSOPasscode c) "")
                then authenticateSSO pkg c hh else authenticate pkg c hh in
       attempts (calls (Execute pkg args cmd h)) = attempts (calls f)
       /\ (outcome (Execute pkg args cmd h) = Ok tt -> outcome f = Ok tt).
Proof.
  pose proof (Execute_run pkg args cmd h) as Hrun.
  remember (outcome (Execute pkg args cmd h)) as r eqn:Hr.
  remember (calls (Execute pkg args cmd h)) as evs eqn:Hevs.
  clear Hr Hevs.
  assert (Htarget : forall e, targetCall e = true -> isAuthenticate e = false)
    by (intros e; destruct e; cbn; congruence).
  assert (Hstatus : forall e, statusCall e = true -> isAuthenticate e = false)
    by (intros e; destruct e; cbn; congruence).
  assert (Horg : forall e, organizationCall e = true -> isAuthenticate e = false)
    by (intros e; destruct e; cbn; congruence).
  assert (Hversion : forall e, versionCall e = true -> isAuthenticate e = false)
    by (intros e; destruct e; cbn; congruence).
  destruct Hrun as [Hexp|r pre Hexp Hpre Hnot Hfail
                    |pre endpoint actor r evsd cmds hs Hexp Hpre Hreb Hd].
  - left. split; [reflexivity|discriminate].
  - left. split; [exact (attempts_none _ _ Htarget Hpre)|exact Hfail].
  - pose proof (attempts_none _ _ Hstatus (showStatus_calls cmds hs)) as Hs.
    pose proof (attempts_none _ _ Htarget Hpre) as Hp.
    rewrite !attempts_app, Hp, Hs, app_nil_r. cbn [app].
    set (c := set_Actor actor (set_APIEndpoint endpoint cmd)) in *.
    assert (Hflow : forall ra ca evsa,
              Execute_authenticate pkg c (h ++ pre) = (ra, ca, evsa) ->
              (evsa = [] /\ ra <> Ok tt)
              \/ (let f := if SSO c || negb (String.eqb (SSOPasscode c) "")
                           then authenticateSSO pkg c (h ++ pre)
                           else authenticate pkg c (h ++ pre) in
                  evsa = calls f /\ (ra = Ok tt -> outcome f = Ok tt))).
    { intros ra ca evsa Ha. rewrite Execute_authenticate_eq in Ha.
      destruct (SSO c || negb (String.eqb (SSOPasscode c) "")).
      - destruct (SSO c && negb (String.eqb (SSOPasscode c) "")).
        + injection Ha as <- <- <-. left. split; [reflexivity|discriminate].
        + cbv zeta in Ha. injection Ha as <- <- <-. right. split; [reflexivity|].
          destruct (outcome (authenticateSSO pkg c (h ++ pre))) as [[]| |];
            cbn; congruence.
      - cbv zeta in Ha. injection Ha as <- <- <-. right. split; [reflexivity|].
        destruct (outcome (authenticate pkg c (h ++ pre))) as [[]| |]; cbn; congruence. }
    destruct Hd as [Hg|ra ca evsa Hg Ha Hra|ca evsa ro co evso Hg Ha Ho Hro
                    |ca evsa co evso rv cv evsv Hg Ha Ho Hv]; stage_calls.
    + left. split; [reflexivity|discriminate].
    + destruct (Hflow _ _ _ Ha) as [[-> _]|[-> Hok]].
      * left. split; [reflexivity|exact Hra].
      * right. exists endpoint, actor, (h ++ pre). split; [reflexivity|].
        intros ->. contradiction.
    + destruct (Hflow _ _ _ Ha) as [[_ Hne]|[-> Hok]]; [contradiction|].
      right. exists endpoint, actor, (h ++ pre).
      rewrite attempts_app, (attempts_none _ _ Horg Hcalls0), app_nil_r.
      split; [reflexivity|]. intros ->. contradiction.
    + destruct (Hflow _ _ _ Ha) as [[_ Hne]|[-> Hok]]; [contradiction|].
      right. exists endpoint, actor, (h ++ pre).
      rewrite !attempts_app, (attempts_none _ _ Horg Hcalls0),
        (attempts_none _ _ Hversion Hcalls1), !app_nil_r.
      split; [reflexivity|]. intros _. apply Hok. reflexivity.
Qed.

End FlowsOfExecute.

Lemma afterLoop_Ok (r : Result (option error)) : afterLoop r = Ok tt -> r = Ok None.
Proof. destruct r as [[e|]|e|]; cbn; congruence. Qed.

Lemma flow_success (pkg : Packages) (sso : bool) c hh :
  let f := if sso then authenticateSSO pkg c hh else authenticate pkg c hh in
  length (attempts (calls f)) <= maxLoginTries
  /\ successIsLast (calls f)
  /\ (outcome f = Ok tt -> lastSucceeded (calls f)).
Proof.
  cbv zeta. unfold successIsLast, lastSucceeded. destruct sso.
  - destruct (authenticateSSO_attempts_loop pkg c hh) as (h1 & Hatt & Hout & _).
    rewrite Hatt, Hout.
    destruct (authenticateSSO_loop_success pkg maxLoginTries None
                (GetLoginPrompts (Actor c) hh) ∅ c h1) as [Hlast Hok].
    split; [apply authenticateSSO_loop_attempts_le|]. split; [exact Hlast|].
    intros Hyes. apply afterLoop_Ok in Hyes.
    destruct (Hok Hyes) as [[[=] _]|Hdone]. exact Hdone.
  - destruct (authenticate_attempts_loop pkg c hh)
      as [[Hnone Hfail]|(h1 & credentials & h2 & ranged & h3 & _ & _ & Hatt & Hout & _)].
    + rewrite Hnone. split; [cbn; lia|]. split; [|contradiction].
      intros [|b before] ev after Heq; discriminate Heq.
    + rewrite Hatt, Hout.
      destruct (authenticate_loop_success pkg maxLoginTries None
                  (GetLoginPrompts (Actor c) hh) ranged.1 ranged.2 c h3) as [Hlast Hok].
      split; [apply authenticate_loop_attempts_le|]. split; [exact Hlast|].
      intros Hyes. apply afterLoop_Ok in Hyes.
      destruct (Hok Hyes) as [[[=] _]|Hdone]. exact Hdone.
Qed.

(** [Execute] calls [Authenticate] at most [maxLoginTries] times and never
    again after a call that succeeded; it returns no error only when its
    last call of [Authenticate] succeeded. *)
Theorem Execute_success_authenticated (pkg : Packages) args cmd h :
  let r := Execute pkg args cmd h in
  length (attempts (calls r)) <= maxLoginTries
  /\ successIsLast (calls r)
  /\ (outcome r = Ok tt -> lastSucceeded (calls r)).
Proof.
  cbv zeta. unfold successIsLast, lastSucceeded.
  destruct (Execute_attempts_flow pkg args cmd h)
    as [[Hnone Hfail]|(endpoint & actor & hh & Hatt & Hok)].
  - rewrite Hnone. split; [cbn; lia|]. split; [|contradiction].
    intros [|b before] ev after Heq; discriminate Heq.
  - cbv zeta in Hatt, Hok. rewrite Hatt.
    match type of Hatt with context [if ?b then _ else _] =>
      pose proof (flow_success pkg b (set_Actor actor (set_APIEndpoint endpoint cmd)) hh)
        as (Hle & Hlast & Hdone) end.
    cbv zeta in Hle, Hlast, Hdone. unfold successIsLast, lastSucceeded in Hlast, Hdone.
    split; [exact Hle|]. split; [exact Hlast|].
    intros Hyes. apply Hdone, Hok, Hyes.
Qed.

(** ** What the flows submit *)

Lemma authenticateSSO_passcode_inserts prompts credentials cmd h :
  match outcome (authenticateSSO_passcode prompts credentials cmd h) with
  | Ok credentials' => exists passcode, credentials' = <["passcode" := passcode]> credentials
  | _ => True
  end.
Proof.
  unfold authenticateSSO_passcode. rewrite bind_getCmd_eq.
  destruct (Nat.ltb 0 (String.length (SSOPasscode cmd))).
  - cbn. eauto.
  - rewrite bind_eq. unfold ui_DisplayPasswordPrompt.
    destruct (command.DisplayPasswordPrompt _ _ _) as [answer [e|]]; [exact I|].
    cbn. eauto.
Qed.

Lemma authenticateSSO_loop_passcode_only pkg tries err prompts credentials cmd h :
  credentials = ∅ \/ (exists passcode, credentials = {["passcode" := passcode]}) ->
  Forall passcodeOnly
    (attempts (calls (authenticateSSO_loop pkg tries err prompts credentials cmd h))).
Proof.
  revert err credentials cmd h.
  induction tries as [|tries IH]; intros err credentials cmd h Hcred; [constructor|].
  rewrite authenticateSSO_loop_S.
  pose proof (authenticateSSO_passcode_inserts prompts credentials cmd h) as Hins.
  pose proof (authenticateSSO_passcode_calls prompts credentials cmd h) as Hc.
  apply attempts_collector in Hc.
  destruct (authenticateSSO_passcode prompts credentials cmd h)
    as [[[submitted|e|] cmd1] evs1];
    unfold outcome, calls in Hins, Hc; cbn [fst snd] in Hins, Hc;
    [|rewrite calls_run, Hc; constructor..].
  destruct Hins as [passcode ->].
  assert (Hone : <["passcode" := passcode]> credentials = {["passcode" := passcode]}).
  { destruct Hcred as [->|[old ->]]; [apply insert_empty|].
    rewrite <- insert_empty. apply insert_insert_eq. }
  rewrite Hone. cbv zeta. destruct (Authenticate _ _ _ _ _) as [e|].
  - rewrite calls_run, attempts_app, Hc.
    cbn [app attempts List.filter isAuthenticate]. constructor.
    + exists passcode, (Some e). reflexivity.
    + apply IH. right. eauto.
  - rewrite calls_run, attempts_app, Hc. cbn. constructor; [|constructor].
    exists passcode, None. reflexivity.
Qed.

(** With [--sso] or [--sso-passcode], every call of [Authenticate] that
    [Execute] makes submits the passcode and nothing else, with no origin
    and the grant type password: the user name and the password of the
    command line are not sent. *)
Theorem Execute_sso_submits_passcode_only (pkg : Packages) args cmd h :
  SSO cmd = true \/ SSOPasscode cmd <> "" ->
  Forall passcodeOnly (attempts (calls (Execute pkg args cmd h))).
Proof.
  intros Hsso.
  destruct (Execute_attempts_flow pkg args cmd h)
    as [[-> _]|(endpoint & actor & hh & Hatt & _)]; [constructor|].
  cbv zeta in Hatt. rewrite Hatt. cbn [SSO SSOPasscode set_Actor set_APIEndpoint].
  assert (Hflow : SSO cmd || negb (String.eqb (SSOPasscode cmd) "") = true).
  { destruct Hsso as [->|Hne]; [reflexivity|].
    destruct (String.eqb_spec (SSOPasscode cmd) ""); [contradiction|].
    apply orb_true_r. }
  rewrite Hflow.
  destruct (authenticateSSO_attempts_loop pkg
              (set_Actor actor (set_APIEndpoint endpoint cmd)) hh) as (h1 & -> & _).
  apply authenticateSSO_loop_passcode_only. left. reflexivity.
Qed.

(** [cf login -a api.example.com --sso-passcode 111111], the first attempt
    rejected: the passcode of the command line, then the one typed in. *)
Lemma Execute_sso_submits_passcode_only_witness :
  SSOPasscode Scenario.retrySSO = "111111"
  /\ map authenticateCredentials
       (attempts (calls (Execute Scenario.packages [] Scenario.retrySSO [])))
     = [{["passcode" := "111111"]}; {["passcode" := "222222"]}]
  /\ Forall passcodeOnly
       (attempts (calls (Execute Scenario.packages [] Scenario.retrySSO []))).
Proof.
  split; [reflexivity|]. split; [vm_compute; reflexivity|].
  apply (Execute_sso_submits_passcode_only Scenario.packages [] Scenario.retrySSO []).
  right. discriminate.
Defined.

Lemma passwordPrompts_keys_key prompts passwordKeys credentials cmd h key :
  ~ In key passwordKeys ->
  match outcome (passwordPrompts_keys prompts passwordKeys credentials cmd h) with
  | Ok credentials' => credentials' !! key = credentials !! key
  | _ => True
  end.
Proof.
  revert credentials cmd h.
  induction passwordKeys as [|k rest IH]; intros credentials cmd h Hnot.
  - reflexivity.
  - cbn [passwordPrompts_keys]. unfold ui_DisplayNewline. rewrite bind_emit_eq.
    cbv beta. rewrite bind_eq. unfold ui_DisplayPasswordPrompt.
    destruct (command.DisplayPasswordPrompt _ _ _) as [answer [e|]]; [exact I|].
    rewrite !outcome_prepend.
    match goal with |- context [passwordPrompts_keys prompts rest ?c ?cm ?hh] =>
      specialize (IH c cm hh) end.
    destruct (outcome _); try exact I.
    rewrite IH by (intros Hin; apply Hnot; right; exact Hin).
    apply lookup_insert_ne. intros ->. apply Hnot. left. reflexivity.
Qed.

Lemma passwordPrompts_key prompts credentials passwordKeys cmd h key :
  key <> "password" ->
  ~ In key passwordKeys ->
  match outcome (passwordPrompts prompts credentials passwordKeys cmd h) with
  | Ok prompted =>
      prompted.1 !! key = credentials !! key /\ prompted.2 !! key = credentials !! key
  | _ => True
  end.
Proof.
  intros Hkey Hnot. unfold passwordPrompts.
  assert (Hkeys : forall c cm hh,
            match outcome (passwordPrompts_keys prompts passwordKeys c cm hh) with
            | Ok c' => c' !! key = c !! key
            | _ => True
            end) by (intros; apply passwordPrompts_keys_key, Hnot).
  assert (Hdone : forall c cm hh,
            c !! key = credentials !! key ->
            match outcome (bind (passwordPrompts_keys prompts passwordKeys c)
                             (fun c' => ret (c', c')) cm hh) with
            | Ok prompted =>
                prompted.1 !! key = credentials !! key
                /\ prompted.2 !! key = credentials !! key
            | _ => True
            end).
  { intros c cm hh Hc. rewrite bind_eq. specialize (Hkeys c cm hh).
    destruct (passwordPrompts_keys prompts passwordKeys c cm hh) as [[[c'|e'|] cm1] evs1];
      unfold outcome in Hkeys |- *; cbn [fst snd] in Hkeys |- *; try exact I.
    cbn. rewrite Hkeys, Hc. auto. }
  destruct (lookupPrompt "password" prompts) as [passPrompt|].
  - rewrite bind_assoc, bind_getCmd_eq. cbv beta.
    destruct (negb (String.eqb (Password cmd) "")).
    + rewrite bind_assoc, bind_modifyCmd_eq, bind_ret_eq.
      apply Hdone, lookup_insert_ne. congruence.
    + rewrite bind_assoc, bind_eq. unfold ui_DisplayPasswordPrompt.
      destruct (command.DisplayPasswordPrompt _ _ _) as [answer [e|]]; [exact I|].
      rewrite bind_ret_eq, outcome_prepend.
      apply Hdone, lookup_insert_ne. congruence.
  - rewrite bind_ret_eq. apply Hdone. reflexivity.
Qed.

Lemma authenticate_loop_key pkg prompts passwordKeys key tries err credentials cmd h :
  key <> "password" ->
  ~ In key passwordKeys ->
  Forall (fun ev => authenticateCredentials ev !! key = credentials !! key)
    (attempts (calls (authenticate_loop pkg tries err prompts credentials passwordKeys
                        cmd h))).
Proof.
  intros Hkey Hnot. revert err credentials cmd h.
  induction tries as [|tries IH]; intros err credentials cmd h; [constructor|].
  rewrite authenticate_loop_S.
  pose proof (passwordPrompts_key prompts credentials passwordKeys cmd h key Hkey Hnot)
    as Hout.
  pose proof (passwordPrompts_calls prompts credentials passwordKeys cmd h) as Hc.
  apply attempts_collector in Hc.
  destruct (passwordPrompts prompts credentials passwordKeys cmd h)
    as [[[submitted|e|] cmd1] evs1];
    unfold outcome, calls in Hout, Hc; cbn [fst snd] in Hout, Hc;
    [|rewrite calls_run, Hc; constructor..].
  destruct Hout as [Hsub Hkept].
  cbv zeta. destruct (Authenticate _ _ _ _ _) as [e|].
  - destruct (isAccountLockedError e); rewrite calls_run, attempts_app, Hc.
    + cbn. constructor; [exact Hsub|constructor].
    + cbn [app attempts List.filter isAuthenticate]. constructor; [exact Hsub|].
      rewrite <- Hkept. apply IH.
  - rewrite calls_run, attempts_app, Hc. cbn. constructor; [exact Hsub|constructor].
Qed.

Lemma authenticate_range_username entries credentials passwordKeys cmd h :
  match outcome (authenticate_range entries credentials passwordKeys cmd h) with
  | Ok ranged => ranged.1 !! "username" = credentials !! "username"
  | _ => True
  end.
Proof.
  revert credentials passwordKeys cmd h.
  induction entries as [|[key prompt] rest IH]; intros credentials passwordKeys cmd h.
  - reflexivity.
  - cbn [authenticate_range].
    destruct (coreconfig.isPassword prompt).
    + destruct (String.eqb key "passcode" || String.eqb key "password"); apply IH.
    + destruct (String.eqb_spec key "username") as [->|Hne]; [apply IH|].
      rewrite bind_eq. unfold ui_DisplayTextPrompt.
      destruct (command.DisplayTextPrompt _ _ _) as [answer [e|]]; [exact I|].
      unfold ui_DisplayNewline. rewrite bind_emit_eq, !outcome_prepend.
      match goal with |- context [authenticate_range rest ?c ?k ?cm ?hh] =>
        specialize (IH c k cm hh) end.
      destruct (outcome _); try exact I.
      rewrite IH. apply lookup_insert_ne. congruence.
Qed.

Lemma authenticate_username_value prompts credentials cmd h prompt :
  lookupPrompt "username" prompts = Some prompt ->
  match outcome (authenticate_username prompts credentials cmd h) with
  | Ok credentials' =>
      exists username,
        credentials' !! "username" = Some username
        /\ (coreconfig.isText prompt = true -> Username cmd <> "" ->
            username = Username cmd)
  | _ => True
  end.
Proof.
  intros Hlookup. unfold authenticate_username, indexPrompt.
  rewrite bind_getCmd_eq, Hlookup. cbn [default from_option id].
  destruct (coreconfig.isText prompt); cbn [andb].
  - destruct (String.eqb_spec (Username cmd) ""); cbn [negb].
    + rewrite bind_eq. unfold ui_DisplayTextPrompt.
      destruct (command.DisplayTextPrompt _ _ _) as [answer [e'|]]; [exact I|].
      unfold ui_DisplayNewline. rewrite bind_emit_eq, !outcome_prepend. cbn.
      exists answer. split; [apply lookup_insert_eq|]. intros _ Hne. contradiction.
    + cbn. exists (Username cmd). split; [apply lookup_insert_eq|auto].
  - rewrite bind_eq. unfold ui_DisplayTextPrompt.
    destruct (command.DisplayTextPrompt _ _ _) as [answer [e'|]]; [exact I|].
    unfold ui_DisplayNewline. rewrite bind_emit_eq, !outcome_prepend. cbn.
    exists answer. split; [apply lookup_insert_eq|]. discriminate.
Qed.

Lemma otherSecretKeys_text prompts key prompt :
  NoDup (map fst prompts) ->
  lookupPrompt key prompts = Some prompt ->
  coreconfig.isPassword prompt = false ->
  ~ In key (otherSecretKeys prompts).
Proof.
  intros Hnodup Hlookup Htext Hin. unfold otherSecretKeys in Hin.
  apply in_map_iff in Hin as ([k p] & Hk & Hin). cbn [fst] in Hk. subst k.
  apply List.filter_In in Hin as [Hin Hsecret].
  pose proof (indexPrompt_In prompts key p Hnodup Hin) as Hindex.
  unfold indexPrompt in Hindex. rewrite Hlookup in Hindex.
  cbn [default from_option id] in Hindex. subst p.
  unfold isOtherSecret in Hsecret. cbn [snd] in Hsecret.
  rewrite Htext in Hsecret. discriminate.
Qed.

(** The user name is resolved once and sent with every attempt of the
    password flow: when the server declares [username] as a text prompt,
    all the attempts submit the same user name, which is the one of [-u]
    when [-u] is given. *)
Theorem username_submitted (pkg : Packages) cmd h prompt :
  let prompts := GetLoginPrompts (Actor cmd) h in
  NoDup (map fst prompts) ->
  lookupPrompt "username" prompts = Some prompt ->
  coreconfig.isText prompt = true ->
  exists username,
    (Username cmd <> "" -> username = Username cmd)
    /\ Forall (fun ev => authenticateCredentials ev !! "username" = Some username)
         (attempts (calls (authenticate pkg cmd h))).
Proof.
  intros prompts Hnodup Hlookup Htext.
  destruct (authenticate_attempts_loop pkg cmd h)
    as [[-> _]|(h1 & credentials & h2 & ranged & h3 & Hu & Hg & Hatt & _)].
  { exists (Username cmd). split; [reflexivity|constructor]. }
  fold prompts in Hu, Hg, Hatt. cbv zeta in Hatt. rewrite Hatt.
  pose proof (authenticate_username_value prompts ∅ cmd h1 prompt Hlookup) as Hu1.
  rewrite Hu in Hu1. destruct Hu1 as (username & Hname & Hflag).
  pose proof (authenticate_range_username prompts credentials [] cmd h2) as Hg1.
  pose proof (authenticate_range_keys prompts credentials [] cmd h2) as Hkeys.
  rewrite Hg in Hg1, Hkeys. cbn [app] in Hkeys.
  exists username. split; [exact (Hflag Htext)|].
  rewrite <- Hname, <- Hg1.
  apply authenticate_loop_key; [discriminate|].
  rewrite Hkeys. apply (otherSecretKeys_text prompts "username" prompt Hnodup Hlookup).
  unfold coreconfig.isText in Htext. unfold coreconfig.isPassword.
  destruct (coreconfig.Type_ prompt); congruence.
Qed.

(** [cf login -a api.example.com -u me -p pw1], the first attempt rejected:
    both attempts submit [me]. *)
Lemma username_submitted_witness :
  NoDup (map fst Scenario.schema)
  /\ lookupPrompt "username" Scenario.schema
     = Some (coreconfig.MkAuthPrompt coreconfig.AuthPromptTypeText "Email")
  /\ map (fun ev => authenticateCredentials ev !! "username")
       (attempts (calls (authenticate Scenario.packages Scenario.retry [])))
     = [Some "me"; Some "me"]
  /\ exists username,
       (Username Scenario.retry <> "" -> username = Username Scenario.retry)
       /\ Forall (fun ev => authenticateCredentials ev !! "username" = Some username)
            (attempts (calls (authenticate Scenario.packages Scenario.retry []))).
Proof.
  assert (Hnodup : NoDup (map fst Scenario.schema))
    by (refine (bool_decide_unpack (NoDup (map fst Scenario.schema)) _);
        vm_compute; exact I).
  split; [exact Hnodup|]. split; [reflexivity|]. split; [vm_compute; reflexivity|].
  exact (username_submitted Scenario.packages Scenario.retry [] _ Hnodup eq_refl eq_refl).
Defined.

(** ** What the login leaves alone *)

Lemma sameFlags_refl cmd : sameFlags cmd cmd.
Proof. unfold sameFlags. auto 10. Qed.

Lemma sameFlags_trans cmd1 cmd2 cmd3 :
  sameFlags cmd1 cmd2 -> sameFlags cmd2 cmd3 -> sameFlags cmd1 cmd3.
Proof. unfold sameFlags. intuition congruence. Qed.

Lemma keeps_flags_keeps {A} (m : M A) : keeps_receiver m -> keeps_flags m.
Proof. intros Hm cmd h. rewrite Hm. apply sameFlags_refl. Qed.

Lemma keeps_flags_bind {A B} (m : M A) (k : A -> M B) :
  keeps_flags m -> (forall a, keeps_flags (k a)) -> keeps_flags (bind m k).
Proof.
  intros Hm Hk cmd h. specialize (Hm cmd h). rewrite bind_eq.
  destruct (m cmd h) as [[[a|e|] cmd1] evs1]; unfold receiver in Hm |- *;
    cbn [fst snd] in Hm |- *; try exact Hm.
  exact (sameFlags_trans _ _ _ Hm (Hk a cmd1 (h ++ evs1))).
Qed.

Lemma keeps_flags_try {A} (m : M A) : keeps_flags m -> keeps_flags (try m).
Proof.
  intros Hm cmd h. specialize (Hm cmd h). unfold try.
  destruct (m cmd h) as [[[a|e|] cmd1] evs1]; exact Hm.
Qed.

Lemma keeps_flags_defer {A} (d : M unit) (body : M A) :
  keeps_flags d -> keeps_flags body -> keeps_flags (defer d body).
Proof.
  intros Hd Hb cmd h. specialize (Hb cmd h). unfold defer.
  destruct (body cmd h) as [[r cmd1] evs1].
  specialize (Hd cmd1 (h ++ evs1)).
  destruct (d cmd1 (h ++ evs1)) as [[rd cmd2] evs2].
  exact (sameFlags_trans _ _ _ Hb Hd).
Qed.

Lemma keeps_flags_call {A} (m : M A) :
  (forall cmd h, receiver (m cmd h) = cmd) -> keeps_flags m.
Proof. exact (keeps_flags_keeps m). Qed.

Ltac receiver_kept :=
  intros ? ?;
  cbv [receiver ret fail panic getCmd ask emit check
       ui_DisplayWarning ui_DisplayWarnings ui_DisplayText ui_DisplayTextWithFlavor
       ui_DisplayNewline ui_DisplayOK ui_DisplayKeyValueTable
       config_SetOrganizationInformation config_SetMinCLIVersion
       ui_DisplayTextPrompt ui_DisplayPasswordPrompt ui_DisplayTextMenu
       actor_SetTarget actor_GetLoginPrompts actor_Authenticate
       actor_GetOrganizationByName actor_GetOrganizations
       actorMaker_NewActor checkerMaker_NewVersionChecker
       command_WarnIfCLIVersionBelowAPIDefinedMinimum_];
  repeat match goal with
         | |- context [let '(_, _) := ?x in _] => destruct x
         | |- context [match ?x with _ => _ end] => destruct x
         end; reflexivity.

Ltac keeps_call := apply keeps_flags_call; receiver_kept.

Ltac flags_step :=
  lazymatch goal with
  | |- keeps_flags (bind _ _) => apply keeps_flags_bind; [| intros ?]
  | |- keeps_flags (try _) => apply keeps_flags_try
  | |- keeps_flags (defer _ _) => apply keeps_flags_defer
  | |- keeps_flags (modifyCmd _) => intros ? ?; cbv; auto 10
  | |- keeps_flags (match ?x with _ => _ end) => destruct x
  | |- keeps_flags (let '(_, _) := ?x in _) => destruct x
  | |- keeps_flags _ => keeps_call
  end.

Section KeepsFlags.

Variable pkg : Packages.

Lemma passwordPrompts_keys_flags prompts passwordKeys credentials :
  keeps_flags (passwordPrompts_keys prompts passwordKeys credentials).
Proof. apply keeps_flags_keeps, passwordPrompts_keys_keeps. Qed.

Lemma passwordPrompts_flags prompts credentials passwordKeys :
  keeps_flags (passwordPrompts prompts credentials passwordKeys).
Proof.
  unfold passwordPrompts.
  apply keeps_flags_bind; [|intros c; apply keeps_flags_bind;
                            [apply passwordPrompts_keys_flags|intros ?; keeps_call]].
  repeat flags_step.
Qed.

Lemma authenticate_loop_flags tries err prompts credentials passwordKeys :
  keeps_flags (authenticate_loop pkg tries err prompts credentials passwordKeys).
Proof.
  revert err credentials.
  induction tries as [|tries IH]; intros err credentials; [keeps_call|].
  cbn [authenticate_loop].
  apply keeps_flags_bind; [apply passwordPrompts_flags|intros prompted].
  cbv zeta. apply keeps_flags_bind; [keeps_call|intros _].
  apply keeps_flags_bind; [keeps_call|intros [e|]].
  - apply keeps_flags_bind; [keeps_call|intros _].
    apply keeps_flags_bind; [keeps_call|intros _].
    destruct (isAccountLockedError e); [keeps_call|apply IH].
  - repeat flags_step.
Qed.

Lemma authenticate_flags : keeps_flags (authenticate pkg).
Proof.
  unfold authenticate.
  apply keeps_flags_bind; [keeps_call|intros prompts]. cbv zeta.
  apply keeps_flags_bind;
    [apply keeps_flags_keeps, authenticate_username_keeps|intros credentials].
  apply keeps_flags_bind;
    [apply keeps_flags_keeps, authenticate_range_keeps|intros ranged].
  apply keeps_flags_bind; [apply authenticate_loop_flags|intros err]. keeps_call.
Qed.

Lemma authenticateSSO_passcode_flags prompts credentials :
  keeps_flags (authenticateSSO_passcode prompts credentials).
Proof. unfold authenticateSSO_passcode. repeat flags_step. Qed.

Lemma authenticateSSO_loop_flags tries err prompts credentials :
  keeps_flags (authenticateSSO_loop pkg tries err prompts credentials).
Proof.
  revert err credentials.
  induction tries as [|tries IH]; intros err credentials; [keeps_call|].
  cbn [authenticateSSO_loop].
  apply keeps_flags_bind; [apply authenticateSSO_passcode_flags|intros submitted].
  cbv zeta. apply keeps_flags_bind; [keeps_call|intros _].
  apply keeps_flags_bind; [keeps_call|intros [e|]].
  - apply keeps_flags_bind; [keeps_call|intros _].
    apply keeps_flags_bind; [keeps_call|intros _]. apply IH.
  - repeat flags_step.
Qed.

Lemma authenticateSSO_flags : keeps_flags (authenticateSSO pkg).
Proof.
  unfold authenticateSSO.
  apply keeps_flags_bind; [keeps_call|intros prompts]. cbv zeta.
  apply keeps_flags_bind; [apply authenticateSSO_loop_flags|intros err]. keeps_call.
Qed.

Lemma Execute_authenticate_flags : keeps_flags (Execute_authenticate pkg).
Proof.
  unfold Execute_authenticate.
  apply keeps_flags_bind; [keeps_call|intros cmd].
  apply keeps_flags_bind; [|intros [e|]; keeps_call].
  destruct (SSO cmd || negb (String.eqb (SSOPasscode cmd) "")).
  - destruct (SSO cmd && negb (String.eqb (SSOPasscode cmd) "")); [keeps_call|].
    apply keeps_flags_try, authenticateSSO_flags.
  - apply keeps_flags_try, authenticate_flags.
Qed.

Lemma showStatus_flags : keeps_flags showStatus.
Proof. unfold showStatus, displayNotLoggedIn, displayNotTargetted. repeat flags_step. Qed.

Lemma promptChosenOrg_flags orgs : keeps_flags (promptChosenOrg orgs).
Proof. unfold promptChosenOrg. repeat flags_step. Qed.

Lemma Execute_organization_flags : keeps_flags Execute_organization.
Proof.
  unfold Execute_organization.
  apply keeps_flags_bind; [keeps_call|intros cmd].
  destruct (negb (String.eqb (Organization cmd) "")).
  - repeat flags_step.
  - apply keeps_flags_bind; [keeps_call|intros answer]. cbv zeta.
    apply keeps_flags_bind; [keeps_call|intros _].
    apply keeps_flags_bind; [keeps_call|intros _].
    destruct answer.1.1 as [|org [|org' orgs]]; [keeps_call|keeps_call|].
    apply keeps_flags_bind; [apply promptChosenOrg_flags|intros chosenOrg].
    destruct (negb _); keeps_call.
Qed.

Lemma checkMinCLIVersion_flags : keeps_flags (checkMinCLIVersion pkg).
Proof. unfold checkMinCLIVersion. repeat flags_step. Qed.

Lemma Execute_deferred_flags : keeps_flags (Execute_deferred pkg).
Proof.
  unfold Execute_deferred.
  apply keeps_flags_bind; [keeps_call|intros grantType].
  destruct (String.eqb grantType "client_credentials"); [keeps_call|].
  apply keeps_flags_bind; [apply Execute_authenticate_flags|intros _].
  apply keeps_flags_bind; [apply Execute_organization_flags|intros _].
  apply checkMinCLIVersion_flags.
Qed.

Lemma Execute_endpoint_flags : keeps_flags Execute_endpoint.
Proof. unfold Execute_endpoint. repeat flags_step. Qed.

Lemma Execute_target_flags : keeps_flags (Execute_target pkg).
Proof. apply keeps_flags_keeps, Execute_target_keeps. Qed.

Lemma reloadActor_flags : keeps_flags reloadActor.
Proof. unfold reloadActor. repeat flags_step. Qed.

End KeepsFlags.

(** [Execute] never writes the user name, the organization, the space or
    the two flags of the command line, nor the terminal, the configuration
    and the two makers: of the receiver it may change the endpoint, the
    password, the passcode, the actor and the checker only. *)
Theorem Execute_keeps_flags (pkg : Packages) args cmd h :
  sameFlags cmd (receiver (Execute pkg args cmd h)).
Proof.
  revert cmd h. change (keeps_flags (Execute pkg args)). unfold Execute.
  apply keeps_flags_bind; [keeps_call|intros experimental].
  destruct (negb experimental); [keeps_call|].
  apply keeps_flags_bind; [keeps_call|intros _].
  apply keeps_flags_bind; [apply Execute_endpoint_flags|intros _].
  apply keeps_flags_bind; [keeps_call|intros _].
  apply keeps_flags_bind; [apply Execute_target_flags|intros _].
  apply keeps_flags_bind; [apply reloadActor_flags|intros _].
  apply keeps_flags_defer; [apply showStatus_flags|apply Execute_deferred_flags].
Qed.

(** ** The stages of a run *)

Lemma afterFlow_Ok (r : Result unit) : Ok tt = afterFlow r -> r = Ok tt.
Proof. destruct r as [[]|e|]; cbn; congruence. Qed.

Lemma outcome_run {A} (r : Result A) cmd evs : outcome (r, cmd, evs) = r.
Proof. reflexivity. Qed.

Lemma receiver_run {A} (r : Result A) cmd evs : receiver (r, cmd, evs) = cmd.
Proof. reflexivity. Qed.

(** A run of [Execute] either stops before the flows, or goes through the
    flow it selects, then the organization stage when the flow returns no
    error, then the version check when that stage returns none, and ends
    with the status report. *)
Lemma Execute_stages (pkg : Packages) args cmd h :
  let E := Execute pkg args cmd h in
  (forallb preflightCall (calls E) = true /\ outcome E <> Ok tt)
  \/ exists endpoint actor pre status,
       let c := set_Actor actor (set_APIEndpoint endpoint cmd) in
       let f := if SSO c || negb (String.eqb (SSOPasscode c) "")
                then authenticateSSO pkg c (h ++ pre)
                else authenticate pkg c (h ++ pre) in
       let o := Execute_organization (receiver f) ((h ++ pre) ++ calls f) in
       let v := checkMinCLIVersion pkg (receiver o) ((h ++ pre) ++ calls f ++ calls o) in
       forallb targetCall pre = true
       /\ forallb statusCall status = true
       /\ ((outcome f <> Ok tt
            /\ calls E = pre ++ calls f ++ status
            /\ outcome E = afterFlow (outcome f))
           \/ (outcome f = Ok tt /\ outcome o <> Ok tt
               /\ calls E = pre ++ (calls f ++ calls o) ++ status
               /\ outcome E = outcome o)
           \/ (outcome f = Ok tt /\ outcome o = Ok tt
               /\ calls E = pre ++ (calls f ++ calls o ++ calls v) ++ status
               /\ outcome E = outcome v)).
Proof.
  cbv zeta.
  pose proof (Execute_run pkg args cmd h) as Hrun.
  remember (outcome (Execute pkg args cmd h)) as r eqn:Hr.
  remember (calls (Execute pkg args cmd h)) as evs eqn:Hevs.
  clear Hr Hevs.
  assert (Htarget : forall e, targetCall e = true -> preflightCall e = true)
    by (intros e He; unfold preflightCall; rewrite He; reflexivity).
  assert (Hstatus : forall e, statusCall e = true -> preflightCall e = true)
    by (intros e He; unfold preflightCall; rewrite He; apply orb_true_r).
  destruct Hrun as [Hexp|r pre Hexp Hpre Hnot Hfail
                    |pre endpoint actor r evsd cmds hs Hexp Hpre Hreb Hd].
  - left. split; [reflexivity|discriminate].
  - left. split; [|exact Hfail].
    rewrite forallb_forall in *. intros e He. apply Htarget, Hpre, He.
  - pose proof (showStatus_calls cmds hs) as Hs.
    assert (Hpre' : forallb preflightCall pre = true)
      by (rewrite forallb_forall in *; intros e He; apply Htarget, Hpre, He).
    assert (Hs' : forallb preflightCall (calls (showStatus cmds hs)) = true)
      by (rewrite forallb_forall in *; intros e He; apply Hstatus, Hs, He).
    set (c := set_Actor actor (set_APIEndpoint endpoint cmd)) in *.
    assert (Hflow : forall ra ca evsa,
              Execute_authenticate pkg c (h ++ pre) = (ra, ca, evsa) ->
              (evsa = [] /\ ra <> Ok tt)
              \/ (let f := if SSO c || negb (String.eqb (SSOPasscode c) "")
                           then authenticateSSO pkg c (h ++ pre)
                           else authenticate pkg c (h ++ pre) in
                  evsa = calls f /\ ca = receiver f /\ ra = afterFlow (outcome f))).
    { intros ra ca evsa Ha. rewrite Execute_authenticate_eq in Ha.
      destruct (SSO c || negb (String.eqb (SSOPasscode c) "")).
      - destruct (SSO c && negb (String.eqb (SSOPasscode c) "")).
        + injection Ha as <- <- <-. left. split; [reflexivity|discriminate].
        + cbv zeta in Ha. injection Ha as <- <- <-. right. auto.
      - cbv zeta in Ha. injection Ha as <- <- <-. right. auto. }
    destruct Hd as [Hg|ra ca evsa Hg Ha Hra|ca evsa ro co evso Hg Ha Ho Hro
                    |ca evsa co evso rv cv evsv Hg Ha Ho Hv].
    + left. split; [|discriminate]. rewrite !forallb_app, Hpre', Hs'. reflexivity.
    + destruct (Hflow _ _ _ Ha) as [[-> _]|(-> & -> & ->)].
      * left. split; [|exact Hra]. rewrite !forallb_app, Hpre', Hs'. reflexivity.
      * right. exists endpoint, actor, pre, (calls (showStatus cmds hs)).
        cbv zeta. fold c. split; [exact Hpre|]. split; [exact Hs|]. left.
        split; [|auto]. intros Hok. apply Hra. rewrite Hok. reflexivity.
    + destruct (Hflow _ _ _ Ha) as [[_ Hne]|(-> & -> & Hok)]; [contradiction|].
      apply afterFlow_Ok in Hok.
      right. exists endpoint, actor, pre, (calls (showStatus cmds hs)).
      cbv zeta. fold c. split; [exact Hpre|]. split; [exact Hs|]. right. left.
      rewrite Ho, calls_run, outcome_run. auto.
    + destruct (Hflow _ _ _ Ha) as [[_ Hne]|(-> & -> & Hok)]; [contradiction|].
      apply afterFlow_Ok in Hok.
      right. exists endpoint, actor, pre, (calls (showStatus cmds hs)).
      cbv zeta. fold c. split; [exact Hpre|]. split; [exact Hs|]. right. right.
      rewrite Ho, calls_run, outcome_run, receiver_run, Hv, calls_run, outcome_run. auto.
Qed.

(** ** The organization stage *)

(** The first parts of [Execute_organization_shape], when no organization
    is recorded. *)
Ltac shape_start :=
  split; [reflexivity|]; split; [reflexivity|]; split; [eauto|];
  split; [reflexivity|]; split; [|left; reflexivity].

(** The organization stage starts with its lookup and the warnings of that
    lookup; a lookup that fails ends the stage with its error; at most one
    organization is recorded, and it is one that the lookup returned. *)
Lemma Execute_organization_shape cmd h :
  let o := Execute_organization cmd h in
  exists lookup rest,
    calls o = lookup :: UI_DisplayWarnings (lookupWarnings lookup) :: rest
    /\ isLookup lookup = true
    /\ lookupFor cmd lookup
    /\ forallb (fun e => negb (isLookup e)) rest = true
    /\ (forall e, lookupError lookup = Some e -> outcome o = Fail e /\ rest = [])
    /\ (List.filter isSetOrganization rest = []
        \/ exists org,
             List.filter isSetOrganization rest
             = [Config_SetOrganizationInformation (v3action.GUID org) (v3action.Name org)]
             /\ In org (lookupFound lookup)
             /\ lookupError lookup = None
             /\ outcome o = Ok tt).
Proof.
  cbv zeta. unfold Execute_organization, lookupFor. rewrite bind_getCmd_eq. cbv beta.
  destruct (String.eqb (Organization cmd) ""); cbn [negb].
  - rewrite bind_eq. unfold actor_GetOrganizations.
    destruct (GetOrganizations (Actor cmd) h) as [[orgs warnings] err].
    cbn [fst snd]. unfold ui_DisplayWarnings. rewrite bind_emit_eq.
    destruct err as [e|]; cbn [check].
    + exists (Actor_GetOrganizations orgs warnings (Some e)), [].
      cbn. shape_start. intros e' [= <-]. auto.
    + rewrite bind_ret_eq.
      destruct orgs as [|org1 [|org2 orgs]].
      * exists (Actor_GetOrganizations [] warnings None), [].
        cbn. shape_start. discriminate.
      * exists (Actor_GetOrganizations [org1] warnings None),
          [Config_SetOrganizationInformation (v3action.GUID org1) (v3action.Name org1)].
        cbn. split; [reflexivity|]. split; [reflexivity|]. split; [eauto|].
        split; [reflexivity|]. split; [discriminate|].
        right. exists org1. auto.
      * rewrite bind_eq, promptChosenOrg_eq. cbv zeta.
        destruct (command.DisplayTextMenu _ _ _ _) as [answer merr].
        cbn [fst snd].
        set (lookup := Actor_GetOrganizations (org1 :: org2 :: orgs) warnings None).
        destruct merr as [err|].
        { destruct err; eexists lookup, _; cbn; shape_start; discriminate. }
        destruct (find _ (org1 :: org2 :: orgs)) as [org|] eqn:Hfind.
        -- apply find_some in Hfind as [Hin _].
           destruct (v3action.Organization_eqb org v3action.emptyOrg);
             eexists lookup, _; cbn.
           ++ shape_start. discriminate.
           ++ split; [reflexivity|]. split; [reflexivity|]. split; [eauto|].
              split; [reflexivity|]. split; [discriminate|].
              right. exists org. auto.
        -- eexists lookup, _. cbn. shape_start. discriminate.
  - rewrite bind_eq. unfold actor_GetOrganizationByName.
    destruct (GetOrganizationByName (Actor cmd) h (Organization cmd))
      as [[org warnings] err].
    cbn [fst snd]. unfold ui_DisplayWarnings. rewrite bind_emit_eq.
    destruct err as [e|]; cbn [check].
    + exists (Actor_GetOrganizationByName (Organization cmd) org warnings (Some e)), [].
      cbn. shape_start. intros e' [= <-]. auto.
    + rewrite bind_ret_eq.
      exists (Actor_GetOrganizationByName (Organization cmd) org warnings None),
        [Config_SetOrganizationInformation (v3action.GUID org) (v3action.Name org)].
      cbn. split; [reflexivity|]. split; [reflexivity|]. split; [eauto|].
      split; [reflexivity|]. split; [discriminate|].
      right. exists org. auto.
Qed.

(** The calls that come after the authentication are those of the
    organization stage and of the version check, which run once the flow
    has returned no error. *)
Lemma Execute_after_login (pkg : Packages) args cmd h :
  let E := Execute pkg args cmd h in
  (List.filter afterLogin (calls E) = [] /\ outcome E <> Ok tt)
  \/ exists c hh,
       let o := Execute_organization c hh in
       sameFlags cmd c
       /\ lastSucceeded (calls E)
       /\ List.filter organizationOnly (calls E) = List.filter organizationOnly (calls o)
       /\ ((outcome o <> Ok tt /\ outcome E = outcome o
            /\ List.filter versionOnly (calls E) = [])
           \/ (outcome o = Ok tt
               /\ exists cv hv,
                    let v := checkMinCLIVersion pkg cv hv in
                    sameFlags cmd cv
                    /\ outcome E = outcome v
                    /\ List.filter versionOnly (calls E)
                       = List.filter versionOnly (calls v))).
Proof.
  cbv zeta.
  assert (Hpreflight : forall e, preflightCall e = true -> afterLogin e = false)
    by (intros e; destruct e as [| | | | | | |t a e'| | | | | | | | | | | |];
        try (cbn; congruence); destruct t as [|c t]; cbn; try congruence;
        unfold preflightCall, targetCall; cbn; rewrite ?orb_false_r; congruence).
  assert (Htarget : forall q, (forall e', q e' = true -> afterLogin e' = true) ->
                      forall e, targetCall e = true -> q e = false).
  { intros q Hq e He. destruct (q e) eqn:Hqe; [|reflexivity].
    apply Hq in Hqe. rewrite Hpreflight in Hqe; [discriminate|].
    unfold preflightCall. rewrite He. reflexivity. }
  assert (Hstatus : forall q, (forall e', q e' = true -> afterLogin e' = true) ->
                      forall e, statusCall e = true -> q e = false).
  { intros q Hq e He. destruct (q e) eqn:Hqe; [|reflexivity].
    apply Hq in Hqe. rewrite Hpreflight in Hqe; [discriminate|].
    unfold preflightCall. rewrite He. apply orb_true_r. }
  assert (Hauth : forall q, (forall e', q e' = true -> afterLogin e' = true) ->
                    forall e, authenticationCall e = true -> q e = false).
  { intros q Hq e He. destruct (q e) eqn:Hqe; [|reflexivity].
    apply Hq in Hqe. destruct e; discriminate. }
  assert (Hall : forall e', afterLogin e' = true -> afterLogin e' = true) by auto.
  assert (Horg : forall e', organizationOnly e' = true -> afterLogin e' = true)
    by (intros e' He; unfold afterLogin; rewrite He; reflexivity).
  assert (Hver : forall e', versionOnly e' = true -> afterLogin e' = true)
    by (intros e' He; unfold afterLogin; rewrite He; apply orb_true_r).
  assert (Hov : forall e, organizationCall e = true -> versionOnly e = false)
    by (intros e; destruct e; cbn; congruence).
  assert (Hvo : forall e, versionCall e = true -> organizationOnly e = false)
    by (intros e; destruct e; cbn; congruence).
  assert (Hta : forall e, targetCall e = true -> isAuthenticate e = false)
    by (intros e; destruct e; cbn; congruence).
  assert (Hsa : forall e, statusCall e = true -> isAuthenticate e = false)
    by (intros e; destruct e; cbn; congruence).
  assert (Hoa : forall e, organizationCall e = true -> isAuthenticate e = false)
    by (intros e; destruct e; cbn; congruence).
  assert (Hva : forall e, versionCall e = true -> isAuthenticate e = false)
    by (intros e; destruct e; cbn; congruence).
  destruct (Execute_stages pkg args cmd h)
    as [[Hpre Hfail]|(endpoint & actor & pre & status & Hpre & Hst & Hcases)].
  { left. split; [exact (filter_none _ _ _ Hpreflight Hpre)|exact Hfail]. }
  cbv zeta in Hcases.
  set (c := set_Actor actor (set_APIEndpoint endpoint cmd)) in *.
  set (b := SSO c || negb (String.eqb (SSOPasscode c) "")) in *.
  set (f := if b then authenticateSSO pkg c (h ++ pre)
            else authenticate pkg c (h ++ pre)) in *.
  assert (Hfc : forallb authenticationCall (calls f) = true)
    by (subst f; destruct b; [apply authenticateSSO_calls|apply authenticate_calls]).
  assert (Hff : sameFlags cmd (receiver f)).
  { apply (sameFlags_trans _ c); [unfold c, sameFlags; cbn; auto 10|].
    subst f. destruct b; [apply authenticateSSO_flags|apply authenticate_flags]. }
  set (o := Execute_organization (receiver f) ((h ++ pre) ++ calls f)) in *.
  pose proof (Execute_organization_calls (receiver f) ((h ++ pre) ++ calls f)) as Hoc.
  fold o in Hoc.
  pose proof (Execute_organization_flags (receiver f) ((h ++ pre) ++ calls f)) as Hof.
  fold o in Hof.
  set (v := checkMinCLIVersion pkg (receiver o) ((h ++ pre) ++ calls f ++ calls o)) in *.
  pose proof (checkMinCLIVersion_calls pkg (receiver o) ((h ++ pre) ++ calls f ++ calls o))
    as Hvc.
  fold v in Hvc.
  pose proof (flow_success pkg b c (h ++ pre)) as (_ & _ & Hdone).
  cbv zeta in Hdone. fold f in Hdone. unfold lastSucceeded in Hdone |- *.
  destruct Hcases as [(Hne & -> & Hout)|[(Hok & Hne & -> & Hout)|(Hok & Hoo & -> & Hout)]].
  - left. split.
    + rewrite !List.filter_app, (filter_none _ _ _ (Htarget _ Hall) Hpre),
        (filter_none _ _ _ (Hauth _ Hall) Hfc),
        (filter_none _ _ _ (Hstatus _ Hall) Hst). reflexivity.
    + rewrite Hout. intros Hyes. apply Hne.
      destruct (outcome f) as [[]| |]; cbn in Hyes; congruence.
  - right. exists (receiver f), ((h ++ pre) ++ calls f). fold o.
    split; [exact Hff|]. split.
    { rewrite !attempts_app, (attempts_none _ _ Hta Hpre), (attempts_none _ _ Hsa Hst),
        (attempts_none _ _ Hoa Hoc), !app_nil_r. exact (Hdone Hok). }
    split.
    { rewrite !List.filter_app, (filter_none _ _ _ (Htarget _ Horg) Hpre),
        (filter_none _ _ _ (Hauth _ Horg) Hfc),
        (filter_none _ _ _ (Hstatus _ Horg) Hst), app_nil_r. reflexivity. }
    left. split; [exact Hne|]. split; [exact Hout|].
    rewrite !List.filter_app, (filter_none _ _ _ (Htarget _ Hver) Hpre),
      (filter_none _ _ _ (Hauth _ Hver) Hfc),
      (filter_none _ _ _ (Hstatus _ Hver) Hst), (filter_none _ _ _ Hov Hoc).
    reflexivity.
  - right. exists (receiver f), ((h ++ pre) ++ calls f). fold o.
    split; [exact Hff|]. split.
    { rewrite !attempts_app, (attempts_none _ _ Hta Hpre), (attempts_none _ _ Hsa Hst),
        (attempts_none _ _ Hoa Hoc), (attempts_none _ _ Hva Hvc), !app_nil_r.
      exact (Hdone Hok). }
    split.
    { rewrite !List.filter_app, (filter_none _ _ _ (Htarget _ Horg) Hpre),
        (filter_none _ _ _ (Hauth _ Horg) Hfc),
        (filter_none _ _ _ (Hstatus _ Horg) Hst), (filter_none _ _ _ Hvo Hvc),
        !app_nil_r. reflexivity. }
    right. split; [exact Hoo|].
    exists (receiver o), ((h ++ pre) ++ calls f ++ calls o). fold v.
    split; [exact (sameFlags_trans _ _ _ Hff Hof)|]. split; [exact Hout|].
    rewrite !List.filter_app, (filter_none _ _ _ (Htarget _ Hver) Hpre),
      (filter_none _ _ _ (Hauth _ Hver) Hfc),
      (filter_none _ _ _ (Hstatus _ Hver) Hst), (filter_none _ _ _ Hov Hoc),
      app_nil_r. reflexivity.
Qed.

Lemma filter_filter_sub (p q : Event -> bool) evs :
  (forall e, p e = true -> q e = true) ->
  List.filter p (List.filter q evs) = List.filter p evs.
Proof.
  intros Hsub. induction evs as [|e evs IH]; [reflexivity|]. cbn [List.filter].
  destruct (q e) eqn:Hq; cbn [List.filter]; rewrite IH; [reflexivity|].
  destruct (p e) eqn:Hp; [|reflexivity]. apply Hsub in Hp. congruence.
Qed.

Lemma filter_In_nil (p : Event -> bool) evs e :
  List.filter p evs = [] -> In e evs -> p e = true -> False.
Proof.
  intros Hnil Hin Hp.
  assert (Hf : In e (List.filter p evs)) by (apply List.filter_In; auto).
  rewrite Hnil in Hf. exact Hf.
Qed.

(** [Execute] looks up organizations, records one and checks the version
    of the client only after an attempt that succeeded: a call of the
    organization stage or of the version check among its calls means that
    the last call of [Authenticate] returned no error. *)
Theorem Execute_authenticates_first (pkg : Packages) args cmd h e :
  In e (calls (Execute pkg args cmd h)) ->
  afterLogin e = true ->
  lastSucceeded (calls (Execute pkg args cmd h)).
Proof.
  intros Hin He.
  destruct (Execute_after_login pkg args cmd h)
    as [[Hnone _]|(c & hh & _ & Hdone & _)]; [|exact Hdone].
  destruct (filter_In_nil _ _ _ Hnone Hin He).
Qed.

(** [cf login -a api.example.com -u me -p pw1], the second attempt
    succeeding: the minimum version is recorded, after that attempt. *)
Lemma Execute_authenticates_first_witness :
  In (Config_SetMinCLIVersion "6.0.0")
     (calls (Execute Scenario.packages [] Scenario.retry []))
  /\ lastSucceeded (calls (Execute Scenario.packages [] Scenario.retry [])).
Proof.
  assert (Hin : In (Config_SetMinCLIVersion "6.0.0")
                   (calls (Execute Scenario.packages [] Scenario.retry [])))
    by (vm_compute; tauto).
  split; [exact Hin|].
  exact (Execute_authenticates_first Scenario.packages [] Scenario.retry [] _ Hin
           eq_refl).
Defined.

(** What [Execute] makes of the lookup of organizations (lines 180-192):
    it makes one lookup at most, by name with [-o] and of all the
    organizations without; it displays the warnings of the lookup whether
    the lookup failed or not; and a lookup that fails ends the run with its
    error, no organization being recorded and no version check made. *)
Theorem Execute_organization_lookup (pkg : Packages) args cmd h lookup :
  In lookup (calls (Execute pkg args cmd h)) ->
  isLookup lookup = true ->
  let E := Execute pkg args cmd h in
  List.filter isLookup (calls E) = [lookup]
  /\ lookupFor cmd lookup
  /\ In (UI_DisplayWarnings (lookupWarnings lookup)) (calls E)
  /\ (forall e,
        lookupError lookup = Some e ->
        outcome E = Fail e
        /\ List.filter isSetOrganization (calls E) = []
        /\ List.filter versionOnly (calls E) = []).
Proof.
  intros Hin Hlookup. cbv zeta.
  assert (Hsub : forall e, isLookup e = true -> organizationOnly e = true)
    by (intros e; destruct e; cbn; congruence).
  assert (Hsub' : forall e, isSetOrganization e = true -> organizationOnly e = true)
    by (intros e; destruct e; cbn; congruence).
  assert (Hafter : afterLogin lookup = true)
    by (unfold afterLogin; rewrite (Hsub _ Hlookup); reflexivity).
  destruct (Execute_after_login pkg args cmd h)
    as [[Hnone _]|(c & hh & Hflags & _ & Horg & Hrest)];
    [destruct (filter_In_nil _ _ _ Hnone Hin Hafter)|].
  cbv zeta in Horg, Hrest.
  destruct (Execute_organization_shape c hh)
    as (first & rest & Hcalls & Hfirst & Hfor & Hnolookup & Hfail & _).
  cbv zeta in Hcalls, Hfail.
  assert (Hin' : In lookup (List.filter organizationOnly (calls (Execute pkg args cmd h))))
    by (apply List.filter_In; auto).
  rewrite Horg, Hcalls in Hin'. apply List.filter_In in Hin' as [Hin' _].
  assert (lookup = first) as ->.
  { destruct Hin' as [<-|[<-|Hin']]; [reflexivity|discriminate|].
    rewrite forallb_forall in Hnolookup. apply Hnolookup in Hin'.
    rewrite Hlookup in Hin'. discriminate. }
  assert (Hnone : List.filter isLookup rest = []).
  { apply (filter_none (fun e => negb (isLookup e))); [|exact Hnolookup].
    intros e He. destruct (isLookup e); [discriminate|reflexivity]. }
  split.
  { rewrite <- (filter_filter_sub isLookup organizationOnly) by exact Hsub.
    rewrite Horg, filter_filter_sub by exact Hsub.
    rewrite Hcalls. cbn [List.filter isLookup]. rewrite Hfirst, Hnone. reflexivity. }
  split.
  { unfold lookupFor in *. destruct Hflags as (Hname & _).
    rewrite Hname in Hfor. exact Hfor. }
  split.
  { assert (Hw : In (UI_DisplayWarnings (lookupWarnings first))
                   (List.filter organizationOnly (calls (Execute pkg args cmd h)))).
    { rewrite Horg, Hcalls. apply List.filter_In. split; [right; left|]; reflexivity. }
    apply List.filter_In in Hw as [Hw _]. exact Hw. }
  intros e He. destruct (Hfail e He) as [Hout ->].
  destruct Hrest as [(_ & -> & Hver)|(Hok & _)]; [|congruence].
  split; [exact Hout|]. split; [|exact Hver].
  rewrite <- (filter_filter_sub isSetOrganization organizationOnly) by exact Hsub'.
  rewrite Horg, filter_filter_sub by exact Hsub'.
  rewrite Hcalls. destruct first; try discriminate; reflexivity.
Qed.

(** [cf login -a api.example.com -u me -p pw1 -o org-9]: the lookup by name
    fails, and its error is the one of [Execute]. *)
Lemma Execute_organization_lookup_witness :
  let lookup :=
    Actor_GetOrganizationByName "org-9" v3action.emptyOrg []
      (Some (OtherError "organization not found")) in
  In lookup (calls (Execute Scenario.packages [] Scenario.unknownOrg []))
  /\ outcome (Execute Scenario.packages [] Scenario.unknownOrg [])
     = Fail (OtherError "organization not found")
  /\ List.filter isSetOrganization
       (calls (Execute Scenario.packages [] Scenario.unknownOrg [])) = [].
Proof.
  cbv zeta.
  assert (Hin : In (Actor_GetOrganizationByName "org-9" v3action.emptyOrg []
                      (Some (OtherError "organization not found")))
                   (calls (Execute Scenario.packages [] Scenario.unknownOrg [])))
    by (vm_compute; tauto).
  split; [exact Hin|].
  destruct (Execute_organization_lookup Scenario.packages [] Scenario.unknownOrg [] _
              Hin eq_refl) as (_ & _ & _ & Hfail).
  destruct (Hfail _ eq_refl) as (Hout & Hnone & _). split; assumption.
Defined.

(** [Execute] records one organization at most, and it is one that the
    lookup returned without an error: the one found by name with [-o], and
    one of those listed without. *)
Theorem Execute_organization_recorded (pkg : Packages) args cmd h :
  let E := Execute pkg args cmd h in
  List.filter isSetOrganization (calls E) = []
  \/ exists org lookup,
       List.filter isSetOrganization (calls E)
       = [Config_SetOrganizationInformation (v3action.GUID org) (v3action.Name org)]
       /\ In lookup (calls E)
       /\ lookupFor cmd lookup
       /\ lookupError lookup = None
       /\ In org (lookupFound lookup).
Proof.
  cbv zeta.
  assert (Hsub : forall e, isSetOrganization e = true -> organizationOnly e = true)
    by (intros e; destruct e; cbn; congruence).
  assert (Hafter : forall e, isSetOrganization e = true -> afterLogin e = true)
    by (intros e He; unfold afterLogin; rewrite (Hsub _ He); reflexivity).
  destruct (Execute_after_login pkg args cmd h)
    as [[Hnone _]|(c & hh & Hflags & _ & Horg & _)].
  { left. rewrite <- (filter_filter_sub isSetOrganization afterLogin) by exact Hafter.
    rewrite Hnone. reflexivity. }
  cbv zeta in Horg.
  destruct (Execute_organization_shape c hh)
    as (first & rest & Hcalls & Hfirst & Hfor & _ & _ & Hrecorded).
  cbv zeta in Hcalls, Hrecorded.
  assert (Hset : List.filter isSetOrganization (calls (Execute pkg args cmd h))
                 = List.filter isSetOrganization rest).
  { rewrite <- (filter_filter_sub isSetOrganization organizationOnly) by exact Hsub.
    rewrite Horg, filter_filter_sub by exact Hsub.
    rewrite Hcalls. destruct first; try discriminate; reflexivity. }
  rewrite Hset.
  destruct Hrecorded as [Hnone|(org & Hone & Hfound & Herr & _)]; [left; exact Hnone|].
  right. exists org, first. split; [exact Hone|]. split.
  { assert (Hin : In first
                    (List.filter organizationOnly (calls (Execute pkg args cmd h)))).
    { rewrite Horg, Hcalls. apply List.filter_In. split; [left; reflexivity|].
      destruct first; try discriminate; reflexivity. }
    apply List.filter_In in Hin as [Hin _]. exact Hin. }
  split; [|auto].
  unfold lookupFor in *. destruct Hflags as (Hname & _).
  rewrite Hname in Hfor. exact Hfor.
Qed.

(** [cf login -a api.example.com -u me -p pw1] with three organizations,
    [org-2] being typed at the menu: that organization is recorded. *)
Lemma Execute_organization_recorded_witness :
  List.filter isSetOrganization
    (calls (Execute Scenario.packages [] Scenario.menuChosen []))
  = [Config_SetOrganizationInformation "guid-2" "org-2"].
Proof.
  destruct (Execute_organization_recorded Scenario.packages [] Scenario.menuChosen [])
    as [Hnone|(org & lookup & Hone & _)].
  - vm_compute in Hnone. discriminate Hnone.
  - vm_compute. reflexivity.
Defined.

(** ** The menu of organizations *)

Lemma find_first {A} (p : A -> bool) (l : list A) (a : A) :
  find p l = Some a ->
  exists before after, l = before ++ a :: after /\ forallb (fun x => negb (p x)) before = true.
Proof.
  induction l as [|x l IH]; [discriminate|]. cbn [find].
  destruct (p x) eqn:Hx.
  - intros [= ->]. exists [], l. split; reflexivity.
  - intros Hfind. destruct (IH Hfind) as (before & after & -> & Hbefore).
    exists (x :: before), after. split; [reflexivity|]. cbn. rewrite Hx, Hbefore.
    reflexivity.
Qed.

(** The menu (lines 429-453) offers the names of the organizations in the
    order of the list.  When the input ends the zero organization is
    returned with no error; another failure of the menu is returned; an
    answer that is the name of an organization selects the first one of
    that name; and an answer that is no such name is the error
    "Error Choosing Organization". *)
Theorem promptChosenOrg_choice orgs cmd h :
  let p := promptChosenOrg orgs cmd h in
  exists answer merr,
    calls p = [UI_DisplayText "Select an org:" [];
               UI_DisplayTextMenu (map v3action.Name orgs) "Org" answer merr]
    /\ receiver p = cmd
    /\ match merr with
       | Some io_EOF => outcome p = Ok v3action.emptyOrg
       | Some e => outcome p = Fail e
       | None =>
           (exists org before after,
              outcome p = Ok org
              /\ v3action.Name org = answer
              /\ orgs = before ++ org :: after
              /\ ~ In answer (map v3action.Name before))
           \/ (outcome p = Fail (errors_New "Error Choosing Organization")
               /\ ~ In answer (map v3action.Name orgs))
       end.
Proof.
  cbv zeta. rewrite promptChosenOrg_eq. cbv zeta.
  destruct (command.DisplayTextMenu _ _ _ _) as [answer merr]. cbn [fst snd].
  exists answer, merr. split; [reflexivity|]. split; [reflexivity|].
  destruct merr as [e|]; [destruct e; reflexivity|].
  destruct (find _ orgs) as [org|] eqn:Hfind.
  - left. pose proof (find_some _ _ Hfind) as [_ Hname].
    apply String.eqb_eq in Hname.
    apply find_first in Hfind as (before & after & -> & Hbefore).
    exists org, before, after. repeat split; try assumption.
    intros Hin. apply in_map_iff in Hin as (x & Hx & Hin).
    rewrite forallb_forall in Hbefore. apply Hbefore in Hin.
    rewrite Hx, String.eqb_refl in Hin. discriminate.
  - right. split; [reflexivity|].
    intros Hin. apply in_map_iff in Hin as (x & Hx & Hin).
    apply (find_none _ _ Hfind) in Hin. rewrite Hx, String.eqb_refl in Hin.
    discriminate.
Qed.

(** ** The target *)

Lemma Execute_target_eq (pkg : Packages) cmd h :
  Execute_target pkg cmd h =
  match normalizedEndpoint pkg (APIEndpoint cmd) with
  | None => (Panic, cmd, [])
  | Some endpoint =>
      let settings :=
        {| v3action.URL := URL_String pkg endpoint;
           v3action.SkipSSLValidation :=
             command.SkipSSLValidation (Config cmd) h || SkipSSLValidation cmd |} in
      let answer := SetTarget (Actor cmd) h settings in
      (match answer.2 with Some e => Fail e | None => Ok tt end, cmd,
       [Actor_SetTarget settings answer.1 answer.2])
  end.
Proof.
  unfold Execute_target. rewrite bind_getCmd_eq.
  destruct (normalizedEndpoint pkg (APIEndpoint cmd)) as [endpoint|]; [|reflexivity].
  rewrite bind_ask_eq, bind_eq. unfold actor_SetTarget. cbv zeta.
  destruct (SetTarget _ _ _) as [warnings [e|]]; reflexivity.
Qed.

Lemma Execute_endpoint_no_target :
  emits_only (fun e => negb (isSetTarget e) && negb (isNewActor e)) Execute_endpoint.
Proof. unfold Execute_endpoint. emits. Qed.

Lemma Execute_rest_no_target (pkg : Packages) :
  emits_only (fun e => negb (isSetTarget e))
    (reloadActor;;; defer showStatus (Execute_deferred pkg)).
Proof.
  apply emits_only_bind; [|intros _; apply emits_only_defer].
  - unfold reloadActor. emits.
  - apply (emits_only_weaken statusCall); [|apply showStatus_calls].
    intros e; destruct e; cbn; congruence.
  - intros cmd h. pose proof (Execute_deferred_run pkg cmd h) as Hrun.
    apply DeferredRun_calls in Hrun. rewrite forallb_forall in *.
    intros e He. apply Hrun in He. destruct e; cbn in *; congruence.
Qed.

(** [Execute] sets the target once at most.  Certificates are not
    validated when [--skip-ssl-validation] is given or the configuration
    says so (line 149), and only then.  When [SetTarget] fails, [Execute]
    returns its error, and the client is not rebuilt. *)
Theorem Execute_set_target (pkg : Packages) args cmd h :
  let E := Execute pkg args cmd h in
  length (List.filter isSetTarget (calls E)) <= 1
  /\ forall settings warnings err,
       In (Actor_SetTarget settings warnings err) (calls E) ->
       (exists hh,
          v3action.SkipSSLValidation settings
          = command.SkipSSLValidation (Config cmd) hh || SkipSSLValidation cmd)
       /\ (forall e, err = Some e ->
             outcome E = Fail e /\ existsb isNewActor (calls E) = false).
Proof.
  cbv zeta. unfold Execute. rewrite bind_ask_eq.
  destruct (command.ExperimentalLogin (Config cmd) h); cbn [negb];
    [|split; [cbn; lia|intros ? ? ? []]].
  unfold ui_DisplayWarning. rewrite bind_emit_eq, bind_eq.
  match goal with |- context [Execute_endpoint cmd ?hh] =>
    pose proof (Execute_endpoint_no_target cmd hh) as Hea;
    destruct (Execute_endpoint_receiver cmd hh) as [endpoint Her];
    destruct (Execute_endpoint cmd hh) as [[re c1] evse]
  end.
  rewrite calls_run in Hea. rewrite receiver_run in Her. subst c1.
  assert (Hnone : List.filter isSetTarget evse = []).
  { apply (filter_none (fun e => negb (isSetTarget e) && negb (isNewActor e)));
      [|exact Hea].
    intros e He. destruct (isSetTarget e); [discriminate|reflexivity]. }
  assert (Hnew : existsb isNewActor evse = false).
  { apply (existsb_none (fun e => negb (isSetTarget e) && negb (isNewActor e)));
      [|exact Hea].
    intros e He. destruct (isNewActor e); [|reflexivity].
    rewrite andb_false_r in He. discriminate. }
  assert (Hin : forall settings warnings err,
            ~ In (Actor_SetTarget settings warnings err) evse).
  { intros settings warnings err Hin.
    apply (filter_In_nil _ _ _ Hnone Hin). reflexivity. }
  destruct re as [[]|e|]; cbv iota;
    [|rewrite calls_prepend, calls_run; cbn [app List.filter isSetTarget];
      rewrite Hnone; split; [cbn; lia|];
      intros settings warnings err [Hw|Hev]; [discriminate|destruct (Hin _ _ _ Hev)]..].
  unfold ui_DisplayNewline. rewrite bind_emit_eq, bind_eq, Execute_target_eq.
  set (c := set_APIEndpoint endpoint cmd).
  destruct (normalizedEndpoint pkg (APIEndpoint c)) as [u|].
  2:{ rewrite !calls_prepend, calls_run. cbn [app List.filter isSetTarget].
      rewrite List.filter_app, Hnone. split; [cbn; lia|].
      intros settings warnings err [Hw|Hev]; [discriminate|].
      apply in_app_or in Hev as [Hev|[Hev|[]]]; [destruct (Hin _ _ _ Hev)|discriminate]. }
  cbv zeta.
  match goal with |- context [SetTarget (Actor c) ?hh ?settings] =>
    assert (Hskip : exists hh',
              v3action.SkipSSLValidation settings
              = command.SkipSSLValidation (Config cmd) hh' || SkipSSLValidation cmd)
      by (exists hh; reflexivity);
    destruct (SetTarget (Actor c) hh settings) as [warnings err] end.
  cbn [fst snd].
  destruct err as [e|]; cbv iota.
  - rewrite !calls_prepend, !outcome_prepend, calls_run, outcome_run.
    cbn [app List.filter isSetTarget].
    rewrite List.filter_app, Hnone. split; [cbn; lia|].
    intros settings warnings' err [Hw|Hev]; [discriminate|].
    apply in_app_or in Hev as [Hev|[Hev|[Hev|[]]]];
      [destruct (Hin _ _ _ Hev)|discriminate|].
    injection Hev as <- <- <-. split; [exact Hskip|].
    intros e' [= <-]. split; [reflexivity|].
    cbn [existsb isNewActor orb]. rewrite existsb_app, Hnew. reflexivity.
  - match goal with |- context [bind reloadActor ?k c ?hh] =>
      pose proof (Execute_rest_no_target pkg c hh) as Hrest;
      change (bind reloadActor k) with (reloadActor;;; defer showStatus (Execute_deferred pkg))%cmd;
      set (rest := (reloadActor;;; defer showStatus (Execute_deferred pkg))%cmd c hh) in *
    end.
    assert (Hrnone : List.filter isSetTarget (calls rest) = []).
    { apply (filter_none (fun e => negb (isSetTarget e))); [|exact Hrest].
      intros e He. destruct (isSetTarget e); [discriminate|reflexivity]. }
    rewrite !calls_prepend. cbn [app List.filter isSetTarget].
    rewrite !List.filter_app, Hnone. cbn [app List.filter isSetTarget].
    rewrite Hrnone. split; [cbn; lia|].
    intros settings warnings' err [Hw|Hev]; [discriminate|].
    apply in_app_or in Hev as [Hev|[Hev|[Hev|Hev]]];
      [destruct (Hin _ _ _ Hev)|discriminate| |].
    + injection Hev as <- <- <-. split; [exact Hskip|]. discriminate.
    + destruct (filter_In_nil _ _ _ Hrnone Hev eq_refl).
Qed.

(** ** The client that is rebuilt *)

Lemma reloadActor_eq cmd h :
  reloadActor cmd h =
  match NewActor (ActorMaker_ cmd) h true with
  | inl actor => (Ok tt, set_Actor actor cmd, [ActorMaker_NewActor true None])
  | inr e => (Fail e, cmd, [ActorMaker_NewActor true (Some e)])
  end.
Proof.
  unfold reloadActor. rewrite bind_eq. unfold actorMaker_NewActor.
  destruct (NewActor (ActorMaker_ cmd) h true); reflexivity.
Qed.

(** [Execute] up to the rebuild of the client: the endpoint, the target,
    and [NewActor]; then the deferred part runs on the new actor. *)
Lemma Execute_prefix (pkg : Packages) args cmd h :
  command.ExperimentalLogin (Config cmd) h = true ->
  let E := Execute pkg args cmd h in
  (forallb resolveCall (calls E) = true)
  \/ (exists pre e hr,
        forallb resolveCall pre = true
        /\ NewActor (ActorMaker_ cmd) hr true = inr e
        /\ E = (Fail e, receiver E, pre ++ [ActorMaker_NewActor true (Some e)]))
  \/ (exists endpoint pre actor hr,
        forallb resolveCall pre = true
        /\ NewActor (ActorMaker_ cmd) hr true = inl actor
        /\ E = prepend (pre ++ [ActorMaker_NewActor true None])
                 (defer showStatus (Execute_deferred pkg)
                    (set_Actor actor (set_APIEndpoint endpoint cmd))
                    (h ++ pre ++ [ActorMaker_NewActor true None]))).
Proof.
  intros Hexp. cbv zeta. unfold Execute. rewrite bind_ask_eq, Hexp. cbn [negb].
  unfold ui_DisplayWarning. rewrite bind_emit_eq, bind_eq.
  set (w := UI_DisplayWarning
    "Using experimental login command, some behavior may be different").
  pose proof (Execute_endpoint_calls cmd (h ++ [w])) as Hea.
  destruct (Execute_endpoint_receiver cmd (h ++ [w])) as [endpoint Her].
  destruct (Execute_endpoint cmd (h ++ [w])) as [[re c1] evse].
  rewrite calls_run in Hea. rewrite receiver_run in Her. subst c1.
  destruct re as [[]|e|]; cbv iota;
    [|left; rewrite calls_prepend, calls_run; cbn [app forallb resolveCall];
      exact Hea..].
  unfold ui_DisplayNewline. rewrite bind_emit_eq, bind_eq.
  set (c := set_APIEndpoint endpoint cmd).
  match goal with |- context [Execute_target pkg c ?hh] =>
    pose proof (Execute_target_calls pkg c hh) as Hta;
    pose proof (Execute_target_keeps pkg c hh) as Htk;
    destruct (Execute_target pkg c hh) as [[rt c2] evst] end.
  rewrite calls_run in Hta. rewrite receiver_run in Htk. subst c2.
  assert (Hpre : forallb resolveCall (([w] ++ evse) ++ [UI_DisplayNewline] ++ evst) = true)
    by (rewrite !forallb_app, Hea, Hta; reflexivity).
  destruct rt as [[]|e|]; cbv iota;
    [|left; rewrite !calls_prepend, calls_run; norm_app; norm_app_in Hpre;
      exact Hpre..].
  rewrite bind_eq, reloadActor_eq.
  match goal with |- context [NewActor (ActorMaker_ c) ?hh true] =>
    destruct (NewActor (ActorMaker_ c) hh true) as [actor|e] eqn:Hnew end; cbv iota.
  - right. right. exists endpoint, (([w] ++ evse) ++ [UI_DisplayNewline] ++ evst), actor.
    eexists. split; [exact Hpre|]. split; [exact Hnew|].
    rewrite !prepend_prepend. f_equal; [norm_app; reflexivity|].
    f_equal. norm_app. reflexivity.
  - right. left. exists (([w] ++ evse) ++ [UI_DisplayNewline] ++ evst), e.
    eexists. split; [exact Hpre|]. split; [exact Hnew|].
    unfold prepend. cbn [outcome receiver calls fst snd]. norm_app. reflexivity.
Qed.

Section PromptsRead.

Variable pkg : Packages.

Lemma collectorCall_no_prompts e :
  collectorCall e = true -> negb (isGetLoginPrompts e) = true.
Proof. destruct e; cbn; congruence. Qed.

Lemma authenticate_loop_no_prompts tries err prompts credentials passwordKeys :
  emits_only (fun e => negb (isGetLoginPrompts e))
    (authenticate_loop pkg tries err prompts credentials passwordKeys).
Proof.
  revert err credentials.
  induction tries as [|tries IH]; intros err credentials; simpl; emits.
  - eapply emits_only_weaken;
      [apply collectorCall_no_prompts | apply passwordPrompts_calls].
  - apply IH.
Qed.

Lemma authenticateSSO_loop_no_prompts tries err prompts credentials :
  emits_only (fun e => negb (isGetLoginPrompts e))
    (authenticateSSO_loop pkg tries err prompts credentials).
Proof.
  revert err credentials.
  induction tries as [|tries IH]; intros err credentials; simpl; emits.
  - eapply emits_only_weaken;
      [apply collectorCall_no_prompts | apply authenticateSSO_passcode_calls].
  - apply IH.
Qed.

Lemma no_prompts_filter evs :
  forallb (fun e => negb (isGetLoginPrompts e)) evs = true ->
  List.filter isGetLoginPrompts evs = [].
Proof.
  apply filter_none. intros e He. destruct (isGetLoginPrompts e); [discriminate|reflexivity].
Qed.

Lemma collector_no_prompts evs :
  forallb collectorCall evs = true -> List.filter isGetLoginPrompts evs = [].
Proof. apply filter_none. intros e; destruct e; cbn; congruence. Qed.

(** Each flow reads the login prompts once, first of all, from the actor
    of the receiver. *)
Lemma flow_prompts_read (sso : bool) cmd h :
  let f := if sso then authenticateSSO pkg cmd h else authenticate pkg cmd h in
  List.filter isGetLoginPrompts (calls f)
  = [Actor_GetLoginPrompts (GetLoginPrompts (Actor cmd) h)].
Proof.
  cbv zeta. destruct sso.
  - destruct (authenticateSSO pkg cmd h) as [[r cmd'] evs] eqn:Hrun.
    apply authenticateSSO_inv in Hrun as (h1 & rl & evs1 & Hl & _ & ->).
    rewrite calls_run. cbn [List.filter isGetLoginPrompts]. f_equal.
    pose proof (authenticateSSO_loop_no_prompts maxLoginTries None
                  (GetLoginPrompts (Actor cmd) h) ∅ cmd h1) as Hc.
    rewrite Hl, calls_run in Hc. exact (no_prompts_filter _ Hc).
  - destruct (authenticate pkg cmd h) as [[r cmd'] evs] eqn:Hrun.
    apply authenticate_inv in Hrun as (h1 & ru & evs1 & Hu & Hrun).
    match type of Hu with authenticate_username ?a ?b ?c ?d = _ =>
      pose proof (authenticate_username_calls a b c d) as Hu' end.
    rewrite Hu, calls_run in Hu'. apply collector_no_prompts in Hu'.
    rewrite calls_run.
    destruct ru as [credentials|e|];
      [|destruct Hrun as (_ & _ & ->); cbn [List.filter isGetLoginPrompts];
        rewrite Hu'; reflexivity..].
    destruct Hrun as (h2 & rg & evs2 & Hg & Hrun).
    match type of Hg with authenticate_range ?a ?b ?c ?d ?e = _ =>
      pose proof (authenticate_range_calls a b c d e) as Hg' end.
    rewrite Hg, calls_run in Hg'. apply collector_no_prompts in Hg'.
    destruct rg as [ranged|e|];
      [|destruct Hrun as (_ & _ & ->); cbn [List.filter isGetLoginPrompts];
        rewrite List.filter_app, Hu', Hg'; reflexivity..].
    destruct Hrun as (h3 & rl & evs3 & Hl & _ & ->).
    pose proof (authenticate_loop_no_prompts maxLoginTries None
                  (GetLoginPrompts (Actor cmd) h) ranged.1 ranged.2 cmd h3) as Hc.
    rewrite Hl, calls_run in Hc. apply no_prompts_filter in Hc.
    cbn [List.filter isGetLoginPrompts]. rewrite !List.filter_app, Hu', Hg', Hc.
    reflexivity.
Qed.

End PromptsRead.

(** [Execute] reads the login prompts once at most, and reads them from the
    actor that [NewActor] returned once the target was set (lines 156-159
    and 369-378), not from the actor the command was set up with. *)
Theorem Execute_asks_the_rebuilt_actor (pkg : Packages) args cmd h :
  let E := Execute pkg args cmd h in
  List.filter isGetLoginPrompts (calls E) = []
  \/ exists actor hr hh,
       NewActor (ActorMaker_ cmd) hr true = inl actor
       /\ List.filter isGetLoginPrompts (calls E)
          = [Actor_GetLoginPrompts (GetLoginPrompts actor hh)].
Proof.
  cbv zeta.
  assert (Hresolve : forall evs, forallb resolveCall evs = true ->
                       List.filter isGetLoginPrompts evs = [])
    by (intros evs; apply filter_none; intros e; destruct e; cbn; congruence).
  destruct (command.ExperimentalLogin (Config cmd) h) eqn:Hexp;
    [|left; rewrite Execute_gate_closed by exact Hexp; reflexivity].
  destruct (Execute_prefix pkg args cmd h Hexp)
    as [Hpre|[(pre & e & hr & Hpre & _ & ->)
             |(endpoint & pre & actor & hr & Hpre & Hnew & ->)]].
  - left. exact (Hresolve _ Hpre).
  - left. rewrite calls_run, List.filter_app, (Hresolve _ Hpre). reflexivity.
  - rewrite calls_prepend, !List.filter_app, (Hresolve _ Hpre).
    cbn [List.filter isGetLoginPrompts app].
    set (c := set_Actor actor (set_APIEndpoint endpoint cmd)).
    set (hd := h ++ pre ++ [ActorMaker_NewActor true None]).
    unfold defer.
    pose proof (Execute_deferred_run pkg c hd) as Hd.
    destruct (Execute_deferred pkg c hd) as [[rd cd] evsd].
    rewrite outcome_run, calls_run in Hd.
    pose proof (showStatus_calls cd (hd ++ evsd)) as Hs.
    destruct (showStatus cd (hd ++ evsd)) as [[rs cs] evss].
    rewrite calls_run in Hs |- *.
    assert (Hsn : List.filter isGetLoginPrompts evss = [])
      by (revert Hs; apply filter_none; intros e; destruct e; cbn; congruence).
    rewrite List.filter_app, Hsn, app_nil_r.
    assert (Hon : forall evs, forallb organizationCall evs = true ->
                    List.filter isGetLoginPrompts evs = [])
      by (intros evs; apply filter_none; intros e; destruct e; cbn; congruence).
    assert (Hvn : forall evs, forallb versionCall evs = true ->
                    List.filter isGetLoginPrompts evs = [])
      by (intros evs; apply filter_none; intros e; destruct e; cbn; congruence).
    assert (Hflow : forall ra ca evsa,
              Execute_authenticate pkg c hd = (ra, ca, evsa) ->
              List.filter isGetLoginPrompts evsa = []
              \/ exists hh, List.filter isGetLoginPrompts evsa
                            = [Actor_GetLoginPrompts (GetLoginPrompts actor hh)]).
    { intros ra ca evsa Ha. rewrite Execute_authenticate_eq in Ha.
      destruct (SSO c || negb (String.eqb (SSOPasscode c) "")).
      - destruct (SSO c && negb (String.eqb (SSOPasscode c) "")).
        + injection Ha as <- <- <-. left. reflexivity.
        + cbv zeta in Ha. injection Ha as <- <- <-. right. exists hd.
          exact (flow_prompts_read pkg true c hd).
      - cbv zeta in Ha. injection Ha as <- <- <-. right. exists hd.
        exact (flow_prompts_read pkg false c hd). }
    destruct Hd as [Hg|ra ca evsa Hg Ha Hra|ca evsa ro co evso Hg Ha Ho Hro
                    |ca evsa co evso rv cv evsv Hg Ha Ho Hv]; stage_calls.
    + left. reflexivity.
    + destruct (Hflow _ _ _ Ha) as [Hnone|[hh Hone]]; [left; exact Hnone|].
      right. exists actor, hr, hh. split; [exact Hnew|exact Hone].
    + rewrite List.filter_app, (Hon _ Hcalls0), app_nil_r.
      destruct (Hflow _ _ _ Ha) as [Hnone|[hh Hone]]; [left; exact Hnone|].
      right. exists actor, hr, hh. split; [exact Hnew|exact Hone].
    + rewrite !List.filter_app, (Hon _ Hcalls0), (Hvn _ Hcalls1), !app_nil_r.
      destruct (Hflow _ _ _ Ha) as [Hnone|[hh Hone]]; [left; exact Hnone|].
      right. exists actor, hr, hh. split; [exact Hnew|exact Hone].
Qed.

(** [cf login -a api.example.com -u me -p pw1]: the prompts read are those
    of the client built once the target is set. *)
Lemma Execute_asks_the_rebuilt_actor_witness :
  GetLoginPrompts (Actor Scenario.retargeted) [] = []
  /\ List.filter isGetLoginPrompts
       (calls (Execute Scenario.packages [] Scenario.retargeted []))
     = [Actor_GetLoginPrompts Scenario.schema].
Proof.
  split; [reflexivity|].
  destruct (Execute_asks_the_rebuilt_actor Scenario.packages [] Scenario.retargeted [])
    as [Hnone|(actor & hr & hh & Hnew & Hone)].
  - vm_compute in Hnone. discriminate Hnone.
  - injection Hnew as <-. exact Hone.
Defined.

(** ** The status report *)

(** The status report (lines 380-427) never fails and leaves the receiver
    as it is: it shows the table and one more line, which says what is
    missing.  An error of [CurrentUserName] is not returned: the user is
    then shown as not logged in.  The organization is shown only next to
    a user. *)
Theorem showStatus_report cmd h :
  showStatus cmd h =
  (Ok tt, cmd, [UI_DisplayKeyValueTable "" (statusRows cmd h) 3; statusHint cmd h])
  /\ 1 <= length (statusRows cmd h) <= 3
  /\ (length (statusRows cmd h) = 3 <->
      exists user,
        command.CurrentUserName (Config cmd) h = (user, None) /\ user <> ""
        /\ command.TargetedOrganizationName (Config cmd) h <> "").
Proof.
  unfold showStatus, statusHint, statusRows, displayNotLoggedIn, displayNotTargetted.
  rewrite bind_getCmd_eq, !bind_ask_eq. cbv zeta.
  destruct (command.CurrentUserName (Config cmd) h) as [user [e|]]; cbn [fst snd].
  - rewrite orb_true_r. unfold ui_DisplayKeyValueTable, ui_DisplayText.
    rewrite bind_emit_eq, bind_ask_eq. rewrite app_nil_r.
    split; [reflexivity|]. split; [cbn; lia|].
    split; [discriminate|]. intros (user' & [=] & _).
  - rewrite orb_false_r. destruct (String.eqb_spec user "") as [->|Huser].
    + unfold ui_DisplayKeyValueTable, ui_DisplayText.
      rewrite bind_emit_eq, bind_ask_eq. rewrite app_nil_r.
      split; [reflexivity|]. split; [cbn; lia|].
      split; [discriminate|]. intros (user' & [= <-] & Hne & _). contradiction.
    + rewrite bind_ask_eq.
      destruct (String.eqb_spec (command.TargetedOrganizationName (Config cmd) h) "")
        as [Horg|Horg].
      * unfold ui_DisplayKeyValueTable, ui_DisplayText.
        rewrite bind_emit_eq, bind_ask_eq. rewrite app_nil_r.
        split; [reflexivity|]. split; [cbn; lia|].
        split; [discriminate|]. intros (user' & _ & _ & Hne). contradiction.
      * unfold ui_DisplayKeyValueTable, ui_DisplayNewline. rewrite bind_emit_eq.
        split; [reflexivity|]. split; [cbn; lia|].
        split; [|reflexivity]. intros _. exists user. auto.
Qed.

(** ** What is shown after an attempt *)

Lemma attemptsReported_none pkg (p : Event -> bool) evs :
  (forall e, p e = true -> isAuthenticate e = false) ->
  forallb p evs = true -> attemptsReported pkg evs.
Proof.
  intros Hp. induction evs as [|ev rest IH]; [constructor|].
  cbn [forallb]. intros [_ Hrest]%andb_prop. cbn [attemptsReported].
  split; [|exact (IH Hrest)].
  destruct rest as [|next rest']; [exact I|].
  cbn [forallb] in Hrest. apply andb_prop in Hrest as [Hnext _].
  rewrite (Hp _ Hnext). discriminate.
Qed.

(** Two runs of calls, the second of which does not start with an attempt. *)
Lemma attemptsReported_app pkg evs1 evs2 :
  attemptsReported pkg evs1 ->
  attemptsReported pkg evs2 ->
  match evs2 with ev :: _ => isAuthenticate ev = false | [] => True end ->
  attemptsReported pkg (evs1 ++ evs2).
Proof.
  intros H1 H2 Hhead. induction evs1 as [|ev rest IH]; [exact H2|].
  cbn [app attemptsReported] in *. destruct H1 as [Hev Hrest].
  split; [|exact (IH Hrest)].
  destruct rest as [|next rest'].
  - cbn [app]. destruct evs2 as [|next rest']; [exact I|].
    rewrite Hhead. discriminate.
  - cbn [app]. intros Hnext. destruct (Hev Hnext) as [-> [later ->]].
    split; [reflexivity|]. exists (later ++ evs2). symmetry. apply app_assoc.
Qed.

Lemma head_not_attempt (p : Event -> bool) evs :
  (forall e, p e = true -> isAuthenticate e = false) ->
  forallb p evs = true ->
  match evs with ev :: _ => isAuthenticate ev = false | [] => True end.
Proof.
  intros Hp Hall. destruct evs as [|ev rest]; [exact I|].
  cbn [forallb] in Hall. apply andb_prop in Hall as [Hev _]. exact (Hp _ Hev).
Qed.

Lemma head_app_not_attempt evs1 evs2 :
  match evs1 with ev :: _ => isAuthenticate ev = false | [] => True end ->
  match evs2 with ev :: _ => isAuthenticate ev = false | [] => True end ->
  match evs1 ++ evs2 with ev :: _ => isAuthenticate ev = false | [] => True end.
Proof. destruct evs1; auto. Qed.

Lemma attempt_reported pkg credentials origin grantType err :
  let ev := Actor_Authenticate credentials origin grantType err in
  attemptsReported pkg ([UI_DisplayText "Authenticating..." []; ev] ++ feedback pkg ev).
Proof.
  destruct err as [e|]; cbn;
    (split; [intros _; split; [reflexivity|exists []; reflexivity]|]);
    repeat split; discriminate.
Qed.

Section Reported.

Variable pkg : Packages.

Lemma collector_not_attempt e : collectorCall e = true -> isAuthenticate e = false.
Proof. destruct e; cbn; congruence. Qed.

Lemma authenticate_loop_reported tries err prompts credentials passwordKeys cmd h :
  let r := authenticate_loop pkg tries err prompts credentials passwordKeys cmd h in
  attemptsReported pkg (calls r)
  /\ match calls r with ev :: _ => isAuthenticate ev = false | [] => True end.
Proof.
  revert err credentials cmd h.
  induction tries as [|tries IH]; intros err credentials cmd h; cbv zeta;
    [split; exact I|].
  rewrite authenticate_loop_S.
  pose proof (passwordPrompts_calls prompts credentials passwordKeys cmd h) as Hc.
  destruct (passwordPrompts prompts credentials passwordKeys cmd h)
    as [[[submitted|e|] cmd1] evs1]; rewrite calls_run in Hc;
    [|rewrite calls_run; split;
      [exact (attemptsReported_none pkg _ _ collector_not_attempt Hc)
      |exact (head_not_attempt _ _ collector_not_attempt Hc)]..].
  pose proof (attemptsReported_none pkg _ _ collector_not_attempt Hc) as Hr1.
  pose proof (head_not_attempt _ _ collector_not_attempt Hc) as Hh1.
  cbv zeta. destruct (Authenticate _ _ _ _ _) as [e|].
  - destruct (isAccountLockedError e); rewrite calls_run.
    + split; [|apply head_app_not_attempt; [exact Hh1|reflexivity]].
      apply attemptsReported_app; [exact Hr1| |reflexivity].
      exact (attempt_reported pkg _ _ _ _).
    + match goal with |- context [authenticate_loop ?a1 ?a2 ?a3 ?a4 ?a5 ?a6 ?a7 ?a8] =>
        destruct (IH a3 a5 a7 a8) as [Hrec Hhead] end.
      split; [|apply head_app_not_attempt; [exact Hh1|reflexivity]].
      apply attemptsReported_app; [exact Hr1| |reflexivity].
      apply attemptsReported_app; [|exact Hrec|exact Hhead].
      exact (attempt_reported pkg _ _ _ _).
  - rewrite calls_run.
    split; [|apply head_app_not_attempt; [exact Hh1|reflexivity]].
    apply attemptsReported_app; [exact Hr1| |reflexivity].
    exact (attempt_reported pkg _ _ _ _).
Qed.

Lemma authenticateSSO_loop_reported tries err prompts credentials cmd h :
  let r := authenticateSSO_loop pkg tries err prompts credentials cmd h in
  attemptsReported pkg (calls r)
  /\ match calls r with ev :: _ => isAuthenticate ev = false | [] => True end.
Proof.
  revert err credentials cmd h.
  induction tries as [|tries IH]; intros err credentials cmd h; cbv zeta;
    [split; exact I|].
  rewrite authenticateSSO_loop_S.
  pose proof (authenticateSSO_passcode_calls prompts credentials cmd h) as Hc.
  destruct (authenticateSSO_passcode prompts credentials cmd h)
    as [[[submitted|e|] cmd1] evs1]; rewrite calls_run in Hc;
    [|rewrite calls_run; split;
      [exact (attemptsReported_none pkg _ _ collector_not_attempt Hc)
      |exact (head_not_attempt _ _ collector_not_attempt Hc)]..].
  pose proof (attemptsReported_none pkg _ _ collector_not_attempt Hc) as Hr1.
  pose proof (head_not_attempt _ _ collector_not_attempt Hc) as Hh1.
  cbv zeta. destruct (Authenticate _ _ _ _ _) as [e|].
  - rewrite calls_run.
    match goal with |- context [authenticateSSO_loop ?a1 ?a2 ?a3 ?a4 ?a5 ?a6 ?a7] =>
      destruct (IH a3 a5 a6 a7) as [Hrec Hhead] end.
    split; [|apply head_app_not_attempt; [exact Hh1|reflexivity]].
    apply attemptsReported_app; [exact Hr1| |reflexivity].
    apply attemptsReported_app; [|exact Hrec|exact Hhead].
    exact (attempt_reported pkg _ _ _ _).
  - rewrite calls_run.
    split; [|apply head_app_not_attempt; [exact Hh1|reflexivity]].
    apply attemptsReported_app; [exact Hr1| |reflexivity].
    exact (attempt_reported pkg _ _ _ _).
Qed.

Lemma flow_reported (sso : bool) cmd h :
  let f := if sso then authenticateSSO pkg cmd h else authenticate pkg cmd h in
  attemptsReported pkg (calls f)
  /\ match calls f with ev :: _ => isAuthenticate ev = false | [] => True end.
Proof.
  cbv zeta. destruct sso.
  - destruct (authenticateSSO pkg cmd h) as [[r cmd'] evs] eqn:Hrun.
    apply authenticateSSO_inv in Hrun as (h1 & rl & evs1 & Hl & _ & ->).
    rewrite calls_run. split; [|reflexivity].
    destruct (authenticateSSO_loop_reported maxLoginTries None
                (GetLoginPrompts (Actor cmd) h) ∅ cmd h1) as [Hrec Hhead].
    rewrite Hl, calls_run in Hrec, Hhead.
    apply (attemptsReported_app pkg [_]); [cbn; auto|exact Hrec|exact Hhead].
  - destruct (authenticate pkg cmd h) as [[r cmd'] evs] eqn:Hrun.
    apply authenticate_inv in Hrun as (h1 & ru & evs1 & Hu & Hrun).
    match type of Hu with authenticate_username ?a ?b ?c ?d = _ =>
      pose proof (authenticate_username_calls a b c d) as Hu' end.
    rewrite Hu, calls_run in Hu'. rewrite calls_run.
    pose proof (attemptsReported_none pkg _ _ collector_not_attempt Hu') as Hr1.
    pose proof (head_not_attempt _ _ collector_not_attempt Hu') as Hh1.
    destruct ru as [credentials|e|];
      [|destruct Hrun as (_ & _ & ->); split; [|reflexivity];
        apply (attemptsReported_app pkg [_]); [cbn; auto|exact Hr1|exact Hh1]..].
    destruct Hrun as (h2 & rg & evs2 & Hg & Hrun).
    match type of Hg with authenticate_range ?a ?b ?c ?d ?e = _ =>
      pose proof (authenticate_range_calls a b c d e) as Hg' end.
    rewrite Hg, calls_run in Hg'.
    pose proof (attemptsReported_none pkg _ _ collector_not_attempt Hg') as Hr2.
    pose proof (head_not_attempt _ _ collector_not_attempt Hg') as Hh2.
    destruct rg as [ranged|e|];
      [|destruct Hrun as (_ & _ & ->); split; [|reflexivity];
        apply (attemptsReported_app pkg [_]); [cbn; auto| |];
        [apply attemptsReported_app; assumption
        |apply head_app_not_attempt; assumption]..].
    destruct Hrun as (h3 & rl & evs3 & Hl & _ & ->).
    destruct (authenticate_loop_reported maxLoginTries None
                (GetLoginPrompts (Actor cmd) h) ranged.1 ranged.2 cmd h3) as [Hrec Hhead].
    rewrite Hl, calls_run in Hrec, Hhead.
    split; [|reflexivity].
    apply (attemptsReported_app pkg [_]); [cbn; auto| |].
    + apply attemptsReported_app; [exact Hr1| |apply head_app_not_attempt; assumption].
      apply attemptsReported_app; assumption.
    + apply head_app_not_attempt; [exact Hh1|].
      apply head_app_not_attempt; assumption.
Qed.

End Reported.

(** Every call of [Authenticate] that [Execute] makes comes right after the
    line "Authenticating..." and is followed at once by its feedback: the
    translated error as a warning when it failed, [OK] when it succeeded,
    and an empty line.  No run starts with a call of [Authenticate]. *)
Theorem Execute_reports_attempts (pkg : Packages) args cmd h :
  attemptsReported pkg (calls (Execute pkg args cmd h))
  /\ match calls (Execute pkg args cmd h) with
     | ev :: _ => isAuthenticate ev = false
     | [] => True
     end.
Proof.
  assert (Hpreflight : forall e, preflightCall e = true -> isAuthenticate e = false)
    by (intros e; destruct e; cbn; congruence).
  assert (Htarget : forall e, targetCall e = true -> isAuthenticate e = false)
    by (intros e; destruct e; cbn; congruence).
  assert (Hstatus : forall e, statusCall e = true -> isAuthenticate e = false)
    by (intros e; destruct e; cbn; congruence).
  assert (Horg : forall e, organizationCall e = true -> isAuthenticate e = false)
    by (intros e; destruct e; cbn; congruence).
  assert (Hver : forall e, versionCall e = true -> isAuthenticate e = false)
    by (intros e; destruct e; cbn; congruence).
  destruct (Execute_stages pkg args cmd h)
    as [[Hpre _]|(endpoint & actor & pre & status & Hpre & Hst & Hcases)].
  { split; [exact (attemptsReported_none pkg _ _ Hpreflight Hpre)
           |exact (head_not_attempt _ _ Hpreflight Hpre)]. }
  cbv zeta in Hcases.
  set (c := set_Actor actor (set_APIEndpoint endpoint cmd)) in *.
  set (b := SSO c || negb (String.eqb (SSOPasscode c) "")) in *.
  destruct (flow_reported pkg b c (h ++ pre)) as [Hf Hfh]. cbv zeta in Hf, Hfh.
  set (f := if b then authenticateSSO pkg c (h ++ pre)
            else authenticate pkg c (h ++ pre)) in *.
  pose proof (Execute_organization_calls (receiver f) ((h ++ pre) ++ calls f)) as Hoc.
  set (o := Execute_organization (receiver f) ((h ++ pre) ++ calls f)) in *.
  pose proof (checkMinCLIVersion_calls pkg (receiver o) ((h ++ pre) ++ calls f ++ calls o))
    as Hvc.
  set (v := checkMinCLIVersion pkg (receiver o) ((h ++ pre) ++ calls f ++ calls o)) in *.
  pose proof (attemptsReported_none pkg _ _ Htarget Hpre) as Hrp.
  pose proof (head_not_attempt _ _ Htarget Hpre) as Hhp.
  pose proof (attemptsReported_none pkg _ _ Hstatus Hst) as Hrs.
  pose proof (head_not_attempt _ _ Hstatus Hst) as Hhs.
  pose proof (attemptsReported_none pkg _ _ Horg Hoc) as Hro.
  pose proof (head_not_attempt _ _ Horg Hoc) as Hho.
  pose proof (attemptsReported_none pkg _ _ Hver Hvc) as Hrv.
  pose proof (head_not_attempt _ _ Hver Hvc) as Hhv.
  destruct Hcases as [(_ & -> & _)|[(_ & _ & -> & _)|(_ & _ & -> & _)]].
  - split; [|repeat apply head_app_not_attempt; assumption].
    apply attemptsReported_app; [exact Hrp| |apply head_app_not_attempt; assumption].
    apply attemptsReported_app; assumption.
  - split; [|repeat apply head_app_not_attempt; assumption].
    apply attemptsReported_app; [exact Hrp| |].
    + apply attemptsReported_app; [|exact Hrs|exact Hhs].
      apply attemptsReported_app; assumption.
    + repeat apply head_app_not_attempt; assumption.
  - split; [|repeat apply head_app_not_attempt; assumption].
    apply attemptsReported_app; [exact Hrp| |].
    + apply attemptsReported_app; [|exact Hrs|exact Hhs].
      apply attemptsReported_app; [exact Hf| |apply head_app_not_attempt; assumption].
      apply attemptsReported_app; assumption.
    + repeat apply head_app_not_attempt; assumption.
Qed.

(** ** The answers that the attempts submit *)

(** The attempts of the password flow differ in secrets only: what they
    submit under a key that is neither [password] nor the key of another
    secret prompt is the same in every attempt. *)
Theorem attempts_differ_in_secrets_only (pkg : Packages) cmd h key :
  key <> "password" ->
  ~ In key (otherSecretKeys (GetLoginPrompts (Actor cmd) h)) ->
  exists value,
    Forall (fun ev => authenticateCredentials ev !! key = value)
      (attempts (calls (authenticate pkg cmd h))).
Proof.
  intros Hkey Hnot.
  destruct (authenticate_attempts_loop pkg cmd h)
    as [[-> _]|(h1 & credentials & h2 & ranged & h3 & Hu & Hg & Hatt & _)].
  { exists None. constructor. }
  cbv zeta in Hatt. rewrite Hatt.
  pose proof (authenticate_range_keys (GetLoginPrompts (Actor cmd) h) credentials []
                cmd h2) as Hkeys.
  rewrite Hg in Hkeys. cbn [app] in Hkeys.
  exists (ranged.1 !! key). apply authenticate_loop_key; [exact Hkey|].
  rewrite Hkeys. exact Hnot.
Qed.

(** [cf login -a api.example.com -u me -p pw1], the first attempt rejected:
    both attempts submit the same user name. *)
Lemma attempts_differ_in_secrets_only_witness :
  ~ In "username" (otherSecretKeys (GetLoginPrompts (Actor Scenario.retry) []))
  /\ length (attempts (calls (authenticate Scenario.packages Scenario.retry []))) = 2
  /\ exists value,
       Forall (fun ev => authenticateCredentials ev !! "username" = value)
         (attempts (calls (authenticate Scenario.packages Scenario.retry []))).
Proof.
  assert (Hnot : ~ In "username"
                   (otherSecretKeys (GetLoginPrompts (Actor Scenario.retry) [])))
    by (vm_compute; intros [H|[]]; discriminate H).
  split; [exact Hnot|]. split; [vm_compute; reflexivity|].
  apply (attempts_differ_in_secrets_only Scenario.packages Scenario.retry [] "username");
    [discriminate|exact Hnot].
Defined.

Lemma passwordPrompts_keys_answer prompts passwordKeys credentials cmd h key :
  NoDup passwordKeys ->
  In key passwordKeys ->
  let r := passwordPrompts_keys prompts passwordKeys credentials cmd h in
  match outcome r with
  | Ok credentials' =>
      exists answer,
        In (UI_DisplayPasswordPrompt
              (coreconfig.DisplayName (indexPrompt key prompts)) answer None) (calls r)
        /\ credentials' !! key = Some answer
  | _ => True
  end.
Proof.
  revert credentials cmd h.
  induction passwordKeys as [|k rest IH]; intros credentials cmd h Hnodup Hin;
    [destruct Hin|].
  apply NoDup_cons in Hnodup as [Hk Hnodup]. cbv zeta.
  cbn [passwordPrompts_keys]. unfold ui_DisplayNewline. rewrite bind_emit_eq.
  cbv beta. rewrite bind_eq. unfold ui_DisplayPasswordPrompt.
  destruct (command.DisplayPasswordPrompt _ _ _) as [answer [e|]]; [exact I|].
  rewrite !outcome_prepend, !calls_prepend.
  match goal with |- context [passwordPrompts_keys prompts rest ?c ?cm ?hh] =>
    pose proof (passwordPrompts_keys_key prompts rest c cm hh k) as Hkept;
    specialize (IH c cm hh Hnodup); cbv zeta in IH;
    destruct (passwordPrompts_keys prompts rest c cm hh) as [[[c'|e'|] cm1] evs1]
  end; rewrite ?outcome_run, ?calls_run in *; try exact I.
  destruct Hin as [<-|Hin].
  - exists answer. split; [cbn; auto|].
    rewrite Hkept by (intros Hin; apply Hk, list_elem_of_In, Hin).
    apply lookup_insert_eq.
  - destruct (IH Hin) as (answer' & Hasked & Hvalue).
    exists answer'. split; [|exact Hvalue].
    right. right. exact Hasked.
Qed.

Lemma passwordPrompts_answer prompts credentials passwordKeys cmd h key :
  NoDup passwordKeys ->
  In key passwordKeys ->
  let r := passwordPrompts prompts credentials passwordKeys cmd h in
  match outcome r with
  | Ok prompted =>
      exists answer,
        In (UI_DisplayPasswordPrompt
              (coreconfig.DisplayName (indexPrompt key prompts)) answer None) (calls r)
        /\ prompted.1 !! key = Some answer
  | _ => True
  end.
Proof.
  intros Hnodup Hin. cbv zeta. unfold passwordPrompts.
  assert (Hdone : forall c cm hh,
            let r := bind (passwordPrompts_keys prompts passwordKeys c)
                       (fun c' => ret (c', c')) cm hh in
            match outcome r with
            | Ok prompted =>
                exists answer,
                  In (UI_DisplayPasswordPrompt
                        (coreconfig.DisplayName (indexPrompt key prompts)) answer None)
                     (calls r)
                  /\ prompted.1 !! key = Some answer
            | _ => True
            end).
  { intros c cm hh. cbv zeta. rewrite bind_eq.
    pose proof (passwordPrompts_keys_answer prompts passwordKeys c cm hh key Hnodup Hin)
      as Hkeys.
    cbv zeta in Hkeys.
    destruct (passwordPrompts_keys prompts passwordKeys c cm hh) as [[[c'|e'|] cm1] evs1];
      rewrite ?outcome_run, ?calls_run in *; try exact I.
    destruct Hkeys as (answer & Hasked & Hvalue). exists answer.
    rewrite calls_prepend. cbn. rewrite app_nil_r. auto. }
  destruct (lookupPrompt "password" prompts) as [passPrompt|].
  - rewrite bind_assoc, bind_getCmd_eq. cbv beta.
    destruct (negb (String.eqb (Password cmd) "")).
    + rewrite bind_assoc, bind_modifyCmd_eq, bind_ret_eq. apply Hdone.
    + rewrite bind_assoc, bind_eq. unfold ui_DisplayPasswordPrompt.
      destruct (command.DisplayPasswordPrompt _ _ _) as [answer [e|]]; [exact I|].
      rewrite bind_ret_eq, outcome_prepend, calls_prepend.
      match goal with |- context [bind (passwordPrompts_keys _ _ ?c) _ ?cm ?hh] =>
        specialize (Hdone c cm hh) end.
      cbv zeta in Hdone. destruct (outcome _); try exact I.
      destruct Hdone as (answer' & Hasked & Hvalue). exists answer'.
      split; [right; exact Hasked|exact Hvalue].
  - rewrite bind_ret_eq. apply Hdone.
Qed.

Lemma authenticate_loop_answers pkg prompts passwordKeys key tries err credentials cmd h
    before :
  NoDup passwordKeys ->
  In key passwordKeys ->
  Forall (secretAnswered prompts key)
    (rounds_from before
       (calls (authenticate_loop pkg tries err prompts credentials passwordKeys cmd h))).
Proof.
  intros Hnodup Hin. revert err credentials cmd h before.
  induction tries as [|tries IH]; intros err credentials cmd h before; [constructor|].
  rewrite authenticate_loop_S.
  pose proof (passwordPrompts_answer prompts credentials passwordKeys cmd h key
                Hnodup Hin) as Hout.
  pose proof (passwordPrompts_calls prompts credentials passwordKeys cmd h) as Hc.
  apply attempts_collector in Hc. cbv zeta in Hout.
  destruct (passwordPrompts prompts credentials passwordKeys cmd h)
    as [[[submitted|e|] cmd1] evs1];
    rewrite ?outcome_run, ?calls_run in *;
    [|rewrite rounds_from_none by exact Hc; constructor..].
  destruct Hout as (answer & Hasked & Hvalue).
  assert (Hround : forall ev,
            authenticateCredentials ev = submitted.1 ->
            secretAnswered prompts key
              ((before ++ evs1) ++ [UI_DisplayText "Authenticating..." []], ev)).
  { intros ev Hev. exists answer. cbn [fst snd]. rewrite Hev.
    split; [|exact Hvalue]. apply in_or_app. left. apply in_or_app. right. exact Hasked. }
  cbv zeta. destruct (Authenticate _ _ _ _ _) as [e|].
  - destruct (isAccountLockedError e); rewrite calls_run, rounds_from_app by exact Hc.
    + cbn. constructor; [|constructor]. apply Hround. reflexivity.
    + cbn [app rounds_from isAuthenticate]. constructor.
      * apply Hround. reflexivity.
      * match goal with |- context [authenticate_loop ?a1 ?a2 ?a3 ?a4 ?a5 ?a6 ?a7 ?a8] =>
          exact (IH a3 a5 a7 a8 _) end.
  - rewrite calls_run, rounds_from_app by exact Hc.
    cbn. constructor; [|constructor]. apply Hround. reflexivity.
Qed.

Lemma otherSecretKeys_NoDup prompts :
  NoDup (map fst prompts) -> NoDup (otherSecretKeys prompts).
Proof.
  unfold otherSecretKeys. induction prompts as [|[key prompt] rest IH]; [auto|].
  cbn [map fst]. intros [Hkey Hrest]%NoDup_cons. cbn [List.filter].
  destruct (isOtherSecret (key, prompt)); [|exact (IH Hrest)].
  cbn [map fst]. apply NoDup_cons. split; [|exact (IH Hrest)].
  intros Hin%list_elem_of_In. apply Hkey, list_elem_of_In.
  apply in_map_iff in Hin as (entry & <- & Hin).
  apply List.filter_In in Hin as [Hin _]. apply in_map. exact Hin.
Qed.

(** Every attempt of the password flow asks anew for each secret other than
    the password (a one-time code, say), and submits the answer given in
    that attempt. *)
Theorem other_secrets_asked_anew (pkg : Packages) cmd h key :
  let prompts := GetLoginPrompts (Actor cmd) h in
  NoDup (map fst prompts) ->
  In key (otherSecretKeys prompts) ->
  Forall (secretAnswered prompts key) (rounds (calls (authenticate pkg cmd h))).
Proof.
  intros prompts Hnodup Hin. unfold rounds.
  destruct (authenticate pkg cmd h) as [[r cmd'] evs] eqn:Hrun.
  apply authenticate_inv in Hrun as (h1 & ru & evs1 & Hu & Hrun).
  fold prompts in Hu, Hrun.
  pose proof (authenticate_username_calls prompts ∅ cmd h1) as Hu2.
  rewrite Hu, calls_run in Hu2. apply attempts_collector in Hu2. rewrite calls_run.
  destruct ru as [credentials|e|];
    [|destruct Hrun as (_ & _ & ->); rewrite rounds_from_none;
      [constructor|change (attempts (?e :: ?l)) with (attempts l); exact Hu2]..].
  destruct Hrun as (h2 & rg & evs2 & Hg & Hrun).
  pose proof (authenticate_range_calls prompts credentials [] cmd h2) as Hg2.
  rewrite Hg, calls_run in Hg2. apply attempts_collector in Hg2.
  pose proof (authenticate_range_keys prompts credentials [] cmd h2) as Hkeys.
  rewrite Hg, outcome_run in Hkeys.
  destruct rg as [ranged|e|];
    [|destruct Hrun as (_ & _ & ->); rewrite rounds_from_none;
      [constructor|change (attempts (?e :: ?l)) with (attempts l);
                   rewrite attempts_app, Hu2, Hg2; reflexivity]..].
  destruct Hrun as (h3 & rl & evs3 & Hl & _ & ->). cbn [app] in Hkeys.
  change (Actor_GetLoginPrompts prompts :: evs1 ++ evs2 ++ evs3)
    with ((Actor_GetLoginPrompts prompts :: evs1) ++ evs2 ++ evs3).
  rewrite app_assoc, rounds_from_app
    by (change (attempts ((?e :: ?l) ++ ?l')) with (attempts (l ++ l'));
        rewrite attempts_app, Hu2, Hg2; reflexivity).
  pose proof (authenticate_loop_answers pkg prompts ranged.2 key maxLoginTries None
                ranged.1 cmd h3
                ([] ++ (Actor_GetLoginPrompts prompts :: evs1) ++ evs2)) as Hloop.
  rewrite Hl, calls_run, Hkeys in Hloop.
  exact (Hloop (otherSecretKeys_NoDup prompts Hnodup) Hin).
Qed.

(** [cf login -a api.example.com -u me -p pw1], the first attempt rejected:
    the code is asked for twice, and each attempt submits the code typed
    just before. *)
Lemma other_secrets_asked_anew_witness :
  NoDup (map fst Scenario.schema)
  /\ In "otp" (otherSecretKeys Scenario.schema)
  /\ map (fun round => authenticateCredentials round.2 !! "otp")
       (rounds (calls (authenticate Scenario.packages Scenario.retry [])))
     = [Some "654321"; Some "654322"]
  /\ Forall (secretAnswered Scenario.schema "otp")
       (rounds (calls (authenticate Scenario.packages Scenario.retry []))).
Proof.
  assert (Hnodup : NoDup (map fst Scenario.schema))
    by (refine (bool_decide_unpack (NoDup (map fst Scenario.schema)) _);
        vm_compute; exact I).
  assert (Hin : In "otp" (otherSecretKeys Scenario.schema)) by (vm_compute; auto).
  split; [exact Hnodup|]. split; [exact Hin|]. split; [vm_compute; reflexivity|].
  exact (other_secrets_asked_anew Scenario.packages Scenario.retry [] "otp" Hnodup Hin).
Defined.

(** * The status report, the target and the collector, in full *)

(** ** The endpoint of the receiver

    Once the endpoint is chosen (lines 122-137), no stage writes it. *)

Lemma keeps_endpoint_keeps {A} (m : M A) : keeps_receiver m -> keeps_endpoint m.
Proof. intros Hm cmd h. rewrite Hm. reflexivity. Qed.

Lemma keeps_endpoint_bind {A B} (m : M A) (k : A -> M B) :
  keeps_endpoint m -> (forall a, keeps_endpoint (k a)) -> keeps_endpoint (bind m k).
Proof.
  intros Hm Hk cmd h. specialize (Hm cmd h). unfold bind.
  destruct (m cmd h) as [[[a|e|] cmd1] evs1]; unfold receiver in Hm |- *;
    cbn [fst snd] in Hm |- *; try exact Hm.
  specialize (Hk a cmd1 (h ++ evs1)).
  destruct (k a cmd1 (h ++ evs1)) as [[r cmd2] evs2].
  unfold receiver in Hk. cbn [fst snd] in Hk |- *. congruence.
Qed.

Lemma keeps_endpoint_try {A} (m : M A) : keeps_endpoint m -> keeps_endpoint (try m).
Proof.
  intros Hm cmd h. specialize (Hm cmd h). unfold try.
  destruct (m cmd h) as [[[a|e|] cmd1] evs1]; exact Hm.
Qed.

Lemma keeps_endpoint_defer {A} (d : M unit) (body : M A) :
  keeps_endpoint d -> keeps_endpoint body -> keeps_endpoint (defer d body).
Proof.
  intros Hd Hb cmd h. specialize (Hb cmd h). unfold defer.
  destruct (body cmd h) as [[r cmd1] evs1].
  specialize (Hd cmd1 (h ++ evs1)).
  destruct (d cmd1 (h ++ evs1)) as [[rd cmd2] evs2].
  unfold receiver in *. cbn [fst snd] in *. congruence.
Qed.

Ltac endpoint_call := apply keeps_endpoint_keeps; receiver_kept.

Ltac endpoint_step :=
  lazymatch goal with
  | |- keeps_endpoint (bind _ _) => apply keeps_endpoint_bind; [| intros ?]
  | |- keeps_endpoint (try _) => apply keeps_endpoint_try
  | |- keeps_endpoint (defer _ _) => apply keeps_endpoint_defer
  | |- keeps_endpoint (modifyCmd _) => intros ? ?; reflexivity
  | |- keeps_endpoint (match ?x with _ => _ end) => destruct x
  | |- keeps_endpoint (let '(_, _) := ?x in _) => destruct x
  | |- keeps_endpoint _ => endpoint_call
  end.

Section KeepsEndpoint.

Variable pkg : Packages.

Lemma passwordPrompts_keys_endpoint prompts passwordKeys credentials :
  keeps_endpoint (passwordPrompts_keys prompts passwordKeys credentials).
Proof. apply keeps_endpoint_keeps, passwordPrompts_keys_keeps. Qed.

Lemma passwordPrompts_endpoint prompts credentials passwordKeys :
  keeps_endpoint (passwordPrompts prompts credentials passwordKeys).
Proof.
  unfold passwordPrompts.
  apply keeps_endpoint_bind; [|intros c; apply keeps_endpoint_bind;
                            [apply passwordPrompts_keys_endpoint|intros ?; endpoint_call]].
  repeat endpoint_step.
Qed.

Lemma authenticate_loop_endpoint tries err prompts credentials passwordKeys :
  keeps_endpoint (authenticate_loop pkg tries err prompts credentials passwordKeys).
Proof.
  revert err credentials.
  induction tries as [|tries IH]; intros err credentials; [endpoint_call|].
  cbn [authenticate_loop].
  apply keeps_endpoint_bind; [apply passwordPrompts_endpoint|intros prompted].
  cbv zeta. apply keeps_endpoint_bind; [endpoint_call|intros _].
  apply keeps_endpoint_bind; [endpoint_call|intros [e|]].
  - apply keeps_endpoint_bind; [endpoint_call|intros _].
    apply keeps_endpoint_bind; [endpoint_call|intros _].
    destruct (isAccountLockedError e); [endpoint_call|apply IH].
  - repeat endpoint_step.
Qed.

Lemma authenticate_endpoint : keeps_endpoint (authenticate pkg).
Proof.
  unfold authenticate.
  apply keeps_endpoint_bind; [endpoint_call|intros prompts]. cbv zeta.
  apply keeps_endpoint_bind;
    [apply keeps_endpoint_keeps, authenticate_username_keeps|intros credentials].
  apply keeps_endpoint_bind;
    [apply keeps_endpoint_keeps, authenticate_range_keeps|intros ranged].
  apply keeps_endpoint_bind; [apply authenticate_loop_endpoint|intros err]. endpoint_call.
Qed.

Lemma authenticateSSO_passcode_endpoint prompts credentials :
  keeps_endpoint (authenticateSSO_passcode prompts credentials).
Proof. unfold authenticateSSO_passcode. repeat endpoint_step. Qed.

Lemma authenticateSSO_loop_endpoint tries err prompts credentials :
  keeps_endpoint (authenticateSSO_loop pkg tries err prompts credentials).
Proof.
  revert err credentials.
  induction tries as [|tries IH]; intros err credentials; [endpoint_call|].
  cbn [authenticateSSO_loop].
  apply keeps_endpoint_bind; [apply authenticateSSO_passcode_endpoint|intros submitted].
  cbv zeta. apply keeps_endpoint_bind; [endpoint_call|intros _].
  apply keeps_endpoint_bind; [endpoint_call|intros [e|]].
  - apply keeps_endpoint_bind; [endpoint_call|intros _].
    apply keeps_endpoint_bind; [endpoint_call|intros _]. apply IH.
  - repeat endpoint_step.
Qed.

Lemma authenticateSSO_endpoint : keeps_endpoint (authenticateSSO pkg).
Proof.
  unfold authenticateSSO.
  apply keeps_endpoint_bind; [endpoint_call|intros prompts]. cbv zeta.
  apply keeps_endpoint_bind; [apply authenticateSSO_loop_endpoint|intros err]. endpoint_call.
Qed.

Lemma Execute_authenticate_endpoint : keeps_endpoint (Execute_authenticate pkg).
Proof.
  unfold Execute_authenticate.
  apply keeps_endpoint_bind; [endpoint_call|intros cmd].
  apply keeps_endpoint_bind; [|intros [e|]; endpoint_call].
  destruct (SSO cmd || negb (String.eqb (SSOPasscode cmd) "")).
  - destruct (SSO cmd && negb (String.eqb (SSOPasscode cmd) "")); [endpoint_call|].
    apply keeps_endpoint_try, authenticateSSO_endpoint.
  - apply keeps_endpoint_try, authenticate_endpoint.
Qed.

Lemma showStatus_endpoint : keeps_endpoint showStatus.
Proof. unfold showStatus, displayNotLoggedIn, displayNotTargetted. repeat endpoint_step. Qed.

Lemma promptChosenOrg_endpoint orgs : keeps_endpoint (promptChosenOrg orgs).
Proof. unfold promptChosenOrg. repeat endpoint_step. Qed.

Lemma Execute_organization_endpoint : keeps_endpoint Execute_organization.
Proof.
  unfold Execute_organization.
  apply keeps_endpoint_bind; [endpoint_call|intros cmd].
  destruct (negb (String.eqb (Organization cmd) "")).
  - repeat endpoint_step.
  - apply keeps_endpoint_bind; [endpoint_call|intros answer]. cbv zeta.
    apply keeps_endpoint_bind; [endpoint_call|intros _].
    apply keeps_endpoint_bind; [endpoint_call|intros _].
    destruct answer.1.1 as [|org [|org' orgs]]; [endpoint_call|endpoint_call|].
    apply keeps_endpoint_bind; [apply promptChosenOrg_endpoint|intros chosenOrg].
    destruct (negb _); endpoint_call.
Qed.

Lemma checkMinCLIVersion_endpoint : keeps_endpoint (checkMinCLIVersion pkg).
Proof. unfold checkMinCLIVersion. repeat endpoint_step. Qed.

Lemma Execute_deferred_endpoint : keeps_endpoint (Execute_deferred pkg).
Proof.
  unfold Execute_deferred.
  apply keeps_endpoint_bind; [endpoint_call|intros grantType].
  destruct (String.eqb grantType "client_credentials"); [endpoint_call|].
  apply keeps_endpoint_bind; [apply Execute_authenticate_endpoint|intros _].
  apply keeps_endpoint_bind; [apply Execute_organization_endpoint|intros _].
  apply checkMinCLIVersion_endpoint.
Qed.

Lemma Execute_target_endpoint : keeps_endpoint (Execute_target pkg).
Proof. apply keeps_endpoint_keeps, Execute_target_keeps. Qed.

Lemma reloadActor_endpoint : keeps_endpoint reloadActor.
Proof. unfold reloadActor. repeat endpoint_step. Qed.

End KeepsEndpoint.
(** The endpoint of the receiver, when [Execute] returns, is the one that
    lines 122-137 chose. *)
Lemma Execute_endpoint_kept (pkg : Packages) args cmd h :
  command.ExperimentalLogin (Config cmd) h = true ->
  APIEndpoint (receiver (Execute pkg args cmd h)) = chosenEndpoint cmd h.
Proof.
  intros Hexp. unfold chosenEndpoint, Execute. rewrite bind_ask_eq, Hexp. cbn [negb].
  unfold ui_DisplayWarning. rewrite bind_emit_eq, receiver_prepend.
  match goal with |- context [bind Execute_endpoint ?k cmd ?hh] => set (rest := k) end.
  assert (Hk : forall a, keeps_endpoint (rest a)).
  { intros a. unfold rest. apply keeps_endpoint_bind; [endpoint_call|intros _].
    apply keeps_endpoint_bind; [apply Execute_target_endpoint|intros _].
    apply keeps_endpoint_bind; [apply reloadActor_endpoint|intros _].
    apply keeps_endpoint_defer;
      [apply showStatus_endpoint|apply Execute_deferred_endpoint]. }
  clearbody rest. unfold bind.
  destruct (Execute_endpoint cmd _) as [[[a|e|] c1] evse]; try reflexivity.
  specialize (Hk a c1 ((h ++ [UI_DisplayWarning
    "Using experimental login command, some behavior may be different"]) ++ evse)).
  destruct (rest a c1 _) as [[r c2] evs2]. exact Hk.
Qed.

Lemma showStatus_keeps : keeps_receiver showStatus.
Proof.
  intros cmd h. unfold showStatus, displayNotLoggedIn, displayNotTargetted.
  rewrite bind_getCmd_eq, !bind_ask_eq. cbv zeta.
  destruct (command.CurrentUserName (Config cmd) h) as [user [e|]]; cbn [fst snd].
  - rewrite orb_true_r. reflexivity.
  - destruct (String.eqb user ""); cbn [orb]; [reflexivity|].
    rewrite bind_ask_eq.
    destruct (String.eqb (command.TargetedOrganizationName (Config cmd) h) "");
      reflexivity.
Qed.

(** ** The status report *)

(** C3, as the code has it.  The status report is deferred once the client
    has been rebuilt (line 161).  A run in which [NewActor] returned no
    error ends with the calls of [showStatus], made on the receiver and
    after the calls that [Execute] returns with: they show one table, whose
    rows are the target, the user if any and the organization if any, as
    the configuration of the command gives them at that point, the target
    being the endpoint that lines 122-137 chose; no table is shown before.
    A run that stops earlier shows no table. *)
Theorem Execute_status_report (pkg : Packages) args cmd h :
  let r := Execute pkg args cmd h in
  if existsb isRebuilt (calls r) then
    exists before,
      calls r = before ++ calls (showStatus (receiver r) (h ++ before))
      /\ List.filter isStatusTable before = []
      /\ List.filter isStatusTable (calls r)
         = [UI_DisplayKeyValueTable "" (statusRows (receiver r) (h ++ before)) 3]
      /\ UI (receiver r) = UI cmd
      /\ Config (receiver r) = Config cmd
      /\ APIEndpoint (receiver r) = chosenEndpoint cmd h
  else List.filter isStatusTable (calls r) = [].
Proof.
  cbv zeta.
  destruct (command.ExperimentalLogin (Config cmd) h) eqn:Hexp;
    [|rewrite (Execute_gate_closed pkg args cmd h Hexp); reflexivity].
  pose proof (Execute_endpoint_kept pkg args cmd h Hexp) as Hendpoint.
  assert (Htarget : forall e, targetCall e = true -> isStatusTable e = false)
    by (intros e; destruct e; cbn; congruence).
  assert (Hdeferred : forall e, deferredCall e = true -> isStatusTable e = false)
    by (intros e; destruct e; cbn; congruence).
  destruct (Execute pkg args cmd h) as [[r cmd'] evs] eqn:HE.
  rewrite calls_run, receiver_run in *.
  destruct (Execute_inv pkg args cmd h r cmd' evs HE Hexp)
    as (pre & Hpre & [(Hnot & -> & _)
                     |(endpoint & actor & rd & cmdd & evsd & rs & evss
                       & Hreb & Hd & Hs & -> & ->)]).
  - rewrite Hnot. apply (filter_none _ _ _ Htarget Hpre).
  - rewrite existsb_app, Hreb. cbn [orb].
    pose proof (showStatus_keeps cmdd (h ++ pre ++ evsd)) as Hkeep.
    rewrite Hs, receiver_run in Hkeep. subst cmd'.
    pose proof (Execute_deferred_run pkg (set_Actor actor (set_APIEndpoint endpoint cmd))
                  (h ++ pre)) as Hrun.
    apply DeferredRun_calls in Hrun. rewrite Hd, calls_run in Hrun.
    pose proof (Execute_deferred_flags pkg (set_Actor actor (set_APIEndpoint endpoint cmd))
                  (h ++ pre)) as Hflags.
    rewrite Hd, receiver_run in Hflags.
    assert (Hbefore : List.filter isStatusTable (pre ++ evsd) = [])
      by (rewrite List.filter_app, (filter_none _ _ _ Htarget Hpre),
            (filter_none _ _ _ Hdeferred Hrun); reflexivity).
    exists (pre ++ evsd).
    rewrite Hs, calls_run.
    split; [apply app_assoc|]. split; [exact Hbefore|].
    split.
    { rewrite app_assoc, List.filter_app, Hbefore. cbn [app].
      pose proof (showStatus_table cmdd (h ++ pre ++ evsd)) as Htable.
      rewrite Hs, calls_run in Htable. exact Htable. }
    destruct Hflags as (_ & _ & _ & _ & _ & Hui & _ & _ & Hconfig).
    split; [exact Hui|]. split; [exact Hconfig|]. exact Hendpoint.
Qed.

(** [cf login -a api.example.com/ -u me -p pw1] for a locked account, the
    configuration holding the user me and the organization org-1: the run
    fails, and the one table it shows has the three rows. *)
Lemma Execute_status_report_witness :
  outcome (Execute Scenario.packages [] Scenario.lockedInSession [])
  = Fail (errors_New "Unable to authenticate.")
  /\ List.filter isStatusTable
       (calls (Execute Scenario.packages [] Scenario.lockedInSession []))
     = [UI_DisplayKeyValueTable ""
          [["API endpoint:"; "{{.APIEndpoint}} (API version: {{.APIVersion}})"];
           ["User:"; "me"];
           ["Org:"; "org-1"]] 3].
Proof.
  split; [vm_compute; reflexivity|].
  pose proof (Execute_status_report Scenario.packages [] Scenario.lockedInSession [])
    as Hreport.
  cbv zeta in Hreport.
  assert (Hreb : existsb isRebuilt
                   (calls (Execute Scenario.packages [] Scenario.lockedInSession []))
                 = true) by (vm_compute; reflexivity).
  rewrite Hreb in Hreport.
  destruct Hreport as (before & _ & _ & Htable & Hui & Hconfig & Hendpoint).
  rewrite Htable. unfold statusRows. rewrite Hui, Hconfig. reflexivity.
Defined.
(** ** The target

    Go's [net/url] on host names, with and without a scheme or a port. *)

Lemma append_empty_r s : s +:+ "" = s.
Proof.
  induction s as [|c s IH]; [reflexivity|]. rewrite append_String, IH. reflexivity.
Qed.

Lemma append_append s t u : (s +:+ t) +:+ u = s +:+ (t +:+ u).
Proof.
  induction s as [|c s IH]; [reflexivity|]. rewrite !append_String, IH. reflexivity.
Qed.

Lemma forallb_string_append p s t :
  NetURL.forallb_string p (s +:+ t)
  = NetURL.forallb_string p s && NetURL.forallb_string p t.
Proof.
  induction s as [|c s IH]; [reflexivity|].
  rewrite append_String. cbn [NetURL.forallb_string]. rewrite IH, andb_assoc. reflexivity.
Qed.

Lemma forallb_string_impl (p q : ascii -> bool) s :
  (forall c, p c = true -> q c = true) ->
  NetURL.forallb_string p s = true -> NetURL.forallb_string q s = true.
Proof.
  intros Hpq. induction s as [|c s IH]; [reflexivity|].
  cbn [NetURL.forallb_string]. intros [Hc Hs]%andb_prop.
  rewrite (Hpq c Hc), (IH Hs). reflexivity.
Qed.

Lemma hostByte_plain c : hostByte c = true -> NetURL.isPlain c = true.
Proof.
  unfold hostByte, NetURL.isPlain. cbn [existsb list_ascii_of_string].
  destruct (NetURL.isLetter c), (NetURL.isDigit c), (Ascii.eqb c "."),
    (Ascii.eqb c "-"); cbn; intros H; try reflexivity; discriminate H.
Qed.

(** A byte that is not of a host name is none of the bytes of one. *)
Lemma hostByte_not c d : hostByte d = false -> hostByte c = true -> Ascii.eqb c d = false.
Proof.
  intros Hd Hc. destruct (Ascii.eqb_spec c d) as [->|]; [congruence|reflexivity].
Qed.

Lemma schemeByte_letter c : schemeByte c = true -> NetURL.isLetter c = true.
Proof. unfold schemeByte, NetURL.isLetter. cbv zeta. intros ->. reflexivity. Qed.

Lemma schemeByte_plain c : schemeByte c = true -> NetURL.isPlain c = true.
Proof.
  intros H%schemeByte_letter. unfold NetURL.isPlain. rewrite H. reflexivity.
Qed.

Lemma schemeByte_toLower c : schemeByte c = true -> NetURL.toLower c = c.
Proof.
  unfold schemeByte, NetURL.toLower. cbv zeta. intros [H1 H2]%andb_prop.
  apply Nat.leb_le in H1.
  destruct (Nat.leb (nat_of_ascii c) 90) eqn:H3; [apply Nat.leb_le in H3; lia|].
  rewrite andb_false_r. reflexivity.
Qed.

Lemma map_toLower_scheme s :
  NetURL.forallb_string schemeByte s = true -> NetURL.map_string NetURL.toLower s = s.
Proof.
  induction s as [|c s IH]; [reflexivity|].
  cbn [NetURL.forallb_string NetURL.map_string]. intros [Hc Hs]%andb_prop.
  rewrite (schemeByte_toLower c Hc), (IH Hs). reflexivity.
Qed.

Lemma TrimRight_only_slashes n : TrimRight (slashes n) "/" = "".
Proof.
  induction n as [|n IH]; [reflexivity|]. cbn [slashes TrimRight]. rewrite IH. reflexivity.
Qed.

(** Slashes after a text that does not end in one are all removed. *)
Lemma TrimRight_append_slashes s n :
  lastByte s <> Some "/"%char -> TrimRight (s +:+ slashes n) "/" = s.
Proof.
  induction s as [|c s IH]; intros Hlast.
  - apply TrimRight_only_slashes.
  - rewrite append_String. cbn [TrimRight]. destruct s as [|d s].
    + rewrite append_empty_l, TrimRight_only_slashes.
      destruct (inCutset c "/") eqn:Hc; [|reflexivity].
      unfold inCutset in Hc. cbn in Hc. rewrite orb_false_r in Hc.
      apply Ascii.eqb_eq in Hc as ->. contradiction Hlast. reflexivity.
    + rewrite IH by exact Hlast. reflexivity.
Qed.

Lemma lastByte_append s c t : lastByte (s +:+ String c t) = lastByte (String c t).
Proof.
  induction s as [|d s IH]; [reflexivity|].
  rewrite append_String. cbn [lastByte].
  destruct (s +:+ String c t) eqn:Hs; [destruct s; discriminate Hs|]. exact IH.
Qed.

Lemma lastByte_forallb p s c :
  NetURL.forallb_string p s = true -> lastByte s = Some c -> p c = true.
Proof.
  induction s as [|d s IH]; [discriminate|].
  cbn [NetURL.forallb_string lastByte]. intros [Hd Hs]%andb_prop.
  destruct s as [|e s]; [intros [= <-]; exact Hd|]. exact (IH Hs).
Qed.

Lemma hostName_lastByte s :
  NetURL.forallb_string hostByte s = true -> lastByte s <> Some "/"%char.
Proof.
  intros Hs Hlast. pose proof (lastByte_forallb _ _ _ Hs Hlast) as H. discriminate H.
Qed.

Lemma getscheme_from_host rest seen rawurl :
  NetURL.forallb_string hostByte rest = true ->
  NetURL.getscheme_from seen rest rawurl = Some ("", rawurl).
Proof.
  revert seen. induction rest as [|c rest IH]; intros seen; [reflexivity|].
  cbn [NetURL.forallb_string NetURL.getscheme_from existsb list_ascii_of_string].
  intros [Hc Hrest]%andb_prop. unfold hostByte in Hc.
  destruct (NetURL.isLetter c); [apply IH, Hrest|].
  destruct (NetURL.isDigit c); cbn [orb] in *.
  - destruct seen; [reflexivity|apply IH, Hrest].
  - destruct (Ascii.eqb c "+"); cbn [orb];
      [destruct seen; [reflexivity|apply IH, Hrest]|].
    destruct (Ascii.eqb c "-"); cbn [orb];
      [destruct seen; [reflexivity|apply IH, Hrest]|].
    destruct (Ascii.eqb c "."); [|discriminate Hc].
    destruct seen; [reflexivity|apply IH, Hrest].
Qed.

Lemma getscheme_from_scheme scheme seen rest rawurl :
  NetURL.forallb_string schemeByte scheme = true ->
  seen +:+ scheme <> "" ->
  NetURL.getscheme_from seen (scheme +:+ String ":" rest) rawurl
  = Some (seen +:+ scheme, rest).
Proof.
  revert seen. induction scheme as [|c scheme IH]; intros seen Hs Hne.
  - rewrite append_empty_l. rewrite append_empty_r in *. cbn.
    destruct seen; [contradiction Hne; reflexivity|reflexivity].
  - cbn [NetURL.forallb_string] in Hs. apply andb_prop in Hs as [Hc Hs].
    rewrite append_String. cbn [NetURL.getscheme_from].
    rewrite (schemeByte_letter c Hc).
    rewrite IH; [|exact Hs|].
    + rewrite append_append. reflexivity.
    + rewrite append_append. cbn. destruct seen; discriminate.
Qed.

Lemma splitSlash_host s :
  NetURL.forallb_string hostByte s = true -> NetURL.splitSlash s = (s, "").
Proof.
  induction s as [|c s IH]; [reflexivity|].
  cbn [NetURL.forallb_string NetURL.splitSlash]. intros [Hc Hs]%andb_prop.
  rewrite (hostByte_not c "/" eq_refl Hc), (IH Hs). reflexivity.
Qed.

Lemma afterLastColon_host s :
  NetURL.forallb_string hostByte s = true -> NetURL.afterLastColon s = None.
Proof.
  induction s as [|c s IH]; [reflexivity|].
  cbn [NetURL.forallb_string NetURL.afterLastColon]. intros [Hc Hs]%andb_prop.
  rewrite (IH Hs), (hostByte_not c ":" eq_refl Hc). reflexivity.
Qed.

Lemma colonInFirstSegment_host s :
  NetURL.forallb_string hostByte s = true -> NetURL.colonInFirstSegment s = false.
Proof.
  intros Hs. unfold NetURL.colonInFirstSegment. rewrite (splitSlash_host s Hs).
  cbn [fst]. apply negb_false_iff. revert Hs. apply forallb_string_impl.
  intros c Hc. rewrite (hostByte_not c ":" eq_refl Hc). reflexivity.
Qed.

Lemma substring_all s : String.substring 0 (String.length s) s = s.
Proof.
  induction s as [|c s IH]; [reflexivity|]. cbn. rewrite IH. reflexivity.
Qed.

Lemma hostName_inv s :
  hostName s = true ->
  exists c rest, s = String c rest /\ hostByte c = true
                 /\ NetURL.forallb_string hostByte s = true.
Proof.
  unfold hostName. intros [Hne Hs]%andb_prop. destruct s as [|c rest]; [discriminate|].
  exists c, rest. repeat split; [|exact Hs].
  cbn [NetURL.forallb_string] in Hs. apply andb_prop in Hs as [Hc _]. exact Hc.
Qed.

(** [url.Parse] reads a host name as a path, without a scheme. *)
Lemma Parse_host host :
  hostName host = true ->
  NetURL.Parse host
  = Some {| url.Scheme := ""; url.Opaque := ""; url.Host := ""; url.Path := host;
            url.RawPath := ""; url.ForceQuery := false; url.RawQuery := "";
            url.Fragment := "" |}.
Proof.
  intros (c & rest & -> & Hc & Hs)%hostName_inv. unfold NetURL.Parse.
  rewrite (forallb_string_impl _ _ _ hostByte_plain Hs). cbn [negb].
  unfold NetURL.getscheme. rewrite (getscheme_from_host _ _ _ Hs).
  cbn [NetURL.map_string]. rewrite (colonInFirstSegment_host _ Hs).
  unfold NetURL.hasPrefix. cbn [String.prefix].
  cbn [String.eqb negb andb orb].
  destruct (ascii_dec "/" c) as [<-|_]; [discriminate Hc|]. reflexivity.
Qed.

(** [url.Parse] reads [scheme://host] as the scheme and the host. *)
Lemma Parse_scheme_host scheme host :
  schemeName scheme = true -> hostName host = true ->
  NetURL.Parse (scheme +:+ "://" +:+ host)
  = Some {| url.Scheme := scheme; url.Opaque := ""; url.Host := host; url.Path := "";
            url.RawPath := ""; url.ForceQuery := false; url.RawQuery := "";
            url.Fragment := "" |}.
Proof.
  unfold schemeName. intros [Hne Hscheme]%andb_prop (c & rest & -> & Hc & Hs)%hostName_inv.
  unfold NetURL.Parse.
  rewrite !forallb_string_append, (forallb_string_impl _ _ _ schemeByte_plain Hscheme),
    (forallb_string_impl _ _ _ hostByte_plain Hs).
  cbn [NetURL.forallb_string andb negb].
  replace (NetURL.isPlain ":" && (NetURL.isPlain "/" && (NetURL.isPlain "/" && true)))
    with true by reflexivity.
  cbn [negb]. unfold NetURL.getscheme.
  change (scheme +:+ "://" +:+ String c rest)
    with (scheme +:+ String ":" ("//" +:+ String c rest)) at 1.
  rewrite getscheme_from_scheme; [|exact Hscheme|destruct scheme; discriminate].
  rewrite append_empty_l, (map_toLower_scheme _ Hscheme).
  unfold NetURL.hasPrefix.
  destruct scheme as [|d scheme]; [discriminate|].
  change ("//" +:+ String c rest) with (String "/" (String "/" (String c rest))).
  cbn -[NetURL.splitSlash NetURL.parseHost].
  rewrite substring_all, (splitSlash_host _ Hs).
  unfold NetURL.parseHost. rewrite (afterLastColon_host _ Hs). reflexivity.
Qed.

Lemma String_host scheme host :
  scheme <> "" -> host <> "" ->
  NetURL.String_ {| url.Scheme := scheme; url.Opaque := ""; url.Host := host;
                    url.Path := ""; url.RawPath := ""; url.ForceQuery := false;
                    url.RawQuery := ""; url.Fragment := "" |}
  = scheme +:+ "://" +:+ host.
Proof.
  intros Hscheme Hhost. unfold NetURL.String_, NetURL.nonEmpty. cbn [url.Scheme url.Opaque
    url.Host url.Path url.ForceQuery url.RawQuery url.Fragment].
  destruct scheme as [|c scheme]; [contradiction Hscheme; reflexivity|].
  destruct host as [|d host]; [contradiction Hhost; reflexivity|].
  cbn [String.eqb negb orb andb]. rewrite andb_false_r.
  cbn [String.eqb negb orb andb]. rewrite append_empty_r, !append_append. reflexivity.
Qed.

Lemma String_path host :
  host <> "" ->
  NetURL.String_ {| url.Scheme := "https"; url.Opaque := ""; url.Host := "";
                    url.Path := host; url.RawPath := ""; url.ForceQuery := false;
                    url.RawQuery := ""; url.Fragment := "" |}
  = "https://" +:+ host.
Proof.
  intros Hhost. unfold NetURL.String_, NetURL.nonEmpty. cbn [url.Scheme url.Opaque
    url.Host url.Path url.ForceQuery url.RawQuery url.Fragment].
  destruct host as [|d host]; [contradiction Hhost; reflexivity|].
  cbn [String.eqb negb orb andb]. rewrite andb_false_r.
  cbn [String.eqb negb orb andb]. reflexivity.
Qed.

(** The target of a host name, whatever slashes follow it. *)
Lemma normalizedEndpoint_host host n :
  hostName host = true ->
  option_map NetURL.String_ (normalizedEndpoint Scenario.packages (host +:+ slashes n))
  = Some ("https://" +:+ host).
Proof.
  intros Hhost. pose proof Hhost as (c & rest & E & Hc & Hs)%hostName_inv.
  unfold normalizedEndpoint. cbv zeta.
  change (url_Parse Scenario.packages) with NetURL.Parse.
  rewrite (TrimRight_append_slashes _ _ (hostName_lastByte _ Hs)), (Parse_host _ Hhost).
  cbn [url.Scheme String.eqb option_map]. unfold url.withScheme.
  cbn [url.Opaque url.Host url.Path url.RawPath url.ForceQuery url.RawQuery url.Fragment].
  rewrite String_path; [reflexivity|]. subst host. discriminate.
Qed.

(** The target of [scheme://host], whatever slashes follow it. *)
Lemma normalizedEndpoint_scheme scheme host n :
  schemeName scheme = true -> hostName host = true ->
  option_map NetURL.String_ (normalizedEndpoint Scenario.packages (scheme +:+ "://" +:+ host +:+ slashes n))
  = Some (scheme +:+ "://" +:+ host).
Proof.
  intros Hscheme Hhost. pose proof Hhost as (c & rest & E & Hc & Hs)%hostName_inv.
  unfold normalizedEndpoint. cbv zeta.
  change (url_Parse Scenario.packages) with NetURL.Parse.
  replace (scheme +:+ "://" +:+ host +:+ slashes n)
    with ((scheme +:+ "://" +:+ host) +:+ slashes n) by (rewrite !append_append; reflexivity).
  rewrite TrimRight_append_slashes, (Parse_scheme_host _ _ Hscheme Hhost).
  - cbn [url.Scheme]. unfold schemeName in Hscheme.
    destruct scheme as [|d scheme]; [discriminate|]. cbn [String.eqb option_map].
    rewrite String_host; [reflexivity|discriminate|subst host; discriminate].
  - subst host.
    change (scheme +:+ "://" +:+ String c rest)
      with (scheme +:+ String ":" ("//" +:+ String c rest)).
    rewrite lastByte_append.
    change (String ":" ("//" +:+ String c rest)) with (":/" +:+ String "/" (String c rest)).
    rewrite lastByte_append.
    change (String "/" (String c rest)) with ("/" +:+ String c rest).
    rewrite lastByte_append. apply hostName_lastByte, Hs.
Qed.
Lemma isDigit_plain c : NetURL.isDigit c = true -> NetURL.isPlain c = true.
Proof.
  intros H. unfold NetURL.isPlain. rewrite H, orb_true_r. reflexivity.
Qed.

(** [getscheme] on a host and a port: the host is read as the scheme. *)
Lemma getscheme_from_port host seen port rawurl :
  NetURL.forallb_string hostByte host = true ->
  seen <> "" ->
  NetURL.getscheme_from seen (host +:+ String ":" port) rawurl
  = Some (seen +:+ host, port).
Proof.
  revert seen. induction host as [|c host IH]; intros seen Hhost Hseen.
  - rewrite append_empty_l, append_empty_r. cbn.
    destruct seen; [contradiction Hseen; reflexivity|reflexivity].
  - cbn [NetURL.forallb_string] in Hhost. apply andb_prop in Hhost as [Hc Hhost].
    rewrite append_String.
    assert (Hnext : NetURL.getscheme_from (seen +:+ String c "") (host +:+ String ":" port)
                      rawurl = Some (seen +:+ String c host, port)).
    { rewrite IH; [|exact Hhost|destruct seen; discriminate].
      rewrite append_append. reflexivity. }
    cbn [NetURL.getscheme_from existsb list_ascii_of_string].
    unfold hostByte in Hc.
    destruct (NetURL.isLetter c); [exact Hnext|].
    destruct (NetURL.isDigit c); cbn [orb] in *.
    + destruct seen; [contradiction Hseen; reflexivity|exact Hnext].
    + destruct (Ascii.eqb c "+"); cbn [orb];
        [destruct seen; [contradiction Hseen; reflexivity|exact Hnext]|].
      destruct (Ascii.eqb c "-"); cbn [orb];
        [destruct seen; [contradiction Hseen; reflexivity|exact Hnext]|].
      destruct (Ascii.eqb c "."); [|discriminate Hc].
      destruct seen; [contradiction Hseen; reflexivity|exact Hnext].
Qed.

Lemma portNumber_inv port :
  portNumber port = true ->
  exists d rest, port = String d rest /\ NetURL.isDigit d = true
                 /\ NetURL.forallb_string NetURL.isDigit port = true.
Proof.
  unfold portNumber. intros [Hne Hs]%andb_prop. destruct port as [|d rest]; [discriminate|].
  exists d, rest. repeat split; [|exact Hs].
  cbn [NetURL.forallb_string] in Hs. apply andb_prop in Hs as [Hd _]. exact Hd.
Qed.

(** [url.Parse] reads [host:port], the host starting with a letter, as the
    scheme [host], in small letters, and the opaque text [port]. *)
Lemma Parse_host_port host port :
  hostName host = true -> startsWithLetter host = true -> portNumber port = true ->
  NetURL.Parse (host +:+ ":" +:+ port)
  = Some {| url.Scheme := NetURL.map_string NetURL.toLower host; url.Opaque := port;
            url.Host := ""; url.Path := ""; url.RawPath := ""; url.ForceQuery := false;
            url.RawQuery := ""; url.Fragment := "" |}.
Proof.
  intros (c & rest & -> & Hc & Hs)%hostName_inv Hletter
         (d & digits & -> & Hd & Hport)%portNumber_inv.
  cbn [startsWithLetter] in Hletter. unfold NetURL.Parse.
  rewrite !forallb_string_append, (forallb_string_impl _ _ _ hostByte_plain Hs),
    (forallb_string_impl _ _ _ isDigit_plain Hport).
  cbn [NetURL.forallb_string andb negb].
  replace (NetURL.isPlain ":" && true) with true by reflexivity.
  cbn [negb]. unfold NetURL.getscheme.
  change (String c rest +:+ ":" +:+ String d digits)
    with (String c (rest +:+ String ":" (String d digits))) at 1.
  cbn [NetURL.getscheme_from]. rewrite Hletter, append_empty_l.
  cbn [NetURL.forallb_string] in Hs. apply andb_prop in Hs as [_ Hrest].
  rewrite (getscheme_from_port rest _ _ _ Hrest) by discriminate.
  rewrite append_String, append_empty_l. cbn [NetURL.map_string].
  unfold NetURL.hasPrefix. cbn [String.prefix String.eqb negb andb].
  destruct (ascii_dec "/" d) as [<-|_]; [discriminate Hd|]. reflexivity.
Qed.

(** The target of [host:port]: no scheme is added. *)
Lemma normalizedEndpoint_host_port host port n :
  hostName host = true -> startsWithLetter host = true -> portNumber port = true ->
  option_map NetURL.String_
    (normalizedEndpoint Scenario.packages (host +:+ ":" +:+ port +:+ slashes n))
  = Some (NetURL.map_string NetURL.toLower host +:+ ":" +:+ port).
Proof.
  intros Hhost Hletter Hport.
  pose proof Hport as (d & digits & E & Hd & Hdigits)%portNumber_inv.
  unfold normalizedEndpoint. cbv zeta.
  change (url_Parse Scenario.packages) with NetURL.Parse.
  replace (host +:+ ":" +:+ port +:+ slashes n)
    with ((host +:+ ":" +:+ port) +:+ slashes n) by (rewrite !append_append; reflexivity).
  rewrite TrimRight_append_slashes, (Parse_host_port _ _ Hhost Hletter Hport).
  - cbn [url.Scheme]. destruct host as [|c host]; [discriminate|].
    cbn [NetURL.map_string String.eqb option_map].
    unfold NetURL.String_, NetURL.nonEmpty.
    cbn [url.Scheme url.Opaque url.Host url.Path url.ForceQuery url.RawQuery url.Fragment].
    subst port. cbn [String.eqb negb orb]. rewrite !append_append. reflexivity.
  - subst port.
    change (host +:+ ":" +:+ String d digits) with (host +:+ String ":" (String d digits)).
    rewrite lastByte_append.
    change (String ":" (String d digits)) with (":" +:+ String d digits).
    rewrite lastByte_append. intros Hlast.
    pose proof (lastByte_forallb _ _ _ Hdigits Hlast) as H. discriminate H.
Qed.

(** The target that [Execute] sets is the normalized form of the endpoint
    that lines 122-137 chose. *)
Lemma Execute_target_settings (pkg : Packages) args cmd h settings warnings err :
  In (Actor_SetTarget settings warnings err) (calls (Execute pkg args cmd h)) ->
  exists endpoint,
    normalizedEndpoint pkg (chosenEndpoint cmd h) = Some endpoint
    /\ v3action.URL settings = URL_String pkg endpoint.
Proof.
  unfold chosenEndpoint, Execute. rewrite bind_ask_eq.
  destruct (command.ExperimentalLogin (Config cmd) h); cbn [negb]; [|intros []].
  unfold ui_DisplayWarning. rewrite bind_emit_eq, bind_eq.
  match goal with |- context [Execute_endpoint cmd ?hh] =>
    pose proof (Execute_endpoint_no_target cmd hh) as Hea;
    destruct (Execute_endpoint cmd hh) as [[re c] evse]
  end.
  rewrite calls_run in Hea. rewrite receiver_run.
  assert (Hnone : List.filter isSetTarget evse = []).
  { apply (filter_none (fun e => negb (isSetTarget e) && negb (isNewActor e)));
      [|exact Hea].
    intros e He. destruct (isSetTarget e); [discriminate|reflexivity]. }
  assert (Hin : ~ In (Actor_SetTarget settings warnings err) evse).
  { intros Hin. apply (filter_In_nil _ _ _ Hnone Hin). reflexivity. }
  destruct re as [[]|e|]; cbv iota;
    [|rewrite calls_prepend, calls_run; cbn [app];
      intros [Hw|Hev]; [discriminate|destruct (Hin Hev)]..].
  unfold ui_DisplayNewline. rewrite bind_emit_eq, bind_eq, Execute_target_eq.
  destruct (normalizedEndpoint pkg (APIEndpoint c)) as [u|].
  2:{ rewrite !calls_prepend, calls_run. cbn [app].
      intros [Hw|Hev]; [discriminate|].
      apply in_app_or in Hev as [Hev|[Hev|[]]]; [destruct (Hin Hev)|discriminate]. }
  cbv zeta.
  match goal with |- context [SetTarget (Actor c) ?hh ?s] =>
    destruct (SetTarget (Actor c) hh s) as [warnings' err'] end.
  cbn [fst snd].
  destruct err' as [e|]; cbv iota.
  - rewrite !calls_prepend, calls_run. cbn [app].
    intros [Hw|Hev]; [discriminate|].
    apply in_app_or in Hev as [Hev|[Hev|[Hev|[]]]];
      [destruct (Hin Hev)|discriminate|].
    injection Hev as <- <- <-. exists u. split; reflexivity.
  - match goal with |- context [bind reloadActor ?k c ?hh] =>
      pose proof (Execute_rest_no_target pkg c hh) as Hrest;
      change (bind reloadActor k)
        with (reloadActor;;; defer showStatus (Execute_deferred pkg))%cmd;
      set (rest := (reloadActor;;; defer showStatus (Execute_deferred pkg))%cmd c hh) in *
    end.
    assert (Hrnone : List.filter isSetTarget (calls rest) = []).
    { apply (filter_none (fun e => negb (isSetTarget e))); [|exact Hrest].
      intros e He. destruct (isSetTarget e); [discriminate|reflexivity]. }
    rewrite !calls_prepend. cbn [app].
    intros [Hw|Hev]; [discriminate|].
    apply in_app_or in Hev as [Hev|[Hev|[Hev|Hev]]];
      [destruct (Hin Hev)|discriminate| |].
    + injection Hev as <- <- <-. exists u. split; reflexivity.
    + destruct (filter_In_nil _ _ _ Hrnone Hev eq_refl).
Qed.



(** ** The credential collector *)

Lemma firstTextAnswer_app evs evs' :
  firstTextAnswer (evs ++ evs')
  = match firstTextAnswer evs with
    | Some answer => Some answer
    | None => firstTextAnswer evs'
    end.
Proof.
  induction evs as [|ev evs IH]; [reflexivity|].
  destruct ev; cbn [app firstTextAnswer]; try exact IH. reflexivity.
Qed.

(** The user name that lines 220-231 put into the credentials: the flag
    when the prompt is a text prompt and the flag is given, and else the
    answer to the prompt, which is the one text prompt of these lines. *)
Lemma authenticate_username_resolved prompts credentials cmd h prompt :
  lookupPrompt "username" prompts = Some prompt ->
  let r := authenticate_username prompts credentials cmd h in
  match outcome r with
  | Ok credentials' =>
      if coreconfig.isText prompt && negb (String.eqb (Username cmd) "") then
        credentials' !! "username" = Some (Username cmd)
      else
        exists answer,
          firstTextAnswer (calls r) = Some answer
          /\ credentials' !! "username" = Some answer
  | _ => True
  end.
Proof.
  intros Hlookup. cbv zeta. unfold authenticate_username, indexPrompt.
  rewrite bind_getCmd_eq, Hlookup. cbn [default from_option id].
  destruct (coreconfig.isText prompt && negb (String.eqb (Username cmd) "")).
  - cbn. apply lookup_insert_eq.
  - rewrite bind_eq. unfold ui_DisplayTextPrompt.
    destruct (command.DisplayTextPrompt _ _ _) as [answer [e|]]; [exact I|].
    unfold ui_DisplayNewline. rewrite bind_emit_eq, !outcome_prepend, !calls_prepend.
    cbn. exists answer. split; [reflexivity|apply lookup_insert_eq].
Qed.

(** The loop over the prompts writes under the keys of the prompts only. *)
Lemma authenticate_range_kept entries credentials passwordKeys cmd h key :
  ~ In key (map fst entries) ->
  match outcome (authenticate_range entries credentials passwordKeys cmd h) with
  | Ok ranged => ranged.1 !! key = credentials !! key
  | _ => True
  end.
Proof.
  revert credentials passwordKeys cmd h.
  induction entries as [|[k prompt] rest IH]; intros credentials passwordKeys cmd h Hkey.
  - reflexivity.
  - cbn [map fst] in Hkey.
    assert (Hne : k <> key) by (intros ->; apply Hkey; left; reflexivity).
    assert (Hrest : ~ In key (map fst rest)) by (intros Hin; apply Hkey; right; exact Hin).
    cbn [authenticate_range].
    destruct (coreconfig.isPassword prompt).
    + destruct (String.eqb k "passcode" || String.eqb k "password"); apply IH, Hrest.
    + destruct (String.eqb k "username"); [apply IH, Hrest|].
      rewrite bind_eq. unfold ui_DisplayTextPrompt.
      destruct (command.DisplayTextPrompt _ _ _) as [answer [e|]]; [exact I|].
      unfold ui_DisplayNewline. rewrite bind_emit_eq, !outcome_prepend.
      match goal with |- context [authenticate_range rest ?c ?ks ?cm ?hh] =>
        specialize (IH c ks cm hh Hrest) end.
      destruct (outcome _); try exact I.
      rewrite IH. apply lookup_insert_ne. exact Hne.
Qed.

(** A prompt that is not secret and not the user name is asked for by the
    loop over the prompts, and its answer is put under its key. *)
Lemma authenticate_range_answer entries credentials passwordKeys cmd h key prompt :
  NoDup (map fst entries) ->
  In (key, prompt) entries ->
  isTextEntry (key, prompt) = true ->
  let r := authenticate_range entries credentials passwordKeys cmd h in
  match outcome r with
  | Ok ranged =>
      exists answer,
        In (UI_DisplayTextPrompt (coreconfig.DisplayName prompt) answer None) (calls r)
        /\ ranged.1 !! key = Some answer
  | _ => True
  end.
Proof.
  intros Hnodup Hin Htext. cbv zeta.
  revert credentials passwordKeys cmd h.
  induction entries as [|[k p] rest IH]; intros credentials passwordKeys cmd h;
    [destruct Hin|].
  cbn [map fst] in Hnodup. inversion Hnodup as [|? ? Hk Hrest]; subst.
  assert (Hk' : ~ In k (map fst rest)) by (intros H; apply Hk, list_elem_of_In, H).
  cbn [authenticate_range].
  destruct Hin as [[= -> ->]|Hin].
  - unfold isTextEntry in Htext. cbn [fst snd] in Htext.
    apply andb_prop in Htext as [Hsecret Hname].
    apply negb_true_iff in Hsecret. apply negb_true_iff in Hname.
    rewrite Hsecret, Hname.
    rewrite bind_eq. unfold ui_DisplayTextPrompt.
    destruct (command.DisplayTextPrompt _ _ _) as [answer [e|]]; [exact I|].
    unfold ui_DisplayNewline. rewrite bind_emit_eq, !outcome_prepend, !calls_prepend.
    match goal with |- context [authenticate_range rest ?c ?ks ?cm ?hh] =>
      pose proof (authenticate_range_kept rest c ks cm hh key Hk') as Hkept end.
    destruct (outcome _); try exact I.
    exists answer. split; [left; reflexivity|].
    rewrite Hkept. apply lookup_insert_eq.
  - specialize (IH Hrest Hin).
    destruct (coreconfig.isPassword p).
    + destruct (String.eqb k "passcode" || String.eqb k "password"); apply IH.
    + destruct (String.eqb k "username"); [apply IH|].
      rewrite bind_eq. unfold ui_DisplayTextPrompt.
      destruct (command.DisplayTextPrompt _ _ _) as [answer [e|]]; [exact I|].
      unfold ui_DisplayNewline. rewrite bind_emit_eq, !outcome_prepend, !calls_prepend.
      match goal with |- context [authenticate_range rest ?c ?ks ?cm ?hh] =>
        specialize (IH c ks cm hh) end.
      destruct (outcome _); try exact I.
      destruct IH as (answer' & Hev & Hvalue). exists answer'.
      split; [|exact Hvalue]. right. right. exact Hev.
Qed.

Lemma lookupPrompt_In key prompts prompt :
  lookupPrompt key prompts = Some prompt -> In (key, prompt) prompts.
Proof.
  induction prompts as [|[k p] rest IH]; [discriminate|].
  cbn [lookupPrompt]. destruct (String.eqb_spec k key) as [->|Hne].
  - intros [= ->]. left. reflexivity.
  - intros H. right. exact (IH H).
Qed.

Lemma lookupPrompt_entry key prompts prompt :
  NoDup (map fst prompts) -> In (key, prompt) prompts ->
  lookupPrompt key prompts = Some prompt.
Proof.
  intros Hnodup Hin. pose proof (indexPrompt_In prompts key prompt Hnodup Hin) as Hindex.
  unfold indexPrompt in Hindex.
  destruct (lookupPrompt key prompts) as [p|] eqn:Hlookup;
    [cbn in Hindex; congruence|].
  exfalso. clear Hindex Hnodup.
  induction prompts as [|[k p] rest IH]; [destruct Hin|].
  cbn [lookupPrompt] in Hlookup. destruct (String.eqb_spec k key) as [->|Hne];
    [discriminate|].
  destruct Hin as [[= -> ->]|Hin]; [contradiction|exact (IH Hin Hlookup)].
Qed.

(** The user name that the attempts submit, when its prompt is not a
    secret one. *)
Lemma authenticate_username_submitted (pkg : Packages) cmd h prompt :
  let prompts := GetLoginPrompts (Actor cmd) h in
  NoDup (map fst prompts) ->
  lookupPrompt "username" prompts = Some prompt ->
  coreconfig.isPassword prompt = false ->
  let r := authenticate pkg cmd h in
  Forall (fun ev =>
            authenticateCredentials ev !! "username"
            = if coreconfig.isText prompt && negb (String.eqb (Username cmd) "")
              then Some (Username cmd) else firstTextAnswer (calls r))
    (attempts (calls r)).
Proof.
  intros prompts Hnodup Hlookup Hsecret. cbv zeta.
  destruct (authenticate pkg cmd h) as [[r cmd'] evs] eqn:Hrun.
  apply authenticate_inv in Hrun as (h1 & ru & evs1 & Hu & Hrun).
  fold prompts in Hu, Hrun.
  pose proof (authenticate_username_calls prompts ∅ cmd h1) as Hu2.
  rewrite Hu, calls_run in Hu2. apply attempts_collector in Hu2. rewrite calls_run.
  pose proof (authenticate_username_resolved prompts ∅ cmd h1 prompt Hlookup) as Hname.
  cbv zeta in Hname. rewrite Hu, outcome_run, calls_run in Hname.
  destruct ru as [credentials|e|];
    [|destruct Hrun as (_ & _ & ->);
      change (attempts (?e :: ?l)) with (attempts l); rewrite Hu2; constructor..].
  destruct Hrun as (h2 & rg & evs2 & Hg & Hrun).
  pose proof (authenticate_range_calls prompts credentials [] cmd h2) as Hg2.
  rewrite Hg, calls_run in Hg2. apply attempts_collector in Hg2.
  pose proof (authenticate_range_keys prompts credentials [] cmd h2) as Hkeys.
  pose proof (authenticate_range_username prompts credentials [] cmd h2) as Hkept.
  rewrite Hg, outcome_run in Hkeys, Hkept.
  destruct rg as [ranged|e|];
    [|destruct Hrun as (_ & _ & ->);
      change (attempts (?e :: ?l)) with (attempts l);
      rewrite attempts_app, Hu2, Hg2; constructor..].
  destruct Hrun as (h3 & rl & evs3 & Hl & _ & ->). cbn [app] in Hkeys.
  change (attempts (?e :: ?l)) with (attempts l).
  rewrite !attempts_app, Hu2, Hg2. cbn [app].
  assert (Hvalue : ranged.1 !! "username"
                   = if coreconfig.isText prompt && negb (String.eqb (Username cmd) "")
                     then Some (Username cmd)
                     else firstTextAnswer
                            (Actor_GetLoginPrompts prompts :: evs1 ++ evs2 ++ evs3)).
  { rewrite Hkept.
    destruct (coreconfig.isText prompt && negb (String.eqb (Username cmd) ""));
      [exact Hname|].
    destruct Hname as (answer & Hfirst & ->).
    cbn [firstTextAnswer]. rewrite firstTextAnswer_app, Hfirst. reflexivity. }
  rewrite <- Hvalue.
  pose proof (authenticate_loop_key pkg prompts ranged.2 "username" maxLoginTries None
                ranged.1 cmd h3) as Hloop.
  rewrite Hl, calls_run in Hloop. apply Hloop; [discriminate|].
  rewrite Hkeys. exact (otherSecretKeys_text prompts "username" prompt Hnodup Hlookup Hsecret).
Qed.

(** A secret that is not the password is asked for in every attempt, and
    the answer of the attempt is the one submitted. *)
Lemma authenticate_secret_submitted (pkg : Packages) cmd h key :
  let prompts := GetLoginPrompts (Actor cmd) h in
  NoDup (map fst prompts) ->
  In key (otherSecretKeys prompts) ->
  Forall (secretAnswered prompts key) (rounds (calls (authenticate pkg cmd h))).
Proof.
  intros prompts Hnodup Hin. unfold rounds.
  destruct (authenticate pkg cmd h) as [[r cmd'] evs] eqn:Hrun.
  apply authenticate_inv in Hrun as (h1 & ru & evs1 & Hu & Hrun).
  fold prompts in Hu, Hrun.
  pose proof (authenticate_username_calls prompts ∅ cmd h1) as Hu2.
  rewrite Hu, calls_run in Hu2. apply attempts_collector in Hu2. rewrite calls_run.
  destruct ru as [credentials|e|];
    [|destruct Hrun as (_ & _ & ->); rewrite rounds_from_none;
      [constructor|change (attempts (?e :: ?l)) with (attempts l); exact Hu2]..].
  destruct Hrun as (h2 & rg & evs2 & Hg & Hrun).
  pose proof (authenticate_range_calls prompts credentials [] cmd h2) as Hg2.
  rewrite Hg, calls_run in Hg2. apply attempts_collector in Hg2.
  pose proof (authenticate_range_keys prompts credentials [] cmd h2) as Hkeys.
  rewrite Hg, outcome_run in Hkeys.
  destruct rg as [ranged|e|];
    [|destruct Hrun as (_ & _ & ->); rewrite rounds_from_none;
      [constructor|change (attempts (?e :: ?l)) with (attempts l);
                   rewrite attempts_app, Hu2, Hg2; reflexivity]..].
  destruct Hrun as (h3 & rl & evs3 & Hl & _ & ->). cbn [app] in Hkeys.
  change (Actor_GetLoginPrompts prompts :: evs1 ++ evs2 ++ evs3)
    with ((Actor_GetLoginPrompts prompts :: evs1) ++ evs2 ++ evs3).
  rewrite app_assoc, rounds_from_app
    by (change (attempts ((?e :: ?l) ++ ?l')) with (attempts (l ++ l'));
        rewrite attempts_app, Hu2, Hg2; reflexivity).
  pose proof (authenticate_loop_answers pkg prompts ranged.2 key maxLoginTries None
                ranged.1 cmd h3
                ([] ++ (Actor_GetLoginPrompts prompts :: evs1) ++ evs2)) as Hloop.
  rewrite Hl, calls_run, Hkeys in Hloop.
  exact (Hloop (otherSecretKeys_NoDup prompts Hnodup) Hin).
Qed.

(** The answer to a prompt that is not secret and not the user name is
    what every attempt submits under the key of the prompt. *)
Lemma authenticate_text_submitted (pkg : Packages) cmd h key prompt :
  let prompts := GetLoginPrompts (Actor cmd) h in
  NoDup (map fst prompts) ->
  In (key, prompt) prompts ->
  isTextEntry (key, prompt) = true ->
  key <> "password" ->
  let r := authenticate pkg cmd h in
  attempts (calls r) = []
  \/ exists answer,
       In (UI_DisplayTextPrompt (coreconfig.DisplayName prompt) answer None) (calls r)
       /\ Forall (fun ev => authenticateCredentials ev !! key = Some answer)
            (attempts (calls r)).
Proof.
  intros prompts Hnodup Hin Htext Hkey. cbv zeta.
  destruct (authenticate pkg cmd h) as [[r cmd'] evs] eqn:Hrun.
  apply authenticate_inv in Hrun as (h1 & ru & evs1 & Hu & Hrun).
  fold prompts in Hu, Hrun.
  pose proof (authenticate_username_calls prompts ∅ cmd h1) as Hu2.
  rewrite Hu, calls_run in Hu2. apply attempts_collector in Hu2. rewrite calls_run.
  destruct ru as [credentials|e|];
    [|destruct Hrun as (_ & _ & ->); left;
      change (attempts (?e :: ?l)) with (attempts l); exact Hu2..].
  destruct Hrun as (h2 & rg & evs2 & Hg & Hrun).
  pose proof (authenticate_range_calls prompts credentials [] cmd h2) as Hg2.
  rewrite Hg, calls_run in Hg2. apply attempts_collector in Hg2.
  pose proof (authenticate_range_keys prompts credentials [] cmd h2) as Hkeys.
  pose proof (authenticate_range_answer prompts credentials [] cmd h2 key prompt
                Hnodup Hin Htext) as Hanswer.
  cbv zeta in Hanswer. rewrite Hg, outcome_run in Hkeys.
  rewrite Hg, outcome_run, calls_run in Hanswer.
  destruct rg as [ranged|e|];
    [|destruct Hrun as (_ & _ & ->); left;
      change (attempts (?e :: ?l)) with (attempts l);
      rewrite attempts_app, Hu2, Hg2; reflexivity..].
  destruct Hrun as (h3 & rl & evs3 & Hl & _ & ->). cbn [app] in Hkeys.
  destruct Hanswer as (answer & Hev & Hvalue).
  right. exists answer. split.
  { right. apply in_or_app. right. apply in_or_app. left. exact Hev. }
  change (attempts (?e :: ?l)) with (attempts l).
  rewrite !attempts_app, Hu2, Hg2. cbn [app]. rewrite <- Hvalue.
  pose proof (authenticate_loop_key pkg prompts ranged.2 key maxLoginTries None
                ranged.1 cmd h3) as Hloop.
  rewrite Hl, calls_run in Hloop. apply Hloop; [exact Hkey|].
  rewrite Hkeys.
  apply (otherSecretKeys_text prompts key prompt Hnodup
           (lookupPrompt_entry key prompts prompt Hnodup Hin)).
  unfold isTextEntry in Htext. cbn [fst snd] in Htext.
  apply andb_prop in Htext as [Hsecret _]. apply negb_true_iff in Hsecret. exact Hsecret.
Qed.


